(** * pylorawan: frame codec, MAC commands, key derivation and band tables

    A shallow embedding of the Python package [pylorawan] and the properties
    its specification states about it.  Each Python module is a Rocq module
    of the same name; a Python function that can raise returns a [result]. *)

From Stdlib Require Import ZArith List Lia Bool String Btauto.
From Stdlib Require Import Strings.Byte.
Import ListNotations.
Open Scope Z_scope.

(** ** Python values shared by every module *)

(** The exception classes the code raises or lets escape.  The first block
    are Python built-ins, the second the classes of [exceptions.py]. *)
Inductive exn : Set :=
  | TypeError | ValueError | KeyError | IndexError | NameError
  | OverflowError | StructError
  | LoRaError | ParseMessageError | MACCommandParseError
  | MACCommandCreateError | MHDRError | PHYPayloadError | MACPayloadError
  | JoinRequestError | JoinAcceptError | BandError | ChMaskCntlError
  | MICError.

Inductive result (A : Type) : Type :=
  | Ok (a : A)
  | Err (e : exn).
Arguments Ok {A} a.
Arguments Err {A} e.

Definition bind {A B : Type} (m : result A) (k : A -> result B) : result B :=
  match m with
  | Ok a => k a
  | Err e => Err e
  end.

Notation "x <- m ;; k" := (bind m (fun x => k))
  (at level 61, m at next level, right associativity).
Notation "' p <- m ;; k" := (bind m (fun p => k))
  (at level 61, p pattern, m at next level, right associativity).

Definition raises {A : Type} (m : result A) : Prop := exists e, m = Err e.

(** A Python [dict] with integer keys, in insertion order. *)
Definition dict (V : Type) : Type := list (Z * V).

Fixpoint dict_get {V : Type} (d : dict V) (k : Z) : option V :=
  match d with
  | [] => None
  | (k', v) :: rest => if k' =? k then Some v else dict_get rest k
  end.

(** [d[k]]: a missing key raises [KeyError]. *)
Definition dict_getitem {V : Type} (d : dict V) (k : Z) : result V :=
  match dict_get d k with
  | Some v => Ok v
  | None => Err KeyError
  end.

(** [k in d] *)
Definition dict_contains {V : Type} (d : dict V) (k : Z) : bool :=
  match dict_get d k with
  | Some _ => true
  | None => false
  end.

(** ** bands/interface.py and the band tables *)

Module bands.

(** [ChMaskCtrl] and its subclasses.  Every instance carries [index];
    only [RangeChMaskCtrl] adds [start] and [end]. *)
Inductive ChMaskCtrl : Set :=
  | RFUChMaskCtrl (index : Z)
  | RangeChMaskCtrl (index start end_ : Z)
  | On125kHzChMaskCtrl (index : Z)
  | Off125kHzChMaskCtrl (index : Z)
  | AllOnChMaskCtrl (index : Z).

(** [row[key]] on a [ChMaskCtrl] instance.  Neither [ChMaskCtrl], its
    subclasses nor [consts.RFU] define [__getitem__], so Python raises
    [TypeError] ("object is not subscriptable") whatever the key. *)
Definition ChMaskCtrl_getitem (row : ChMaskCtrl) (key : string)
  : result string :=
  match row with
  | RFUChMaskCtrl _ | RangeChMaskCtrl _ _ _ | On125kHzChMaskCtrl _
  | Off125kHzChMaskCtrl _ | AllOnChMaskCtrl _ => Err TypeError
  end.

(** What the subscript was written to read: the kind of a row. *)
Definition is_range (row : ChMaskCtrl) : bool :=
  match row with
  | RangeChMaskCtrl _ _ _ => true
  | _ => false
  end.

(** [DataRate]: the lookups below read nothing but [index]. *)
Record DataRate : Set := { index : Z }.

(** [MaxPayloadSizeWithDwell]: both sizes are [Optional[int]]. *)
Record MaxPayloadSizeWithDwell : Set := {
  dr : Z;
  n_dwell_0 : option Z;
  n_dwell_1 : option Z
}.

(** [Band.get_ch_mask_cntl_by_ch_index].  [//] is floor division; the
    [or] evaluates its right operand only when the key is present. *)
Definition get_ch_mask_cntl_by_ch_index
    (table_ch_mask_cntl_value : dict ChMaskCtrl) (index : Z) : result Z :=
  let table_index := index / 16 in
  if negb (dict_contains table_ch_mask_cntl_value table_index) then
    Err ChMaskCntlError
  else
    row <- dict_getitem table_ch_mask_cntl_value table_index ;;
    ty <- ChMaskCtrl_getitem row "type" ;;
    if negb (String.eqb ty "range") then Err ChMaskCntlError
    else Ok table_index.

(** bands/RP2_1_0_2/us902_928.py *)
Module US902_928.

Definition table_ch_mask_cntl_value : dict ChMaskCtrl := [
  (0, RangeChMaskCtrl 0 0 15);
  (1, RangeChMaskCtrl 1 16 31);
  (2, RangeChMaskCtrl 2 32 47);
  (3, RangeChMaskCtrl 3 48 63);
  (4, RangeChMaskCtrl 4 64 71);
  (5, RFUChMaskCtrl 5);
  (6, On125kHzChMaskCtrl 6);
  (7, Off125kHzChMaskCtrl 7)
].

Definition get_ch_mask_cntl_by_ch_index (index : Z) : result Z :=
  bands.get_ch_mask_cntl_by_ch_index table_ch_mask_cntl_value index.

End US902_928.

(** bands/RP2_1_0_3/au915_928.py *)
Module AU915_928.

Definition table_maximum_payload_size : dict MaxPayloadSizeWithDwell := [
  (0, {| dr := 0; n_dwell_0 := Some 51; n_dwell_1 := None |});
  (1, {| dr := 1; n_dwell_0 := Some 51; n_dwell_1 := None |});
  (2, {| dr := 2; n_dwell_0 := Some 115; n_dwell_1 := Some 11 |});
  (3, {| dr := 3; n_dwell_0 := Some 222; n_dwell_1 := Some 53 |});
  (4, {| dr := 4; n_dwell_0 := Some 222; n_dwell_1 := Some 125 |});
  (5, {| dr := 5; n_dwell_0 := Some 222; n_dwell_1 := Some 222 |});
  (6, {| dr := 5; n_dwell_0 := Some 222; n_dwell_1 := Some 222 |});
  (7, {| dr := 5; n_dwell_0 := Some 50; n_dwell_1 := Some 50 |});
  (8, {| dr := 5; n_dwell_0 := Some 53; n_dwell_1 := Some 53 |});
  (9, {| dr := 5; n_dwell_0 := Some 129; n_dwell_1 := Some 129 |});
  (10, {| dr := 5; n_dwell_0 := Some 222; n_dwell_1 := Some 222 |});
  (11, {| dr := 5; n_dwell_0 := Some 222; n_dwell_1 := Some 222 |});
  (12, {| dr := 5; n_dwell_0 := Some 222; n_dwell_1 := Some 222 |});
  (13, {| dr := 5; n_dwell_0 := Some 222; n_dwell_1 := Some 222 |})
].

Definition table_ch_mask_cntl_value : dict ChMaskCtrl := [
  (0, RangeChMaskCtrl 0 0 15);
  (1, RangeChMaskCtrl 1 16 31);
  (2, RangeChMaskCtrl 2 32 47);
  (3, RangeChMaskCtrl 3 48 63);
  (4, RangeChMaskCtrl 4 64 71);
  (5, RFUChMaskCtrl 5);
  (6, On125kHzChMaskCtrl 6);
  (7, Off125kHzChMaskCtrl 7)
].

Definition get_ch_mask_cntl_by_ch_index (index : Z) : result Z :=
  bands.get_ch_mask_cntl_by_ch_index table_ch_mask_cntl_value index.

(** The Python value returned is an [int] or [None]. *)
Definition get_max_payload_size (datarate : DataRate) (dwell_time : Z)
  : result (option Z) :=
  max_size <- dict_getitem table_maximum_payload_size (index datarate) ;;
  if dwell_time =? 0 then Ok (n_dwell_0 max_size)
  else if dwell_time =? 1 then Ok (n_dwell_1 max_size)
  else Err ValueError.

End AU915_928.

(** bands/RP2_1_0_2/as923.py *)
Module AS923.

Definition table_maximum_payload_size : dict MaxPayloadSizeWithDwell := [
  (0, {| dr := 0; n_dwell_0 := Some 51; n_dwell_1 := None |});
  (1, {| dr := 1; n_dwell_0 := Some 51; n_dwell_1 := None |});
  (2, {| dr := 2; n_dwell_0 := Some 51; n_dwell_1 := Some 11 |});
  (3, {| dr := 3; n_dwell_0 := Some 115; n_dwell_1 := Some 53 |});
  (4, {| dr := 4; n_dwell_0 := Some 222; n_dwell_1 := Some 125 |});
  (5, {| dr := 5; n_dwell_0 := Some 222; n_dwell_1 := Some 242 |});
  (6, {| dr := 6; n_dwell_0 := Some 222; n_dwell_1 := Some 242 |});
  (7, {| dr := 7; n_dwell_0 := Some 222; n_dwell_1 := Some 242 |})
].

Definition get_max_payload_size (datarate : DataRate) (dwell_time : Z)
  : result (option Z) :=
  max_size <- dict_getitem table_maximum_payload_size (index datarate) ;;
  if dwell_time =? 0 then Ok (n_dwell_0 max_size)
  else if dwell_time =? 1 then Ok (n_dwell_1 max_size)
  else Err ValueError.

End AS923.

End bands.

(** ** Python [bytes] and integer conversions *)

(** A [bytes] object is a sequence of integers in [range(256)]. *)
Definition bytes : Set := list byte.

Definition b2z (b : byte) : Z := Z.of_N (Byte.to_N b).

(** The byte of an integer already known to be in [range(256)]. *)
Definition z2b (z : Z) : byte :=
  match Byte.of_N (Z.to_N z) with
  | Some b => b
  | None => x00
  end.

Definition in_byte_range (z : Z) : bool := (0 <=? z) && (z <? 256).

(** [bytes([z0, z1, ...])]: [ValueError] unless every item is in range. *)
Fixpoint bytes_of_ints (l : list Z) : result bytes :=
  match l with
  | [] => Ok []
  | z :: rest =>
      if in_byte_range z then
        bs <- bytes_of_ints rest ;; Ok (z2b z :: bs)
      else Err ValueError
  end.

(** The [length] low-order base-256 digits of [v], least significant first. *)
Fixpoint le_digits (length : nat) (v : Z) : bytes :=
  match length with
  | O => []
  | S k => z2b (v mod 256) :: le_digits k (v / 256)
  end.

(** [v.to_bytes(length, byteorder="little")]: [OverflowError] when [v] is
    negative or needs more than [length] bytes. *)
Definition int_to_bytes (v : Z) (length : nat) : result bytes :=
  if (0 <=? v) && (v <? 256 ^ Z.of_nat length) then Ok (le_digits length v)
  else Err OverflowError.

(** [int.from_bytes(b, byteorder="little")] *)
Fixpoint int_from_bytes (b : bytes) : Z :=
  match b with
  | [] => 0
  | x :: rest => b2z x + 256 * int_from_bytes rest
  end.

(** One unsigned little-endian field of [struct.pack]: [struct.error] when
    the value does not fit. *)
Definition struct_pack_uint (size : nat) (v : Z) : result bytes :=
  if (0 <=? v) && (v <? 256 ^ Z.of_nat size) then Ok (le_digits size v)
  else Err StructError.

(** [raw[i]] for a non-negative [i]. *)
Definition getitem (raw : bytes) (i : nat) : result Z :=
  match nth_error raw i with
  | Some b => Ok (b2z b)
  | None => Err IndexError
  end.

(** [raw[lo:hi]], [raw[lo:]] and [raw[:-n]]. *)
Definition slice (raw : bytes) (lo hi : nat) : bytes :=
  skipn lo (firstn hi raw).
Definition drop_last (n : nat) (raw : bytes) : bytes :=
  firstn (List.length raw - n) raw.
Definition take_last (n : nat) (raw : bytes) : bytes :=
  skipn (List.length raw - n) raw.

(** [io.BytesIO.read(n)] on a stream given by its unread bytes: the bytes
    read (fewer than [n] at the end of the stream) and the stream after. *)
Definition stream_read (n : nat) (stream : bytes) : bytes * bytes :=
  (firstn n stream, skipn n stream).

Definition bytes_eqb (a b : bytes) : bool :=
  if list_eq_dec Byte.byte_eq_dec a b then true else false.

(** [a ^ b] on two byte values, and [bytes([a ^ b for a, b in zip(x, y)])]:
    [zip] stops at the shorter operand. *)
Definition xor_byte (a b : byte) : byte := z2b (Z.lxor (b2z a) (b2z b)).

Fixpoint xor_bytes (x y : bytes) : bytes :=
  match x, y with
  | a :: x', b :: y' => xor_byte a b :: xor_bytes x' y'
  | _, _ => []
  end.

(** ** Python lists, hexadecimal strings and [struct.pack] *)

(** Two built-in exceptions that the frame codec never raises and that
    the functions below can: an attribute missing from an object, and an
    integer [%] by zero. *)
Inductive py_exn : Set :=
  | Exn (e : exn)
  | AttributeError
  | ZeroDivisionError.

Inductive outcome (A : Type) : Type :=
  | Return (a : A)
  | Raise (e : py_exn).
Arguments Return {A} a.
Arguments Raise {A} e.

Definition lift {A : Type} (m : result A) : outcome A :=
  match m with
  | Ok a => Return a
  | Err e => Raise (Exn e)
  end.

(** [range(start, stop)] *)
Definition py_range (start stop : Z) : list Z :=
  map (fun k => start + Z.of_nat k) (seq 0 (Z.to_nat (stop - start))).

(** [l[i]] on a list: a negative [i] counts from the end, and an index
    outside the list raises [IndexError]. *)
Definition list_getitem {A : Type} (l : list A) (i : Z) : result A :=
  let n := Z.of_nat (List.length l) in
  let j := if i <? 0 then n + i else i in
  if (j <? 0) || (n <=? j) then Err IndexError
  else
    match nth_error l (Z.to_nat j) with
    | Some a => Ok a
    | None => Err IndexError
    end.

(** The code of a character, and the character of a code below 256. *)
Definition ord (c : Ascii.ascii) : Z := b2z (Ascii.byte_of_ascii c).
Definition chr (n : Z) : Ascii.ascii := Ascii.ascii_of_byte (z2b n).

(** [b.hex()]: two lower-case hexadecimal digits for each byte. *)
Definition hex_digit (n : Z) : Ascii.ascii :=
  if n <? 10 then chr (48 + n) else chr (87 + n).

Fixpoint bytes_hex (b : bytes) : string :=
  match b with
  | [] => EmptyString
  | x :: rest =>
      String (hex_digit (b2z x / 16))
             (String (hex_digit (b2z x mod 16)) (bytes_hex rest))
  end.

(** The value of a hexadecimal digit of either case, [None] for any other
    character. *)
Definition hex_value (c : Ascii.ascii) : option Z :=
  let n := ord c in
  if (48 <=? n) && (n <=? 57) then Some (n - 48)
  else if (97 <=? n) && (n <=? 102) then Some (n - 87)
  else if (65 <=? n) && (n <=? 70) then Some (n - 55)
  else None.

(** ASCII white space: space, [\t], [\n], [\v], [\f] and [\r]. *)
Definition is_space (c : Ascii.ascii) : bool :=
  let n := ord c in
  (n =? 32) || ((9 <=? n) && (n <=? 13)).

(** [bytes.fromhex(s)]: white space is skipped before each pair of
    digits; a character that is no digit, or a digit left without its
    pair, is a [ValueError]. *)
Fixpoint bytes_fromhex (s : string) : result bytes :=
  match s with
  | EmptyString => Ok []
  | String c rest =>
      if is_space c then bytes_fromhex rest
      else
        match hex_value c with
        | None => Err ValueError
        | Some top =>
            match rest with
            | EmptyString => Err ValueError
            | String c' rest' =>
                match hex_value c' with
                | None => Err ValueError
                | Some bot =>
                    bs <- bytes_fromhex rest' ;;
                    Ok (z2b (top * 16 + bot) :: bs)
                end
            end
        end
  end.

(** The field [i] of [struct.pack]: a signed 32-bit integer, in two's
    complement, little-endian. *)
Definition struct_pack_int32 (v : Z) : result bytes :=
  if (-2147483648 <=? v) && (v <? 2147483648)
  then Ok (le_digits 4 (v mod 4294967296))
  else Err StructError.

(** ** The block cipher and the CMAC of the Cryptodome package

    [encryption.py] delegates to [Cryptodome.Cipher.AES] in ECB mode and to
    [Cryptodome.Hash.CMAC]; they compute AES-128 (FIPS 197) and AES-CMAC
    (RFC 4493).  Only 16-byte keys are modelled: Cryptodome also takes keys
    of 24 and 32 bytes, for which this model answers [ValueError]. *)

Module Cryptodome.

Definition sbox_table : list byte := [
    x63; x7c; x77; x7b; xf2; x6b; x6f; xc5; x30; x01; x67; x2b; xfe; xd7; xab; x76;
    xca; x82; xc9; x7d; xfa; x59; x47; xf0; xad; xd4; xa2; xaf; x9c; xa4; x72; xc0;
    xb7; xfd; x93; x26; x36; x3f; xf7; xcc; x34; xa5; xe5; xf1; x71; xd8; x31; x15;
    x04; xc7; x23; xc3; x18; x96; x05; x9a; x07; x12; x80; xe2; xeb; x27; xb2; x75;
    x09; x83; x2c; x1a; x1b; x6e; x5a; xa0; x52; x3b; xd6; xb3; x29; xe3; x2f; x84;
    x53; xd1; x00; xed; x20; xfc; xb1; x5b; x6a; xcb; xbe; x39; x4a; x4c; x58; xcf;
    xd0; xef; xaa; xfb; x43; x4d; x33; x85; x45; xf9; x02; x7f; x50; x3c; x9f; xa8;
    x51; xa3; x40; x8f; x92; x9d; x38; xf5; xbc; xb6; xda; x21; x10; xff; xf3; xd2;
    xcd; x0c; x13; xec; x5f; x97; x44; x17; xc4; xa7; x7e; x3d; x64; x5d; x19; x73;
    x60; x81; x4f; xdc; x22; x2a; x90; x88; x46; xee; xb8; x14; xde; x5e; x0b; xdb;
    xe0; x32; x3a; x0a; x49; x06; x24; x5c; xc2; xd3; xac; x62; x91; x95; xe4; x79;
    xe7; xc8; x37; x6d; x8d; xd5; x4e; xa9; x6c; x56; xf4; xea; x65; x7a; xae; x08;
    xba; x78; x25; x2e; x1c; xa6; xb4; xc6; xe8; xdd; x74; x1f; x4b; xbd; x8b; x8a;
    x70; x3e; xb5; x66; x48; x03; xf6; x0e; x61; x35; x57; xb9; x86; xc1; x1d; x9e;
    xe1; xf8; x98; x11; x69; xd9; x8e; x94; x9b; x1e; x87; xe9; xce; x55; x28; xdf;
    x8c; xa1; x89; x0d; xbf; xe6; x42; x68; x41; x99; x2d; x0f; xb0; x54; xbb; x16
].

Definition inv_sbox_table : list byte := [
    x52; x09; x6a; xd5; x30; x36; xa5; x38; xbf; x40; xa3; x9e; x81; xf3; xd7; xfb;
    x7c; xe3; x39; x82; x9b; x2f; xff; x87; x34; x8e; x43; x44; xc4; xde; xe9; xcb;
    x54; x7b; x94; x32; xa6; xc2; x23; x3d; xee; x4c; x95; x0b; x42; xfa; xc3; x4e;
    x08; x2e; xa1; x66; x28; xd9; x24; xb2; x76; x5b; xa2; x49; x6d; x8b; xd1; x25;
    x72; xf8; xf6; x64; x86; x68; x98; x16; xd4; xa4; x5c; xcc; x5d; x65; xb6; x92;
    x6c; x70; x48; x50; xfd; xed; xb9; xda; x5e; x15; x46; x57; xa7; x8d; x9d; x84;
    x90; xd8; xab; x00; x8c; xbc; xd3; x0a; xf7; xe4; x58; x05; xb8; xb3; x45; x06;
    xd0; x2c; x1e; x8f; xca; x3f; x0f; x02; xc1; xaf; xbd; x03; x01; x13; x8a; x6b;
    x3a; x91; x11; x41; x4f; x67; xdc; xea; x97; xf2; xcf; xce; xf0; xb4; xe6; x73;
    x96; xac; x74; x22; xe7; xad; x35; x85; xe2; xf9; x37; xe8; x1c; x75; xdf; x6e;
    x47; xf1; x1a; x71; x1d; x29; xc5; x89; x6f; xb7; x62; x0e; xaa; x18; xbe; x1b;
    xfc; x56; x3e; x4b; xc6; xd2; x79; x20; x9a; xdb; xc0; xfe; x78; xcd; x5a; xf4;
    x1f; xdd; xa8; x33; x88; x07; xc7; x31; xb1; x12; x10; x59; x27; x80; xec; x5f;
    x60; x51; x7f; xa9; x19; xb5; x4a; x0d; x2d; xe5; x7a; x9f; x93; xc9; x9c; xef;
    xa0; xe0; x3b; x4d; xae; x2a; xf5; xb0; xc8; xeb; xbb; x3c; x83; x53; x99; x61;
    x17; x2b; x04; x7e; xba; x77; xd6; x26; xe1; x69; x14; x63; x55; x21; x0c; x7d
].

Definition sub_byte (b : byte) : byte := nth (Byte.to_nat b) sbox_table x00.
Definition inv_sub_byte (b : byte) : byte :=
  nth (Byte.to_nat b) inv_sbox_table x00.

(** Multiplication by [x] in GF(2^8) modulo [x^8 + x^4 + x^3 + x + 1]. *)
Definition xtime (a : byte) : byte :=
  z2b (Z.lxor (Z.land (Z.shiftl (b2z a) 1) 255)
              (if Z.testbit (b2z a) 7 then 27 else 0)).

Definition mul2 (a : byte) : byte := xtime a.
Definition mul3 (a : byte) : byte := xor_byte (xtime a) a.
Definition mul4 (a : byte) : byte := xtime (xtime a).
Definition mul8 (a : byte) : byte := xtime (mul4 a).
Definition mul9 (a : byte) : byte := xor_byte (mul8 a) a.
Definition mul11 (a : byte) : byte := xor_byte (mul8 a) (mul3 a).
Definition mul13 (a : byte) : byte := xor_byte (mul8 a) (xor_byte (mul4 a) a).
Definition mul14 (a : byte) : byte :=
  xor_byte (mul8 a) (xor_byte (mul4 a) (mul2 a)).

Definition xor4 (a b c d : byte) : byte :=
  xor_byte (xor_byte a b) (xor_byte c d).

(** The state is the 16-byte block, column after column. *)
Definition sub_bytes (s : bytes) : bytes := map sub_byte s.
Definition inv_sub_bytes (s : bytes) : bytes := map inv_sub_byte s.

Definition shift_rows (s : bytes) : bytes :=
  match s with
  | [s0; s1; s2; s3; s4; s5; s6; s7; s8; s9; s10; s11; s12; s13; s14; s15] =>
      [s0; s5; s10; s15; s4; s9; s14; s3; s8; s13; s2; s7; s12; s1; s6; s11]
  | _ => s
  end.

Definition inv_shift_rows (s : bytes) : bytes :=
  match s with
  | [s0; s1; s2; s3; s4; s5; s6; s7; s8; s9; s10; s11; s12; s13; s14; s15] =>
      [s0; s13; s10; s7; s4; s1; s14; s11; s8; s5; s2; s15; s12; s9; s6; s3]
  | _ => s
  end.

Definition mix_column (a0 a1 a2 a3 : byte) : bytes :=
  [ xor4 (mul2 a0) (mul3 a1) a2 a3;
    xor4 a0 (mul2 a1) (mul3 a2) a3;
    xor4 a0 a1 (mul2 a2) (mul3 a3);
    xor4 (mul3 a0) a1 a2 (mul2 a3) ].

Definition inv_mix_column (a0 a1 a2 a3 : byte) : bytes :=
  [ xor4 (mul14 a0) (mul11 a1) (mul13 a2) (mul9 a3);
    xor4 (mul9 a0) (mul14 a1) (mul11 a2) (mul13 a3);
    xor4 (mul13 a0) (mul9 a1) (mul14 a2) (mul11 a3);
    xor4 (mul11 a0) (mul13 a1) (mul9 a2) (mul14 a3) ].

Fixpoint mix_columns (s : bytes) : bytes :=
  match s with
  | a0 :: a1 :: a2 :: a3 :: rest => mix_column a0 a1 a2 a3 ++ mix_columns rest
  | _ => s
  end.

Fixpoint inv_mix_columns (s : bytes) : bytes :=
  match s with
  | a0 :: a1 :: a2 :: a3 :: rest =>
      inv_mix_column a0 a1 a2 a3 ++ inv_mix_columns rest
  | _ => s
  end.

Definition add_round_key (s k : bytes) : bytes := xor_bytes s k.

(** Key schedule of AES-128: the next round key from the previous one. *)
Definition next_round_key (rc : byte) (k : bytes) : bytes :=
  match k with
  | [k0; k1; k2; k3; k4; k5; k6; k7; k8; k9; k10; k11; k12; k13; k14; k15] =>
      let a0 := xor_byte k0 (xor_byte (sub_byte k13) rc) in
      let a1 := xor_byte k1 (sub_byte k14) in
      let a2 := xor_byte k2 (sub_byte k15) in
      let a3 := xor_byte k3 (sub_byte k12) in
      let b0 := xor_byte k4 a0 in
      let b1 := xor_byte k5 a1 in
      let b2 := xor_byte k6 a2 in
      let b3 := xor_byte k7 a3 in
      let c0 := xor_byte k8 b0 in
      let c1 := xor_byte k9 b1 in
      let c2 := xor_byte k10 b2 in
      let c3 := xor_byte k11 b3 in
      [a0; a1; a2; a3; b0; b1; b2; b3; c0; c1; c2; c3;
       xor_byte k12 c0; xor_byte k13 c1; xor_byte k14 c2; xor_byte k15 c3]
  | _ => k
  end.

Definition rcon : list byte := [x01; x02; x04; x08; x10; x20; x40; x80; x1b; x36].

Fixpoint expand (rcs : list byte) (k : bytes) : list bytes :=
  match rcs with
  | [] => []
  | rc :: rest => let k' := next_round_key rc k in k' :: expand rest k'
  end.

(** The ten round keys that follow the cipher key itself. *)
Definition key_expansion (key : bytes) : list bytes := expand rcon key.

Definition round (s k : bytes) : bytes :=
  add_round_key (mix_columns (shift_rows (sub_bytes s))) k.
Definition final_round (s k : bytes) : bytes :=
  add_round_key (shift_rows (sub_bytes s)) k.
Definition inv_round (s k : bytes) : bytes :=
  inv_sub_bytes (inv_shift_rows (inv_mix_columns (add_round_key s k))).
Definition inv_final_round (s k : bytes) : bytes :=
  inv_sub_bytes (inv_shift_rows (add_round_key s k)).

Fixpoint rounds (s : bytes) (ks : list bytes) : bytes :=
  match ks with
  | [] => s
  | [k] => final_round s k
  | k :: rest => rounds (round s k) rest
  end.

Fixpoint inv_rounds (s : bytes) (ks : list bytes) : bytes :=
  match ks with
  | [] => s
  | [k] => inv_final_round s k
  | k :: rest => inv_round (inv_rounds s rest) k
  end.

(** The cipher and the inverse cipher on one block. *)
Definition cipher (key block : bytes) : bytes :=
  rounds (add_round_key block key) (key_expansion key).
Definition inv_cipher (key block : bytes) : bytes :=
  add_round_key (inv_rounds block (key_expansion key)) key.

(** ECB: the block function on each of [n] consecutive 16-byte blocks. *)
Fixpoint ecb (f : bytes -> bytes) (n : nat) (m : bytes) : bytes :=
  match n with
  | O => []
  | S k => f (firstn 16 m) ++ ecb f k (skipn 16 m)
  end.

Definition ecb_apply (f : bytes -> bytes -> bytes) (key message : bytes)
  : result bytes :=
  if negb (Nat.eqb (List.length key) 16) then Err ValueError
  else if negb (Nat.eqb (List.length message mod 16) 0) then Err ValueError
  else Ok (ecb (f key) (List.length message / 16) message).

(** [AES.new(key, AES.MODE_ECB).encrypt(message)] and [.decrypt(message)] *)
Definition ecb_encrypt : bytes -> bytes -> result bytes := ecb_apply cipher.
Definition ecb_decrypt : bytes -> bytes -> result bytes := ecb_apply inv_cipher.

(** Doubling in GF(2^128), most significant byte first. *)
Fixpoint shl1 (l : bytes) : bytes * bool :=
  match l with
  | [] => ([], false)
  | b :: rest =>
      let '(rest', carry) := shl1 rest in
      (z2b ((b2z b * 2) mod 256 + (if carry then 1 else 0)) :: rest',
       Z.testbit (b2z b) 7)
  end.

Definition dbl (l : bytes) : bytes :=
  let '(l', carry) := shl1 l in
  if carry then xor_bytes l' (repeat x00 15 ++ [x87]) else l'.

Definition pad (b : bytes) : bytes :=
  b ++ x80 :: repeat x00 (15 - List.length b).

(** The CBC chain of the block function [enc] over the message [m] cut
    into [n] blocks, the last one complete or not. *)
Fixpoint cmac_chain (enc : bytes -> bytes) (k1 k2 x : bytes) (n : nat)
    (m : bytes) : bytes :=
  match n with
  | O => enc (xor_bytes x (xor_bytes (pad m) k2))
  | S k =>
      match k with
      | O =>
          if Nat.eqb (List.length m) 16
          then enc (xor_bytes x (xor_bytes m k1))
          else enc (xor_bytes x (xor_bytes (pad m) k2))
      | S _ =>
          cmac_chain enc k1 k2 (enc (xor_bytes x (firstn 16 m))) k
                     (skipn 16 m)
      end
  end.

(** [CMAC.new(key, ciphermod=AES)], [update(message)], [digest()] *)
Definition cmac_digest (key message : bytes) : result bytes :=
  if negb (Nat.eqb (List.length key) 16) then Err ValueError
  else
    let l := cipher key (repeat x00 16) in
    let k1 := dbl l in
    let k2 := dbl k1 in
    Ok (cmac_chain (cipher key) k1 k2 (repeat x00 16)
                   ((List.length message + 15) / 16) message).

End Cryptodome.

(** ** encryption.py *)

Module encryption.

Definition aes128_cmac (key message : bytes) : result bytes :=
  Cryptodome.cmac_digest key message.

Definition aes128_encrypt (key message : bytes) : result bytes :=
  Cryptodome.ecb_encrypt key message.

Definition aes128_decrypt (key message : bytes) : result bytes :=
  Cryptodome.ecb_decrypt key message.

Definition generate_mic (key message : bytes) : result bytes :=
  digest <- aes128_cmac key message ;; Ok (firstn 4 digest).

End encryption.

(** ** message.py *)

Module message.

Inductive MType : Set :=
  | JoinRequest_ | JoinAccept_ | UnconfirmedDataUp | UnconfirmedDataDown
  | ConfirmedDataUp | ConfirmedDataDown | RFU | Proprietary_.

Definition MType_value (t : MType) : Z :=
  match t with
  | JoinRequest_ => 0
  | JoinAccept_ => 1
  | UnconfirmedDataUp => 2
  | UnconfirmedDataDown => 3
  | ConfirmedDataUp => 4
  | ConfirmedDataDown => 5
  | RFU => 6
  | Proprietary_ => 7
  end.

(** [MType(v)]: the enumeration member of a value, [ValueError] if none. *)
Definition MType_of_value (v : Z) : result MType :=
  match v with
  | 0 => Ok JoinRequest_
  | 1 => Ok JoinAccept_
  | 2 => Ok UnconfirmedDataUp
  | 3 => Ok UnconfirmedDataDown
  | 4 => Ok ConfirmedDataUp
  | 5 => Ok ConfirmedDataDown
  | 6 => Ok RFU
  | 7 => Ok Proprietary_
  | _ => Err ValueError
  end.

Definition MType_eqb (a b : MType) : bool :=
  MType_value a =? MType_value b.

(** The two directions a class of the frame codec is specialised to:
    [FHDRUplink] / [FHDRDownlink], [MACPayloadUplink] /
    [MACPayloadDownlink]. *)
Inductive link : Set := Uplink | Downlink.

Module MHDR.

Record t : Set := { mtype : MType; major : Z }.

Definition rfu (self : t) : Z := 0.

Definition init (mtype : MType) (major : Z) : result t :=
  if negb ((0 <=? major) && (major <? 4)) then Err MHDRError
  else Ok {| mtype := mtype; major := major |}.

Definition parse (raw : bytes) : result t :=
  if negb (Nat.eqb (List.length raw) 1) then Err ParseMessageError
  else
    b <- getitem raw 0 ;;
    mtype <- MType_of_value (Z.land (Z.shiftr b 5) 7) ;;
    let major := Z.land b 3 in
    init mtype major.

Definition generate (self : t) : result bytes :=
  let int_mhdr :=
    Z.lor (Z.lor (Z.shiftl (MType_value (mtype self)) 5)
                 (Z.shiftl (rfu self) 2))
          (major self) in
  int_to_bytes int_mhdr 1.

End MHDR.

Module FCtrlDownlink.

Record t : Set := {
  adr : bool; ack : bool; f_pending : bool; f_opts_len : Z
}.

Definition parse (raw : bytes) : result t :=
  b <- getitem raw 0 ;;
  let f_opts_len := Z.land b 15 in
  let f_pending := negb (Z.land b 16 =? 0) in
  let ack := negb (Z.land b 32 =? 0) in
  let adr := negb (Z.land b 128 =? 0) in
  Ok {| adr := adr; ack := ack; f_pending := f_pending;
        f_opts_len := f_opts_len |}.

Definition generate (self : t) : result bytes :=
  int_to_bytes
    (Z.lor (Z.lor (Z.lor (Z.shiftl (Z.b2z (adr self)) 7)
                         (Z.shiftl (Z.b2z (ack self)) 5))
                  (Z.shiftl (Z.b2z (f_pending self)) 4))
           (f_opts_len self)) 1.

End FCtrlDownlink.

Module FCtrlUplink.

Record t : Set := {
  adr : bool; adr_ack_req : bool; ack : bool; class_b : bool;
  f_opts_len : Z
}.

Definition parse (raw : bytes) : result t :=
  b <- getitem raw 0 ;;
  let f_opts_len := Z.land b 15 in
  let class_b := negb (Z.land b 16 =? 0) in
  let ack := negb (Z.land b 32 =? 0) in
  let adr_ack_req := negb (Z.land b 64 =? 0) in
  let adr := negb (Z.land b 128 =? 0) in
  Ok {| adr := adr; adr_ack_req := adr_ack_req; ack := ack;
        class_b := class_b; f_opts_len := f_opts_len |}.

Definition generate (self : t) : result bytes :=
  int_to_bytes
    (Z.lor (Z.lor (Z.lor (Z.lor (Z.shiftl (Z.b2z (adr self)) 7)
                                (Z.shiftl (Z.b2z (adr_ack_req self)) 6))
                         (Z.shiftl (Z.b2z (ack self)) 5))
                  (Z.shiftl (Z.b2z (class_b self)) 4))
           (f_opts_len self)) 1.

End FCtrlUplink.

(** The control byte held by an [FHDR]: an instance of either class. *)
Inductive FCtrl : Set :=
  | FCtrlUp (c : FCtrlUplink.t)
  | FCtrlDown (c : FCtrlDownlink.t).

Definition FCtrl_f_opts_len (c : FCtrl) : Z :=
  match c with
  | FCtrlUp c => FCtrlUplink.f_opts_len c
  | FCtrlDown c => FCtrlDownlink.f_opts_len c
  end.

Definition FCtrl_generate (c : FCtrl) : result bytes :=
  match c with
  | FCtrlUp c => FCtrlUplink.generate c
  | FCtrlDown c => FCtrlDownlink.generate c
  end.

Definition FCtrl_link (c : FCtrl) : link :=
  match c with
  | FCtrlUp _ => Uplink
  | FCtrlDown _ => Downlink
  end.

Module FHDR.

Definition DEV_ADDR_SIZE : nat := 4.
Definition FCTRL_SIZE : nat := 1.
Definition FCNT_SIZE : nat := 2.

(** [cls] is the concrete class, [FHDRUplink] or [FHDRDownlink]; the
    constructor stores its arguments unchecked. *)
Record t : Set := {
  cls : link; dev_addr : Z; f_ctrl : FCtrl; f_cnt : Z; f_opts : bytes
}.

(** [cls.get_fctrl_cls().parse] *)
Definition fctrl_parse (cls : link) (raw : bytes) : result FCtrl :=
  match cls with
  | Uplink => c <- FCtrlUplink.parse raw ;; Ok (FCtrlUp c)
  | Downlink => c <- FCtrlDownlink.parse raw ;; Ok (FCtrlDown c)
  end.

(** The stream is threaded through: the header and the unread bytes. *)
Definition parse (cls : link) (raw_stream : bytes) : result (t * bytes) :=
  let '(b_addr, s1) := stream_read DEV_ADDR_SIZE raw_stream in
  let dev_addr := int_from_bytes b_addr in
  let '(b_ctrl, s2) := stream_read FCTRL_SIZE s1 in
  f_ctrl <- fctrl_parse cls b_ctrl ;;
  let '(b_cnt, s3) := stream_read FCNT_SIZE s2 in
  let f_cnt := int_from_bytes b_cnt in
  let '(f_opts, s4) := stream_read (Z.to_nat (FCtrl_f_opts_len f_ctrl)) s3 in
  Ok ({| cls := cls; dev_addr := dev_addr; f_ctrl := f_ctrl;
         f_cnt := f_cnt; f_opts := f_opts |}, s4).

Definition generate (self : t) : result bytes :=
  a <- int_to_bytes (dev_addr self) DEV_ADDR_SIZE ;;
  c <- FCtrl_generate (f_ctrl self) ;;
  n <- int_to_bytes (f_cnt self) FCNT_SIZE ;;
  Ok (a ++ c ++ n ++ f_opts self).

End FHDR.

Module MACPayload.

Definition FPORT_SIZE : nat := 1.

(** [cls] is the concrete class, [MACPayloadUplink] or
    [MACPayloadDownlink]. *)
Record t : Set := {
  cls : link; fhdr : FHDR.t; f_port : option Z; frm_payload : bytes
}.

(** [__init__]: the two [isinstance] tests hold by typing. *)
Definition init (cls : link) (fhdr : FHDR.t) (f_port : option Z)
    (frm_payload : bytes) : result t :=
  let port_ok :=
    match f_port with
    | None => true
    | Some p => (0 <=? p) && (p <? 256)
    end in
  if negb port_ok then Err MACPayloadError
  else Ok {| cls := cls; fhdr := fhdr; f_port := f_port;
             frm_payload := frm_payload |}.

Definition parse (cls : link) (raw : bytes) : result t :=
  if Nat.ltb (List.length raw) 7 then Err ParseMessageError
  else
    '(fhdr, s1) <- FHDR.parse cls raw ;;
    let '(b_port, s2) := stream_read FPORT_SIZE s1 in
    let f_port :=
      match b_port with
      | [] => None
      | _ => Some (int_from_bytes b_port)
      end in
    let frm_payload := s2 in
    init cls fhdr f_port frm_payload.

Definition generate (self : t) : result bytes :=
  raw <- FHDR.generate (fhdr self) ;;
  match f_port self with
  | Some p =>
      b <- int_to_bytes p FPORT_SIZE ;;
      Ok ((raw ++ b) ++ frm_payload self)
  | None => Ok raw
  end.

End MACPayload.

Module JoinRequest.

Record t : Set := { app_eui : Z; dev_eui : Z; dev_nonce : Z }.

Definition parse (raw : bytes) : result t :=
  if negb (Nat.eqb (List.length raw) 18) then Err ParseMessageError
  else
    Ok {| app_eui := int_from_bytes (slice raw 0 8);
          dev_eui := int_from_bytes (slice raw 8 16);
          dev_nonce := int_from_bytes (slice raw 16 18) |}.

Definition generate (self : t) : result bytes :=
  a <- struct_pack_uint 8 (app_eui self) ;;
  d <- struct_pack_uint 8 (dev_eui self) ;;
  n <- struct_pack_uint 2 (dev_nonce self) ;;
  Ok (a ++ d ++ n).

End JoinRequest.

Module Proprietary.

Record t : Set := { payload : bytes }.

Definition parse (raw : bytes) : result t := Ok {| payload := raw |}.
Definition generate (self : t) : result bytes := Ok (payload self).

End Proprietary.

Module DLSettings.

Record t : Set := { rx1_dr_offset : Z; rx2_datarate : Z }.

Definition parse (raw : bytes) : result t :=
  b <- getitem raw 0 ;;
  let rx2_datarate := Z.land b 15 in
  let rx1_dr_offset := Z.land (Z.shiftr b 4) 7 in
  Ok {| rx1_dr_offset := rx1_dr_offset; rx2_datarate := rx2_datarate |}.

Definition generate (self : t) : result bytes :=
  int_to_bytes (Z.lor (Z.shiftl (rx1_dr_offset self) 4) (rx2_datarate self)) 1.

End DLSettings.

Module JoinAccept.

Record t : Set := {
  app_nonce : Z; net_id : Z; dev_addr : Z; dl_settings : DLSettings.t;
  rx_delay : Z; cf_list : bytes
}.

Definition parse (raw app_key : bytes) : result t :=
  if Nat.ltb (List.length raw) 12 then Err ParseMessageError
  else
    mhdr <- MHDR.parse (slice raw 0 1) ;;
    if negb (MType_eqb (MHDR.mtype mhdr) JoinAccept_)
    then Err ParseMessageError
    else
      decoded_raw <- encryption.aes128_encrypt app_key (skipn 1 raw) ;;
      let mic := take_last 4 decoded_raw in
      bytes_mhdr <- MHDR.generate mhdr ;;
      mic' <- encryption.generate_mic app_key
                (bytes_mhdr ++ drop_last 4 decoded_raw) ;;
      if negb (bytes_eqb mic mic') then Err MICError
      else
        let raw_stream := drop_last 4 decoded_raw in
        let '(b_nonce, s1) := stream_read 3 raw_stream in
        let '(b_net, s2) := stream_read 3 s1 in
        let '(b_addr, s3) := stream_read 4 s2 in
        let '(b_dl, s4) := stream_read 1 s3 in
        dl_settings <- DLSettings.parse b_dl ;;
        let '(b_delay, s5) := stream_read 1 s4 in
        Ok {| app_nonce := int_from_bytes b_nonce;
              net_id := int_from_bytes b_net;
              dev_addr := int_from_bytes b_addr;
              dl_settings := dl_settings;
              rx_delay := int_from_bytes b_delay;
              cf_list := s5 |}.

(** The serialised fields, before the tag is appended. *)
Definition plaintext (self : t) : result bytes :=
  a <- int_to_bytes (app_nonce self) 3 ;;
  n <- int_to_bytes (net_id self) 3 ;;
  d <- int_to_bytes (dev_addr self) 4 ;;
  s <- DLSettings.generate (dl_settings self) ;;
  r <- int_to_bytes (rx_delay self) 1 ;;
  Ok (a ++ n ++ d ++ s ++ r ++ cf_list self).

Definition generate (self : t) (app_key : bytes) : result bytes :=
  mhdr <- MHDR.init JoinAccept_ 0 ;;
  bytes_join_accept <- plaintext self ;;
  bytes_mhdr <- MHDR.generate mhdr ;;
  mic <- encryption.generate_mic app_key (bytes_mhdr ++ bytes_join_accept) ;;
  encrypted_bytes_join_accept <-
    encryption.aes128_decrypt app_key (bytes_join_accept ++ mic) ;;
  Ok (bytes_mhdr ++ encrypted_bytes_join_accept).

End JoinAccept.

(** The payload of a frame: [Union[MACPayload, JoinRequest, Proprietary]]. *)
Inductive Payload : Set :=
  | PMACPayload (p : MACPayload.t)
  | PJoinRequest (p : JoinRequest.t)
  | PProprietary (p : Proprietary.t).

Definition Payload_generate (p : Payload) : result bytes :=
  match p with
  | PMACPayload p => MACPayload.generate p
  | PJoinRequest p => JoinRequest.generate p
  | PProprietary p => Proprietary.generate p
  end.

Module PHYPayload.

(** [mic] is [Optional[bytes]]. *)
Record t : Set := { mhdr : MHDR.t; payload : Payload; mic : option bytes }.

Definition is_data (m : MType) : bool :=
  match m with
  | UnconfirmedDataDown | UnconfirmedDataUp | ConfirmedDataDown
  | ConfirmedDataUp => true
  | _ => false
  end.

Definition isinstance_Proprietary (p : Payload) : bool :=
  match p with PProprietary _ => true | _ => false end.
Definition isinstance_MACPayload (p : Payload) : bool :=
  match p with PMACPayload _ => true | _ => false end.
Definition isinstance_JoinRequest (p : Payload) : bool :=
  match p with PJoinRequest _ => true | _ => false end.

Definition init (mhdr : MHDR.t) (payload : Payload) (mic : option bytes)
  : result t :=
  let m := MHDR.mtype mhdr in
  if (MType_eqb m Proprietary_ && negb (isinstance_Proprietary payload))
     || (is_data m && negb (isinstance_MACPayload payload))
     || (MType_eqb m JoinRequest_ && negb (isinstance_JoinRequest payload))
  then Err PHYPayloadError
  else Ok {| mhdr := mhdr; payload := payload; mic := mic |}.

Definition parse (raw : bytes) : result t :=
  if Nat.ltb (List.length raw) 5 then Err ParseMessageError
  else
    mhdr <- MHDR.parse (slice raw 0 1) ;;
    let body := skipn 1 (drop_last 4 raw) in
    payload <-
      match MHDR.mtype mhdr with
      | ConfirmedDataUp | UnconfirmedDataUp =>
          p <- MACPayload.parse Uplink body ;; Ok (PMACPayload p)
      | ConfirmedDataDown | UnconfirmedDataDown =>
          p <- MACPayload.parse Downlink body ;; Ok (PMACPayload p)
      | JoinRequest_ =>
          p <- JoinRequest.parse body ;; Ok (PJoinRequest p)
      | Proprietary_ =>
          p <- Proprietary.parse body ;; Ok (PProprietary p)
      | JoinAccept_ | RFU => Err PHYPayloadError
      end ;;
    let mic := take_last 4 raw in
    init mhdr payload (Some mic).

(** Adding [None] to [bytes] is a [TypeError]. *)
Definition generate (self : t) : result bytes :=
  h <- MHDR.generate (mhdr self) ;;
  p <- Payload_generate (payload self) ;;
  match mic self with
  | Some m => Ok ((h ++ p) ++ m)
  | None => Err TypeError
  end.

End PHYPayload.

End message.

(** ** mac_commands.py *)

Module mac_commands.

(** A MAC command object: one constructor per class, holding the
    attributes its [__init__] stores. *)
Inductive MACCommand : Set :=
  | LinkCheckReq
  | LinkADRAns (channel_mask_ack datarate_ack power_ack : bool)
  | DutyCycleAns
  | RXParamSetupAns (channel_ack rx2_datarate_ack rx1_datarate_offset_ack : bool)
  | DevStatusAns (battery margin : Z)
  | NewChannelAns (channel_frequency_ack datarate_range_ack : bool)
  | RXTimingSetupAns
  | TXParamSetupAns
  | DlChannelAns (channel_frequency_ok uplink_frequency_exists : bool)
  | DeviceTimeReq
  | PingSlotInfoReq (periodicity : Z)
  | BeaconFreqAns (status : bool)
  | PingSlotChannelAns (datarate_status channel_frequency_status : bool)
  | PingSlotChannelReq (datarate frequency : Z)
  | BeaconFreqReq (frequency : Z)
  | PingSlotInfoAns
  | LinkCheckAns (margin gw_cnt : Z)
  | LinkADRReq (tx_power datarate ch_mask nb_trans ch_mask_cntl : Z)
  | DutyCycleReq (max_dcycle : Z)
  | RXParamSetupReq (rx2_datarate rx1_datarate_offset rx2_frequency : Z)
  | DevStatusReq
  | NewChannelReq (ch_index ch_frequency min_datarate max_datarate : Z)
  | RXTimingSetupReq (delay : Z)
  | TXParamSetupReq (max_eirp uplink_dwell_time downlink_dwell_time : Z)
  | DlChannelReq (ch_index freq : Z)
  | DeviceTimeAns (seconds fractional_second : Z).

(** The classes themselves, as the dispatch tables hold them. *)
Inductive cmd_class : Set :=
  | cLinkCheckReq | cLinkADRAns | cDutyCycleAns | cRXParamSetupAns
  | cDevStatusAns | cNewChannelAns | cRXTimingSetupAns | cTXParamSetupAns
  | cDlChannelAns | cDeviceTimeReq | cPingSlotInfoReq | cBeaconFreqAns
  | cPingSlotChannelAns | cPingSlotChannelReq | cBeaconFreqReq
  | cPingSlotInfoAns | cLinkCheckAns | cLinkADRReq | cDutyCycleReq
  | cRXParamSetupReq | cDevStatusReq | cNewChannelReq | cRXTimingSetupReq
  | cTXParamSetupReq | cDlChannelReq | cDeviceTimeAns.

Definition class_of (c : MACCommand) : cmd_class :=
  match c with
  | LinkCheckReq => cLinkCheckReq
  | LinkADRAns _ _ _ => cLinkADRAns
  | DutyCycleAns => cDutyCycleAns
  | RXParamSetupAns _ _ _ => cRXParamSetupAns
  | DevStatusAns _ _ => cDevStatusAns
  | NewChannelAns _ _ => cNewChannelAns
  | RXTimingSetupAns => cRXTimingSetupAns
  | TXParamSetupAns => cTXParamSetupAns
  | DlChannelAns _ _ => cDlChannelAns
  | DeviceTimeReq => cDeviceTimeReq
  | PingSlotInfoReq _ => cPingSlotInfoReq
  | BeaconFreqAns _ => cBeaconFreqAns
  | PingSlotChannelAns _ _ => cPingSlotChannelAns
  | PingSlotChannelReq _ _ => cPingSlotChannelReq
  | BeaconFreqReq _ => cBeaconFreqReq
  | PingSlotInfoAns => cPingSlotInfoAns
  | LinkCheckAns _ _ => cLinkCheckAns
  | LinkADRReq _ _ _ _ _ => cLinkADRReq
  | DutyCycleReq _ => cDutyCycleReq
  | RXParamSetupReq _ _ _ => cRXParamSetupReq
  | DevStatusReq => cDevStatusReq
  | NewChannelReq _ _ _ _ => cNewChannelReq
  | RXTimingSetupReq _ => cRXTimingSetupReq
  | TXParamSetupReq _ _ _ => cTXParamSetupReq
  | DlChannelReq _ _ => cDlChannelReq
  | DeviceTimeAns _ _ => cDeviceTimeAns
  end.

Definition CID (c : cmd_class) : Z :=
  match c with
  | cLinkCheckReq | cLinkCheckAns => 0x02
  | cLinkADRAns | cLinkADRReq => 0x03
  | cDutyCycleAns | cDutyCycleReq => 0x04
  | cRXParamSetupAns | cRXParamSetupReq => 0x05
  | cDevStatusAns | cDevStatusReq => 0x06
  | cNewChannelAns | cNewChannelReq => 0x07
  | cRXTimingSetupAns | cRXTimingSetupReq => 0x08
  | cTXParamSetupAns | cTXParamSetupReq => 0x09
  | cDlChannelAns | cDlChannelReq => 0x0A
  | cDeviceTimeReq | cDeviceTimeAns => 0x0D
  | cPingSlotInfoReq | cPingSlotInfoAns => 0x10
  | cPingSlotChannelAns | cPingSlotChannelReq => 0x11
  | cBeaconFreqAns | cBeaconFreqReq => 0x13
  end.

Definition SIZE (c : cmd_class) : nat :=
  match c with
  | cLinkCheckReq => 0
  | cLinkADRAns => 1
  | cDutyCycleAns => 0
  | cRXParamSetupAns => 1
  | cDevStatusAns => 2
  | cNewChannelAns => 1
  | cRXTimingSetupAns => 0
  | cTXParamSetupAns => 0
  | cDlChannelAns => 1
  | cDeviceTimeReq => 0
  | cPingSlotInfoReq => 1
  | cBeaconFreqAns => 1
  | cPingSlotChannelAns => 1
  | cPingSlotChannelReq => 1
  | cBeaconFreqReq => 3
  | cPingSlotInfoAns => 0
  | cLinkCheckAns => 2
  | cLinkADRReq => 4
  | cDutyCycleReq => 1
  | cRXParamSetupReq => 4
  | cDevStatusReq => 0
  | cNewChannelReq => 5
  | cRXTimingSetupReq => 1
  | cTXParamSetupReq => 1
  | cDlChannelReq => 4
  | cDeviceTimeAns => 5
  end.

(** The constructors whose [__init__] masks its arguments. *)
Definition init_PingSlotInfoReq (periodicity : Z) : MACCommand :=
  PingSlotInfoReq (Z.land periodicity 0x07).
Definition init_PingSlotChannelReq (datarate frequency : Z) : MACCommand :=
  PingSlotChannelReq (Z.land datarate 0x0F) (Z.land frequency 0xFFFFFF).
Definition init_BeaconFreqReq (frequency : Z) : MACCommand :=
  BeaconFreqReq (Z.land frequency 0xFFFFFF).
Definition init_RXTimingSetupReq (delay : Z) : MACCommand :=
  RXTimingSetupReq (Z.land delay 0x0F).
Definition init_TXParamSetupReq (max_eirp uplink_dwell_time downlink_dwell_time : Z)
  : MACCommand :=
  TXParamSetupReq (Z.land max_eirp 0x0F) (Z.land uplink_dwell_time 1)
                  (Z.land downlink_dwell_time 1).

(** [bool(x & mask)] *)
Definition bit (x mask : Z) : bool := negb (Z.land x mask =? 0).

(** [cls.parse(raw)] *)
Definition parse_class (c : cmd_class) (raw : bytes) : result MACCommand :=
  match c with
  | cLinkCheckReq => Ok LinkCheckReq
  | cDutyCycleAns => Ok DutyCycleAns
  | cRXTimingSetupAns => Ok RXTimingSetupAns
  | cTXParamSetupAns => Ok TXParamSetupAns
  | cDeviceTimeReq => Ok DeviceTimeReq
  | cPingSlotInfoAns => Ok PingSlotInfoAns
  | cDevStatusReq => Ok DevStatusReq
  | cLinkADRAns =>
      r0 <- getitem raw 0 ;;
      Ok (LinkADRAns (bit r0 1) (bit r0 2) (bit r0 4))
  | cRXParamSetupAns =>
      r0 <- getitem raw 0 ;;
      Ok (RXParamSetupAns (bit r0 1) (bit r0 2) (bit r0 4))
  | cDevStatusAns =>
      r1 <- getitem raw 1 ;;
      let margin := Z.land r1 31 in
      r0 <- getitem raw 0 ;;
      Ok (DevStatusAns r0 (if bit r1 32 then - margin - 1 else margin))
  | cNewChannelAns =>
      r0 <- getitem raw 0 ;;
      Ok (NewChannelAns (bit r0 1) (bit r0 2))
  | cDlChannelAns =>
      r0 <- getitem raw 0 ;;
      Ok (DlChannelAns (bit r0 1) (bit r0 2))
  | cPingSlotInfoReq => Ok (init_PingSlotInfoReq (int_from_bytes raw))
  | cBeaconFreqAns => Ok (BeaconFreqAns (bit (int_from_bytes raw) 1))
  | cPingSlotChannelAns =>
      r0 <- getitem raw 0 ;;
      let dr_status := bit r0 2 in
      let freq_status := bit r0 1 in
      Ok (PingSlotChannelAns dr_status freq_status)
  | cPingSlotChannelReq =>
      let freq := int_from_bytes (slice raw 0 3) in
      r3 <- getitem raw 3 ;;
      let datarate := Z.land r3 0x0F in
      Ok (init_PingSlotChannelReq datarate freq)
  | cBeaconFreqReq => Ok (init_BeaconFreqReq (int_from_bytes raw))
  | cLinkCheckAns =>
      r0 <- getitem raw 0 ;;
      r1 <- getitem raw 1 ;;
      Ok (LinkCheckAns r0 r1)
  | cLinkADRReq =>
      r0 <- getitem raw 0 ;;
      r3 <- getitem raw 3 ;;
      Ok (LinkADRReq (Z.land r0 0x0F) (Z.shiftr r0 4)
                     (int_from_bytes (slice raw 1 3))
                     (Z.land r3 0x0F) (Z.land (Z.shiftr r3 4) 7))
  | cDutyCycleReq =>
      r0 <- getitem raw 0 ;;
      Ok (DutyCycleReq r0)
  | cRXParamSetupReq =>
      r0 <- getitem raw 0 ;;
      Ok (RXParamSetupReq (Z.land r0 0x0F) (Z.land (Z.shiftr r0 4) 0x07)
                          (int_from_bytes (slice raw 1 4)))
  | cNewChannelReq =>
      r0 <- getitem raw 0 ;;
      r4 <- getitem raw 4 ;;
      Ok (NewChannelReq r0 (int_from_bytes (slice raw 1 4))
                        (Z.land r4 0x0F) (Z.land (Z.shiftr r4 4) 0x0F))
  | cRXTimingSetupReq =>
      r0 <- getitem raw 0 ;;
      Ok (init_RXTimingSetupReq r0)
  | cTXParamSetupReq =>
      if negb (Nat.eqb (List.length raw) (SIZE cTXParamSetupReq))
      then Err MACCommandParseError
      else
        r0 <- getitem raw 0 ;;
        Ok (init_TXParamSetupReq (Z.land r0 0x0F) (Z.land (Z.shiftr r0 4) 1)
                                 (Z.land (Z.shiftr r0 5) 1))
  | cDlChannelReq =>
      r0 <- getitem raw 0 ;;
      Ok (DlChannelReq r0 (int_from_bytes (skipn 1 raw)))
  | cDeviceTimeAns =>
      let seconds := int_from_bytes (slice raw 0 4) in
      r4 <- getitem raw 4 ;;
      Ok (DeviceTimeAns seconds r4)
  end.

(** [cmd.generate()] *)
Definition generate (cmd : MACCommand) : result bytes :=
  let cid := CID (class_of cmd) in
  match cmd with
  | LinkCheckReq | DutyCycleAns | RXTimingSetupAns | TXParamSetupAns
  | DeviceTimeReq | PingSlotInfoAns | DevStatusReq => int_to_bytes cid 1
  | LinkADRAns channel_mask_ack datarate_ack power_ack =>
      let status :=
        Z.lor (Z.lor (Z.shiftl (Z.b2z power_ack) 2)
                     (Z.shiftl (Z.b2z datarate_ack) 1))
              (Z.b2z channel_mask_ack) in
      bytes_of_ints [cid; status]
  | RXParamSetupAns channel_ack rx2_datarate_ack rx1_datarate_offset_ack =>
      let status :=
        Z.lor (Z.lor (Z.shiftl (Z.b2z rx1_datarate_offset_ack) 2)
                     (Z.shiftl (Z.b2z rx2_datarate_ack) 1))
              (Z.b2z channel_ack) in
      bytes_of_ints [cid; status]
  | DevStatusAns battery margin =>
      bytes_of_ints
        [cid; battery;
         if 0 <? margin then Z.land margin 31
         else Z.lor (Z.land (- margin - 1) 31) 32]
  | NewChannelAns channel_frequency_ack datarate_range_ack =>
      let status :=
        Z.lor (Z.shiftl (Z.b2z datarate_range_ack) 1)
              (Z.b2z channel_frequency_ack) in
      bytes_of_ints [cid; status]
  | DlChannelAns channel_frequency_ok uplink_frequency_exists =>
      let status :=
        Z.lor (Z.shiftl (Z.b2z uplink_frequency_exists) 1)
              (Z.b2z channel_frequency_ok) in
      bytes_of_ints [cid; status]
  | PingSlotInfoReq periodicity => bytes_of_ints [cid; periodicity]
  | BeaconFreqAns status => bytes_of_ints [cid; Z.b2z status]
  | PingSlotChannelAns datarate_status channel_frequency_status =>
      let status :=
        Z.lor (Z.shiftl (Z.b2z datarate_status) 1)
              (Z.b2z channel_frequency_status) in
      bytes_of_ints [cid; status]
  | PingSlotChannelReq datarate frequency =>
      c <- int_to_bytes cid 1 ;;
      f <- int_to_bytes frequency 3 ;;
      d <- int_to_bytes datarate 1 ;;
      Ok (c ++ f ++ d)
  | BeaconFreqReq frequency =>
      c <- int_to_bytes cid 1 ;;
      f <- int_to_bytes frequency 3 ;;
      Ok (c ++ f)
  | LinkCheckAns margin gw_cnt => bytes_of_ints [cid; margin; gw_cnt]
  | LinkADRReq tx_power datarate ch_mask nb_trans ch_mask_cntl =>
      bytes_of_ints
        [cid;
         Z.lor (Z.land tx_power 0x0F) (Z.shiftl (Z.land datarate 0x0F) 4);
         Z.land ch_mask 0xFF;
         Z.land (Z.shiftr ch_mask 8) 0xFF;
         Z.lor (Z.land nb_trans 0x0F) (Z.shiftl (Z.land ch_mask_cntl 7) 4)]
  | DutyCycleReq max_dcycle => bytes_of_ints [cid; max_dcycle]
  | RXParamSetupReq rx2_datarate rx1_datarate_offset rx2_frequency =>
      h <- bytes_of_ints
             [cid;
              Z.lor (Z.land rx2_datarate 0x0F)
                    (Z.shiftl (Z.land rx1_datarate_offset 0x07) 4)] ;;
      f <- int_to_bytes rx2_frequency 3 ;;
      Ok (h ++ f)
  | NewChannelReq ch_index ch_frequency min_datarate max_datarate =>
      h <- bytes_of_ints [cid; ch_index] ;;
      f <- int_to_bytes ch_frequency 3 ;;
      d <- bytes_of_ints
             [Z.lor (Z.land min_datarate 0x0F)
                    (Z.shiftl (Z.land max_datarate 0x0F) 4)] ;;
      Ok (h ++ f ++ d)
  | RXTimingSetupReq delay => bytes_of_ints [cid; delay]
  | TXParamSetupReq max_eirp uplink_dwell_time downlink_dwell_time =>
      bytes_of_ints
        [cid;
         Z.lor (Z.lor (Z.shiftl downlink_dwell_time 5)
                      (Z.shiftl uplink_dwell_time 4))
               max_eirp]
  | DlChannelReq ch_index freq =>
      h <- bytes_of_ints [cid; ch_index] ;;
      f <- int_to_bytes freq 3 ;;
      Ok (h ++ f)
  | DeviceTimeAns seconds fractional_second =>
      c <- int_to_bytes cid 1 ;;
      s <- int_to_bytes seconds 4 ;;
      f <- int_to_bytes fractional_second 1 ;;
      Ok (c ++ s ++ f)
  end.

Inductive MACCommandDirection : Set := UP | DOWN.

Module MACCommandParser.

Definition mac_commands_map (direction : MACCommandDirection)
  : dict cmd_class :=
  match direction with
  | UP => [
      (0x02, cLinkCheckReq); (0x03, cLinkADRAns); (0x04, cDutyCycleAns);
      (0x05, cRXParamSetupAns); (0x06, cDevStatusAns);
      (0x07, cNewChannelAns); (0x08, cRXTimingSetupAns);
      (0x09, cTXParamSetupAns); (0x0A, cDlChannelAns);
      (0x0D, cDeviceTimeReq);
      (0x10, cPingSlotInfoReq); (0x11, cPingSlotChannelAns);
      (0x13, cBeaconFreqAns) ]
  | DOWN => [
      (0x02, cLinkCheckAns); (0x03, cLinkADRReq); (0x04, cDutyCycleReq);
      (0x05, cRXParamSetupReq); (0x06, cDevStatusReq);
      (0x07, cNewChannelReq); (0x08, cRXTimingSetupReq);
      (0x09, cTXParamSetupReq); (0x0A, cDlChannelReq);
      (0x0D, cDeviceTimeAns);
      (0x10, cPingSlotInfoAns); (0x11, cPingSlotChannelReq);
      (0x13, cBeaconFreqReq) ]
  end.

(** [read]: the buffer of [SIZE] bytes, zero-filled and overwritten by
    what the stream still holds, and the stream after the read. *)
Definition read (cmd_cls : cmd_class) (input_stream : bytes)
  : result (bytes * bytes) :=
  let '(got, rest) := stream_read (SIZE cmd_cls) input_stream in
  let read_size := List.length got in
  let cmd_buffer := got ++ repeat x00 (SIZE cmd_cls - read_size) in
  if Nat.ltb read_size (SIZE cmd_cls) then Err MACCommandParseError
  else Ok (cmd_buffer, rest).

Definition create (commands_stream : bytes) (command_id : Z)
    (direction : MACCommandDirection) : result (MACCommand * bytes) :=
  match dict_get (mac_commands_map direction) command_id with
  | None => Err MACCommandCreateError
  | Some cmd_cls =>
      '(cmd_buffer, rest) <- read cmd_cls commands_stream ;;
      cmd <- parse_class cmd_cls cmd_buffer ;;
      Ok (cmd, rest)
  end.

(** The [while] loop of [parse].  Every turn reads at least the
    command id, so the length of the buffer bounds the turns.  The
    result is the list built so far and the exceptions handed to
    [logging.warning] by the [except Exception] clause. *)
Fixpoint parse_loop (fuel : nat) (commands_stream : bytes)
    (direction : MACCommandDirection) (commands_result : list MACCommand)
  : list MACCommand * list exn :=
  match fuel with
  | O => (commands_result, [])
  | S fuel' =>
      match commands_stream with
      | [] => (commands_result, [])
      | cmd_index :: rest =>
          match create rest (b2z cmd_index) direction with
          | Ok (cmd, rest') =>
              parse_loop fuel' rest' direction (commands_result ++ [cmd])
          | Err e => (commands_result, [e])
          end
      end
  end.

Definition parse (commands_buffer : bytes)
    (direction : MACCommandDirection) : list MACCommand * list exn :=
  parse_loop (List.length commands_buffer) commands_buffer direction [].

End MACCommandParser.

(** [MACCommand.size]: [self.SIZE + 1] *)
Definition size (cmd : MACCommand) : nat := (SIZE (class_of cmd) + 1)%nat.

End mac_commands.

(** ** common.py *)

Module common.

Import message.

(** [int(isinstance(mac_payload, MACPayloadDownlink))] *)
Definition direction_of (mac_payload : MACPayload.t) : Z :=
  match MACPayload.cls mac_payload with
  | Downlink => 1
  | Uplink => 0
  end.

(** The keystream blocks numbered [i + 1], ..., [i + k]: [s_i[15]] is
    set, then the block is encrypted and appended. *)
Fixpoint keystream (key s_i : bytes) (k i : nat) : result bytes :=
  match k with
  | O => Ok []
  | S k' =>
      v <- bytes_of_ints [Z.of_nat i + 1] ;;
      let s_i' := firstn 15 s_i ++ v ++ skipn 16 s_i in
      block <- encryption.aes128_encrypt key s_i' ;;
      rest <- keystream key s_i' k' (S i) ;;
      Ok (block ++ rest)
  end.

Definition decrypt_frm_payload (frm_payload key : bytes)
    (dev_addr counter direction : Z) : result bytes :=
  let k := ((List.length frm_payload + 15) / 16)%nat in
  d <- int_to_bytes direction 1 ;;
  a <- struct_pack_uint 4 dev_addr ;;
  c <- struct_pack_uint 4 counter ;;
  let s_i := [x01; x00; x00; x00; x00] ++ d ++ (a ++ c) ++ [x00; x00] in
  s <- keystream key s_i k 0 ;;
  Ok (xor_bytes frm_payload s).

Definition encrypt_frm_payload (frm_payload key : bytes)
    (dev_addr counter direction : Z) : result bytes :=
  decrypt_frm_payload frm_payload key dev_addr counter direction.

Definition generate_mic_mac_payload (mhdr : MHDR.t)
    (mac_payload : MACPayload.t) (nwk_skey : bytes) : result bytes :=
  h <- MHDR.generate mhdr ;;
  p <- MACPayload.generate mac_payload ;;
  let msg := h ++ p in
  let direction := direction_of mac_payload in
  b0a <- bytes_of_ints [0x49; 0; 0; 0; 0; direction] ;;
  a <- struct_pack_uint 4 (FHDR.dev_addr (MACPayload.fhdr mac_payload)) ;;
  c <- struct_pack_uint 4 (FHDR.f_cnt (MACPayload.fhdr mac_payload)) ;;
  b0b <- bytes_of_ints [0; Z.of_nat (List.length msg)] ;;
  let block_b_0 := b0a ++ (a ++ c) ++ b0b in
  encryption.generate_mic nwk_skey (block_b_0 ++ msg).

(** The names a function body of [common.py] can load: its own
    parameters, then what the module binds at top level (its imports,
    [TypeOfKey] and its functions), then the built-ins it uses.  The
    built-in namespace of Python holds neither of the two names that
    [verify_mic_join_accept] loads. *)
Definition module_globals : list string := [
  "struct"; "typing"; "Enum"; "ceil"; "randint";
  "aes128_encrypt"; "generate_mic"; "LoRaError";
  "MACCommand"; "MACCommandDirection"; "MACCommandParser";
  "MHDR"; "JoinAccept"; "JoinRequest"; "MACPayload"; "MACPayloadDownlink";
  "PHYPayload"; "TypeOfKey"; "readable"; "unreadable";
  "decrypt_frm_payload"; "encrypt_frm_payload"; "generate_mic_mac_payload";
  "generate_mic_join_request"; "verify_mic_join_accept";
  "verify_mic_join_request"; "verify_mic_mac_payload";
  "verify_mic_phy_payload"; "generate_key"; "generate_nwk_s_key";
  "generate_app_s_key"; "calc_ping_offset";
  "generate_dev_addr_for_network"; "extract_mac_commands"
]%string.

Definition builtins : list string := [
  "bytes"; "bytearray"; "int"; "isinstance"; "len"; "range"; "zip"; "bool"
]%string.

Definition bound (names : list string) (name : string) : bool :=
  existsb (String.eqb name) names.

Definition load_name (locals : list string) (name : string) : result unit :=
  if bound locals name || bound module_globals name || bound builtins name
  then Ok tt
  else Err NameError.

(** [verify_mic_join_accept].  The expression first loads the callee
    [generate_mic_join_accept], then [phy_payload] for its first
    argument.  [rest] is the evaluation that would follow (the attribute
    loads, the call and the comparison), which the module gives no
    meaning to since it binds neither name. *)
Definition verify_mic_join_accept (rest : result bool)
    (join_accept : JoinAccept.t) (app_key : bytes) : result bool :=
  let locals := ["join_accept"; "app_key"]%string in
  _ <- load_name locals "generate_mic_join_accept" ;;
  _ <- load_name locals "phy_payload" ;;
  rest.

(** key: net_id_type, value: (prefix, prefix_len, nwk_id_len) *)
Definition net_type_to_params : dict (Z * Z * Z) := [
  (0, (0, 1, 6));
  (1, (2, 2, 6));
  (2, (6, 3, 9));
  (3, (14, 4, 11));
  (4, (30, 5, 12));
  (5, (62, 6, 13));
  (6, (126, 7, 15));
  (7, (254, 8, 17))
].

(** [randint] is the random source: [randint a b] is the draw made for
    the bounds [a] and [b]. *)
Definition generate_dev_addr_for_network (randint : Z -> Z -> Z)
    (net_id : Z) : result Z :=
  let net_id_type := Z.shiftr net_id 21 in
  if 7 <? net_id_type then Err LoRaError
  else
    '(prefix, prefix_len, nwk_id_len) <-
      dict_getitem net_type_to_params net_id_type ;;
    let nwk_addr_len := 32 - nwk_id_len - prefix_len in
    let nwk_id := Z.land net_id (2 ^ nwk_id_len - 1) in
    let msbits :=
      Z.shiftl prefix (nwk_id_len + nwk_addr_len)
      + Z.shiftl nwk_id nwk_addr_len in
    let nwk_addr := randint 0 (2 ^ nwk_addr_len - 1) in
    Ok (msbits + nwk_addr).

Inductive TypeOfKey : Set := NwkSKey | AppSKey.

Definition TypeOfKey_value (t : TypeOfKey) : Z :=
  match t with
  | NwkSKey => 1
  | AppSKey => 2
  end.

(** [b[::-1].hex()] and [bytes.fromhex(s)[::-1]] *)
Definition readable (b : bytes) : string := bytes_hex (rev b).

Definition unreadable (s : string) : result bytes :=
  b <- bytes_fromhex s ;; Ok (rev b).

(** [generate_mic_join_request].  The body calls nothing but
    [generate()] on its second argument, which every payload class
    has. *)
Definition generate_mic_join_request (mhdr : MHDR.t) (join_request : Payload)
    (app_key : bytes) : result bytes :=
  h <- MHDR.generate mhdr ;;
  j <- Payload_generate join_request ;;
  let message := h ++ j in
  encryption.generate_mic app_key message.

(** [computed == phy_payload.mic]: the stored MIC is [Optional[bytes]],
    and [bytes] never equal [None]. *)
Definition mic_eq (computed : bytes) (mic : option bytes) : bool :=
  match mic with
  | Some m => bytes_eqb computed m
  | None => false
  end.

Definition verify_mic_join_request (phy_payload : PHYPayload.t)
    (app_key : bytes) : result bool :=
  mic <- generate_mic_join_request (PHYPayload.mhdr phy_payload)
           (PHYPayload.payload phy_payload) app_key ;;
  Ok (mic_eq mic (PHYPayload.mic phy_payload)).

(** [verify_mic_mac_payload].  On a payload that is no [MACPayload],
    [generate_mic_mac_payload] serialises the header and the payload and
    then fails on [mac_payload.fhdr]. *)
Definition verify_mic_mac_payload (phy_payload : PHYPayload.t)
    (nwk_skey : bytes) : outcome bool :=
  match PHYPayload.payload phy_payload with
  | PMACPayload p =>
      lift (mic <- generate_mic_mac_payload (PHYPayload.mhdr phy_payload) p
                     nwk_skey ;;
            Ok (mic_eq mic (PHYPayload.mic phy_payload)))
  | other =>
      match (h <- MHDR.generate (PHYPayload.mhdr phy_payload) ;;
             p <- Payload_generate other ;;
             Ok (h ++ p)) with
      | Err e => Raise (Exn e)
      | Ok _ => Raise AttributeError
      end
  end.

(** [verify_mic_phy_payload]: a payload of neither class falls off the
    end of the function, which then returns [None]. *)
Definition verify_mic_phy_payload (phy_payload : PHYPayload.t) (key : bytes)
  : outcome (option bool) :=
  match PHYPayload.payload phy_payload with
  | PJoinRequest _ =>
      lift (b <- verify_mic_join_request phy_payload key ;; Ok (Some b))
  | PMACPayload _ =>
      match verify_mic_mac_payload phy_payload key with
      | Return b => Return (Some b)
      | Raise e => Raise e
      end
  | PProprietary _ => Return None
  end.

Definition generate_key (app_key : bytes) (type_of_key : TypeOfKey)
    (app_nonce net_id dev_nonce : Z) : result bytes :=
  t <- int_to_bytes (TypeOfKey_value type_of_key) 1 ;;
  a <- int_to_bytes app_nonce 3 ;;
  n <- int_to_bytes net_id 3 ;;
  d <- int_to_bytes dev_nonce 2 ;;
  let message := t ++ a ++ n ++ d ++ repeat x00 7 in
  encryption.aes128_encrypt app_key message.

Definition generate_nwk_s_key (app_key : bytes)
    (app_nonce net_id dev_nonce : Z) : result bytes :=
  generate_key app_key NwkSKey app_nonce net_id dev_nonce.

Definition generate_app_s_key (app_key : bytes)
    (app_nonce net_id dev_nonce : Z) : result bytes :=
  generate_key app_key AppSKey app_nonce net_id dev_nonce.

Definition calc_ping_offset (beacon_time : Z) (dev_addr : string)
    (ping_period : Z) : outcome Z :=
  let key := repeat x00 16 in
  match (t <- struct_pack_int32 beacon_time ;;
         a <- unreadable dev_addr ;;
         let message := t ++ a ++ repeat x00 8 in
         rand <- encryption.aes128_encrypt key message ;;
         r0 <- getitem rand 0 ;;
         r1 <- getitem rand 1 ;;
         Ok (r0 + r1 * 256)) with
  | Err e => Raise (Exn e)
  | Ok v =>
      if ping_period =? 0 then Raise ZeroDivisionError
      else Return (v mod ping_period)
  end.

(** [MACCommandDirection(direction + 1)] *)
Definition MACCommandDirection_of_value (v : Z)
  : result mac_commands.MACCommandDirection :=
  match v with
  | 1 => Ok mac_commands.UP
  | 2 => Ok mac_commands.DOWN
  | _ => Err ValueError
  end.

(** [extract_mac_commands]: the list returned and what [parse] logged. *)
Definition extract_mac_commands (mac_payload : MACPayload.t)
    (nwk_s_key : bytes) : result (list mac_commands.MACCommand * list exn) :=
  let direction := direction_of mac_payload in
  commands_buffer <-
    match MACPayload.f_port mac_payload with
    | Some 0 =>
        decrypt_frm_payload (MACPayload.frm_payload mac_payload) nwk_s_key
          (FHDR.dev_addr (MACPayload.fhdr mac_payload))
          (FHDR.f_cnt (MACPayload.fhdr mac_payload)) direction
    | _ => Ok (FHDR.f_opts (MACPayload.fhdr mac_payload))
    end ;;
  d <- MACCommandDirection_of_value (direction + 1) ;;
  Ok (mac_commands.MACCommandParser.parse commands_buffer d).

End common.

(** ** The regional bands: data rates, channels and plans

    [bands/interface.py], [bands/common.py] and the four band modules.
    The tables of payload sizes under dwell time are those of [bands]
    above. *)

(** [[f(x) for x in l]] when [f] can raise: the first exception ends the
    comprehension. *)
Fixpoint result_map {A B : Type} (f : A -> result B) (l : list A)
  : result (list B) :=
  match l with
  | [] => Ok []
  | x :: rest =>
      y <- f x ;;
      ys <- result_map f rest ;;
      Ok (y :: ys)
  end.

(** [enumerate(l)] *)
Definition enumerate {A : Type} (l : list A) : list (Z * A) :=
  combine (py_range 0 (Z.of_nat (List.length l))) l.

Module interface.

Inductive Modulation : Set := LoRa | FSK | LRFHSS.

(** [Direction(IntEnum)]: [uplink], [downlink] and [both] are 1, 2, 3. *)
Inductive Direction : Set := uplink | downlink | both.

Definition Direction_value (d : Direction) : Z :=
  match d with
  | uplink => 1
  | downlink => 2
  | both => 3
  end.

Definition Direction_eqb (a b : Direction) : bool :=
  Direction_value a =? Direction_value b.

(** [DataRate] and its subclasses; [RFUDataRate] fixes the direction to
    [both]. *)
Module DataRate.

Inductive t : Set :=
  | RFUDataRate (index : Z)
  | LoRaDataRate (index spreading bandwidth : Z) (direction : Direction)
  | FSKDataRate (index bitrate : Z) (direction : Direction)
  | LRFHSSDataRate (index : Z) (coding_rate : string)
                   (occupied_channel_width : Z) (direction : Direction).

Definition index (self : t) : Z :=
  match self with
  | RFUDataRate i | LoRaDataRate i _ _ _ | FSKDataRate i _ _
  | LRFHSSDataRate i _ _ _ => i
  end.

Definition direction (self : t) : Direction :=
  match self with
  | RFUDataRate _ => both
  | LoRaDataRate _ _ _ d | FSKDataRate _ _ d | LRFHSSDataRate _ _ _ d => d
  end.

Definition modulation (self : t) : option Modulation :=
  match self with
  | RFUDataRate _ => None
  | LoRaDataRate _ _ _ _ => Some LoRa
  | FSKDataRate _ _ _ => Some FSK
  | LRFHSSDataRate _ _ _ _ => Some LRFHSS
  end.

Definition allowed_for_uplink (self : t) : bool :=
  negb (Direction_eqb (direction self) downlink).

Definition allowed_for_downlink (self : t) : bool :=
  negb (Direction_eqb (direction self) uplink).

End DataRate.

Module MaxPayloadSize.

Record t : Set := { dr : Z; n : Z }.

Definition m (self : t) : Z := n self + 8.

End MaxPayloadSize.

(** The properties [m_dwell_0] and [m_dwell_1] of
    [MaxPayloadSizeWithDwell]. *)
Definition m_dwell_0 (self : bands.MaxPayloadSizeWithDwell) : option Z :=
  match bands.n_dwell_0 self with
  | None => None
  | Some n => Some (n + 8)
  end.

Definition m_dwell_1 (self : bands.MaxPayloadSizeWithDwell) : option Z :=
  match bands.n_dwell_1 self with
  | None => None
  | Some n => Some (n + 8)
  end.

Module Channel.

Record t : Set := {
  index : Z;
  frequency_khz : Z;
  datarates : list DataRate.t;
  coding_rate : option string;
  fixed : bool;
  is_used : bool
}.

(** [Channel(index=..., frequency_khz=..., datarates=..., fixed=...)]:
    [coding_rate] and [is_used] keep the defaults of [__init__], and
    [fixed] defaults to [True]. *)
Definition init (index frequency_khz : Z) (datarates : list DataRate.t)
    (fixed : bool) : t :=
  {| index := index; frequency_khz := frequency_khz; datarates := datarates;
     coding_rate := Some "4/5"%string; fixed := fixed; is_used := true |}.

(** [channel.is_used = value] on a copy of [channel]. *)
Definition set_is_used (channel : t) (value : bool) : t :=
  {| index := index channel;
     frequency_khz := frequency_khz channel;
     datarates := datarates channel;
     coding_rate := coding_rate channel;
     fixed := fixed channel;
     is_used := value |}.

Definition datarate_index_is_used (self : t) (index : Z) : result bool :=
  first <- list_getitem (datarates self) 0 ;;
  let min_index := DataRate.index first in
  last <- list_getitem (datarates self) (-1) ;;
  let max_index := DataRate.index last in
  Ok ((min_index <=? index) && (index <=? max_index)).

End Channel.

(** [Band.get_datarate_by_sf_bw]: the first LoRa row of the table, in the
    order of its items, with the spreading factor and the bandwidth
    asked for; [None] when the loop ends. *)
Fixpoint get_datarate_by_sf_bw (table_datarates : dict DataRate.t)
    (spreading bandwidth_khz : Z) : option DataRate.t :=
  match table_datarates with
  | [] => None
  | (_, datarate) :: rest =>
      match datarate with
      | DataRate.LoRaDataRate _ s b _ =>
          if (s =? spreading) && (b =? bandwidth_khz) then Some datarate
          else get_datarate_by_sf_bw rest spreading bandwidth_khz
      | _ => get_datarate_by_sf_bw rest spreading bandwidth_khz
      end
  end.

Definition get_uplink_channel_by_index (uplink_channels : list Channel.t)
    (index : Z) : result Channel.t :=
  list_getitem uplink_channels index.

(** [Band.get_uplink_channel_by_freq_khz]: the first channel of the list
    with the frequency, [None] when the loop ends. *)
Fixpoint get_uplink_channel_by_freq_khz (uplink_channels : list Channel.t)
    (frequency_khz : Z) : option Channel.t :=
  match uplink_channels with
  | [] => None
  | channel :: rest =>
      if Channel.frequency_khz channel =? frequency_khz then Some channel
      else get_uplink_channel_by_freq_khz rest frequency_khz
  end.

End interface.

(** One [Channel(...)] expression of a class body whose data rates are
    looked up in a table: the lookup comes first and can raise. *)
Definition channel (index frequency_khz : Z)
    (datarates : result (list interface.DataRate.t)) (fixed : bool)
  : result interface.Channel.t :=
  d <- datarates ;;
  Ok (interface.Channel.init index frequency_khz d fixed).

(** bands/common.py *)
Definition get_range_datarates (table_datarates : dict interface.DataRate.t)
    (start end_ : Z) : result (list interface.DataRate.t) :=
  result_map (dict_getitem table_datarates) (py_range start end_).

(** bands/RP2_1_0_2/us902_928.py *)
Module us902_928.

Import interface.

Definition calculate_uplink_channels (table_datarates : dict DataRate.t)
  : result (list Channel.t) :=
  let starting_frequency_125bw_khz := 902300 in
  let step_for_125bw_khz := 200 in
  datarates <- result_map (dict_getitem table_datarates) (py_range 0 4) ;;
  let channels :=
    map (fun index =>
           Channel.init index
             (starting_frequency_125bw_khz + index * step_for_125bw_khz)
             datarates true)
        (py_range 0 64) in
  let starting_frequency_500bw_khz := 903000 in
  let step_for_500bw_khz := 1600 in
  d4 <- dict_getitem table_datarates 4 ;;
  let datarates := [d4] in
  Ok (channels
      ++ map (fun '(offset, index) =>
                Channel.init index
                  (starting_frequency_500bw_khz + offset * step_for_500bw_khz)
                  datarates true)
             (enumerate (py_range 64 72))).

Definition calculate_downlink_channels (table_datarates : dict DataRate.t)
  : result (list Channel.t) :=
  let starting_frequency_khz := 923000 in
  let step_khz := 600 in
  datarates <- result_map (dict_getitem table_datarates) (py_range 8 14) ;;
  Ok (map (fun index =>
             Channel.init index (starting_frequency_khz + index * step_khz)
                          datarates true)
          (py_range 0 8)).

Definition calculate_uplink_channels_for_subband_a (channels : list Channel.t)
  : list Channel.t :=
  let modify_uplink_channel channel :=
    if 8 <=? Channel.index channel then Channel.set_is_used channel false
    else Channel.set_is_used channel true in
  map modify_uplink_channel channels.

Definition calculate_uplink_channels_for_subband_ab
    (channels : list Channel.t) : list Channel.t :=
  let modify_uplink_channel channel :=
    let index := Channel.index channel in
    if ((2 <=? index) && (index <=? 5))
       || ((10 <=? index) && (index <=? 13))
       || (index =? 64)
    then Channel.set_is_used channel true
    else Channel.set_is_used channel false in
  map modify_uplink_channel channels.

Module US902_928.

Definition table_datarates : dict DataRate.t := [
  (0, DataRate.LoRaDataRate 0 10 125 uplink);
  (1, DataRate.LoRaDataRate 1 9 125 uplink);
  (2, DataRate.LoRaDataRate 2 8 125 uplink);
  (3, DataRate.LoRaDataRate 3 7 125 uplink);
  (4, DataRate.LoRaDataRate 4 8 500 uplink);
  (5, DataRate.LRFHSSDataRate 5 "1/3" 1523000 uplink);
  (6, DataRate.LRFHSSDataRate 6 "2/3" 1523000 uplink);
  (7, DataRate.RFUDataRate 7);
  (8, DataRate.LoRaDataRate 8 12 500 downlink);
  (9, DataRate.LoRaDataRate 9 11 500 downlink);
  (10, DataRate.LoRaDataRate 10 10 500 downlink);
  (11, DataRate.LoRaDataRate 11 9 500 downlink);
  (12, DataRate.LoRaDataRate 12 8 500 downlink);
  (13, DataRate.LoRaDataRate 13 7 500 downlink);
  (14, DataRate.RFUDataRate 14);
  (15, DataRate.RFUDataRate 15)
].

Definition table_maximum_payload_size : dict MaxPayloadSize.t := [
  (0, {| MaxPayloadSize.dr := 0; MaxPayloadSize.n := 11 |});
  (1, {| MaxPayloadSize.dr := 1; MaxPayloadSize.n := 53 |});
  (2, {| MaxPayloadSize.dr := 2; MaxPayloadSize.n := 125 |});
  (3, {| MaxPayloadSize.dr := 3; MaxPayloadSize.n := 242 |});
  (4, {| MaxPayloadSize.dr := 4; MaxPayloadSize.n := 242 |});
  (8, {| MaxPayloadSize.dr := 8; MaxPayloadSize.n := 33 |});
  (9, {| MaxPayloadSize.dr := 9; MaxPayloadSize.n := 109 |});
  (10, {| MaxPayloadSize.dr := 10; MaxPayloadSize.n := 222 |});
  (11, {| MaxPayloadSize.dr := 11; MaxPayloadSize.n := 222 |});
  (12, {| MaxPayloadSize.dr := 12; MaxPayloadSize.n := 222 |});
  (13, {| MaxPayloadSize.dr := 12; MaxPayloadSize.n := 222 |})
].

(** The class attributes computed when the class is created. *)
Definition uplink_channels : result (list Channel.t) :=
  calculate_uplink_channels table_datarates.
Definition downlink_channels : result (list Channel.t) :=
  calculate_downlink_channels table_datarates.

Definition get_downlink_datarate (uplink_datarate : DataRate.t)
    (rx1_datarate_offset : Z) : result DataRate.t :=
  let downlink_dr_index :=
    Z.min (Z.max 8 (10 + DataRate.index uplink_datarate - rx1_datarate_offset))
          13 in
  dict_getitem table_datarates downlink_dr_index.

Definition get_downlink_channel (uplink_channel : Channel.t)
  : result Channel.t :=
  let index := Channel.index uplink_channel mod 8 in
  channels <- downlink_channels ;;
  list_getitem channels index.

Definition get_max_payload_size (datarate : DataRate.t) : result Z :=
  max_size <- dict_getitem table_maximum_payload_size
                (DataRate.index datarate) ;;
  Ok (MaxPayloadSize.n max_size).

(** The methods inherited from [Band]. *)
Definition get_datarate_by_sf_bw (spreading bandwidth_khz : Z)
  : option DataRate.t :=
  interface.get_datarate_by_sf_bw table_datarates spreading bandwidth_khz.

Definition get_uplink_channel_by_index (index : Z) : result Channel.t :=
  channels <- uplink_channels ;;
  interface.get_uplink_channel_by_index channels index.

Definition get_uplink_channel_by_freq_khz (frequency_khz : Z)
  : result (option Channel.t) :=
  channels <- uplink_channels ;;
  Ok (interface.get_uplink_channel_by_freq_khz channels frequency_khz).

End US902_928.

(** [US902_928A] and [US902_928AB] override [uplink_channels] alone. *)
Module US902_928A.

Definition uplink_channels : result (list Channel.t) :=
  channels <- US902_928.uplink_channels ;;
  Ok (calculate_uplink_channels_for_subband_a channels).

End US902_928A.

Module US902_928AB.

Definition uplink_channels : result (list Channel.t) :=
  channels <- US902_928.uplink_channels ;;
  Ok (calculate_uplink_channels_for_subband_ab channels).

End US902_928AB.

End us902_928.

(** bands/RP2_1_0_3/au915_928.py *)
Module au915_928.

Import interface.

Definition calculate_uplink_channels (table_datarates : dict DataRate.t)
  : result (list Channel.t) :=
  let starting_frequency_125bw_khz := 915200 in
  let step_for_125bw_khz := 200 in
  datarates <- result_map (dict_getitem table_datarates) (py_range 0 6) ;;
  let channels :=
    map (fun index =>
           Channel.init index
             (starting_frequency_125bw_khz + index * step_for_125bw_khz)
             datarates true)
        (py_range 0 64) in
  let starting_frequency_500bw_khz := 915900 in
  let step_for_500bw_khz := 1600 in
  d6 <- dict_getitem table_datarates 6 ;;
  let datarates := [d6] in
  Ok (channels
      ++ map (fun '(offset, index) =>
                Channel.init index
                  (starting_frequency_500bw_khz + offset * step_for_500bw_khz)
                  datarates true)
             (enumerate (py_range 64 72))).

Definition calculate_downlink_channels (table_datarates : dict DataRate.t)
  : result (list Channel.t) :=
  let starting_frequency_khz := 923300 in
  let step_khz := 600 in
  datarates <- result_map (dict_getitem table_datarates) (py_range 8 14) ;;
  Ok (map (fun index =>
             Channel.init index (starting_frequency_khz + index * step_khz)
                          datarates true)
          (py_range 0 8)).

Definition calculate_uplink_channels_for_subband_a (channels : list Channel.t)
  : list Channel.t :=
  let modify_uplink_channel channel :=
    if 8 <=? Channel.index channel then Channel.set_is_used channel false
    else Channel.set_is_used channel true in
  map modify_uplink_channel channels.

Module AU915_928.

Definition table_datarates : dict DataRate.t := [
  (0, DataRate.LoRaDataRate 0 12 125 uplink);
  (1, DataRate.LoRaDataRate 1 11 125 uplink);
  (2, DataRate.LoRaDataRate 2 10 125 uplink);
  (3, DataRate.LoRaDataRate 3 9 125 uplink);
  (4, DataRate.LoRaDataRate 4 8 125 uplink);
  (5, DataRate.LoRaDataRate 5 7 125 uplink);
  (6, DataRate.LoRaDataRate 6 8 500 uplink);
  (7, DataRate.LRFHSSDataRate 7 "1/3" 1523000 uplink);
  (8, DataRate.LoRaDataRate 8 12 500 downlink);
  (9, DataRate.LoRaDataRate 9 11 500 downlink);
  (10, DataRate.LoRaDataRate 10 10 500 downlink);
  (11, DataRate.LoRaDataRate 11 9 500 downlink);
  (12, DataRate.LoRaDataRate 12 8 500 downlink);
  (13, DataRate.LoRaDataRate 13 7 500 downlink);
  (14, DataRate.RFUDataRate 14);
  (15, DataRate.RFUDataRate 15)
].

Definition uplink_channels : result (list Channel.t) :=
  calculate_uplink_channels table_datarates.
Definition downlink_channels : result (list Channel.t) :=
  calculate_downlink_channels table_datarates.

Definition get_downlink_datarate (uplink_datarate : DataRate.t)
    (rx1_datarate_offset : Z) : result DataRate.t :=
  let downlink_dr_index :=
    Z.min (Z.max 8 (8 + DataRate.index uplink_datarate - rx1_datarate_offset))
          13 in
  dict_getitem table_datarates downlink_dr_index.

Definition get_downlink_channel (uplink_channel : Channel.t)
  : result Channel.t :=
  let index := Channel.index uplink_channel mod 8 in
  channels <- downlink_channels ;;
  list_getitem channels index.

(** The table of payload sizes and the lookup are those of
    [bands.AU915_928]; the lookup reads [datarate.index] alone. *)
Definition get_max_payload_size (datarate : DataRate.t) (dwell_time : Z)
  : result (option Z) :=
  bands.AU915_928.get_max_payload_size
    {| bands.index := DataRate.index datarate |} dwell_time.

Definition get_datarate_by_sf_bw (spreading bandwidth_khz : Z)
  : option DataRate.t :=
  interface.get_datarate_by_sf_bw table_datarates spreading bandwidth_khz.

Definition get_uplink_channel_by_index (index : Z) : result Channel.t :=
  channels <- uplink_channels ;;
  interface.get_uplink_channel_by_index channels index.

Definition get_uplink_channel_by_freq_khz (frequency_khz : Z)
  : result (option Channel.t) :=
  channels <- uplink_channels ;;
  Ok (interface.get_uplink_channel_by_freq_khz channels frequency_khz).

End AU915_928.

Module AU915_928A.

Definition uplink_channels : result (list Channel.t) :=
  channels <- AU915_928.uplink_channels ;;
  Ok (calculate_uplink_channels_for_subband_a channels).

End AU915_928A.

End au915_928.

(** bands/RP2_1_0_2/as923.py *)
Module as923.

Import interface.

Module AS923.

Definition table_datarates : dict DataRate.t := [
  (0, DataRate.LoRaDataRate 0 12 125 both);
  (1, DataRate.LoRaDataRate 1 11 125 both);
  (2, DataRate.LoRaDataRate 2 10 125 both);
  (3, DataRate.LoRaDataRate 3 9 125 both);
  (4, DataRate.LoRaDataRate 4 8 125 both);
  (5, DataRate.LoRaDataRate 5 7 125 both);
  (6, DataRate.LoRaDataRate 6 7 250 both);
  (7, DataRate.FSKDataRate 7 50000 both);
  (8, DataRate.RFUDataRate 8);
  (9, DataRate.RFUDataRate 9);
  (10, DataRate.RFUDataRate 10);
  (11, DataRate.RFUDataRate 11);
  (12, DataRate.RFUDataRate 12);
  (13, DataRate.RFUDataRate 13);
  (14, DataRate.RFUDataRate 14);
  (15, DataRate.RFUDataRate 15)
].

Definition uplink_channels : result (list Channel.t) :=
  result_map (fun c => c) [
    channel 0 923200 (get_range_datarates table_datarates 0 6) true;
    channel 1 923400 (get_range_datarates table_datarates 0 6) true;
    channel 2 923000 (get_range_datarates table_datarates 0 6) false;
    channel 3 923600 (get_range_datarates table_datarates 0 6) false;
    channel 4 923800 (get_range_datarates table_datarates 0 6) false;
    channel 5 924000
      (d <- dict_getitem table_datarates 6 ;; Ok [d]) false;
    channel 6 924200 (get_range_datarates table_datarates 0 6) false;
    channel 7 924400
      (d <- dict_getitem table_datarates 7 ;; Ok [d]) false
  ].

(** [uplink_channels = downlink_channels = [...]]: one list under two
    names. *)
Definition downlink_channels : result (list Channel.t) := uplink_channels.

Definition get_downlink_datarate (uplink_datarate : DataRate.t)
    (rx1_datarate_offset : Z) : result DataRate.t :=
  let downlink_dr_index :=
    Z.min 5 (Z.max 0 (DataRate.index uplink_datarate - rx1_datarate_offset)) in
  dict_getitem table_datarates downlink_dr_index.

Definition get_downlink_channel (uplink_channel : Channel.t)
  : result Channel.t :=
  let index := Channel.index uplink_channel in
  channels <- downlink_channels ;;
  list_getitem channels index.

Definition get_max_payload_size (datarate : DataRate.t) (dwell_time : Z)
  : result (option Z) :=
  bands.AS923.get_max_payload_size
    {| bands.index := DataRate.index datarate |} dwell_time.

Definition get_datarate_by_sf_bw (spreading bandwidth_khz : Z)
  : option DataRate.t :=
  interface.get_datarate_by_sf_bw table_datarates spreading bandwidth_khz.

Definition get_uplink_channel_by_index (index : Z) : result Channel.t :=
  channels <- uplink_channels ;;
  interface.get_uplink_channel_by_index channels index.

Definition get_uplink_channel_by_freq_khz (frequency_khz : Z)
  : result (option Channel.t) :=
  channels <- uplink_channels ;;
  Ok (interface.get_uplink_channel_by_freq_khz channels frequency_khz).

End AS923.

End as923.

(** bands/RP2_1_0_3/eu863_870.py *)
Module eu863_870.

Import interface.

Module EU863_870.

Definition table_datarates : dict DataRate.t := [
  (0, DataRate.LoRaDataRate 0 12 125 both);
  (1, DataRate.LoRaDataRate 1 11 125 both);
  (2, DataRate.LoRaDataRate 2 10 125 both);
  (3, DataRate.LoRaDataRate 3 9 125 both);
  (4, DataRate.LoRaDataRate 4 8 125 both);
  (5, DataRate.LoRaDataRate 5 7 125 both);
  (6, DataRate.LoRaDataRate 6 7 250 both);
  (7, DataRate.FSKDataRate 7 50000 both);
  (8, DataRate.LRFHSSDataRate 8 "1/3" 137000 uplink);
  (9, DataRate.LRFHSSDataRate 9 "2/3" 137000 uplink);
  (10, DataRate.LRFHSSDataRate 10 "1/3" 336000 uplink);
  (11, DataRate.LRFHSSDataRate 11 "2/3" 336000 uplink);
  (12, DataRate.RFUDataRate 12);
  (13, DataRate.RFUDataRate 13);
  (14, DataRate.RFUDataRate 14);
  (15, DataRate.RFUDataRate 15)
].

Definition table_maximum_payload_size : dict MaxPayloadSize.t := [
  (0, {| MaxPayloadSize.dr := 0; MaxPayloadSize.n := 51 |});
  (1, {| MaxPayloadSize.dr := 1; MaxPayloadSize.n := 51 |});
  (2, {| MaxPayloadSize.dr := 2; MaxPayloadSize.n := 51 |});
  (3, {| MaxPayloadSize.dr := 3; MaxPayloadSize.n := 115 |});
  (4, {| MaxPayloadSize.dr := 4; MaxPayloadSize.n := 222 |});
  (5, {| MaxPayloadSize.dr := 5; MaxPayloadSize.n := 222 |});
  (6, {| MaxPayloadSize.dr := 6; MaxPayloadSize.n := 222 |});
  (7, {| MaxPayloadSize.dr := 7; MaxPayloadSize.n := 222 |})
].

Definition uplink_channels : result (list Channel.t) :=
  result_map (fun c => c) [
    channel 0 868100
      (get_range_datarates table_datarates 0 6) true;
    channel 1 868300
      (get_range_datarates table_datarates 0 6) true;
    channel 2 868500
      (get_range_datarates table_datarates 0 6) true;
    channel 3 867100
      (get_range_datarates table_datarates 0 6) false;
    channel 4 867500
      (get_range_datarates table_datarates 0 6) false;
    channel 5 867700
      (get_range_datarates table_datarates 0 6) false;
    channel 6 867900
      (get_range_datarates table_datarates 0 6) false;
    channel 7 867300
      (d <- dict_getitem table_datarates 6 ;; Ok [d]) false;
    channel 8 867700
      (d <- dict_getitem table_datarates 7 ;; Ok [d]) false
  ].

Definition downlink_channels : result (list Channel.t) := uplink_channels.

Definition get_range_datarate (uplink_datarate : DataRate.t)
    (rx1_datarate_offset : Z) : result DataRate.t :=
  let downlink_dr_index :=
    Z.max 0 (DataRate.index uplink_datarate - rx1_datarate_offset) in
  dict_getitem table_datarates downlink_dr_index.

Definition get_downlink_datarate (uplink_datarate : DataRate.t)
    (rx1_datarate_offset : Z) : result DataRate.t :=
  let downlink_dr_index :=
    Z.min (Z.max 0 (DataRate.index uplink_datarate - rx1_datarate_offset)) 7 in
  dict_getitem table_datarates downlink_dr_index.

Definition get_downlink_channel (uplink_channel : Channel.t)
  : result Channel.t :=
  let index := Channel.index uplink_channel in
  channels <- downlink_channels ;;
  list_getitem channels index.

Definition get_max_payload_size (datarate : DataRate.t) : result Z :=
  max_size <- dict_getitem table_maximum_payload_size
                (DataRate.index datarate) ;;
  Ok (MaxPayloadSize.n max_size).

Definition get_datarate_by_sf_bw (spreading bandwidth_khz : Z)
  : option DataRate.t :=
  interface.get_datarate_by_sf_bw table_datarates spreading bandwidth_khz.

Definition get_uplink_channel_by_index (index : Z) : result Channel.t :=
  channels <- uplink_channels ;;
  interface.get_uplink_channel_by_index channels index.

Definition get_uplink_channel_by_freq_khz (frequency_khz : Z)
  : result (option Channel.t) :=
  channels <- uplink_channels ;;
  Ok (interface.get_uplink_channel_by_freq_khz channels frequency_khz).

End EU863_870.

End eu863_870.

(** * Vocabulary of the statements *)

(** What [random.randint] promises: a draw within the inclusive bounds. *)
Definition randint_in_bounds (randint : Z -> Z -> Z) : Prop :=
  forall a b, a <= b -> a <= randint a b <= b.

(** A header and payloads used as examples. *)
Definition example_fhdr : message.FHDR.t :=
  {| message.FHDR.cls := message.Uplink;
     message.FHDR.dev_addr := 1;
     message.FHDR.f_ctrl :=
       message.FCtrlUp
         {| message.FCtrlUplink.adr := false;
            message.FCtrlUplink.adr_ack_req := false;
            message.FCtrlUplink.ack := false;
            message.FCtrlUplink.class_b := false;
            message.FCtrlUplink.f_opts_len := 0 |};
     message.FHDR.f_cnt := 1;
     message.FHDR.f_opts := [] |}.

(** The attribute values a MAC command can carry on the wire: each field
    within the width its encoding gives it. *)
Definition fields_in_range (cmd : mac_commands.MACCommand) : Prop :=
  match cmd with
  | mac_commands.DevStatusAns battery margin =>
      0 <= battery < 256 /\ -32 <= margin < 32
  | mac_commands.PingSlotInfoReq periodicity => 0 <= periodicity < 8
  | mac_commands.PingSlotChannelReq datarate frequency =>
      0 <= datarate < 16 /\ 0 <= frequency < 16777216
  | mac_commands.BeaconFreqReq frequency => 0 <= frequency < 16777216
  | mac_commands.LinkCheckAns margin gw_cnt =>
      0 <= margin < 256 /\ 0 <= gw_cnt < 256
  | mac_commands.LinkADRReq tx_power datarate ch_mask nb_trans ch_mask_cntl =>
      0 <= tx_power < 16 /\ 0 <= datarate < 16 /\ 0 <= ch_mask < 65536
      /\ 0 <= nb_trans < 16 /\ 0 <= ch_mask_cntl < 8
  | mac_commands.DutyCycleReq max_dcycle => 0 <= max_dcycle < 256
  | mac_commands.RXParamSetupReq rx2_datarate rx1_datarate_offset rx2_frequency =>
      0 <= rx2_datarate < 16 /\ 0 <= rx1_datarate_offset < 8
      /\ 0 <= rx2_frequency < 16777216
  | mac_commands.NewChannelReq ch_index ch_frequency min_datarate max_datarate =>
      0 <= ch_index < 256 /\ 0 <= ch_frequency < 16777216
      /\ 0 <= min_datarate < 16 /\ 0 <= max_datarate < 16
  | mac_commands.RXTimingSetupReq delay => 0 <= delay < 16
  | mac_commands.TXParamSetupReq max_eirp uplink_dwell_time downlink_dwell_time =>
      0 <= max_eirp < 16 /\ 0 <= uplink_dwell_time < 2
      /\ 0 <= downlink_dwell_time < 2
  | mac_commands.DlChannelReq ch_index freq =>
      0 <= ch_index < 256 /\ 0 <= freq < 16777216
  | mac_commands.DeviceTimeAns seconds fractional_second =>
      0 <= seconds < 4294967296 /\ 0 <= fractional_second < 256
  | _ => True
  end.

(** The one command the sign test of [DevStatusAns.generate] mishandles. *)
Definition is_zero_margin (cmd : mac_commands.MACCommand) : bool :=
  match cmd with
  | mac_commands.DevStatusAns _ margin => margin =? 0
  | _ => false
  end.

(** A [MACPayload] of direction [l] as it travels: the classes of the
    payload, of its header and of the control byte agree, every field fits
    its width on the wire, the options are as long as the control byte
    says, and an absent port comes with an empty application buffer. *)
Definition mac_payload_well_formed (l : message.link)
    (p : message.MACPayload.t) : Prop :=
  let h := message.MACPayload.fhdr p in
  message.MACPayload.cls p = l
  /\ message.FHDR.cls h = l
  /\ message.FCtrl_link (message.FHDR.f_ctrl h) = l
  /\ 0 <= message.FHDR.dev_addr h < 4294967296
  /\ 0 <= message.FHDR.f_cnt h < 65536
  /\ 0 <= message.FCtrl_f_opts_len (message.FHDR.f_ctrl h) < 16
  /\ Z.of_nat (List.length (message.FHDR.f_opts h))
     = message.FCtrl_f_opts_len (message.FHDR.f_ctrl h)
  /\ match message.MACPayload.f_port p with
     | None => message.MACPayload.frm_payload p = []
     | Some port => 0 <= port < 256
     end.

Definition join_request_well_formed (j : message.JoinRequest.t) : Prop :=
  0 <= message.JoinRequest.app_eui j < 18446744073709551616
  /\ 0 <= message.JoinRequest.dev_eui j < 18446744073709551616
  /\ 0 <= message.JoinRequest.dev_nonce j < 65536.

(** A frame [PHYPayload.parse] can produce: a version in range, a payload
    of the kind and direction the frame type announces, and a 4-byte
    MIC.  The types JoinAccept and RFU have no payload decoder in
    [PHYPayload.parse]. *)
Definition phy_payload_well_formed (phy : message.PHYPayload.t) : Prop :=
  0 <= message.MHDR.major (message.PHYPayload.mhdr phy) < 4
  /\ (exists m, message.PHYPayload.mic phy = Some m /\ List.length m = 4%nat)
  /\ match message.MHDR.mtype (message.PHYPayload.mhdr phy),
           message.PHYPayload.payload phy with
     | (message.ConfirmedDataUp | message.UnconfirmedDataUp),
       message.PMACPayload p => mac_payload_well_formed message.Uplink p
     | (message.ConfirmedDataDown | message.UnconfirmedDataDown),
       message.PMACPayload p => mac_payload_well_formed message.Downlink p
     | message.JoinRequest_, message.PJoinRequest j =>
         join_request_well_formed j
     | message.Proprietary_, message.PProprietary _ => True
     | _, _ => False
     end.

(** What the loop of [MACCommandParser.parse] does to a buffer, told
    without the loop: [decodes direction buffer commands warnings] holds
    when [commands] are the commands created one after the other from the
    start of [buffer], up to its end ([warnings] is empty) or up to the
    first one whose creation raises ([warnings] holds that exception). *)
Inductive decodes (direction : mac_commands.MACCommandDirection)
  : bytes -> list mac_commands.MACCommand -> list exn -> Prop :=
  | decodes_end : decodes direction [] [] []
  | decodes_command cid rest cmd rest' cmds warnings :
      mac_commands.MACCommandParser.create rest (b2z cid) direction
      = Ok (cmd, rest') ->
      decodes direction rest' cmds warnings ->
      decodes direction (cid :: rest) (cmd :: cmds) warnings
  | decodes_error cid rest e :
      mac_commands.MACCommandParser.create rest (b2z cid) direction = Err e ->
      decodes direction (cid :: rest) [] [e].

(** The buffer a sender builds from a list of commands. *)
Fixpoint generate_all (cmds : list mac_commands.MACCommand) : result bytes :=
  match cmds with
  | [] => Ok []
  | cmd :: rest =>
      b <- mac_commands.generate cmd ;;
      bs <- generate_all rest ;;
      Ok (b ++ bs)
  end.

(** A command the stream parser can be expected to give back in direction
    [direction]: its class is the one the direction's table has for its
    command id, its fields are in range, and it is neither of the two
    commands the code mishandles ([PingSlotChannelReq], whose declared
    [SIZE] of 1 is not the 4 bytes its body takes, and [DevStatusAns] with
    margin 0). *)
Definition streamable (direction : mac_commands.MACCommandDirection)
    (cmd : mac_commands.MACCommand) : Prop :=
  dict_get (mac_commands.MACCommandParser.mac_commands_map direction)
           (mac_commands.CID (mac_commands.class_of cmd))
  = Some (mac_commands.class_of cmd)
  /\ fields_in_range cmd
  /\ is_zero_margin cmd = false
  /\ mac_commands.class_of cmd <> mac_commands.cPingSlotChannelReq.

(** The 256 byte values, for the facts of the cipher checked value by
    value. *)
Definition all_bytes : list byte := map (fun n => z2b (Z.of_nat n)) (seq 0 256).

(** A block of the cipher: 16 bytes. *)
Definition block (s : bytes) : Prop := List.length s = 16%nat.

(** A join-accept whose fields fit their width on the wire and whose
    channel list keeps the encrypted body made of whole blocks. *)
Definition join_accept_well_formed (j : message.JoinAccept.t) : Prop :=
  0 <= message.JoinAccept.app_nonce j < 16777216
  /\ 0 <= message.JoinAccept.net_id j < 16777216
  /\ 0 <= message.JoinAccept.dev_addr j < 4294967296
  /\ 0 <= message.DLSettings.rx1_dr_offset (message.JoinAccept.dl_settings j) < 8
  /\ 0 <= message.DLSettings.rx2_datarate (message.JoinAccept.dl_settings j) < 16
  /\ 0 <= message.JoinAccept.rx_delay j < 256
  /\ (List.length (message.JoinAccept.cf_list j) = 0%nat
      \/ List.length (message.JoinAccept.cf_list j) = 16%nat).

(** The block [B0] that opens the message authenticated for a data frame. *)
Definition block_b_0 (direction dev_addr f_cnt : Z) (msg_length : nat) : bytes :=
  [x49; x00; x00; x00; x00; z2b direction]
  ++ le_digits 4 dev_addr
  ++ (le_digits 2 f_cnt ++ [x00; x00])
  ++ [x00; z2b (Z.of_nat msg_length)].

(** Keys, a join-accept and a frame used as examples. *)
Definition key_zero : bytes := repeat x00 16.
Definition key_0_to_f : bytes :=
  [x00; x01; x02; x03; x04; x05; x06; x07;
   x08; x09; x0a; x0b; x0c; x0d; x0e; x0f].

Definition example_join_accept : message.JoinAccept.t :=
  {| message.JoinAccept.app_nonce := 1;
     message.JoinAccept.net_id := 1;
     message.JoinAccept.dev_addr := 1128537;
     message.JoinAccept.dl_settings :=
       {| message.DLSettings.rx1_dr_offset := 0;
          message.DLSettings.rx2_datarate := 0 |};
     message.JoinAccept.rx_delay := 1;
     message.JoinAccept.cf_list := [] |}.

Definition long_mac_payload : message.MACPayload.t :=
  {| message.MACPayload.cls := message.Uplink;
     message.MACPayload.fhdr := example_fhdr;
     message.MACPayload.f_port := Some 1;
     message.MACPayload.frm_payload := repeat x00 247 |}.

Definition example_join_request : message.JoinRequest.t :=
  {| message.JoinRequest.app_eui := 1;
     message.JoinRequest.dev_eui := 2;
     message.JoinRequest.dev_nonce := 3 |}.

(** The frame types of the downlink data frames, read from the header
    byte. *)
Definition is_downlink_data (h : byte) : bool :=
  let t := Z.shiftr (b2z h) 5 in (t =? 3) || (t =? 5).

(** [raw] with the bits cleared that [PHYPayload.parse] does not read:
    bits 2 to 4 of the header byte and, in a downlink data frame, bit 6
    of the frame-control byte. *)
Definition clear_reserved (raw : bytes) : bytes :=
  match raw with
  | h :: a0 :: a1 :: a2 :: a3 :: c :: rest =>
      z2b (Z.land (b2z h) 0xE3) :: a0 :: a1 :: a2 :: a3
      :: (if is_downlink_data h then z2b (Z.land (b2z c) 0xBF) else c)
      :: rest
  | h :: rest => z2b (Z.land (b2z h) 0xE3) :: rest
  | [] => []
  end.

(** A join-accept whose fields fit their width on the wire, whatever the
    length of its channel list. *)
Definition join_accept_fields_in_range (j : message.JoinAccept.t) : Prop :=
  0 <= message.JoinAccept.app_nonce j < 16777216
  /\ 0 <= message.JoinAccept.net_id j < 16777216
  /\ 0 <= message.JoinAccept.dev_addr j < 4294967296
  /\ 0 <= message.DLSettings.rx1_dr_offset (message.JoinAccept.dl_settings j) < 8
  /\ 0 <= message.DLSettings.rx2_datarate (message.JoinAccept.dl_settings j) < 16
  /\ 0 <= message.JoinAccept.rx_delay j < 256.
(** Two uplink commands, their encodings, and two data frames that carry
    them: one in the frame options, one encrypted on port 0. *)
Definition example_commands : list mac_commands.MACCommand :=
  [mac_commands.LinkCheckReq; mac_commands.DevStatusAns 200 5].

Definition example_commands_buffer : bytes := [x02; x06; xc8; x05].

Definition commands_in_options : message.MACPayload.t :=
  {| message.MACPayload.cls := message.Uplink;
     message.MACPayload.fhdr :=
       {| message.FHDR.cls := message.Uplink;
          message.FHDR.dev_addr := 1;
          message.FHDR.f_ctrl :=
            message.FCtrlUp
              {| message.FCtrlUplink.adr := false;
                 message.FCtrlUplink.adr_ack_req := false;
                 message.FCtrlUplink.ack := false;
                 message.FCtrlUplink.class_b := false;
                 message.FCtrlUplink.f_opts_len := 4 |};
          message.FHDR.f_cnt := 1;
          message.FHDR.f_opts := example_commands_buffer |};
     message.MACPayload.f_port := Some 1;
     message.MACPayload.frm_payload := [x68; x69] |}.

Definition commands_on_port_0 : message.MACPayload.t :=
  {| message.MACPayload.cls := message.Uplink;
     message.MACPayload.fhdr := example_fhdr;
     message.MACPayload.f_port := Some 0;
     message.MACPayload.frm_payload := [x9d; xca; x92; x0f] |}.

(** A downlink data frame with the bits set that the parser skips. *)
Definition frame_with_reserved_bits : bytes :=
  [x7c; x01; x00; x00; x00; x40; x01; x00; x0a; x0b; x0c; x0d].
(** The attribute values [generate] can encode: the attributes it writes
    with [bytes([...])] or [to_bytes] unmasked must fit the bytes they
    are given; the attributes it masks are free. *)
Definition encodable (cmd : mac_commands.MACCommand) : Prop :=
  match cmd with
  | mac_commands.DevStatusAns battery _ => 0 <= battery < 256
  | mac_commands.PingSlotInfoReq periodicity => 0 <= periodicity < 256
  | mac_commands.PingSlotChannelReq datarate frequency =>
      0 <= frequency < 16777216 /\ 0 <= datarate < 256
  | mac_commands.BeaconFreqReq frequency => 0 <= frequency < 16777216
  | mac_commands.LinkCheckAns margin gw_cnt =>
      0 <= margin < 256 /\ 0 <= gw_cnt < 256
  | mac_commands.DutyCycleReq max_dcycle => 0 <= max_dcycle < 256
  | mac_commands.RXParamSetupReq _ _ rx2_frequency =>
      0 <= rx2_frequency < 16777216
  | mac_commands.NewChannelReq ch_index ch_frequency _ _ =>
      0 <= ch_index < 256 /\ 0 <= ch_frequency < 16777216
  | mac_commands.RXTimingSetupReq delay => 0 <= delay < 256
  | mac_commands.TXParamSetupReq max_eirp uplink_dwell_time
                                 downlink_dwell_time =>
      0 <= Z.lor (Z.lor (Z.shiftl downlink_dwell_time 5)
                        (Z.shiftl uplink_dwell_time 4)) max_eirp < 256
  | mac_commands.DlChannelReq ch_index freq =>
      0 <= ch_index < 256 /\ 0 <= freq < 16777216
  | mac_commands.DeviceTimeAns seconds fractional_second =>
      0 <= seconds < 4294967296 /\ 0 <= fractional_second < 256
  | _ => True
  end.

(** The fields of a join-accept plaintext, read off its bytes: three
    bytes of [app_nonce], three of [net_id], four of [dev_addr], all
    little-endian; the settings byte, whose bits 4 to 6 are
    [rx1_dr_offset] and bits 0 to 3 [rx2_datarate]; one byte of
    [rx_delay]; the channel list is what follows. *)
Definition join_accept_fields (plaintext : bytes) : message.JoinAccept.t :=
  let settings := b2z (nth 10 plaintext x00) in
  {| message.JoinAccept.app_nonce := int_from_bytes (slice plaintext 0 3);
     message.JoinAccept.net_id := int_from_bytes (slice plaintext 3 6);
     message.JoinAccept.dev_addr := int_from_bytes (slice plaintext 6 10);
     message.JoinAccept.dl_settings :=
       {| message.DLSettings.rx1_dr_offset := (settings / 16) mod 8;
          message.DLSettings.rx2_datarate := settings mod 16 |};
     message.JoinAccept.rx_delay := int_from_bytes (slice plaintext 11 12);
     message.JoinAccept.cf_list := skipn 12 plaintext |}.

(** * Properties *)

(** ** Bytes and integers *)

Lemma b2z_range (b : byte) : 0 <= b2z b < 256.
Proof.
  unfold b2z. pose proof (Byte.to_N_bounded b) as H.
  split; [apply N2Z.is_nonneg|].
  apply N.le_lteq in H. lia.
Qed.

Lemma z2b_b2z (b : byte) : z2b (b2z b) = b.
Proof.
  unfold z2b, b2z. rewrite N2Z.id, Byte.of_to_N. reflexivity.
Qed.

Lemma b2z_z2b (z : Z) : 0 <= z < 256 -> b2z (z2b z) = z.
Proof.
  intros H. unfold z2b, b2z.
  destruct (Byte.of_N (Z.to_N z)) as [b|] eqn:E.
  - apply Byte.to_of_N in E. rewrite E. lia.
  - apply Byte.of_N_None_iff in E. lia.
Qed.

Lemma b2z_inj (a b : byte) : b2z a = b2z b -> a = b.
Proof.
  intros H. rewrite <- (z2b_b2z a), <- (z2b_b2z b), H. reflexivity.
Qed.

Lemma in_byte_range_spec (z : Z) : in_byte_range z = true <-> 0 <= z < 256.
Proof. unfold in_byte_range. lia. Qed.

Lemma le_digits_length (n : nat) (v : Z) : List.length (le_digits n v) = n.
Proof. revert v. induction n; intros; simpl; auto. Qed.

Lemma int_from_bytes_le_digits (n : nat) (v : Z) :
  0 <= v < 256 ^ Z.of_nat n -> int_from_bytes (le_digits n v) = v.
Proof.
  revert v. induction n as [|n IH]; intros v Hv.
  - simpl in *. lia.
  - cbn [le_digits int_from_bytes].
    rewrite Nat2Z.inj_succ, Z.pow_succ_r in Hv by lia.
    rewrite b2z_z2b by (apply Z.mod_pos_bound; lia).
    rewrite IH.
    + pose proof (Z.div_mod v 256). lia.
    + split; [apply Z.div_pos; lia|].
      apply Z.div_lt_upper_bound; lia.
Qed.

Lemma int_from_bytes_range (b : bytes) :
  0 <= int_from_bytes b < 256 ^ Z.of_nat (List.length b).
Proof.
  induction b as [|x b IH].
  - simpl. lia.
  - cbn [int_from_bytes List.length].
    rewrite Nat2Z.inj_succ, Z.pow_succ_r by lia.
    pose proof (b2z_range x). lia.
Qed.

Lemma le_digits_int_from_bytes (b : bytes) :
  le_digits (List.length b) (int_from_bytes b) = b.
Proof.
  induction b as [|x b IH]; [reflexivity|].
  cbn [int_from_bytes List.length le_digits].
  pose proof (b2z_range x) as Hx.
  replace ((b2z x + 256 * int_from_bytes b) mod 256) with (b2z x).
  2:{ rewrite (Z.mul_comm 256), Z.mod_add by lia.
      symmetry. apply Z.mod_small. lia. }
  replace ((b2z x + 256 * int_from_bytes b) / 256) with (int_from_bytes b).
  2:{ rewrite (Z.mul_comm 256), Z.div_add by lia.
      rewrite (Z.div_small (b2z x)) by lia. lia. }
  rewrite z2b_b2z, IH. reflexivity.
Qed.

Lemma int_to_bytes_ok (v : Z) (n : nat) :
  0 <= v < 256 ^ Z.of_nat n -> int_to_bytes v n = Ok (le_digits n v).
Proof.
  intros H. unfold int_to_bytes.
  replace ((0 <=? v) && (v <? 256 ^ Z.of_nat n)) with true by lia.
  reflexivity.
Qed.

Lemma int_to_bytes_inv (v : Z) (n : nat) (b : bytes) :
  int_to_bytes v n = Ok b ->
  0 <= v < 256 ^ Z.of_nat n /\ b = le_digits n v.
Proof.
  unfold int_to_bytes.
  destruct ((0 <=? v) && (v <? 256 ^ Z.of_nat n)) eqn:E; [|discriminate].
  intros H. inversion H. split; [lia|reflexivity].
Qed.

Lemma struct_pack_uint_ok (v : Z) (n : nat) :
  0 <= v < 256 ^ Z.of_nat n -> struct_pack_uint n v = Ok (le_digits n v).
Proof.
  intros H. unfold struct_pack_uint.
  replace ((0 <=? v) && (v <? 256 ^ Z.of_nat n)) with true by lia.
  reflexivity.
Qed.

Lemma bind_ok {A B : Type} (m : result A) (k : A -> result B) (b : B) :
  bind m k = Ok b -> exists a, m = Ok a /\ k a = Ok b.
Proof. destruct m; simpl; [eauto|discriminate]. Qed.

(** ** Channel-mask-control lookup (bands) *)

Lemma US902_928_row_present (index : Z) :
  0 <= index < 128 ->
  exists row,
    dict_get bands.US902_928.table_ch_mask_cntl_value (index / 16) = Some row.
Proof.
  intros H.
  assert (Hq : 0 <= index / 16 < 8).
  { split; [apply Z.div_pos; lia | apply Z.div_lt_upper_bound; lia]. }
  assert (Hc : index / 16 = 0 \/ index / 16 = 1 \/ index / 16 = 2
               \/ index / 16 = 3 \/ index / 16 = 4 \/ index / 16 = 5
               \/ index / 16 = 6 \/ index / 16 = 7) by lia.
  destruct Hc as [E|[E|[E|[E|[E|[E|[E|E]]]]]]]; rewrite E; simpl; eauto.
Qed.

(** Whatever the row, the subscript raises: every channel index whose row
    exists ends in [TypeError]. *)
Lemma US902_928_lookup_type_error (index : Z) :
  0 <= index < 128 ->
  bands.US902_928.get_ch_mask_cntl_by_ch_index index = Err TypeError.
Proof.
  intros H. destruct (US902_928_row_present index H) as [row Hrow].
  unfold bands.US902_928.get_ch_mask_cntl_by_ch_index,
    bands.get_ch_mask_cntl_by_ch_index, dict_contains, dict_getitem.
  rewrite Hrow. simpl. destruct row; reflexivity.
Qed.

Lemma US902_928_lookup_no_row (index : Z) :
  index < 0 \/ 128 <= index ->
  bands.US902_928.get_ch_mask_cntl_by_ch_index index = Err ChMaskCntlError.
Proof.
  intros H.
  assert (Hq : index / 16 < 0 \/ 8 <= index / 16).
  { destruct H as [H|H].
    - left. apply Z.div_lt_upper_bound; lia.
    - right. apply Z.div_le_lower_bound; lia. }
  unfold bands.US902_928.get_ch_mask_cntl_by_ch_index,
    bands.get_ch_mask_cntl_by_ch_index, dict_contains.
  unfold bands.US902_928.table_ch_mask_cntl_value. cbn [dict_get].
  repeat match goal with
         | |- context [?k =? index / 16] =>
             replace (k =? index / 16) with false by lia
         end.
  reflexivity.
Qed.

(** C2.  On the 72-channel tables of US902-928 and AU915-928 the lookup
    never returns [index // 16]: the channel indices 0, 15, 16 and 71,
    whose rows 0, 0, 1 and 4 are ranges, and the index 72, all end in
    [TypeError] raised by the subscript [row["type"]], neither in the row
    number nor in [ChMaskCntlError]; the first index to raise
    [ChMaskCntlError] is 128, which has no row. *)
Theorem get_ch_mask_cntl_by_ch_index_subscript_fails :
  forallb (fun k =>
             match dict_get bands.US902_928.table_ch_mask_cntl_value k with
             | Some row => bands.is_range row
             | None => false
             end) [0; 1; 2; 3; 4] = true
  /\ bands.US902_928.get_ch_mask_cntl_by_ch_index 0 = Err TypeError
  /\ bands.US902_928.get_ch_mask_cntl_by_ch_index 15 = Err TypeError
  /\ bands.US902_928.get_ch_mask_cntl_by_ch_index 16 = Err TypeError
  /\ bands.US902_928.get_ch_mask_cntl_by_ch_index 71 = Err TypeError
  /\ bands.US902_928.get_ch_mask_cntl_by_ch_index 72 = Err TypeError
  /\ bands.US902_928.get_ch_mask_cntl_by_ch_index 128 = Err ChMaskCntlError
  /\ bands.AU915_928.get_ch_mask_cntl_by_ch_index 0 = Err TypeError
  /\ bands.AU915_928.get_ch_mask_cntl_by_ch_index 71 = Err TypeError
  /\ bands.AU915_928.get_ch_mask_cntl_by_ch_index 72 = Err TypeError.
Proof. repeat split; reflexivity. Qed.

(** ** Payload-size lookup under dwell time (bands) *)

Lemma dict_getitem_cases {V : Type} (d : dict V) (k : Z) :
  (exists v, dict_get d k = Some v /\ dict_getitem d k = Ok v)
  \/ (dict_get d k = None /\ dict_getitem d k = Err KeyError).
Proof.
  unfold dict_getitem. destruct (dict_get d k); [left; eauto | right; auto].
Qed.

(** C4 as the code has it.  In both dwell-time-sensitive bands a
    [dwell_time] outside {0, 1} raises: [ValueError] when the datarate has
    a row, [KeyError] from the row lookup when it has none.  With
    [dwell_time] 1 at DR0 and DR1, whose dwell-1 size is undefined, the
    lookup returns [None] and raises nothing. *)
Theorem get_max_payload_size_dwell :
  forall (datarate : bands.DataRate) (dwell_time : Z),
    (dwell_time <> 0 -> dwell_time <> 1 ->
       (bands.AU915_928.get_max_payload_size datarate dwell_time
          = (if dict_contains bands.AU915_928.table_maximum_payload_size
                              (bands.index datarate)
             then Err ValueError else Err KeyError))
       /\ (bands.AS923.get_max_payload_size datarate dwell_time
          = (if dict_contains bands.AS923.table_maximum_payload_size
                              (bands.index datarate)
             then Err ValueError else Err KeyError)))
    /\ (bands.index datarate = 0 \/ bands.index datarate = 1 ->
          bands.AU915_928.get_max_payload_size datarate 1 = Ok None
          /\ bands.AS923.get_max_payload_size datarate 1 = Ok None).
Proof.
  intros datarate dwell_time. split.
  - intros H0 H1.
    unfold bands.AU915_928.get_max_payload_size,
      bands.AS923.get_max_payload_size, dict_contains.
    split.
    + destruct (dict_getitem_cases bands.AU915_928.table_maximum_payload_size
                  (bands.index datarate)) as [[v [-> ->]]|[-> ->]];
        [|reflexivity].
      simpl.
      replace (dwell_time =? 0) with false by lia.
      replace (dwell_time =? 1) with false by lia. reflexivity.
    + destruct (dict_getitem_cases bands.AS923.table_maximum_payload_size
                  (bands.index datarate)) as [[v [-> ->]]|[-> ->]];
        [|reflexivity].
      simpl.
      replace (dwell_time =? 0) with false by lia.
      replace (dwell_time =? 1) with false by lia. reflexivity.
  - intros [E|E];
      unfold bands.AU915_928.get_max_payload_size,
        bands.AS923.get_max_payload_size; rewrite E; split; reflexivity.
Qed.

Lemma get_max_payload_size_dwell_witness :
  (bands.AU915_928.get_max_payload_size {| bands.index := 2 |} 2
     = Err ValueError
   /\ bands.AS923.get_max_payload_size {| bands.index := 2 |} 2
     = Err ValueError).
Proof.
  exact (proj1 (get_max_payload_size_dwell {| bands.index := 2 |} 2)
               ltac:(discriminate) ltac:(discriminate)).
Defined.

(** C4, counterexample: with [dwell_time] 1 at DR0, whose dwell-1 size is
    undefined, both bands return [None]; no error is raised. *)
Lemma get_max_payload_size_undefined_returns_none :
  bands.AU915_928.get_max_payload_size {| bands.index := 0 |} 1 = Ok None
  /\ bands.AS923.get_max_payload_size {| bands.index := 0 |} 1 = Ok None
  /\ ~ raises (bands.AU915_928.get_max_payload_size {| bands.index := 0 |} 1)
  /\ ~ raises (bands.AS923.get_max_payload_size {| bands.index := 0 |} 1).
Proof.
  repeat split; try reflexivity; intros [e H]; discriminate H.
Qed.

(** ** Device-address allocation (common) *)

Lemma net_id_type_cases (net_id : Z) :
  0 <= net_id -> Z.shiftr net_id 21 <= 7 ->
  exists t, Z.shiftr net_id 21 = t /\ 0 <= t <= 7
            /\ 2097152 * t <= net_id < 2097152 * t + 2097152.
Proof.
  intros H0 H7. exists (Z.shiftr net_id 21).
  rewrite Z.shiftr_div_pow2 in * by lia.
  change (2 ^ 21) with 2097152 in *.
  pose proof (Z.div_mod net_id 2097152 ltac:(lia)).
  pose proof (Z.mod_pos_bound net_id 2097152 ltac:(lia)).
  assert (0 <= net_id / 2097152) by (apply Z.div_pos; lia).
  lia.
Qed.

Lemma net_type_to_params_no_row (t : Z) :
  t < 0 \/ 7 < t -> dict_getitem common.net_type_to_params t = Err KeyError.
Proof.
  intros H. unfold dict_getitem.
  cbn [common.net_type_to_params dict_get].
  repeat match goal with
         | |- context [?a =? t] =>
             replace (a =? t) with false by (symmetry; apply Z.eqb_neq; lia)
         end.
  reflexivity.
Qed.

(** C9 as the code has it.  The allocation raises [LoRaError] exactly
    when the network-id type [net_id >> 21] exceeds 7.  When the type
    lies in 0 to 7, it selects [(prefix, prefix_len, nwk_id_len)] in the
    fixed table, the draw [r] lies in [0, 2^nwk_addr_len) with
    [nwk_addr_len = 32 - nwk_id_len - prefix_len], and the address
    returned is [(prefix << (nwk_id_len + nwk_addr_len))
        + ((net_id mod 2^nwk_id_len) << nwk_addr_len) + r]; it fits in 32
    bits, its top bits are the prefix and its middle bits the network
    id.  The row of type [t] has a prefix of [t + 1] bits, [t] ones and a
    zero, and a network id of 6, 6, 9, 11, 12, 13, 15 or 17 bits.  When
    the type is negative, that is for a negative [net_id], the table has
    no row and the lookup raises [KeyError]. *)
Theorem generate_dev_addr_for_network_spec :
  forall (randint : Z -> Z -> Z) (net_id : Z),
    randint_in_bounds randint ->
    (common.generate_dev_addr_for_network randint net_id = Err LoRaError
     <-> 7 < Z.shiftr net_id 21)
    /\ (0 <= Z.shiftr net_id 21 <= 7 ->
        exists prefix prefix_len nwk_id_len nwk_addr_len r addr,
          dict_get common.net_type_to_params (Z.shiftr net_id 21)
            = Some (prefix, prefix_len, nwk_id_len)
          /\ nwk_addr_len = 32 - nwk_id_len - prefix_len
          /\ r = randint 0 (2 ^ nwk_addr_len - 1)
          /\ 0 <= r < 2 ^ nwk_addr_len
          /\ addr = Z.shiftl prefix (nwk_id_len + nwk_addr_len)
                    + Z.shiftl (net_id mod 2 ^ nwk_id_len) nwk_addr_len + r
          /\ common.generate_dev_addr_for_network randint net_id = Ok addr
          /\ 0 <= addr < 2 ^ 32
          /\ Z.shiftr addr (nwk_id_len + nwk_addr_len) = prefix
          /\ Z.shiftr addr nwk_addr_len mod 2 ^ nwk_id_len
             = net_id mod 2 ^ nwk_id_len
          /\ prefix_len = Z.shiftr net_id 21 + 1
          /\ prefix = 2 ^ prefix_len - 2
          /\ nth (Z.to_nat (Z.shiftr net_id 21))
                 [6; 6; 9; 11; 12; 13; 15; 17] 0 = nwk_id_len)
    /\ (Z.shiftr net_id 21 < 0 ->
        net_id < 0
        /\ common.generate_dev_addr_for_network randint net_id
           = Err KeyError).
Proof.
  intros randint net_id Hrand.
  assert (Hhigh : 7 < Z.shiftr net_id 21 ->
                  common.generate_dev_addr_for_network randint net_id
                  = Err LoRaError).
  { intros H. unfold common.generate_dev_addr_for_network.
    replace (7 <? Z.shiftr net_id 21) with true by lia. reflexivity. }
  assert (Hneg : Z.shiftr net_id 21 < 0 ->
                 net_id < 0
                 /\ common.generate_dev_addr_for_network randint net_id
                    = Err KeyError).
  { intros H. split; [apply (Z.shiftr_neg net_id 21); exact H|].
    unfold common.generate_dev_addr_for_network.
    replace (7 <? Z.shiftr net_id 21) with false by lia.
    rewrite net_type_to_params_no_row by lia. reflexivity. }
  assert (Hrow : 0 <= Z.shiftr net_id 21 <= 7 ->
    exists prefix prefix_len nwk_id_len nwk_addr_len r addr,
      dict_get common.net_type_to_params (Z.shiftr net_id 21)
        = Some (prefix, prefix_len, nwk_id_len)
      /\ nwk_addr_len = 32 - nwk_id_len - prefix_len
      /\ r = randint 0 (2 ^ nwk_addr_len - 1)
      /\ 0 <= r < 2 ^ nwk_addr_len
      /\ addr = Z.shiftl prefix (nwk_id_len + nwk_addr_len)
                + Z.shiftl (net_id mod 2 ^ nwk_id_len) nwk_addr_len + r
      /\ common.generate_dev_addr_for_network randint net_id = Ok addr
      /\ 0 <= addr < 2 ^ 32
      /\ Z.shiftr addr (nwk_id_len + nwk_addr_len) = prefix
      /\ Z.shiftr addr nwk_addr_len mod 2 ^ nwk_id_len
         = net_id mod 2 ^ nwk_id_len
      /\ prefix_len = Z.shiftr net_id 21 + 1
      /\ prefix = 2 ^ prefix_len - 2
      /\ nth (Z.to_nat (Z.shiftr net_id 21))
             [6; 6; 9; 11; 12; 13; 15; 17] 0 = nwk_id_len).
  { intros [Hlow H].
    assert (Hpos : 0 <= net_id) by (apply (Z.shiftr_nonneg net_id 21); exact Hlow).
    clear Hlow Hhigh Hneg.
    destruct (net_id_type_cases net_id Hpos H) as [t [Et [Ht Hnet]]].
    unfold common.generate_dev_addr_for_network.
    replace (7 <? Z.shiftr net_id 21) with false by lia.
    rewrite Et. clear Et H.
    assert (Hc : t = 0 \/ t = 1 \/ t = 2 \/ t = 3 \/ t = 4 \/ t = 5
                 \/ t = 6 \/ t = 7) by lia.
    destruct Hc as [E|[E|[E|[E|[E|[E|[E|E]]]]]]]; subst t;
      cbn [dict_getitem dict_get common.net_type_to_params Z.eqb bind
           Pos.eqb];
      match goal with
      | |- context [Some (?p, ?pl, ?il)] =>
          exists p, pl, il, (32 - il - pl),
            (randint 0 (2 ^ (32 - il - pl) - 1));
          eexists; split; [reflexivity|]; split; [reflexivity|];
          split; [reflexivity|];
          pose proof (Hrand 0 (2 ^ (32 - il - pl) - 1) ltac:(lia)) as Hr;
          pose proof (Z.mod_pos_bound net_id (2 ^ il) ltac:(lia)) as Hm
      end;
      (split; [lia|]); (split; [reflexivity|]);
      (split; [rewrite <- Z.land_ones by lia; rewrite Z.ones_equiv;
               reflexivity|]);
      rewrite !Z.shiftl_mul_pow2 by lia;
      rewrite !Z.shiftr_div_pow2 by lia;
      repeat match goal with
             | H : context [2 ^ ?e] |- _ =>
                 let v := eval vm_compute in (2 ^ e) in
                 change (2 ^ e) with v in H
             | |- context [2 ^ ?e] =>
                 let v := eval vm_compute in (2 ^ e) in
                 change (2 ^ e) with v
             end;
      (split; [lia|]);
      (split;
       [ symmetry;
         match goal with
         | |- ?p = (_ + ?m * ?b + ?rr) / ?a =>
             apply (Z.div_unique_pos _ a p (m * b + rr)); lia
         end |]);
      (split;
       [ match goal with
         | |- ((?p * ?a + ?m * ?b + ?rr) / ?b) mod ?c = ?m =>
             replace ((p * a + m * b + rr) / b) with (m + p * c);
             [ rewrite Z.mod_add by lia; apply Z.mod_small; lia
             | apply (Z.div_unique_pos _ b (m + p * c) rr); lia ]
         end |]);
      (split; [reflexivity|]); split; reflexivity. }
  split; [|split; [exact Hrow|exact Hneg]].
  split; [|exact Hhigh].
  intros E.
  destruct (Z_lt_le_dec 7 (Z.shiftr net_id 21)) as [H|H]; [exact H|].
  destruct (Z_lt_le_dec (Z.shiftr net_id 21) 0) as [H0|H0].
  - destruct (Hneg H0) as [_ E']. rewrite E' in E. discriminate E.
  - destruct (Hrow (conj H0 H))
      as (? & ? & ? & ? & ? & addr & _ & _ & _ & _ & _ & E' & _).
    rewrite E' in E. discriminate E.
Qed.

Lemma generate_dev_addr_for_network_spec_witness :
  randint_in_bounds (fun a _ => a)
  /\ common.generate_dev_addr_for_network (fun a _ => a) 16777216
     = Err LoRaError
  /\ (exists addr,
         common.generate_dev_addr_for_network (fun _ b => b) 19 = Ok addr
         /\ 0 <= addr < 2 ^ 32
         /\ Z.shiftr addr 31 = 0
         /\ Z.shiftr addr 25 mod 2 ^ 6 = 19)
  /\ common.generate_dev_addr_for_network (fun a _ => a) (-2097152)
     = Err KeyError.
Proof.
  assert (Hlow : randint_in_bounds (fun a _ => a)) by (intros a b H; lia).
  assert (Hup : randint_in_bounds (fun _ b => b)) by (intros a b H; lia).
  split; [exact Hlow|]. split; [|split].
  - exact (proj2 (proj1 (generate_dev_addr_for_network_spec
                           (fun a _ => a) 16777216 Hlow))
                 ltac:(vm_compute; reflexivity)).
  - destruct (proj1 (proj2 (generate_dev_addr_for_network_spec
                              (fun _ b => b) 19 Hup))
                    ltac:(vm_compute; split; discriminate))
      as (prefix & pl & il & al & r & addr & Hrow & Hal & _ & _ & _ & Hok
          & Hb & Hp & Hn & _).
    vm_compute in Hrow. injection Hrow as <- <- <-. subst al.
    exists addr. repeat split; try assumption; apply Hb.
  - exact (proj2 (proj2 (proj2 (generate_dev_addr_for_network_spec
                                  (fun a _ => a) (-2097152) Hlow))
                        ltac:(vm_compute; reflexivity))).
Defined.

(** C9, counterexample: the type of the network id -1 is -1, which does
    not exceed 7; the allocation then returns no address: the table
    lookup raises [KeyError], whatever the random source. *)
Lemma generate_dev_addr_for_network_negative_net_id :
  ~ 7 < Z.shiftr (-1) 21
  /\ forall randint : Z -> Z -> Z,
      common.generate_dev_addr_for_network randint (-1) = Err KeyError.
Proof.
  split; [vm_compute; discriminate|]. intros randint. reflexivity.
Qed.

(** ** The join-accept MIC check that cannot run (common) *)

(** C10.  Whatever the arguments, and whatever the rest of the expression
    would compute, [verify_mic_join_accept] raises [NameError]: the names
    it loads are bound neither as parameters, nor in the module, nor as
    built-ins.  It never returns a verdict. *)
Theorem verify_mic_join_accept_raises_name_error :
  forall (rest : result bool) (join_accept : message.JoinAccept.t)
         (app_key : bytes),
    common.verify_mic_join_accept rest join_accept app_key = Err NameError
    /\ common.load_name ["join_accept"; "app_key"]%string "phy_payload"
       = Err NameError
    /\ common.load_name ["join_accept"; "app_key"]%string "join_accept"
       = Ok tt.
Proof. intros. repeat split; reflexivity. Qed.

(** ** MACPayload: port and application buffer (message) *)

(** C7 as the code has it.  A [MACPayload] produced by [parse] has an empty
    application buffer whenever its port is absent; [generate] emits the
    header alone when the port is absent, and the header, the port byte
    and the buffer, in that order, when it is present; the constructor
    itself relates the two fields in no way and accepts an absent port
    with any buffer. *)
Theorem MACPayload_port_and_buffer :
  (forall (cls : message.link) (raw : bytes) (p : message.MACPayload.t),
      message.MACPayload.parse cls raw = Ok p ->
      message.MACPayload.f_port p = None ->
      message.MACPayload.frm_payload p = [])
  /\ (forall (p : message.MACPayload.t) (out : bytes),
        message.MACPayload.generate p = Ok out ->
        exists h,
          message.FHDR.generate (message.MACPayload.fhdr p) = Ok h
          /\ match message.MACPayload.f_port p with
             | None => out = h
             | Some port =>
                 0 <= port < 256
                 /\ out = h ++ [z2b port] ++ message.MACPayload.frm_payload p
             end)
  /\ (forall (cls : message.link) (fhdr : message.FHDR.t)
             (frm_payload : bytes),
        message.MACPayload.init cls fhdr None frm_payload
        = Ok {| message.MACPayload.cls := cls;
                message.MACPayload.fhdr := fhdr;
                message.MACPayload.f_port := None;
                message.MACPayload.frm_payload := frm_payload |}).
Proof.
  split; [|split].
  - intros cls raw p H Hport.
    unfold message.MACPayload.parse in H.
    destruct (Nat.ltb (List.length raw) 7); [discriminate|].
    apply bind_ok in H. destruct H as [[h s1] [_ H]].
    unfold stream_read, message.MACPayload.FPORT_SIZE in H.
    destruct s1 as [|b s1].
    + cbn in H. inversion H; subst. reflexivity.
    + cbn [firstn skipn] in H. unfold message.MACPayload.init in H.
      destruct (negb _); [discriminate|].
      inversion H; subst. discriminate Hport.
  - intros p out H. unfold message.MACPayload.generate in H.
    apply bind_ok in H. destruct H as [h [Hh H]].
    exists h. split; [exact Hh|].
    destruct (message.MACPayload.f_port p) as [port|].
    + apply bind_ok in H. destruct H as [b [Hb H]].
      apply int_to_bytes_inv in Hb. destruct Hb as [Hr ->].
      inversion H; subst. cbn in Hr. split; [lia|].
      cbn [le_digits message.MACPayload.FPORT_SIZE].
      rewrite Z.mod_small by lia. rewrite <- app_assoc. reflexivity.
    + inversion H; reflexivity.
  - intros. reflexivity.
Qed.

Lemma MACPayload_port_and_buffer_witness :
  message.MACPayload.frm_payload
    {| message.MACPayload.cls := message.Uplink;
       message.MACPayload.fhdr := example_fhdr;
       message.MACPayload.f_port := None;
       message.MACPayload.frm_payload := [] |} = [].
Proof.
  exact (proj1 MACPayload_port_and_buffer message.Uplink
               [x01; x00; x00; x00; x00; x01; x00] _
               eq_refl eq_refl).
Defined.

(** C7, counterexample: the constructor builds a [MACPayload] whose port is
    absent and whose application buffer is not empty; [generate] then
    leaves the buffer out. *)
Lemma MACPayload_absent_port_with_buffer :
  exists p,
    message.MACPayload.init message.Uplink example_fhdr None [x2a] = Ok p
    /\ message.MACPayload.f_port p = None
    /\ message.MACPayload.frm_payload p = [x2a]
    /\ message.MACPayload.frm_payload p <> []
    /\ message.MACPayload.generate p
       = Ok [x01; x00; x00; x00; x00; x01; x00].
Proof.
  eexists. split; [reflexivity|].
  repeat split; try reflexivity. discriminate.
Qed.

(** ** MAC commands: one command, encoded and decoded (mac_commands) *)

(** [x] is one of the [n] integers from [lo] on: one goal per value. *)
Ltac enum_Z x lo n :=
  lazymatch n with
  | O => exfalso; lia
  | S ?k =>
      let H := fresh in
      destruct (Z.eq_dec x lo) as [H|H];
      [ subst x
      | let lo' := eval compute in (lo + 1) in enum_Z x lo' k ]
  end.

Lemma bytes_of_ints_ok (l : list Z) :
  Forall (fun z => 0 <= z < 256) l -> bytes_of_ints l = Ok (map z2b l).
Proof.
  induction 1 as [|z l Hz _ IH]; [reflexivity|].
  cbn [bytes_of_ints map].
  replace (in_byte_range z) with true
    by (symmetry; apply in_byte_range_spec; exact Hz).
  rewrite IH. reflexivity.
Qed.

Lemma pack_nibbles (a b : Z) :
  0 <= a < 16 -> 0 <= b < 16 ->
  let v := Z.lor (Z.land a 15) (Z.shiftl (Z.land b 15) 4) in
  0 <= v < 256 /\ Z.land v 15 = a /\ Z.shiftr v 4 = b
  /\ Z.land (Z.shiftr v 4) 15 = b.
Proof.
  intros Ha Hb. enum_Z a 0 16%nat; enum_Z b 0 16%nat;
    vm_compute; repeat split; congruence.
Qed.

Lemma pack_nibble_3bits (a b : Z) :
  0 <= a < 16 -> 0 <= b < 8 ->
  let v := Z.lor (Z.land a 15) (Z.shiftl (Z.land b 7) 4) in
  0 <= v < 256 /\ Z.land v 15 = a /\ Z.land (Z.shiftr v 4) 7 = b.
Proof.
  intros Ha Hb. enum_Z a 0 16%nat; enum_Z b 0 8%nat;
    vm_compute; repeat split; congruence.
Qed.

Lemma pack_tx_param (e u d : Z) :
  0 <= e < 16 -> 0 <= u < 2 -> 0 <= d < 2 ->
  let v := Z.lor (Z.lor (Z.shiftl d 5) (Z.shiftl u 4)) e in
  0 <= v < 256 /\ Z.land (Z.land v 15) 15 = e
  /\ Z.land (Z.land (Z.shiftr v 4) 1) 1 = u
  /\ Z.land (Z.land (Z.shiftr v 5) 1) 1 = d.
Proof.
  intros He Hu Hd. enum_Z e 0 16%nat; enum_Z u 0 2%nat; enum_Z d 0 2%nat;
    vm_compute; repeat split; congruence.
Qed.

Lemma margin_code (margin : Z) :
  -32 <= margin < 32 -> margin <> 0 ->
  let v := if 0 <? margin then Z.land margin 31
           else Z.lor (Z.land (- margin - 1) 31) 32 in
  0 <= v < 256
  /\ (if mac_commands.bit v 32 then - Z.land v 31 - 1 else Z.land v 31)
     = margin.
Proof.
  intros H Hz. enum_Z margin (-32) 64%nat;
    try congruence; vm_compute; repeat split; congruence.
Qed.

Lemma split_u16 (x : Z) :
  0 <= x < 65536 ->
  0 <= Z.land x 255 < 256 /\ 0 <= Z.land (Z.shiftr x 8) 255 < 256
  /\ Z.land x 255 + 256 * (Z.land (Z.shiftr x 8) 255 + 256 * 0) = x.
Proof.
  intros H.
  change 255 with (Z.ones 8).
  rewrite !Z.land_ones, Z.shiftr_div_pow2 by lia.
  change (2 ^ 8) with 256.
  assert (0 <= x / 256 < 256)
    by (split; [apply Z.div_pos; lia | apply Z.div_lt_upper_bound; lia]).
  rewrite (Z.mod_small (x / 256)) by lia.
  pose proof (Z.div_mod x 256 ltac:(lia)).
  pose proof (Z.mod_pos_bound x 256 ltac:(lia)). lia.
Qed.

Lemma land_small (x : Z) (n : Z) :
  0 <= n -> 0 <= x < 2 ^ n -> Z.land x (Z.ones n) = x.
Proof. intros. rewrite Z.land_ones by lia. apply Z.mod_small. lia. Qed.

Lemma land_nibble (x : Z) : 0 <= x < 16 -> Z.land x 15 = x.
Proof. intros. apply (land_small x 4); [lia | exact H]. Qed.

Lemma land_24_bits (x : Z) : 0 <= x < 16777216 -> Z.land x 16777215 = x.
Proof. intros. apply (land_small x 24); [lia | exact H]. Qed.

Lemma le_digits_3 (v : Z) :
  le_digits 3 v
  = [z2b (v mod 256); z2b (v / 256 mod 256); z2b (v / 256 / 256 mod 256)].
Proof. reflexivity. Qed.

Lemma le_digits_4 (v : Z) :
  le_digits 4 v
  = [z2b (v mod 256); z2b (v / 256 mod 256); z2b (v / 256 / 256 mod 256);
     z2b (v / 256 / 256 / 256 mod 256)].
Proof. reflexivity. Qed.

(** Every command of the two dispatch tables whose fields are in range
    decodes from its own encoding to itself, [DevStatusAns] with margin 0
    apart: [generate] yields the command id followed by a body, and the
    class' [parse] maps that body back to the command. *)
Theorem command_round_trip :
  forall cmd : mac_commands.MACCommand,
    fields_in_range cmd ->
    is_zero_margin cmd = false ->
    exists body,
      mac_commands.generate cmd
      = Ok (z2b (mac_commands.CID (mac_commands.class_of cmd)) :: body)
      /\ mac_commands.parse_class (mac_commands.class_of cmd) body = Ok cmd.
Proof.
  intros cmd Hr Hz.
  destruct cmd; cbn [fields_in_range is_zero_margin] in Hr, Hz;
    cbn [mac_commands.class_of mac_commands.CID].
  - eexists; split; reflexivity.
  - destruct channel_mask_ack, datarate_ack, power_ack;
      eexists; split; reflexivity.
  - eexists; split; reflexivity.
  - destruct channel_ack, rx2_datarate_ack, rx1_datarate_offset_ack;
      eexists; split; reflexivity.
  - (* DevStatusAns *)
    destruct Hr as [Hb Hm].
    destruct (margin_code margin Hm ltac:(lia)) as [Hv Hback].
    cbv zeta in Hv, Hback. destruct Hv as [Hv1 Hv2].
    unfold mac_commands.generate; cbn [mac_commands.class_of mac_commands.CID].
    rewrite bytes_of_ints_ok by (repeat constructor; first [assumption | lia]).
    cbn [map]. eexists; split; [reflexivity|].
    cbn [mac_commands.parse_class getitem nth_error bind].
    rewrite !b2z_z2b by (split; first [assumption | lia]).
    rewrite Hback. reflexivity.
  - destruct channel_frequency_ack, datarate_range_ack;
      eexists; split; reflexivity.
  - eexists; split; reflexivity.
  - eexists; split; reflexivity.
  - destruct channel_frequency_ok, uplink_frequency_exists;
      eexists; split; reflexivity.
  - eexists; split; reflexivity.
  - (* PingSlotInfoReq *)
    enum_Z periodicity 0 8%nat; eexists; split; reflexivity.
  - destruct status; eexists; split; reflexivity.
  - destruct datarate_status, channel_frequency_status;
      eexists; split; reflexivity.
  - (* PingSlotChannelReq *)
    destruct Hr as [Hd Hf].
    unfold mac_commands.generate; cbn [mac_commands.class_of mac_commands.CID].
    rewrite (int_to_bytes_ok frequency 3), (int_to_bytes_ok datarate 1)
      by (cbn; lia).
    cbn [int_to_bytes bind app le_digits]. eexists; split; [reflexivity|].
    cbn [mac_commands.parse_class getitem nth_error bind slice firstn skipn].
    rewrite b2z_z2b by (apply Z.mod_pos_bound; lia).
    unfold mac_commands.init_PingSlotChannelReq.
    rewrite <- le_digits_3, int_from_bytes_le_digits by (cbn; lia).
    rewrite (Z.mod_small datarate 256) by lia.
    rewrite !(land_nibble datarate), land_24_bits by lia. reflexivity.
  - (* BeaconFreqReq *)
    unfold mac_commands.generate; cbn [mac_commands.class_of mac_commands.CID].
    rewrite (int_to_bytes_ok frequency 3) by (cbn; lia).
    cbn [int_to_bytes bind app]. eexists; split; [reflexivity|].
    cbn [mac_commands.parse_class]. unfold mac_commands.init_BeaconFreqReq.
    rewrite int_from_bytes_le_digits by (cbn; lia).
    rewrite land_24_bits by lia. reflexivity.
  - eexists; split; reflexivity.
  - (* LinkCheckAns *)
    unfold mac_commands.generate; cbn [mac_commands.class_of mac_commands.CID].
    rewrite bytes_of_ints_ok by (repeat constructor; first [assumption | lia]).
    cbn [map]. eexists; split; [reflexivity|].
    cbn [mac_commands.parse_class getitem nth_error bind].
    rewrite !b2z_z2b by lia. reflexivity.
  - (* LinkADRReq *)
    destruct Hr as [Ht [Hd [Hc [Hn Hk]]]].
    destruct (pack_nibbles tx_power datarate Ht Hd) as [V1 [A1 [B1 _]]].
    destruct (pack_nibble_3bits nb_trans ch_mask_cntl Hn Hk) as [V2 [A2 B2]].
    destruct (split_u16 ch_mask Hc) as [L [Hh Hsum]].
    cbv zeta in *.
    unfold mac_commands.generate; cbn [mac_commands.class_of mac_commands.CID].
    rewrite bytes_of_ints_ok by (repeat constructor; first [assumption | lia]).
    cbn [map]. eexists; split; [reflexivity|].
    cbn [mac_commands.parse_class getitem nth_error bind slice firstn skipn
         int_from_bytes].
    rewrite !b2z_z2b by lia.
    rewrite A1, B1, A2, B2, Hsum. reflexivity.
  - (* DutyCycleReq *)
    unfold mac_commands.generate; cbn [mac_commands.class_of mac_commands.CID].
    rewrite bytes_of_ints_ok by (repeat constructor; first [assumption | lia]).
    cbn [map]. eexists; split; [reflexivity|].
    cbn [mac_commands.parse_class getitem nth_error bind].
    rewrite !b2z_z2b by lia. reflexivity.
  - (* RXParamSetupReq *)
    destruct Hr as [Hd [Ho Hf]].
    destruct (pack_nibble_3bits rx2_datarate rx1_datarate_offset Hd Ho)
      as [V [A B]].
    cbv zeta in *.
    unfold mac_commands.generate; cbn [mac_commands.class_of mac_commands.CID].
    rewrite bytes_of_ints_ok by (repeat constructor; first [assumption | lia]).
    rewrite (int_to_bytes_ok rx2_frequency 3) by (cbn; lia).
    cbn [map bind app le_digits]. eexists; split; [reflexivity|].
    cbn [mac_commands.parse_class getitem nth_error bind slice firstn skipn].
    rewrite !b2z_z2b by lia.
    rewrite <- le_digits_3, int_from_bytes_le_digits by (cbn; lia).
    rewrite A, B. reflexivity.
  - eexists; split; reflexivity.
  - (* NewChannelReq *)
    destruct Hr as [Hi [Hf [Hmin Hmax]]].
    destruct (pack_nibbles min_datarate max_datarate Hmin Hmax)
      as [V [A [_ B]]].
    cbv zeta in *.
    unfold mac_commands.generate; cbn [mac_commands.class_of mac_commands.CID].
    rewrite !bytes_of_ints_ok by (repeat constructor; first [assumption | lia]).
    rewrite (int_to_bytes_ok ch_frequency 3) by (cbn; lia).
    cbn [map bind app le_digits]. eexists; split; [reflexivity|].
    cbn [mac_commands.parse_class getitem nth_error bind slice firstn skipn].
    rewrite !b2z_z2b by lia.
    rewrite <- le_digits_3, int_from_bytes_le_digits by (cbn; lia).
    rewrite A, B. reflexivity.
  - (* RXTimingSetupReq *)
    enum_Z delay 0 16%nat; eexists; split; reflexivity.
  - (* TXParamSetupReq *)
    destruct Hr as [He [Hu Hd]].
    destruct (pack_tx_param max_eirp uplink_dwell_time downlink_dwell_time
                He Hu Hd) as [V [A [B C]]].
    cbv zeta in *.
    unfold mac_commands.generate; cbn [mac_commands.class_of mac_commands.CID].
    rewrite bytes_of_ints_ok by (repeat constructor; first [assumption | lia]).
    cbn [map]. eexists; split; [reflexivity|].
    cbn [mac_commands.parse_class getitem nth_error bind List.length
         mac_commands.SIZE Nat.eqb negb].
    unfold mac_commands.init_TXParamSetupReq.
    rewrite !b2z_z2b by lia.
    rewrite A, B, C. reflexivity.
  - (* DlChannelReq *)
    destruct Hr as [Hi Hf].
    unfold mac_commands.generate; cbn [mac_commands.class_of mac_commands.CID].
    rewrite bytes_of_ints_ok by (repeat constructor; first [assumption | lia]).
    rewrite (int_to_bytes_ok freq 3) by (cbn; lia).
    cbn [map bind app]. eexists; split; [reflexivity|].
    cbn [mac_commands.parse_class getitem nth_error bind skipn].
    rewrite !b2z_z2b by lia.
    rewrite int_from_bytes_le_digits by (cbn; lia). reflexivity.
  - (* DeviceTimeAns *)
    destruct Hr as [Hs Hf].
    unfold mac_commands.generate; cbn [mac_commands.class_of mac_commands.CID].
    rewrite (int_to_bytes_ok seconds 4), (int_to_bytes_ok fractional_second 1)
      by (cbn; lia).
    cbn [int_to_bytes bind app le_digits]. eexists; split; [reflexivity|].
    cbn [mac_commands.parse_class getitem nth_error bind slice firstn skipn].
    rewrite b2z_z2b by (apply Z.mod_pos_bound; lia).
    rewrite <- le_digits_4, int_from_bytes_le_digits by (cbn; lia).
    rewrite (Z.mod_small fractional_second 256) by lia. reflexivity.
Qed.

(** C1.  [DevStatusAns] with margin 0 does not survive the round trip:
    [generate] takes the branch of the negative margins ([margin > 0]
    decides the sign), encodes it as 0x3F, and [parse] reads -32 back. *)
Theorem DevStatusAns_margin_zero_round_trip :
  mac_commands.generate (mac_commands.DevStatusAns 255 0)
  = Ok [x06; xff; x3f]
  /\ mac_commands.parse_class mac_commands.cDevStatusAns [xff; x3f]
     = Ok (mac_commands.DevStatusAns 255 (-32))
  /\ mac_commands.DevStatusAns 255 (-32) <> mac_commands.DevStatusAns 255 0
  /\ fields_in_range (mac_commands.DevStatusAns 255 0).
Proof.
  repeat split; try reflexivity; try discriminate; cbn; lia.
Qed.

(** ** Frames: encoded and decoded (message) *)

Lemma MHDR_round_trip (h : message.MHDR.t) :
  0 <= message.MHDR.major h < 4 ->
  exists b,
    message.MHDR.generate h = Ok [b] /\ message.MHDR.parse [b] = Ok h.
Proof.
  destruct h as [mtype major]. cbn [message.MHDR.major]. intros H.
  enum_Z major 0 4%nat; destruct mtype; eexists; split; reflexivity.
Qed.

Lemma FCtrlUplink_round_trip (c : message.FCtrlUplink.t) :
  0 <= message.FCtrlUplink.f_opts_len c < 16 ->
  exists b,
    message.FCtrlUplink.generate c = Ok [b]
    /\ message.FCtrlUplink.parse [b] = Ok c.
Proof.
  destruct c as [adr adr_ack_req ack class_b len].
  cbn [message.FCtrlUplink.f_opts_len]. intros H.
  enum_Z len 0 16%nat; destruct adr, adr_ack_req, ack, class_b;
    eexists; split; reflexivity.
Qed.

Lemma FCtrlDownlink_round_trip (c : message.FCtrlDownlink.t) :
  0 <= message.FCtrlDownlink.f_opts_len c < 16 ->
  exists b,
    message.FCtrlDownlink.generate c = Ok [b]
    /\ message.FCtrlDownlink.parse [b] = Ok c.
Proof.
  destruct c as [adr ack f_pending len].
  cbn [message.FCtrlDownlink.f_opts_len]. intros H.
  enum_Z len 0 16%nat; destruct adr, ack, f_pending;
    eexists; split; reflexivity.
Qed.

Lemma FCtrl_round_trip (c : message.FCtrl) :
  0 <= message.FCtrl_f_opts_len c < 16 ->
  exists b,
    message.FCtrl_generate c = Ok [b]
    /\ message.FHDR.fctrl_parse (message.FCtrl_link c) [b] = Ok c.
Proof.
  destruct c as [c|c]; cbn [message.FCtrl_f_opts_len message.FCtrl_generate
                             message.FCtrl_link message.FHDR.fctrl_parse];
    intros H.
  - destruct (FCtrlUplink_round_trip c H) as [b [Hg Hp]].
    exists b. rewrite Hg, Hp. split; reflexivity.
  - destruct (FCtrlDownlink_round_trip c H) as [b [Hg Hp]].
    exists b. rewrite Hg, Hp. split; reflexivity.
Qed.

Lemma le_digits_2 (v : Z) :
  le_digits 2 v = [z2b (v mod 256); z2b (v / 256 mod 256)].
Proof. reflexivity. Qed.

Lemma firstn_exact {A : Type} (l r : list A) (n : nat) :
  List.length l = n -> firstn n (l ++ r) = l.
Proof.
  intros <-. rewrite firstn_app, Nat.sub_diag, firstn_all. cbn.
  apply app_nil_r.
Qed.

Lemma skipn_exact {A : Type} (l r : list A) (n : nat) :
  List.length l = n -> skipn n (l ++ r) = r.
Proof.
  intros <-. rewrite skipn_app, Nat.sub_diag, skipn_all. reflexivity.
Qed.

(** The header read back from its own bytes, with what follows them left
    in the stream. *)
Lemma FHDR_round_trip (h : message.FHDR.t) (rest : bytes) :
  message.FCtrl_link (message.FHDR.f_ctrl h) = message.FHDR.cls h ->
  0 <= message.FHDR.dev_addr h < 4294967296 ->
  0 <= message.FHDR.f_cnt h < 65536 ->
  0 <= message.FCtrl_f_opts_len (message.FHDR.f_ctrl h) < 16 ->
  Z.of_nat (List.length (message.FHDR.f_opts h))
  = message.FCtrl_f_opts_len (message.FHDR.f_ctrl h) ->
  exists raw,
    message.FHDR.generate h = Ok raw
    /\ (7 <= List.length raw)%nat
    /\ message.FHDR.parse (message.FHDR.cls h) (raw ++ rest) = Ok (h, rest).
Proof.
  destruct h as [cls dev_addr f_ctrl f_cnt f_opts].
  cbn [message.FHDR.dev_addr message.FHDR.f_ctrl message.FHDR.f_cnt
       message.FHDR.f_opts message.FHDR.cls].
  intros Hl Ha Hc Hn Hlen.
  destruct (FCtrl_round_trip f_ctrl Hn) as [b [Hg Hp]].
  rewrite Hl in Hp.
  unfold message.FHDR.generate.
  cbn [message.FHDR.dev_addr message.FHDR.f_ctrl message.FHDR.f_cnt
       message.FHDR.f_opts].
  unfold message.FHDR.DEV_ADDR_SIZE, message.FHDR.FCNT_SIZE.
  rewrite (int_to_bytes_ok dev_addr 4), (int_to_bytes_ok f_cnt 2), Hg
    by (cbn; lia).
  cbn [bind]. eexists. split; [reflexivity|]. split.
  { rewrite !length_app, !le_digits_length. cbn. lia. }
  unfold message.FHDR.parse, stream_read,
    message.FHDR.DEV_ADDR_SIZE, message.FHDR.FCTRL_SIZE,
    message.FHDR.FCNT_SIZE.
  rewrite <- !app_assoc.
  rewrite (firstn_exact (le_digits 4 dev_addr)),
    (skipn_exact (le_digits 4 dev_addr)) by apply le_digits_length.
  rewrite int_from_bytes_le_digits by (cbn; lia).
  rewrite (firstn_exact [b]), (skipn_exact [b]) by reflexivity.
  rewrite Hp. cbn [bind].
  rewrite (firstn_exact (le_digits 2 f_cnt)),
    (skipn_exact (le_digits 2 f_cnt)) by apply le_digits_length.
  rewrite int_from_bytes_le_digits by (cbn; lia).
  rewrite firstn_exact, skipn_exact by lia.
  reflexivity.
Qed.

Lemma MACPayload_round_trip (l : message.link) (p : message.MACPayload.t) :
  mac_payload_well_formed l p ->
  exists raw,
    message.MACPayload.generate p = Ok raw
    /\ message.MACPayload.parse l raw = Ok p.
Proof.
  destruct p as [cls h f_port frm_payload].
  unfold mac_payload_well_formed.
  cbn [message.MACPayload.cls message.MACPayload.fhdr
       message.MACPayload.f_port message.MACPayload.frm_payload].
  intros [Hcls [Hh [Hl [Ha [Hc [Hn [Hlen Hport]]]]]]]. subst cls.
  unfold message.MACPayload.generate, message.MACPayload.parse.
  cbn [message.MACPayload.fhdr message.MACPayload.f_port
       message.MACPayload.frm_payload].
  destruct f_port as [port|].
  - destruct (FHDR_round_trip h (z2b port :: frm_payload)
                ltac:(congruence) Ha Hc Hn Hlen) as [raw [Hg [Hlen7 Hp]]].
    rewrite Hg. cbn [bind]. unfold message.MACPayload.FPORT_SIZE.
    rewrite (int_to_bytes_ok port 1) by (cbn; lia).
    cbn [bind le_digits]. rewrite (Z.mod_small port 256) by lia.
    eexists. split; [reflexivity|].
    replace (Nat.ltb _ 7) with false
      by (symmetry; apply Nat.ltb_ge; rewrite !length_app; lia).
    rewrite <- app_assoc. cbn [app]. rewrite <- Hh, Hp. cbn [bind].
    unfold stream_read. cbn [firstn skipn int_from_bytes].
    rewrite b2z_z2b by lia. unfold message.MACPayload.init.
    replace (negb ((0 <=? port + 256 * 0) && (port + 256 * 0 <? 256)))
      with false by lia.
    rewrite Z.mul_0_r, Z.add_0_r. reflexivity.
  - subst frm_payload.
    destruct (FHDR_round_trip h [] ltac:(congruence) Ha Hc Hn Hlen)
      as [raw [Hg [Hlen7 Hp]]].
    rewrite Hg. cbn [bind]. eexists. split; [reflexivity|].
    replace (Nat.ltb _ 7) with false by (symmetry; apply Nat.ltb_ge; lia).
    rewrite app_nil_r in Hp. rewrite <- Hh, Hp. reflexivity.
Qed.

Lemma le_digits_split (n m : nat) (v : Z) :
  le_digits (n + m) v = le_digits n v ++ le_digits m (v / 256 ^ Z.of_nat n).
Proof.
  revert v. induction n as [|n IH]; intros v.
  - cbn. rewrite Z.div_1_r. reflexivity.
  - cbn [Nat.add le_digits app]. rewrite IH. f_equal. f_equal.
    rewrite Nat2Z.inj_succ, Z.pow_succ_r, Z.div_div by lia. reflexivity.
Qed.

Lemma JoinRequest_round_trip (j : message.JoinRequest.t) :
  join_request_well_formed j ->
  exists raw,
    message.JoinRequest.generate j = Ok raw
    /\ message.JoinRequest.parse raw = Ok j.
Proof.
  destruct j as [app_eui dev_eui dev_nonce].
  unfold join_request_well_formed.
  cbn [message.JoinRequest.app_eui message.JoinRequest.dev_eui
       message.JoinRequest.dev_nonce].
  intros [Ha [Hd Hn]].
  unfold message.JoinRequest.generate.
  cbn [message.JoinRequest.app_eui message.JoinRequest.dev_eui
       message.JoinRequest.dev_nonce].
  rewrite !struct_pack_uint_ok by (cbn; lia). cbn [bind].
  eexists. split; [reflexivity|].
  unfold message.JoinRequest.parse.
  replace (List.length _) with 18%nat
    by (rewrite !length_app, !le_digits_length; reflexivity).
  cbn [Nat.eqb negb]. unfold slice.
  assert (E1 : firstn 8 (le_digits 8 app_eui ++ le_digits 8 dev_eui
                          ++ le_digits 2 dev_nonce) = le_digits 8 app_eui)
    by (apply firstn_exact, le_digits_length).
  assert (E2 : skipn 8 (firstn 16 (le_digits 8 app_eui ++ le_digits 8 dev_eui
                          ++ le_digits 2 dev_nonce)) = le_digits 8 dev_eui).
  { rewrite app_assoc, firstn_exact
      by (rewrite length_app, !le_digits_length; reflexivity).
    apply (skipn_exact _ _ 8), le_digits_length. }
  assert (E3 : skipn 16 (firstn 18 (le_digits 8 app_eui ++ le_digits 8 dev_eui
                          ++ le_digits 2 dev_nonce)) = le_digits 2 dev_nonce).
  { rewrite firstn_all2
      by (rewrite !length_app, !le_digits_length; cbn; lia).
    rewrite app_assoc. apply (skipn_exact _ _ 16).
    rewrite length_app, !le_digits_length. reflexivity. }
  rewrite skipn_O, E1, E2, E3.
  rewrite !int_from_bytes_le_digits by (cbn; lia). reflexivity.
Qed.

Lemma frame_slices (b : byte) (p m : bytes) :
  List.length m = 4%nat ->
  slice ((([b] ++ p) ++ m)) 0 1 = [b]
  /\ skipn 1 (drop_last 4 (([b] ++ p) ++ m)) = p
  /\ take_last 4 (([b] ++ p) ++ m) = m
  /\ Nat.ltb (List.length (([b] ++ p) ++ m)) 5 = false.
Proof.
  intros Hm. unfold slice, drop_last, take_last.
  change (([b] ++ p) ++ m) with ((b :: p) ++ m).
  rewrite !length_app, Hm.
  replace (List.length (b :: p) + 4 - 4)%nat with (List.length (b :: p))
    by lia.
  split; [reflexivity|].
  rewrite (firstn_exact (b :: p) m (List.length (b :: p))),
    (skipn_exact (b :: p) m (List.length (b :: p))) by reflexivity.
  repeat split. apply Nat.ltb_ge. cbn [List.length]. lia.
Qed.

(** Every well-formed frame is read back from its own bytes: with the
    options at their longest (15 bytes), with an empty application buffer,
    with the port absent and with port 0. *)
Theorem PHYPayload_round_trip :
  forall phy : message.PHYPayload.t,
    phy_payload_well_formed phy ->
    exists raw,
      message.PHYPayload.generate phy = Ok raw
      /\ message.PHYPayload.parse raw = Ok phy.
Proof.
  intros [mhdr payload mic]. unfold phy_payload_well_formed.
  cbn [message.PHYPayload.mhdr message.PHYPayload.payload
       message.PHYPayload.mic].
  intros [Hmajor [[m [-> Hm]] Hpay]].
  destruct (MHDR_round_trip mhdr Hmajor) as [b [Hg Hp]].
  unfold message.PHYPayload.generate, message.PHYPayload.parse.
  cbn [message.PHYPayload.mhdr message.PHYPayload.payload
       message.PHYPayload.mic].
  rewrite Hg. cbn [bind].
  assert (Hgen : exists p,
             message.Payload_generate payload = Ok p
             /\ (p' <- match message.MHDR.mtype mhdr with
                       | message.ConfirmedDataUp | message.UnconfirmedDataUp =>
                           q <- message.MACPayload.parse message.Uplink p ;;
                           Ok (message.PMACPayload q)
                       | message.ConfirmedDataDown
                       | message.UnconfirmedDataDown =>
                           q <- message.MACPayload.parse message.Downlink p ;;
                           Ok (message.PMACPayload q)
                       | message.JoinRequest_ =>
                           q <- message.JoinRequest.parse p ;;
                           Ok (message.PJoinRequest q)
                       | message.Proprietary_ =>
                           q <- message.Proprietary.parse p ;;
                           Ok (message.PProprietary q)
                       | message.JoinAccept_ | message.RFU =>
                           Err PHYPayloadError
                       end ;;
                 message.PHYPayload.init mhdr p' (Some m))
                = Ok {| message.PHYPayload.mhdr := mhdr;
                        message.PHYPayload.payload := payload;
                        message.PHYPayload.mic := Some m |}).
  { destruct mhdr as [mtype major]. cbn [message.MHDR.mtype] in *.
    destruct mtype, payload as [q|q|q]; try contradiction;
      cbn [message.Payload_generate].
    - destruct (JoinRequest_round_trip q Hpay) as [p [Hgp Hpp]].
      exists p. rewrite Hgp, Hpp. split; reflexivity.
    - destruct (MACPayload_round_trip _ q Hpay) as [p [Hgp Hpp]].
      exists p. rewrite Hgp, Hpp. split; reflexivity.
    - destruct (MACPayload_round_trip _ q Hpay) as [p [Hgp Hpp]].
      exists p. rewrite Hgp, Hpp. split; reflexivity.
    - destruct (MACPayload_round_trip _ q Hpay) as [p [Hgp Hpp]].
      exists p. rewrite Hgp, Hpp. split; reflexivity.
    - destruct (MACPayload_round_trip _ q Hpay) as [p [Hgp Hpp]].
      exists p. rewrite Hgp, Hpp. split; reflexivity.
    - destruct q as [p]. exists p. split; reflexivity. }
  destruct Hgen as [p [-> Hparse]]. cbn [bind].
  eexists. split; [reflexivity|].
  destruct (frame_slices b p m Hm) as [S1 [S2 [S3 S4]]].
  rewrite S1, S2, S3, S4, Hp. cbn [bind]. exact Hparse.
Qed.

(** ** The stream parser (mac_commands) *)

Lemma create_consumes (stream : bytes) (cid : Z)
    (direction : mac_commands.MACCommandDirection)
    (cmd : mac_commands.MACCommand) (rest : bytes) :
  mac_commands.MACCommandParser.create stream cid direction = Ok (cmd, rest) ->
  exists cls body,
    dict_get (mac_commands.MACCommandParser.mac_commands_map direction) cid
    = Some cls
    /\ List.length body = mac_commands.SIZE cls
    /\ stream = body ++ rest
    /\ mac_commands.parse_class cls body = Ok cmd.
Proof.
  unfold mac_commands.MACCommandParser.create.
  destruct (dict_get _ cid) as [cls|]; [|discriminate].
  intros H. apply bind_ok in H. destruct H as [[buffer rest0] [Hread H]].
  apply bind_ok in H. destruct H as [cmd0 [Hparse H]].
  inversion H; subst; clear H.
  unfold mac_commands.MACCommandParser.read, stream_read in Hread.
  destruct (Nat.ltb _ _) eqn:E; [discriminate|].
  apply Nat.ltb_ge in E. inversion Hread; subst; clear Hread.
  pose proof (firstn_le_length (mac_commands.SIZE cls) stream) as Hle.
  assert (Hlen : List.length (firstn (mac_commands.SIZE cls) stream)
                 = mac_commands.SIZE cls) by lia.
  rewrite Hlen, Nat.sub_diag in Hparse. cbn [repeat] in Hparse.
  rewrite app_nil_r in Hparse.
  exists cls, (firstn (mac_commands.SIZE cls) stream).
  repeat split; auto. symmetry. apply firstn_skipn.
Qed.

Lemma parse_loop_decodes (direction : mac_commands.MACCommandDirection)
    (stream : bytes) (cmds : list mac_commands.MACCommand)
    (warnings : list exn) :
  decodes direction stream cmds warnings ->
  forall (fuel : nat) (acc : list mac_commands.MACCommand),
    (List.length stream <= fuel)%nat ->
    mac_commands.MACCommandParser.parse_loop fuel stream direction acc
    = (acc ++ cmds, warnings).
Proof.
  induction 1 as [|cid rest cmd rest' cmds warnings Hc _ IH|cid rest e He];
    intros fuel acc Hfuel.
  - destruct fuel; cbn; rewrite app_nil_r; reflexivity.
  - destruct fuel as [|fuel]; [cbn in Hfuel; lia|].
    cbn [mac_commands.MACCommandParser.parse_loop]. rewrite Hc.
    destruct (create_consumes _ _ _ _ _ Hc) as [cls [body [_ [_ [E _]]]]].
    rewrite IH.
    + rewrite <- app_assoc. reflexivity.
    + subst rest. cbn [List.length] in Hfuel.
      rewrite length_app in Hfuel. lia.
  - destruct fuel as [|fuel]; [cbn in Hfuel; lia|].
    cbn [mac_commands.MACCommandParser.parse_loop]. rewrite He.
    rewrite app_nil_r. reflexivity.
Qed.

(** Every buffer decodes in exactly one way. *)
Lemma decodes_total (direction : mac_commands.MACCommandDirection)
    (stream : bytes) :
  exists cmds warnings, decodes direction stream cmds warnings.
Proof.
  remember (List.length stream) as n eqn:Hn. revert stream Hn.
  induction n as [n IH] using lt_wf_ind. intros stream Hn.
  destruct stream as [|cid rest].
  - exists [], []. constructor.
  - destruct (mac_commands.MACCommandParser.create rest (b2z cid) direction)
      as [[cmd rest']|e] eqn:Hc.
    + destruct (create_consumes _ _ _ _ _ Hc) as [cls [body [_ [_ [E _]]]]].
      destruct (IH (List.length rest')) with (stream := rest')
        as [cmds [warnings Hd]]; [|reflexivity|].
      { subst n rest. cbn [List.length]. rewrite length_app. lia. }
      exists (cmd :: cmds), warnings. econstructor; eauto.
    + exists [], [e]. constructor. exact Hc.
Qed.

(** The parser is a function of the buffer and the direction, total (every
    exception of the loop is caught), and it returns the commands decoded
    before the first error together with the warning it logged, or all
    the commands and no warning when it reaches the end of the buffer. *)
Theorem MACCommandParser_parse_policy :
  forall (commands_buffer : bytes)
         (direction : mac_commands.MACCommandDirection),
    exists cmds warnings,
      mac_commands.MACCommandParser.parse commands_buffer direction
      = (cmds, warnings)
      /\ decodes direction commands_buffer cmds warnings
      /\ (List.length warnings <= 1)%nat.
Proof.
  intros buffer direction.
  destruct (decodes_total direction buffer) as [cmds [warnings Hd]].
  exists cmds, warnings. split; [|split].
  - unfold mac_commands.MACCommandParser.parse.
    rewrite (parse_loop_decodes _ _ _ _ Hd) by lia. reflexivity.
  - exact Hd.
  - clear - Hd. induction Hd; cbn; lia.
Qed.

Lemma bytes_of_ints_length (l : list Z) (b : bytes) :
  bytes_of_ints l = Ok b -> List.length b = List.length l.
Proof.
  revert b. induction l as [|z l IH]; intros b H.
  - inversion H. reflexivity.
  - cbn [bytes_of_ints] in H. destruct (in_byte_range z); [|discriminate].
    apply bind_ok in H. destruct H as [bs [Hbs H]]. inversion H; subst.
    cbn. rewrite (IH bs Hbs). reflexivity.
Qed.

Lemma int_to_bytes_length (v : Z) (n : nat) (b : bytes) :
  int_to_bytes v n = Ok b -> List.length b = n.
Proof.
  intros H. apply int_to_bytes_inv in H. destruct H as [_ ->].
  apply le_digits_length.
Qed.

(** The encoding of a command is one byte longer than the [SIZE] of its
    class, except for [PingSlotChannelReq]. *)
Lemma generate_length (cmd : mac_commands.MACCommand) (out : bytes) :
  mac_commands.class_of cmd <> mac_commands.cPingSlotChannelReq ->
  mac_commands.generate cmd = Ok out ->
  List.length out = S (mac_commands.SIZE (mac_commands.class_of cmd)).
Proof.
  intros Hcls H. unfold mac_commands.generate in H.
  destruct cmd; cbn [mac_commands.class_of mac_commands.SIZE] in *;
    try congruence;
    repeat match goal with
           | H : bind _ _ = Ok _ |- _ =>
               let x := fresh "x" in
               let Hx := fresh "Hx" in
               apply bind_ok in H; destruct H as [x [Hx H]]
           | H : Ok _ = Ok _ |- _ => inversion H; subst; clear H
           | H : bytes_of_ints _ = Ok _ |- _ => apply bytes_of_ints_length in H
           | H : int_to_bytes _ _ = Ok _ |- _ => apply int_to_bytes_length in H
           end;
    rewrite ?length_app; cbn [List.length] in *; lia.
Qed.

(** A buffer built from commands the parser can be expected to give back
    is decoded in full: all the commands, in order, no warning. *)
Theorem MACCommandParser_parse_generated :
  forall (direction : mac_commands.MACCommandDirection)
         (cmds : list mac_commands.MACCommand),
    Forall (streamable direction) cmds ->
    exists buffer,
      generate_all cmds = Ok buffer
      /\ mac_commands.MACCommandParser.parse buffer direction = (cmds, []).
Proof.
  intros direction cmds H.
  assert (Hd : exists buffer,
             generate_all cmds = Ok buffer /\ decodes direction buffer cmds []).
  { induction H as [|cmd cmds [Hmap [Hr [Hz Hcls]]] _ [buffer [Hg Hd]]].
    - exists []. split; [reflexivity|constructor].
    - destruct (command_round_trip cmd Hr Hz) as [body [Hgen Hparse]].
      pose proof (generate_length cmd _ Hcls Hgen) as Hlen.
      cbn [List.length] in Hlen. injection Hlen as Hlen.
      cbn [generate_all]. rewrite Hgen, Hg. cbn [bind].
      eexists. split; [reflexivity|].
      cbn [app]. econstructor; [|exact Hd].
      unfold mac_commands.MACCommandParser.create.
      rewrite b2z_z2b
        by (destruct cmd; cbn [mac_commands.class_of mac_commands.CID]; lia).
      rewrite Hmap.
      unfold mac_commands.MACCommandParser.read, stream_read.
      rewrite firstn_exact, skipn_exact by exact Hlen.
      rewrite Hlen, Nat.sub_diag, Nat.ltb_irrefl. cbn [repeat bind].
      rewrite app_nil_r, Hparse. reflexivity. }
  destruct Hd as [buffer [Hg Hd]]. exists buffer. split; [exact Hg|].
  unfold mac_commands.MACCommandParser.parse.
  rewrite (parse_loop_decodes _ _ _ _ Hd) by lia. reflexivity.
Qed.

(** C8.  A downlink buffer that holds one [PingSlotChannelReq], as
    [generate] encodes it, is not decoded: [read] hands one byte (the
    declared [SIZE]) to a [parse] that indexes the fourth, the
    [IndexError] is caught and logged, and the parser returns no command
    and leaves four bytes unread.  The same happens when the body has the
    declared size. *)
Theorem MACCommandParser_drops_PingSlotChannelReq :
  mac_commands.generate (mac_commands.init_PingSlotChannelReq 3 9233000)
  = Ok [x11; x68; xe2; x8c; x03]
  /\ mac_commands.parse_class mac_commands.cPingSlotChannelReq
       [x68; xe2; x8c; x03]
     = Ok (mac_commands.PingSlotChannelReq 3 9233000)
  /\ mac_commands.MACCommandParser.parse [x11; x68; xe2; x8c; x03]
       mac_commands.DOWN
     = ([], [IndexError])
  /\ mac_commands.MACCommandParser.parse [x11; x03] mac_commands.DOWN
     = ([], [IndexError])
  /\ mac_commands.MACCommandParser.parse
       [x06; x11; x68; xe2; x8c; x03; x06] mac_commands.DOWN
     = ([mac_commands.DevStatusReq], [IndexError]).
Proof. repeat split; reflexivity. Qed.

(** ** The block cipher: decryption undoes encryption and back *)

Lemma all_bytes_complete (b : byte) : In b all_bytes.
Proof.
  assert (E : b = nth (Byte.to_nat b) all_bytes x00)
    by (destruct b; reflexivity).
  rewrite E. apply nth_In.
  replace (List.length all_bytes) with 256%nat by reflexivity.
  pose proof (Byte.to_nat_bounded b). lia.
Qed.

Lemma byte_fun_ext (f g : byte -> byte) :
  forallb (fun b => Byte.eqb (f b) (g b)) all_bytes = true ->
  forall b, f b = g b.
Proof.
  intros H b. rewrite forallb_forall in H.
  apply Byte.byte_dec_bl, H, all_bytes_complete.
Qed.

Lemma byte_fun_ext2 (f g : byte -> byte -> byte) :
  forallb (fun a => forallb (fun b => Byte.eqb (f a b) (g a b)) all_bytes)
          all_bytes = true ->
  forall a b, f a b = g a b.
Proof.
  intros H a b. rewrite forallb_forall in H.
  specialize (H a (all_bytes_complete a)). rewrite forallb_forall in H.
  apply Byte.byte_dec_bl, H, all_bytes_complete.
Qed.

(** Closes [forall b, f b = g b] and [forall a b, f a b = g a b] on bytes
    by running both sides on every value. *)
Ltac by_all_bytes :=
  lazymatch goal with
  | |- forall a b : byte, @?f a b = @?g a b =>
      apply (byte_fun_ext2 f g); vm_compute; reflexivity
  | |- forall b : byte, @?f b = @?g b =>
      apply (byte_fun_ext f g); vm_compute; reflexivity
  end.

Lemma lxor_byte_range (a b : byte) : 0 <= Z.lxor (b2z a) (b2z b) < 256.
Proof.
  assert (H : forall a b : byte,
             z2b (if in_byte_range (Z.lxor (b2z a) (b2z b)) then 1 else 0)
             = x01) by by_all_bytes.
  specialize (H a b).
  destruct (in_byte_range _) eqn:E.
  - apply in_byte_range_spec. exact E.
  - discriminate H.
Qed.

Lemma b2z_xor_byte (a b : byte) :
  b2z (xor_byte a b) = Z.lxor (b2z a) (b2z b).
Proof. unfold xor_byte. apply b2z_z2b, lxor_byte_range. Qed.

Lemma xor_byte_comm (a b : byte) : xor_byte a b = xor_byte b a.
Proof. apply b2z_inj. rewrite !b2z_xor_byte. apply Z.lxor_comm. Qed.

Lemma xor_byte_assoc (a b c : byte) :
  xor_byte (xor_byte a b) c = xor_byte a (xor_byte b c).
Proof. apply b2z_inj. rewrite !b2z_xor_byte. apply Z.lxor_assoc. Qed.

Lemma xor_byte_cancel (a b : byte) : xor_byte (xor_byte a b) b = a.
Proof.
  apply b2z_inj. rewrite !b2z_xor_byte.
  rewrite Z.lxor_assoc, Z.lxor_nilpotent, Z.lxor_0_r. reflexivity.
Qed.

Lemma xor_byte_0_l (a : byte) : xor_byte x00 a = a.
Proof.
  apply b2z_inj. rewrite b2z_xor_byte. apply Z.lxor_0_l.
Qed.

Lemma xor_byte_0_r (a : byte) : xor_byte a x00 = a.
Proof. rewrite xor_byte_comm. apply xor_byte_0_l. Qed.

Lemma xor_bytes_length (x y : bytes) :
  List.length (xor_bytes x y) = Nat.min (List.length x) (List.length y).
Proof.
  revert y. induction x as [|a x IH]; intros [|b y]; cbn; auto.
Qed.

(** XOR with the same mask twice gives the operand back, as long as the
    mask covers it. *)
Lemma xor_bytes_cancel (x y : bytes) :
  (List.length x <= List.length y)%nat -> xor_bytes (xor_bytes x y) y = x.
Proof.
  revert y. induction x as [|a x IH]; intros [|b y] H; cbn in *;
    try reflexivity; try lia.
  rewrite xor_byte_cancel, IH by lia. reflexivity.
Qed.

Lemma sub_byte_inv : forall b, Cryptodome.inv_sub_byte (Cryptodome.sub_byte b) = b.
Proof. by_all_bytes. Qed.

Lemma inv_sub_byte_inv :
  forall b, Cryptodome.sub_byte (Cryptodome.inv_sub_byte b) = b.
Proof. by_all_bytes. Qed.

Lemma sub_bytes_inv (s : bytes) :
  Cryptodome.inv_sub_bytes (Cryptodome.sub_bytes s) = s.
Proof.
  unfold Cryptodome.inv_sub_bytes, Cryptodome.sub_bytes.
  rewrite map_map. rewrite <- (map_id s) at 2.
  apply map_ext, sub_byte_inv.
Qed.

Lemma inv_sub_bytes_inv (s : bytes) :
  Cryptodome.sub_bytes (Cryptodome.inv_sub_bytes s) = s.
Proof.
  unfold Cryptodome.inv_sub_bytes, Cryptodome.sub_bytes.
  rewrite map_map. rewrite <- (map_id s) at 2.
  apply map_ext, inv_sub_byte_inv.
Qed.

(** A block is a list of sixteen named bytes. *)
Lemma block_inv (s : bytes) :
  block s ->
  exists s0 s1 s2 s3 s4 s5 s6 s7 s8 s9 s10 s11 s12 s13 s14 s15,
    s = [s0; s1; s2; s3; s4; s5; s6; s7; s8; s9; s10; s11; s12; s13; s14; s15].
Proof.
  unfold block. intros H.
  do 16 (destruct s as [|? s]; [discriminate H|]).
  destruct s; [|discriminate H].
  repeat eexists.
Qed.

Ltac open_block s H :=
  let E := fresh "E" in
  destruct (block_inv s H)
    as (?s0 & ?s1 & ?s2 & ?s3 & ?s4 & ?s5 & ?s6 & ?s7 & ?s8 & ?s9 & ?s10
        & ?s11 & ?s12 & ?s13 & ?s14 & ?s15 & E);
  subst s.

Lemma shift_rows_inv (s : bytes) :
  block s -> Cryptodome.inv_shift_rows (Cryptodome.shift_rows s) = s.
Proof. intros H. open_block s H. reflexivity. Qed.

Lemma inv_shift_rows_inv (s : bytes) :
  block s -> Cryptodome.shift_rows (Cryptodome.inv_shift_rows s) = s.
Proof. intros H. open_block s H. reflexivity. Qed.
Lemma xor4_transpose (a0 a1 a2 a3 b0 b1 b2 b3 c0 c1 c2 c3 d0 d1 d2 d3 : byte) :
  Cryptodome.xor4 (Cryptodome.xor4 a0 a1 a2 a3) (Cryptodome.xor4 b0 b1 b2 b3)
                  (Cryptodome.xor4 c0 c1 c2 c3) (Cryptodome.xor4 d0 d1 d2 d3)
  = Cryptodome.xor4 (Cryptodome.xor4 a0 b0 c0 d0) (Cryptodome.xor4 a1 b1 c1 d1)
                    (Cryptodome.xor4 a2 b2 c2 d2) (Cryptodome.xor4 a3 b3 c3 d3).
Proof.
  apply b2z_inj. unfold Cryptodome.xor4. rewrite !b2z_xor_byte.
  apply Z.bits_inj'. intros n _. rewrite !Z.lxor_spec.
  generalize (Z.testbit (b2z a0) n) (Z.testbit (b2z a1) n)
    (Z.testbit (b2z a2) n) (Z.testbit (b2z a3) n)
    (Z.testbit (b2z b0) n) (Z.testbit (b2z b1) n)
    (Z.testbit (b2z b2) n) (Z.testbit (b2z b3) n)
    (Z.testbit (b2z c0) n) (Z.testbit (b2z c1) n)
    (Z.testbit (b2z c2) n) (Z.testbit (b2z c3) n)
    (Z.testbit (b2z d0) n) (Z.testbit (b2z d1) n)
    (Z.testbit (b2z d2) n) (Z.testbit (b2z d3) n).
  intros. btauto.
Qed.

Lemma mul2_xor : forall a b,
  Cryptodome.mul2 (xor_byte a b)
  = xor_byte (Cryptodome.mul2 a) (Cryptodome.mul2 b).
Proof. by_all_bytes. Qed.
Lemma mul3_xor : forall a b,
  Cryptodome.mul3 (xor_byte a b)
  = xor_byte (Cryptodome.mul3 a) (Cryptodome.mul3 b).
Proof. by_all_bytes. Qed.
Lemma mul9_xor : forall a b,
  Cryptodome.mul9 (xor_byte a b)
  = xor_byte (Cryptodome.mul9 a) (Cryptodome.mul9 b).
Proof. by_all_bytes. Qed.
Lemma mul11_xor : forall a b,
  Cryptodome.mul11 (xor_byte a b)
  = xor_byte (Cryptodome.mul11 a) (Cryptodome.mul11 b).
Proof. by_all_bytes. Qed.
Lemma mul13_xor : forall a b,
  Cryptodome.mul13 (xor_byte a b)
  = xor_byte (Cryptodome.mul13 a) (Cryptodome.mul13 b).
Proof. by_all_bytes. Qed.
Lemma mul14_xor : forall a b,
  Cryptodome.mul14 (xor_byte a b)
  = xor_byte (Cryptodome.mul14 a) (Cryptodome.mul14 b).
Proof. by_all_bytes. Qed.

(** A function that distributes over XOR distributes over the XOR of
    four. *)
Lemma linear_xor4 (f : byte -> byte) :
  (forall a b, f (xor_byte a b) = xor_byte (f a) (f b)) ->
  forall a b c d,
    f (Cryptodome.xor4 a b c d) = Cryptodome.xor4 (f a) (f b) (f c) (f d).
Proof. intros H a b c d. unfold Cryptodome.xor4. rewrite !H. reflexivity. Qed.

Lemma xor4_0_first (a : byte) : Cryptodome.xor4 a x00 x00 x00 = a.
Proof. revert a. by_all_bytes. Qed.
Lemma xor4_0_second (a : byte) : Cryptodome.xor4 x00 a x00 x00 = a.
Proof. revert a. by_all_bytes. Qed.
Lemma xor4_0_third (a : byte) : Cryptodome.xor4 x00 x00 a x00 = a.
Proof. revert a. by_all_bytes. Qed.
Lemma xor4_0_fourth (a : byte) : Cryptodome.xor4 x00 x00 x00 a = a.
Proof. revert a. by_all_bytes. Qed.

(** Replaces, in the goal, an expression of the single byte [a] by the
    byte [v] it equals for each of the 256 values of [a]. *)
Ltac by_value e a v :=
  let f := lazymatch (eval pattern a in e) with ?f _ => f end in
  let H := fresh in
  assert (H : forall x, f x = (fun _ => v) x)
    by (apply (byte_fun_ext f (fun _ => v)); vm_compute; reflexivity);
  specialize (H a); cbv beta in H; rewrite H; clear H.

Ltac by_identity e a :=
  let f := lazymatch (eval pattern a in e) with ?f _ => f end in
  let H := fresh in
  assert (H : forall x, f x = (fun y => y) x)
    by (apply (byte_fun_ext f (fun y => y)); vm_compute; reflexivity);
  specialize (H a); cbv beta in H; rewrite H; clear H.

Lemma mix_inv_mix_column (a0 a1 a2 a3 : byte) :
  match Cryptodome.inv_mix_column a0 a1 a2 a3 with
  | [i0; i1; i2; i3] => Cryptodome.mix_column i0 i1 i2 i3
  | _ => []
  end = [a0; a1; a2; a3].
Proof.
  cbn [Cryptodome.inv_mix_column]. unfold Cryptodome.mix_column.
  f_equal; [|f_equal; [|f_equal; [|f_equal]]].
  - rewrite ?(linear_xor4 _ mul2_xor), ?(linear_xor4 _ mul3_xor).
    rewrite xor4_transpose.
    match goal with
    | |- Cryptodome.xor4 ?e0 ?e1 ?e2 ?e3 = _ =>
        by_identity e0 a0; by_value e1 a1 x00; by_value e2 a2 x00;
        by_value e3 a3 x00
    end.
    apply xor4_0_first.
  - rewrite ?(linear_xor4 _ mul2_xor), ?(linear_xor4 _ mul3_xor).
    rewrite xor4_transpose.
    match goal with
    | |- Cryptodome.xor4 ?e0 ?e1 ?e2 ?e3 = _ =>
        by_value e0 a0 x00; by_identity e1 a1; by_value e2 a2 x00;
        by_value e3 a3 x00
    end.
    apply xor4_0_second.
  - rewrite ?(linear_xor4 _ mul2_xor), ?(linear_xor4 _ mul3_xor).
    rewrite xor4_transpose.
    match goal with
    | |- Cryptodome.xor4 ?e0 ?e1 ?e2 ?e3 = _ =>
        by_value e0 a0 x00; by_value e1 a1 x00; by_identity e2 a2;
        by_value e3 a3 x00
    end.
    apply xor4_0_third.
  - rewrite ?(linear_xor4 _ mul2_xor), ?(linear_xor4 _ mul3_xor).
    rewrite xor4_transpose.
    match goal with
    | |- Cryptodome.xor4 ?e0 ?e1 ?e2 ?e3 = _ =>
        by_value e0 a0 x00; by_value e1 a1 x00; by_value e2 a2 x00;
        by_identity e3 a3
    end.
    apply xor4_0_fourth.
Qed.

Lemma inv_mix_mix_column (a0 a1 a2 a3 : byte) :
  match Cryptodome.mix_column a0 a1 a2 a3 with
  | [m0; m1; m2; m3] => Cryptodome.inv_mix_column m0 m1 m2 m3
  | _ => []
  end = [a0; a1; a2; a3].
Proof.
  cbn [Cryptodome.mix_column]. unfold Cryptodome.inv_mix_column.
  f_equal; [|f_equal; [|f_equal; [|f_equal]]];
    rewrite ?(linear_xor4 _ mul9_xor), ?(linear_xor4 _ mul11_xor),
      ?(linear_xor4 _ mul13_xor), ?(linear_xor4 _ mul14_xor);
    rewrite xor4_transpose.
  - match goal with
    | |- Cryptodome.xor4 ?e0 ?e1 ?e2 ?e3 = _ =>
        by_identity e0 a0; by_value e1 a1 x00; by_value e2 a2 x00;
        by_value e3 a3 x00
    end.
    apply xor4_0_first.
  - match goal with
    | |- Cryptodome.xor4 ?e0 ?e1 ?e2 ?e3 = _ =>
        by_value e0 a0 x00; by_identity e1 a1; by_value e2 a2 x00;
        by_value e3 a3 x00
    end.
    apply xor4_0_second.
  - match goal with
    | |- Cryptodome.xor4 ?e0 ?e1 ?e2 ?e3 = _ =>
        by_value e0 a0 x00; by_value e1 a1 x00; by_identity e2 a2;
        by_value e3 a3 x00
    end.
    apply xor4_0_third.
  - match goal with
    | |- Cryptodome.xor4 ?e0 ?e1 ?e2 ?e3 = _ =>
        by_value e0 a0 x00; by_value e1 a1 x00; by_value e2 a2 x00;
        by_identity e3 a3
    end.
    apply xor4_0_fourth.
Qed.

Lemma mix_columns_inv (s : bytes) :
  block s -> Cryptodome.inv_mix_columns (Cryptodome.mix_columns s) = s.
Proof.
  intros H. open_block s H.
  cbn [Cryptodome.mix_columns Cryptodome.mix_column app
       Cryptodome.inv_mix_columns].
  pose proof (inv_mix_mix_column s0 s1 s2 s3) as C0.
  pose proof (inv_mix_mix_column s4 s5 s6 s7) as C1.
  pose proof (inv_mix_mix_column s8 s9 s10 s11) as C2.
  pose proof (inv_mix_mix_column s12 s13 s14 s15) as C3.
  cbn [Cryptodome.mix_column] in C0, C1, C2, C3.
  rewrite C0, C1, C2, C3. reflexivity.
Qed.

Lemma inv_mix_columns_inv (s : bytes) :
  block s -> Cryptodome.mix_columns (Cryptodome.inv_mix_columns s) = s.
Proof.
  intros H. open_block s H.
  cbn [Cryptodome.inv_mix_columns Cryptodome.inv_mix_column app
       Cryptodome.mix_columns].
  pose proof (mix_inv_mix_column s0 s1 s2 s3) as C0.
  pose proof (mix_inv_mix_column s4 s5 s6 s7) as C1.
  pose proof (mix_inv_mix_column s8 s9 s10 s11) as C2.
  pose proof (mix_inv_mix_column s12 s13 s14 s15) as C3.
  cbn [Cryptodome.inv_mix_column] in C0, C1, C2, C3.
  rewrite C0, C1, C2, C3. reflexivity.
Qed.

(** Each step of a round maps blocks to blocks. *)
Lemma block_sub_bytes (s : bytes) : block s -> block (Cryptodome.sub_bytes s).
Proof. unfold block, Cryptodome.sub_bytes. rewrite length_map. auto. Qed.
Lemma block_inv_sub_bytes (s : bytes) :
  block s -> block (Cryptodome.inv_sub_bytes s).
Proof. unfold block, Cryptodome.inv_sub_bytes. rewrite length_map. auto. Qed.
Lemma block_shift_rows (s : bytes) : block s -> block (Cryptodome.shift_rows s).
Proof. intros H. open_block s H. reflexivity. Qed.
Lemma block_inv_shift_rows (s : bytes) :
  block s -> block (Cryptodome.inv_shift_rows s).
Proof. intros H. open_block s H. reflexivity. Qed.
Lemma block_mix_columns (s : bytes) :
  block s -> block (Cryptodome.mix_columns s).
Proof. intros H. open_block s H. reflexivity. Qed.
Lemma block_inv_mix_columns (s : bytes) :
  block s -> block (Cryptodome.inv_mix_columns s).
Proof. intros H. open_block s H. reflexivity. Qed.
Lemma block_xor_bytes (s k : bytes) :
  block s -> block k -> block (xor_bytes s k).
Proof. unfold block. intros Hs Hk. rewrite xor_bytes_length, Hs, Hk. auto. Qed.
Lemma block_next_round_key (rc : byte) (k : bytes) :
  block k -> block (Cryptodome.next_round_key rc k).
Proof. intros H. open_block k H. reflexivity. Qed.

Lemma block_expand (rcs : list byte) (k : bytes) :
  block k -> Forall block (Cryptodome.expand rcs k).
Proof.
  revert k. induction rcs as [|rc rcs IH]; intros k H; cbn; constructor.
  - apply block_next_round_key, H.
  - apply IH, block_next_round_key, H.
Qed.

Create HintDb blocks.
#[local] Hint Resolve block_sub_bytes block_inv_sub_bytes block_shift_rows
  block_inv_shift_rows block_mix_columns block_inv_mix_columns
  block_xor_bytes : blocks.

Lemma add_round_key_cancel (s k : bytes) :
  block s -> block k ->
  Cryptodome.add_round_key (Cryptodome.add_round_key s k) k = s.
Proof.
  intros Hs Hk. apply xor_bytes_cancel. unfold block in *. lia.
Qed.

Lemma round_inv (s k : bytes) :
  block s -> block k -> Cryptodome.inv_round (Cryptodome.round s k) k = s.
Proof.
  intros Hs Hk. unfold Cryptodome.inv_round, Cryptodome.round.
  rewrite add_round_key_cancel, mix_columns_inv, shift_rows_inv, sub_bytes_inv;
    auto with blocks.
Qed.

Lemma inv_round_inv (s k : bytes) :
  block s -> block k -> Cryptodome.round (Cryptodome.inv_round s k) k = s.
Proof.
  intros Hs Hk. unfold Cryptodome.inv_round, Cryptodome.round.
  unfold Cryptodome.add_round_key.
  rewrite inv_sub_bytes_inv, inv_shift_rows_inv, inv_mix_columns_inv;
    auto with blocks.
  apply add_round_key_cancel; auto.
Qed.

Lemma final_round_inv (s k : bytes) :
  block s -> block k ->
  Cryptodome.inv_final_round (Cryptodome.final_round s k) k = s.
Proof.
  intros Hs Hk. unfold Cryptodome.inv_final_round, Cryptodome.final_round.
  rewrite add_round_key_cancel, shift_rows_inv, sub_bytes_inv;
    auto with blocks.
Qed.

Lemma inv_final_round_inv (s k : bytes) :
  block s -> block k ->
  Cryptodome.final_round (Cryptodome.inv_final_round s k) k = s.
Proof.
  intros Hs Hk. unfold Cryptodome.inv_final_round, Cryptodome.final_round.
  unfold Cryptodome.add_round_key.
  rewrite inv_sub_bytes_inv, inv_shift_rows_inv; auto with blocks.
  apply add_round_key_cancel; auto.
Qed.

Lemma block_round (s k : bytes) :
  block s -> block k -> block (Cryptodome.round s k).
Proof. unfold Cryptodome.round, Cryptodome.add_round_key. auto with blocks. Qed.
Lemma block_final_round (s k : bytes) :
  block s -> block k -> block (Cryptodome.final_round s k).
Proof.
  unfold Cryptodome.final_round, Cryptodome.add_round_key. auto with blocks.
Qed.
Lemma block_inv_round (s k : bytes) :
  block s -> block k -> block (Cryptodome.inv_round s k).
Proof.
  unfold Cryptodome.inv_round, Cryptodome.add_round_key. auto 6 with blocks.
Qed.
Lemma block_inv_final_round (s k : bytes) :
  block s -> block k -> block (Cryptodome.inv_final_round s k).
Proof.
  unfold Cryptodome.inv_final_round, Cryptodome.add_round_key.
  auto with blocks.
Qed.

Lemma block_rounds (ks : list bytes) :
  Forall block ks -> forall s, block s -> block (Cryptodome.rounds s ks).
Proof.
  induction 1 as [|k ks Hk Hks IH]; intros s Hs; [exact Hs|].
  destruct ks as [|k' ks].
  - apply block_final_round; auto.
  - change (block (Cryptodome.rounds (Cryptodome.round s k) (k' :: ks))).
    apply IH, block_round; auto.
Qed.

Lemma block_inv_rounds (ks : list bytes) :
  Forall block ks -> forall s, block s -> block (Cryptodome.inv_rounds s ks).
Proof.
  induction 1 as [|k ks Hk Hks IH]; intros s Hs; [exact Hs|].
  destruct ks as [|k' ks].
  - apply block_inv_final_round; auto.
  - change (block (Cryptodome.inv_round
                     (Cryptodome.inv_rounds s (k' :: ks)) k)).
    apply block_inv_round; auto.
Qed.

Lemma rounds_inv (ks : list bytes) :
  Forall block ks ->
  forall s, block s -> Cryptodome.inv_rounds (Cryptodome.rounds s ks) ks = s.
Proof.
  induction 1 as [|k ks Hk Hks IH]; intros s Hs; [reflexivity|].
  destruct ks as [|k' ks].
  - apply final_round_inv; auto.
  - change (Cryptodome.inv_round
              (Cryptodome.inv_rounds
                 (Cryptodome.rounds (Cryptodome.round s k) (k' :: ks))
                 (k' :: ks)) k = s).
    rewrite IH by (apply block_round; auto).
    apply round_inv; auto.
Qed.

Lemma inv_rounds_inv (ks : list bytes) :
  Forall block ks ->
  forall s, block s -> Cryptodome.rounds (Cryptodome.inv_rounds s ks) ks = s.
Proof.
  induction 1 as [|k ks Hk Hks IH]; intros s Hs; [reflexivity|].
  destruct ks as [|k' ks].
  - apply inv_final_round_inv; auto.
  - change (Cryptodome.rounds
              (Cryptodome.round
                 (Cryptodome.inv_round
                    (Cryptodome.inv_rounds s (k' :: ks)) k) k)
              (k' :: ks) = s).
    rewrite inv_round_inv by (auto; apply block_inv_rounds; auto).
    apply IH, Hs.
Qed.

Lemma block_key_expansion (key : bytes) :
  block key -> Forall block (Cryptodome.key_expansion key).
Proof. apply block_expand. Qed.

Lemma block_cipher (key m : bytes) :
  block key -> block m -> block (Cryptodome.cipher key m).
Proof.
  intros Hk Hm. unfold Cryptodome.cipher.
  apply block_rounds; [apply block_key_expansion, Hk|].
  apply block_xor_bytes; auto.
Qed.

Lemma block_inv_cipher (key m : bytes) :
  block key -> block m -> block (Cryptodome.inv_cipher key m).
Proof.
  intros Hk Hm. unfold Cryptodome.inv_cipher.
  apply block_xor_bytes; auto.
  apply block_inv_rounds; [apply block_key_expansion, Hk|exact Hm].
Qed.

(** AES-128 on one block: the inverse cipher undoes the cipher, and the
    cipher undoes the inverse cipher. *)
Theorem inv_cipher_cipher (key m : bytes) :
  block key -> block m ->
  Cryptodome.inv_cipher key (Cryptodome.cipher key m) = m.
Proof.
  intros Hk Hm. unfold Cryptodome.inv_cipher, Cryptodome.cipher.
  rewrite rounds_inv
    by (auto using block_key_expansion; apply block_xor_bytes; auto).
  apply add_round_key_cancel; auto.
Qed.

Theorem cipher_inv_cipher (key m : bytes) :
  block key -> block m ->
  Cryptodome.cipher key (Cryptodome.inv_cipher key m) = m.
Proof.
  intros Hk Hm. unfold Cryptodome.inv_cipher, Cryptodome.cipher.
  unfold Cryptodome.add_round_key at 1 2.
  rewrite xor_bytes_cancel.
  - apply inv_rounds_inv; auto using block_key_expansion.
  - pose proof (block_inv_rounds _ (block_key_expansion key Hk) m Hm) as H.
    unfold block in *. lia.
Qed.

(** ** ECB and CMAC over the cipher *)

Lemma block_firstn_16 (m : bytes) :
  (16 <= List.length m)%nat -> block (firstn 16 m).
Proof. intros H. unfold block. rewrite length_firstn. lia. Qed.

Lemma ecb_length (f : bytes -> bytes) (n : nat) :
  (forall b, block b -> block (f b)) ->
  forall m, List.length m = (16 * n)%nat ->
            List.length (Cryptodome.ecb f n m) = (16 * n)%nat.
Proof.
  intros Hf. induction n as [|n IH]; intros m Hm; [reflexivity|].
  cbn [Cryptodome.ecb]. rewrite length_app.
  rewrite (Hf (firstn 16 m)) by (apply block_firstn_16; lia).
  rewrite IH by (rewrite length_skipn; lia). lia.
Qed.

Lemma ecb_inverse (f g : bytes -> bytes) (n : nat) :
  (forall b, block b -> block (g b)) ->
  (forall b, block b -> f (g b) = b) ->
  forall m, List.length m = (16 * n)%nat ->
            Cryptodome.ecb f n (Cryptodome.ecb g n m) = m.
Proof.
  intros Hg Hfg. induction n as [|n IH]; intros m Hm.
  - destruct m; [reflexivity|discriminate Hm].
  - cbn [Cryptodome.ecb].
    assert (Hb : block (firstn 16 m)) by (apply block_firstn_16; lia).
    rewrite (firstn_exact (g (firstn 16 m))), (skipn_exact (g (firstn 16 m)))
      by (apply Hg, Hb).
    rewrite Hfg by exact Hb.
    rewrite IH by (rewrite length_skipn; lia).
    apply firstn_skipn.
Qed.

Lemma length_multiple_16 (m : bytes) :
  (List.length m mod 16 = 0)%nat ->
  List.length m = (16 * (List.length m / 16))%nat.
Proof.
  intros H. pose proof (Nat.div_mod_eq (List.length m) 16). lia.
Qed.

Lemma ecb_apply_ok (f : bytes -> bytes -> bytes) (key m : bytes) :
  block key -> (List.length m mod 16 = 0)%nat ->
  Cryptodome.ecb_apply f key m
  = Ok (Cryptodome.ecb (f key) (List.length m / 16) m).
Proof.
  intros Hk Hm. unfold Cryptodome.ecb_apply.
  rewrite Hk, Hm. reflexivity.
Qed.

(** [aes128_encrypt] undoes [aes128_decrypt] and the other way round, on
    messages made of whole blocks under a 16-byte key. *)
Theorem aes128_encrypt_decrypt (key m : bytes) :
  block key -> (List.length m mod 16 = 0)%nat ->
  exists c,
    encryption.aes128_decrypt key m = Ok c
    /\ List.length c = List.length m
    /\ encryption.aes128_encrypt key c = Ok m.
Proof.
  intros Hk Hm.
  unfold encryption.aes128_decrypt, encryption.aes128_encrypt,
    Cryptodome.ecb_decrypt, Cryptodome.ecb_encrypt.
  rewrite ecb_apply_ok by assumption.
  pose proof (length_multiple_16 m Hm) as Hlen.
  assert (Hc : List.length
                 (Cryptodome.ecb (Cryptodome.inv_cipher key)
                    (List.length m / 16) m) = List.length m).
  { rewrite ecb_length; auto using block_inv_cipher. }
  eexists. split; [reflexivity|]. split; [exact Hc|].
  rewrite ecb_apply_ok by (rewrite ?Hc; assumption).
  rewrite Hc, ecb_inverse; auto using block_inv_cipher, cipher_inv_cipher.
Qed.

Theorem aes128_decrypt_encrypt (key m : bytes) :
  block key -> (List.length m mod 16 = 0)%nat ->
  exists c,
    encryption.aes128_encrypt key m = Ok c
    /\ List.length c = List.length m
    /\ encryption.aes128_decrypt key c = Ok m.
Proof.
  intros Hk Hm.
  unfold encryption.aes128_decrypt, encryption.aes128_encrypt,
    Cryptodome.ecb_decrypt, Cryptodome.ecb_encrypt.
  rewrite ecb_apply_ok by assumption.
  pose proof (length_multiple_16 m Hm) as Hlen.
  assert (Hc : List.length
                 (Cryptodome.ecb (Cryptodome.cipher key)
                    (List.length m / 16) m) = List.length m).
  { rewrite ecb_length; auto using block_cipher. }
  eexists. split; [reflexivity|]. split; [exact Hc|].
  rewrite ecb_apply_ok by (rewrite ?Hc; assumption).
  rewrite Hc, ecb_inverse; auto using block_cipher, inv_cipher_cipher.
Qed.

Lemma shl1_length (l : bytes) : List.length (fst (Cryptodome.shl1 l)) = List.length l.
Proof.
  induction l as [|b l IH]; [reflexivity|].
  cbn [Cryptodome.shl1]. destruct (Cryptodome.shl1 l) as [l' c].
  cbn in *. rewrite IH. reflexivity.
Qed.

Lemma block_dbl (l : bytes) : block l -> block (Cryptodome.dbl l).
Proof.
  intros H. unfold Cryptodome.dbl.
  pose proof (shl1_length l) as Hl.
  destruct (Cryptodome.shl1 l) as [l' c]. cbn in Hl.
  destruct c; [apply block_xor_bytes|]; unfold block in *;
    try reflexivity; lia.
Qed.

Lemma block_pad (m : bytes) :
  (List.length m <= 15)%nat -> block (Cryptodome.pad m).
Proof.
  intros H. unfold block, Cryptodome.pad.
  rewrite length_app. cbn [List.length]. rewrite repeat_length. lia.
Qed.

Lemma block_cmac_chain (enc : bytes -> bytes) (k1 k2 : bytes) :
  (forall b, block b -> block (enc b)) -> block k1 -> block k2 ->
  forall (n : nat) (m x : bytes),
    block x -> n = ((List.length m + 15) / 16)%nat ->
    block (Cryptodome.cmac_chain enc k1 k2 x n m).
Proof.
  intros Henc H1 H2. induction n as [|n IH]; intros m x Hx Hn.
  - cbn [Cryptodome.cmac_chain].
    assert (List.length m = 0%nat).
    { destruct (List.length m) as [|l]; [reflexivity|].
      assert (1 <= (S l + 15) / 16)%nat
        by (apply Nat.div_le_lower_bound; lia). lia. }
    apply Henc, block_xor_bytes; auto. apply block_xor_bytes; auto.
    apply block_pad. lia.
  - cbn [Cryptodome.cmac_chain]. destruct n as [|n].
    + assert (List.length m <= 16)%nat.
      { destruct (Nat.le_gt_cases (List.length m) 16) as [|Hgt]; [assumption|].
        assert (2 <= (List.length m + 15) / 16)%nat
          by (apply Nat.div_le_lower_bound; lia). lia. }
      destruct (Nat.eqb (List.length m) 16) eqn:E.
      * apply Nat.eqb_eq in E.
        apply Henc, block_xor_bytes; auto. apply block_xor_bytes; auto.
      * apply Nat.eqb_neq in E.
        apply Henc, block_xor_bytes; auto. apply block_xor_bytes; auto.
        apply block_pad. lia.
    + assert (32 <= List.length m + 15)%nat.
      { destruct (Nat.le_gt_cases 32 (List.length m + 15)) as [|Hlt];
          [assumption|].
        assert ((List.length m + 15) / 16 < 2)%nat
          by (apply Nat.Div0.div_lt_upper_bound; lia). lia. }
      apply IH.
      * apply Henc, block_xor_bytes; auto. apply block_firstn_16. lia.
      * rewrite length_skipn.
        replace (List.length m + 15)%nat
          with ((List.length m - 16 + 15) + 1 * 16)%nat in Hn by lia.
        rewrite Nat.div_add in Hn by lia. lia.
Qed.

Lemma cmac_digest_ok (key m : bytes) :
  block key ->
  exists d, Cryptodome.cmac_digest key m = Ok d /\ block d.
Proof.
  intros Hk. unfold Cryptodome.cmac_digest. rewrite Hk. cbn [Nat.eqb negb].
  eexists. split; [reflexivity|].
  assert (Hl : block (Cryptodome.cipher key (repeat x00 16)))
    by (apply block_cipher; [assumption|reflexivity]).
  apply block_cmac_chain; auto using block_cipher, block_dbl.
  reflexivity.
Qed.

Lemma generate_mic_ok (key m : bytes) :
  block key ->
  exists mic, encryption.generate_mic key m = Ok mic /\ List.length mic = 4%nat.
Proof.
  intros Hk. unfold encryption.generate_mic, encryption.aes128_cmac.
  destruct (cmac_digest_ok key m Hk) as [d [-> Hd]]. cbn [bind].
  eexists. split; [reflexivity|].
  rewrite length_firstn. unfold block in Hd. lia.
Qed.


(** ** The payload cipher (common) *)

Lemma keystream_ok (key : bytes) :
  block key ->
  forall (k i : nat) (s_i : bytes),
    block s_i -> (i + k <= 255)%nat ->
    exists s,
      common.keystream key s_i k i = Ok s
      /\ List.length s = (16 * k)%nat.
Proof.
  intros Hk. induction k as [|k IH]; intros i s_i Hs Hik.
  - exists []. split; reflexivity.
  - cbn [common.keystream bytes_of_ints].
    replace (in_byte_range (Z.of_nat i + 1)) with true
      by (symmetry; apply in_byte_range_spec; lia).
    cbn [bind].
    set (s_i' := firstn 15 s_i ++ [z2b (Z.of_nat i + 1)] ++ skipn 16 s_i).
    assert (Hs' : block s_i').
    { unfold block, s_i' in *. rewrite !length_app, length_firstn, length_skipn.
      cbn [List.length]. lia. }
    destruct (aes128_decrypt_encrypt key s_i' Hk) as [c [Hc [Hlen _]]].
    { rewrite Hs'. reflexivity. }
    rewrite Hc. cbn [bind].
    destruct (IH (S i) s_i' Hs' ltac:(lia)) as [s [Hsk Hslen]].
    rewrite Hsk. cbn [bind]. eexists. split; [reflexivity|].
    rewrite length_app, Hlen, Hs', Hslen. lia.
Qed.

(** C5 as the code has it.  Under a 16-byte key, with a device address and
    a frame counter of 32 bits, a direction of one byte and a payload of
    at most 4080 bytes (255 keystream blocks, numbered in one byte), the
    payload cipher returns a buffer as long as the payload, and applied to
    that buffer with the same parameters it returns the payload.
    [encrypt_frm_payload] is [decrypt_frm_payload] on every input. *)
Theorem decrypt_frm_payload_involution :
  (forall (frm_payload key : bytes) (dev_addr counter direction : Z),
      List.length key = 16%nat ->
      0 <= dev_addr < 4294967296 ->
      0 <= counter < 4294967296 ->
      0 <= direction < 256 ->
      (List.length frm_payload <= 4080)%nat ->
      exists c,
        common.encrypt_frm_payload frm_payload key dev_addr counter direction
        = Ok c
        /\ List.length c = List.length frm_payload
        /\ common.decrypt_frm_payload c key dev_addr counter direction
           = Ok frm_payload
        /\ common.decrypt_frm_payload frm_payload key dev_addr counter direction
           = Ok c)
  /\ (forall (frm_payload key : bytes) (dev_addr counter direction : Z),
        common.encrypt_frm_payload frm_payload key dev_addr counter direction
        = common.decrypt_frm_payload frm_payload key dev_addr counter
                                     direction).
Proof.
  split; [|reflexivity].
  intros frm_payload key dev_addr counter direction Hk Ha Hc Hd Hlen.
  unfold common.encrypt_frm_payload, common.decrypt_frm_payload.
  rewrite (int_to_bytes_ok direction 1) by (cbn; lia).
  rewrite !struct_pack_uint_ok by (cbn; lia). cbn [bind].
  set (s_i := [x01; x00; x00; x00; x00] ++ le_digits 1 direction
              ++ (le_digits 4 dev_addr ++ le_digits 4 counter) ++ [x00; x00]).
  assert (Hs : block s_i) by reflexivity.
  assert (Hblocks : ((List.length frm_payload + 15) / 16 <= 255)%nat).
  { apply Nat.lt_succ_r, Nat.Div0.div_lt_upper_bound. lia. }
  destruct (keystream_ok key Hk ((List.length frm_payload + 15) / 16)%nat
              0%nat s_i Hs ltac:(lia)) as [s [Hks Hslen]].
  assert (Hcover : (List.length frm_payload <= List.length s)%nat).
  { rewrite Hslen.
    pose proof (Nat.div_mod_eq (List.length frm_payload + 15) 16).
    pose proof (Nat.mod_upper_bound (List.length frm_payload + 15) 16).
    lia. }
  rewrite Hks. cbn [bind].
  exists (xor_bytes frm_payload s).
  assert (Hxl : List.length (xor_bytes frm_payload s) = List.length frm_payload)
    by (rewrite xor_bytes_length; lia).
  split; [reflexivity|]. split; [exact Hxl|]. split; [|reflexivity].
  rewrite Hxl, Hks. cbn [bind].
  rewrite xor_bytes_cancel by exact Hcover. reflexivity.
Qed.

Lemma decrypt_frm_payload_involution_witness :
  exists c,
    common.encrypt_frm_payload [x68; x65; x6c; x6c; x6f] key_0_to_f 1 1 0 = Ok c
    /\ List.length c = 5%nat
    /\ common.decrypt_frm_payload c key_0_to_f 1 1 0
       = Ok [x68; x65; x6c; x6c; x6f]
    /\ common.decrypt_frm_payload [x68; x65; x6c; x6c; x6f] key_0_to_f 1 1 0
       = Ok c.
Proof.
  apply (proj1 decrypt_frm_payload_involution); [reflexivity|lia..|cbn; lia].
Defined.

Lemma keystream_overflow (key : bytes) :
  block key ->
  forall (k i : nat) (s_i : bytes),
    block s_i -> (i <= 255)%nat -> (255 < i + k)%nat ->
    common.keystream key s_i k i = Err ValueError.
Proof.
  intros Hk. induction k as [|k IH]; intros i s_i Hs Hi Hik; [lia|].
  cbn [common.keystream bytes_of_ints].
  destruct (Nat.eq_dec i 255) as [->|Hne].
  - reflexivity.
  - replace (in_byte_range (Z.of_nat i + 1)) with true
      by (symmetry; apply in_byte_range_spec; lia).
    cbn [bind].
    set (s_i' := firstn 15 s_i ++ [z2b (Z.of_nat i + 1)] ++ skipn 16 s_i).
    assert (Hs' : block s_i').
    { unfold block, s_i' in *. rewrite !length_app, length_firstn, length_skipn.
      cbn [List.length]. lia. }
    destruct (aes128_decrypt_encrypt key s_i' Hk) as [c [Hc _]].
    { rewrite Hs'. reflexivity. }
    rewrite Hc. cbn [bind]. rewrite (IH (S i) s_i' Hs') by lia. reflexivity.
Qed.

(** C5, counterexample: on a payload of 4081 bytes the cipher raises
    [ValueError]; the 256th keystream block cannot be numbered. *)
Lemma decrypt_frm_payload_4081_bytes :
  common.decrypt_frm_payload (repeat x00 4081) key_zero 0 0 0 = Err ValueError.
Proof.
  unfold common.decrypt_frm_payload.
  change (int_to_bytes 0 1) with (Ok [x00]).
  change (struct_pack_uint 4 0) with (Ok [x00; x00; x00; x00]).
  cbn [bind]. rewrite repeat_length.
  rewrite keystream_overflow; [reflexivity..| |];
    change ((4081 + 15) / 16)%nat with 256%nat; lia.
Qed.

(** ** The MIC of a data frame (common) *)

Lemma le_digits_zero_extend (v : Z) :
  0 <= v < 65536 -> le_digits 4 v = le_digits 2 v ++ [x00; x00].
Proof.
  intros H. change 4%nat with (2 + 2)%nat. rewrite le_digits_split.
  f_equal. change (256 ^ Z.of_nat 2) with 65536.
  rewrite Z.div_small by lia. reflexivity.
Qed.

(** C6 as the code has it.  For a header and a MAC payload that serialise
    to [header_bytes] and [payload_bytes], at most 255 bytes together, and
    a 16-byte network session key, the MIC is the first 4 bytes of the
    AES-CMAC under that key of [B0 || header_bytes || payload_bytes], with
    [B0 = 0x49 || 00 00 00 00 || direction || dev_addr (4 bytes LE) ||
    f_cnt (2 bytes LE, then two zero bytes) || 0x00 || length]; the
    direction byte is 0 for an uplink payload and 1 for a downlink one. *)
Theorem generate_mic_mac_payload_formula :
  forall (mhdr : message.MHDR.t) (mac_payload : message.MACPayload.t)
         (nwk_skey header_bytes payload_bytes : bytes),
    List.length nwk_skey = 16%nat ->
    message.MHDR.generate mhdr = Ok header_bytes ->
    message.MACPayload.generate mac_payload = Ok payload_bytes ->
    (List.length (header_bytes ++ payload_bytes) <= 255)%nat ->
    let fhdr := message.MACPayload.fhdr mac_payload in
    let direction :=
      match message.MACPayload.cls mac_payload with
      | message.Uplink => 0
      | message.Downlink => 1
      end in
    let b0 := block_b_0 direction (message.FHDR.dev_addr fhdr)
                (message.FHDR.f_cnt fhdr)
                (List.length (header_bytes ++ payload_bytes)) in
    exists digest,
      encryption.aes128_cmac nwk_skey (b0 ++ header_bytes ++ payload_bytes)
      = Ok digest
      /\ List.length digest = 16%nat
      /\ common.generate_mic_mac_payload mhdr mac_payload nwk_skey
         = Ok (firstn 4 digest).
Proof.
  intros mhdr mac_payload nwk_skey h p Hk Hh Hp Hlen fhdr direction b0.
  assert (Hranges : 0 <= message.FHDR.dev_addr fhdr < 4294967296
                    /\ 0 <= message.FHDR.f_cnt fhdr < 65536).
  { unfold message.MACPayload.generate in Hp.
    apply bind_ok in Hp. destruct Hp as [raw [Hraw _]].
    unfold message.FHDR.generate in Hraw.
    apply bind_ok in Hraw. destruct Hraw as [a [Ha Hraw]].
    apply bind_ok in Hraw. destruct Hraw as [c [_ Hraw]].
    apply bind_ok in Hraw. destruct Hraw as [n [Hn _]].
    apply int_to_bytes_inv in Ha, Hn. cbn in Ha, Hn. split; apply Ha || apply Hn. }
  destruct Hranges as [Ha Hc].
  destruct (cmac_digest_ok nwk_skey (b0 ++ h ++ p) Hk) as [digest [Hd Hb]].
  exists digest. split; [exact Hd|]. split; [exact Hb|].
  unfold common.generate_mic_mac_payload. rewrite Hh, Hp. cbn [bind].
  assert (Hdir : common.direction_of mac_payload = direction)
    by (unfold common.direction_of, direction;
        destruct (message.MACPayload.cls mac_payload); reflexivity).
  rewrite Hdir.
  rewrite bytes_of_ints_ok
    by (repeat constructor; try lia;
        unfold direction; destruct (message.MACPayload.cls mac_payload); lia).
  cbn [bind map].
  fold fhdr. rewrite !struct_pack_uint_ok by (cbn; lia). cbn [bind].
  rewrite bytes_of_ints_ok by (repeat constructor; lia).
  cbn [bind map].
  unfold encryption.generate_mic.
  replace (([z2b 73; z2b 0; z2b 0; z2b 0; z2b 0; z2b direction]
            ++ (le_digits 4 (message.FHDR.dev_addr fhdr)
                ++ le_digits 4 (message.FHDR.f_cnt fhdr))
            ++ [z2b 0; z2b (Z.of_nat (List.length (h ++ p)))]) ++ h ++ p)
    with (b0 ++ h ++ p).
  - unfold encryption.aes128_cmac. rewrite Hd. reflexivity.
  - unfold b0, block_b_0.
    rewrite (le_digits_zero_extend (message.FHDR.f_cnt fhdr)) by lia.
    rewrite <- !app_assoc. reflexivity.
Qed.

Lemma generate_mic_mac_payload_formula_witness :
  exists digest,
    encryption.aes128_cmac key_0_to_f
      (block_b_0 0 1 1 10
       ++ [x40] ++ [x01; x00; x00; x00; x00; x01; x00; x01; x2a])
    = Ok digest
    /\ List.length digest = 16%nat
    /\ common.generate_mic_mac_payload
         {| message.MHDR.mtype := message.UnconfirmedDataUp;
            message.MHDR.major := 0 |}
         {| message.MACPayload.cls := message.Uplink;
            message.MACPayload.fhdr := example_fhdr;
            message.MACPayload.f_port := Some 1;
            message.MACPayload.frm_payload := [x2a] |}
         key_0_to_f
       = Ok (firstn 4 digest).
Proof.
  exact (generate_mic_mac_payload_formula
           {| message.MHDR.mtype := message.UnconfirmedDataUp;
              message.MHDR.major := 0 |}
           {| message.MACPayload.cls := message.Uplink;
              message.MACPayload.fhdr := example_fhdr;
              message.MACPayload.f_port := Some 1;
              message.MACPayload.frm_payload := [x2a] |}
           key_0_to_f [x40] [x01; x00; x00; x00; x00; x01; x00; x01; x2a]
           eq_refl eq_refl eq_refl ltac:(cbn; lia)).
Defined.

(** C6, counterexample: a header and a MAC payload that both constructors
    accept and that serialise to 256 bytes; the length does not fit the
    last byte of [B0] and the function raises [ValueError]. *)
Lemma generate_mic_mac_payload_256_bytes :
  message.MHDR.init message.UnconfirmedDataUp 0
  = Ok {| message.MHDR.mtype := message.UnconfirmedDataUp;
          message.MHDR.major := 0 |}
  /\ message.MACPayload.init message.Uplink example_fhdr (Some 1)
       (repeat x00 247) = Ok long_mac_payload
  /\ (exists p, message.MACPayload.generate long_mac_payload = Ok p
                /\ List.length p = 255%nat)
  /\ common.generate_mic_mac_payload
       {| message.MHDR.mtype := message.UnconfirmedDataUp;
          message.MHDR.major := 0 |}
       long_mac_payload key_zero
     = Err ValueError.
Proof.
  split; [reflexivity|]. split; [reflexivity|]. split.
  - eexists. split; reflexivity.
  - vm_compute. reflexivity.
Qed.

(** ** The join-accept (message) *)

Lemma DLSettings_round_trip (s : message.DLSettings.t) :
  0 <= message.DLSettings.rx1_dr_offset s < 8 ->
  0 <= message.DLSettings.rx2_datarate s < 16 ->
  exists b,
    message.DLSettings.generate s = Ok [b]
    /\ message.DLSettings.parse [b] = Ok s.
Proof.
  destruct s as [off dr].
  cbn [message.DLSettings.rx1_dr_offset message.DLSettings.rx2_datarate].
  intros Ho Hd.
  enum_Z off 0 8%nat; enum_Z dr 0 16%nat; eexists; split; reflexivity.
Qed.

Lemma plaintext_ok (j : message.JoinAccept.t) :
  join_accept_well_formed j ->
  exists b,
    message.DLSettings.parse [b] = Ok (message.JoinAccept.dl_settings j)
    /\ message.JoinAccept.plaintext j
       = Ok (le_digits 3 (message.JoinAccept.app_nonce j)
             ++ le_digits 3 (message.JoinAccept.net_id j)
             ++ le_digits 4 (message.JoinAccept.dev_addr j)
             ++ [b]
             ++ le_digits 1 (message.JoinAccept.rx_delay j)
             ++ message.JoinAccept.cf_list j).
Proof.
  intros [Ha [Hn [Hd [Ho [Hr [Hx _]]]]]].
  destruct (DLSettings_round_trip _ Ho Hr) as [b [Hg Hp]].
  exists b. split; [exact Hp|].
  unfold message.JoinAccept.plaintext.
  rewrite !int_to_bytes_ok by (cbn; lia). rewrite Hg. reflexivity.
Qed.

(** The fields read back from the serialised fields. *)
Lemma parse_fields (j : message.JoinAccept.t) (b : byte) :
  join_accept_well_formed j ->
  message.DLSettings.parse [b] = Ok (message.JoinAccept.dl_settings j) ->
  let raw_stream :=
    le_digits 3 (message.JoinAccept.app_nonce j)
    ++ le_digits 3 (message.JoinAccept.net_id j)
    ++ le_digits 4 (message.JoinAccept.dev_addr j)
    ++ [b]
    ++ le_digits 1 (message.JoinAccept.rx_delay j)
    ++ message.JoinAccept.cf_list j in
  (let '(b_nonce, s1) := stream_read 3 raw_stream in
   let '(b_net, s2) := stream_read 3 s1 in
   let '(b_addr, s3) := stream_read 4 s2 in
   let '(b_dl, s4) := stream_read 1 s3 in
   dl_settings <- message.DLSettings.parse b_dl ;;
   let '(b_delay, s5) := stream_read 1 s4 in
   Ok {| message.JoinAccept.app_nonce := int_from_bytes b_nonce;
         message.JoinAccept.net_id := int_from_bytes b_net;
         message.JoinAccept.dev_addr := int_from_bytes b_addr;
         message.JoinAccept.dl_settings := dl_settings;
         message.JoinAccept.rx_delay := int_from_bytes b_delay;
         message.JoinAccept.cf_list := s5 |}) = Ok j.
Proof.
  intros [Ha [Hn [Hd [Ho [Hr [Hx _]]]]]] Hp. cbv zeta. unfold stream_read.
  rewrite (firstn_exact (le_digits 3 _)), (skipn_exact (le_digits 3 _))
    by apply le_digits_length.
  rewrite (firstn_exact (le_digits 3 _)), (skipn_exact (le_digits 3 _))
    by apply le_digits_length.
  rewrite (firstn_exact (le_digits 4 _)), (skipn_exact (le_digits 4 _))
    by apply le_digits_length.
  rewrite (firstn_exact [b]), (skipn_exact [b]) by reflexivity.
  rewrite Hp. cbn [bind].
  rewrite (firstn_exact (le_digits 1 _)), (skipn_exact (le_digits 1 _))
    by apply le_digits_length.
  rewrite !int_from_bytes_le_digits by (cbn; lia).
  destruct j; reflexivity.
Qed.

Lemma drop_take_last {A : Type} (p m : list A) :
  firstn (List.length (p ++ m) - List.length m) (p ++ m) = p
  /\ skipn (List.length (p ++ m) - List.length m) (p ++ m) = m.
Proof.
  rewrite length_app.
  replace (List.length p + List.length m - List.length m)%nat
    with (List.length p) by lia.
  split; [apply firstn_exact | apply skipn_exact]; reflexivity.
Qed.

Lemma bytes_eqb_refl (a : bytes) : bytes_eqb a a = true.
Proof. unfold bytes_eqb. destruct (list_eq_dec _ a a); congruence. Qed.

Lemma DLSettings_parse_fields (b : byte) :
  message.DLSettings.parse [b]
  = Ok {| message.DLSettings.rx1_dr_offset := (b2z b / 16) mod 8;
          message.DLSettings.rx2_datarate := b2z b mod 16 |}.
Proof.
  unfold message.DLSettings.parse. cbn [getitem nth_error bind].
  pose proof (b2z_range b) as Hb.
  rewrite Z.shiftr_div_pow2 by lia.
  change 7 with (Z.ones 3). change 15 with (Z.ones 4).
  rewrite !Z.land_ones by lia. reflexivity.
Qed.

(** What [JoinAccept.parse] reads from a plaintext of twelve bytes or
    more. *)
Lemma parse_plaintext_fields (plaintext : bytes) :
  (12 <= List.length plaintext)%nat ->
  (let '(b_nonce, s1) := stream_read 3 plaintext in
   let '(b_net, s2) := stream_read 3 s1 in
   let '(b_addr, s3) := stream_read 4 s2 in
   let '(b_dl, s4) := stream_read 1 s3 in
   dl_settings <- message.DLSettings.parse b_dl ;;
   let '(b_delay, s5) := stream_read 1 s4 in
   Ok {| message.JoinAccept.app_nonce := int_from_bytes b_nonce;
         message.JoinAccept.net_id := int_from_bytes b_net;
         message.JoinAccept.dev_addr := int_from_bytes b_addr;
         message.JoinAccept.dl_settings := dl_settings;
         message.JoinAccept.rx_delay := int_from_bytes b_delay;
         message.JoinAccept.cf_list := s5 |})
  = Ok (join_accept_fields plaintext).
Proof.
  intros H.
  do 12 (destruct plaintext as [|? plaintext];
         [cbn [List.length] in H; lia|]).
  unfold stream_read, join_accept_fields, slice.
  cbn [firstn skipn nth].
  rewrite DLSettings_parse_fields. reflexivity.
Qed.

(** C3 as the code has it.  For a well-formed join-accept [J] and a
    16-byte key: [generate] appends to the header byte 0x20 the block
    cipher's decryption of [plaintext || MIC], the encryption of that body
    gives [plaintext || MIC] back, and [parse] returns [J], whose fields
    are those read off the plaintext.  A body of the same length that
    differs from the generated one, by one byte or more, never decrypts
    to J's [plaintext || MIC].  When the first four bytes of the CMAC of
    the header and the altered plaintext are not the altered tag,
    [parse] raises [MICError]; when they are, the altered plaintext is
    not J's and [parse] returns the fields read off it: the nonce, the
    network id and the address little-endian, bits 4 to 6 and 0 to 3 of
    the settings byte, the delay and the channel list. *)
Theorem JoinAccept_round_trip_and_corruption :
  forall (j : message.JoinAccept.t) (app_key : bytes),
    join_accept_well_formed j ->
    List.length app_key = 16%nat ->
    exists plaintext mic body,
      message.JoinAccept.plaintext j = Ok plaintext
      /\ encryption.generate_mic app_key (x20 :: plaintext) = Ok mic
      /\ encryption.aes128_decrypt app_key (plaintext ++ mic) = Ok body
      /\ encryption.aes128_encrypt app_key body = Ok (plaintext ++ mic)
      /\ message.JoinAccept.generate j app_key = Ok (x20 :: body)
      /\ message.JoinAccept.parse (x20 :: body) app_key = Ok j
      /\ join_accept_fields plaintext = j
      /\ forall body',
           List.length body' = List.length body ->
           body' <> body ->
           exists plaintext' mic' tag,
             encryption.aes128_encrypt app_key body'
             = Ok (plaintext' ++ mic')
             /\ List.length plaintext' = List.length plaintext
             /\ List.length mic' = 4%nat
             /\ plaintext' ++ mic' <> plaintext ++ mic
             /\ encryption.generate_mic app_key (x20 :: plaintext') = Ok tag
             /\ (mic' <> tag ->
                 message.JoinAccept.parse (x20 :: body') app_key
                 = Err MICError)
             /\ (mic' = tag ->
                 plaintext' <> plaintext
                 /\ message.JoinAccept.parse (x20 :: body') app_key
                    = Ok (join_accept_fields plaintext')).
Proof.
  intros j app_key Hwf Hk.
  destruct (plaintext_ok j Hwf) as [b [Hdl Hpt]].
  set (pt := le_digits 3 (message.JoinAccept.app_nonce j)
             ++ le_digits 3 (message.JoinAccept.net_id j)
             ++ le_digits 4 (message.JoinAccept.dev_addr j)
             ++ [b]
             ++ le_digits 1 (message.JoinAccept.rx_delay j)
             ++ message.JoinAccept.cf_list j) in *.
  assert (Hptlen : List.length pt = 12%nat \/ List.length pt = 28%nat).
  { unfold pt. rewrite !length_app, !le_digits_length. cbn [List.length].
    destruct Hwf as [_ [_ [_ [_ [_ [_ [Hcf|Hcf]]]]]]]; rewrite Hcf; lia. }
  destruct (generate_mic_ok app_key (x20 :: pt) Hk) as [mic [Hmic Hmiclen]].
  assert (Haligned : (List.length (pt ++ mic) mod 16 = 0)%nat).
  { rewrite length_app, Hmiclen. destruct Hptlen as [-> | ->]; reflexivity. }
  destruct (aes128_encrypt_decrypt app_key (pt ++ mic) Hk Haligned)
    as [body [Hdec [Hbodylen Henc]]].
  assert (Hlong : Nat.ltb (List.length (x20 :: body)) 12 = false).
  { apply Nat.ltb_ge. cbn [List.length]. rewrite Hbodylen, length_app. lia. }
  assert (Hdrop : drop_last 4 (pt ++ mic) = pt /\ take_last 4 (pt ++ mic) = mic).
  { unfold drop_last, take_last. rewrite <- Hmiclen. apply drop_take_last. }
  destruct Hdrop as [Hdrop Htake].
  assert (Hparse : message.JoinAccept.parse (x20 :: body) app_key = Ok j).
  { unfold message.JoinAccept.parse. rewrite Hlong.
    change (slice (x20 :: body) 0 1) with [x20].
    change (message.MHDR.parse [x20])
      with (Ok {| message.MHDR.mtype := message.JoinAccept_;
                  message.MHDR.major := 0 |}).
    cbn [bind message.MHDR.mtype].
    change (message.MType_eqb message.JoinAccept_ message.JoinAccept_)
      with true.
    cbn [negb skipn]. rewrite Henc. cbn [bind].
    change (message.MHDR.generate _) with (Ok [x20]). cbn [bind].
    rewrite Hdrop, Htake. change ([x20] ++ pt) with (x20 :: pt).
    rewrite Hmic. cbn [bind]. rewrite bytes_eqb_refl. cbn [negb].
    apply (parse_fields j b Hwf Hdl). }
  exists pt, mic, body.
  split; [exact Hpt|]. split; [exact Hmic|]. split; [exact Hdec|].
  split; [exact Henc|]. split; [|split; [exact Hparse|split]].
  - unfold message.JoinAccept.generate. rewrite Hpt.
    change (message.MHDR.init message.JoinAccept_ 0)
      with (Ok {| message.MHDR.mtype := message.JoinAccept_;
                  message.MHDR.major := 0 |}).
    cbn [bind].
    change (message.MHDR.generate _) with (Ok [x20]). cbn [bind].
    change ([x20] ++ pt) with (x20 :: pt). rewrite Hmic. cbn [bind].
    rewrite Hdec. reflexivity.
  - pose proof (parse_fields j b Hwf Hdl) as Hf. cbv zeta in Hf.
    fold pt in Hf.
    rewrite parse_plaintext_fields in Hf by lia.
    congruence.
  - intros body' Hlen' Hneq.
    assert (Haligned' : (List.length body' mod 16 = 0)%nat)
      by (rewrite Hlen', Hbodylen; exact Haligned).
    destruct (aes128_decrypt_encrypt app_key body' Hk Haligned')
      as [decoded [Henc' [Hdlen Hback]]].
    assert (Hsplit : decoded = drop_last 4 decoded ++ take_last 4 decoded).
    { unfold drop_last, take_last. symmetry. apply firstn_skipn. }
    assert (Hlen_pt : List.length (drop_last 4 decoded) = List.length pt).
    { unfold drop_last. rewrite length_firstn, Hdlen, Hlen', Hbodylen,
        length_app. lia. }
    assert (Hlen_mic : List.length (take_last 4 decoded) = 4%nat).
    { unfold take_last. rewrite length_skipn, Hdlen, Hlen', Hbodylen,
        length_app. lia. }
    destruct (generate_mic_ok app_key (x20 :: drop_last 4 decoded) Hk)
      as [tag [Htag _]].
    exists (drop_last 4 decoded), (take_last 4 decoded), tag.
    rewrite <- Hsplit.
    split; [exact Henc'|]. split; [exact Hlen_pt|]. split; [exact Hlen_mic|].
    split.
    { intros E. subst decoded. apply Hneq.
      rewrite Hdec in Hback. inversion Hback. reflexivity. }
    split; [exact Htag|].
    assert (Hp : message.JoinAccept.parse (x20 :: body') app_key
                 = if bytes_eqb (take_last 4 decoded) tag
                   then Ok (join_accept_fields (drop_last 4 decoded))
                   else Err MICError).
    { unfold message.JoinAccept.parse.
      replace (Nat.ltb (List.length (x20 :: body')) 12) with false
        by (rewrite <- Hlong; cbn [List.length]; rewrite Hlen'; reflexivity).
      change (slice (x20 :: body') 0 1) with [x20].
      change (message.MHDR.parse [x20])
        with (Ok {| message.MHDR.mtype := message.JoinAccept_;
                    message.MHDR.major := 0 |}).
      cbn [bind message.MHDR.mtype].
      change (message.MType_eqb message.JoinAccept_ message.JoinAccept_)
        with true.
      cbn [negb skipn]. rewrite Henc'. cbn [bind].
      change (message.MHDR.generate _) with (Ok [x20]). cbn [bind].
      change ([x20] ++ drop_last 4 decoded)
        with (x20 :: drop_last 4 decoded).
      rewrite Htag. cbn [bind].
      destruct (bytes_eqb (take_last 4 decoded) tag); cbn [negb];
        [|reflexivity].
      apply parse_plaintext_fields. lia. }
    rewrite Hp. unfold bytes_eqb.
    destruct (list_eq_dec Byte.byte_eq_dec (take_last 4 decoded) tag)
      as [E|E]; (split; [intros H|intros H; split]);
      try reflexivity; try contradiction.
    intros Ept. apply Hneq.
    rewrite Ept in Htag. rewrite Hmic in Htag.
    assert (Emic : take_last 4 decoded = mic) by congruence.
    rewrite Hsplit, Ept, Emic in Hback.
    rewrite Hdec in Hback. congruence.
Qed.

Lemma JoinAccept_round_trip_and_corruption_witness :
  exists plaintext mic body,
    message.JoinAccept.plaintext example_join_accept = Ok plaintext
    /\ encryption.generate_mic key_0_to_f (x20 :: plaintext) = Ok mic
    /\ encryption.aes128_decrypt key_0_to_f (plaintext ++ mic) = Ok body
    /\ encryption.aes128_encrypt key_0_to_f body = Ok (plaintext ++ mic)
    /\ message.JoinAccept.generate example_join_accept key_0_to_f
       = Ok (x20 :: body)
    /\ message.JoinAccept.parse (x20 :: body) key_0_to_f
       = Ok example_join_accept
    /\ join_accept_fields plaintext = example_join_accept
    /\ forall body',
         List.length body' = List.length body ->
         body' <> body ->
         exists plaintext' mic' tag,
           encryption.aes128_encrypt key_0_to_f body'
           = Ok (plaintext' ++ mic')
           /\ List.length plaintext' = List.length plaintext
           /\ List.length mic' = 4%nat
           /\ plaintext' ++ mic' <> plaintext ++ mic
           /\ encryption.generate_mic key_0_to_f (x20 :: plaintext')
              = Ok tag
           /\ (mic' <> tag ->
               message.JoinAccept.parse (x20 :: body') key_0_to_f
               = Err MICError)
           /\ (mic' = tag ->
               plaintext' <> plaintext
               /\ message.JoinAccept.parse (x20 :: body') key_0_to_f
                  = Ok (join_accept_fields plaintext')).
Proof.
  apply (JoinAccept_round_trip_and_corruption example_join_accept key_0_to_f).
  - unfold join_accept_well_formed. cbn. repeat split; lia.
  - reflexivity.
Defined.

(** C3, counterexample: under the key 00 01 ... 0f the join-accept
    [example_join_accept] goes on the wire as 20 44 ce 5d 37 5d c1 aa 5d 07
    0b b0 f7 2a 8d 0c bd; with the one byte 0b changed to ab, [parse]
    raises no error and returns other fields. *)
Lemma JoinAccept_corrupted_byte_accepted :
  message.JoinAccept.generate example_join_accept key_0_to_f
  = Ok [x20; x44; xce; x5d; x37; x5d; xc1; xaa; x5d; x07; x0b; xb0; xf7;
        x2a; x8d; x0c; xbd]
  /\ message.JoinAccept.parse
       [x20; x44; xce; x5d; x37; x5d; xc1; xaa; x5d; x07; xab; xb0; xf7;
        x2a; x8d; x0c; xbd] key_0_to_f
     = Ok {| message.JoinAccept.app_nonce := 11952588;
             message.JoinAccept.net_id := 15475457;
             message.JoinAccept.dev_addr := 1165414483;
             message.JoinAccept.dl_settings :=
               {| message.DLSettings.rx1_dr_offset := 2;
                  message.DLSettings.rx2_datarate := 13 |};
             message.JoinAccept.rx_delay := 233;
             message.JoinAccept.cf_list := [] |}
  /\ message.JoinAccept.parse
       [x20; x44; xce; x5d; x37; x5d; xc1; xaa; x5d; x07; xab; xb0; xf7;
        x2a; x8d; x0c; xbd] key_0_to_f
     <> Err MICError.
Proof.
  split; [vm_compute; reflexivity|].
  assert (H : message.JoinAccept.parse
       [x20; x44; xce; x5d; x37; x5d; xc1; xaa; x5d; x07; xab; xb0; xf7;
        x2a; x8d; x0c; xbd] key_0_to_f
     = Ok {| message.JoinAccept.app_nonce := 11952588;
             message.JoinAccept.net_id := 15475457;
             message.JoinAccept.dev_addr := 1165414483;
             message.JoinAccept.dl_settings :=
               {| message.DLSettings.rx1_dr_offset := 2;
                  message.DLSettings.rx2_datarate := 13 |};
             message.JoinAccept.rx_delay := 233;
             message.JoinAccept.cf_list := [] |})
    by (vm_compute; reflexivity).
  split; [exact H|]. rewrite H. discriminate.
Qed.

(** ** The cipher model against published vectors *)

(** FIPS 197, appendix C.1. *)
Example cipher_fips197_c1 :
  Cryptodome.cipher key_0_to_f
    [x00; x11; x22; x33; x44; x55; x66; x77;
     x88; x99; xaa; xbb; xcc; xdd; xee; xff]
  = [x69; xc4; xe0; xd8; x6a; x7b; x04; x30;
     xd8; xcd; xb7; x80; x70; xb4; xc5; x5a].
Proof. vm_compute. reflexivity. Qed.

(** RFC 4493, section 4: examples 1 (empty message) and 2 (one block). *)
Example cmac_rfc4493_1 :
  Cryptodome.cmac_digest
    [x2b; x7e; x15; x16; x28; xae; xd2; xa6;
     xab; xf7; x15; x88; x09; xcf; x4f; x3c] []
  = Ok [xbb; x1d; x69; x29; xe9; x59; x37; x28;
        x7f; xa3; x7d; x12; x9b; x75; x67; x46].
Proof. vm_compute. reflexivity. Qed.

Example cmac_rfc4493_2 :
  Cryptodome.cmac_digest
    [x2b; x7e; x15; x16; x28; xae; xd2; xa6;
     xab; xf7; x15; x88; x09; xcf; x4f; x3c]
    [x6b; xc1; xbe; xe2; x2e; x40; x9f; x96;
     xe9; x3d; x7e; x11; x73; x93; x17; x2a]
  = Ok [x07; x0a; x16; xb4; x6b; x4d; x41; x44;
        xf7; x9b; xdd; x9d; xd0; x4a; x28; x7c].
Proof. vm_compute. reflexivity. Qed.

(** RFC 4493, example 3: 40 bytes, a last block that is padded. *)
Example cmac_rfc4493_3 :
  Cryptodome.cmac_digest
    [x2b; x7e; x15; x16; x28; xae; xd2; xa6;
     xab; xf7; x15; x88; x09; xcf; x4f; x3c]
    [x6b; xc1; xbe; xe2; x2e; x40; x9f; x96;
     xe9; x3d; x7e; x11; x73; x93; x17; x2a;
     xae; x2d; x8a; x57; x1e; x03; xac; x9c;
     x9e; xb7; x6f; xac; x45; xaf; x8e; x51;
     x30; xc8; x1c; x46; xa3; x5c; xe4; x11]
  = Ok [xdf; xa6; x67; x47; xde; x9a; xe6; x30;
        x30; xca; x32; x61; x14; x97; xc8; x27].
Proof. vm_compute. reflexivity. Qed.

(** ** Session keys (common) *)

Lemma le_digits_inj (n : nat) (v w : Z) :
  0 <= v < 256 ^ Z.of_nat n -> 0 <= w < 256 ^ Z.of_nat n ->
  le_digits n v = le_digits n w -> v = w.
Proof.
  intros Hv Hw H.
  rewrite <- (int_from_bytes_le_digits n v Hv),
          <- (int_from_bytes_le_digits n w Hw), H.
  reflexivity.
Qed.

Lemma app_inv_length {A : Type} (a b c d : list A) :
  List.length a = List.length c -> a ++ b = c ++ d -> a = c /\ b = d.
Proof.
  revert c. induction a as [|x a IH]; intros [|y c] Hl H; try discriminate.
  - split; [reflexivity | exact H].
  - cbn in H. injection H as -> H. cbn in Hl.
    destruct (IH c ltac:(lia) H) as [-> ->]. split; reflexivity.
Qed.

Lemma generate_key_block (app_key : bytes) (type_of_key : common.TypeOfKey)
    (app_nonce net_id dev_nonce : Z) :
  List.length app_key = 16%nat ->
  0 <= app_nonce < 16777216 -> 0 <= net_id < 16777216 ->
  0 <= dev_nonce < 65536 ->
  let message :=
    [z2b (common.TypeOfKey_value type_of_key)] ++ le_digits 3 app_nonce
    ++ le_digits 3 net_id ++ le_digits 2 dev_nonce ++ repeat x00 7 in
  exists key,
    common.generate_key app_key type_of_key app_nonce net_id dev_nonce = Ok key
    /\ List.length key = 16%nat
    /\ encryption.aes128_decrypt app_key key = Ok message.
Proof.
  intros Hk Ha Hn Hd message.
  unfold common.generate_key.
  rewrite (int_to_bytes_ok (common.TypeOfKey_value type_of_key) 1)
    by (destruct type_of_key; cbn; lia).
  rewrite (int_to_bytes_ok app_nonce 3), (int_to_bytes_ok net_id 3),
          (int_to_bytes_ok dev_nonce 2) by (cbn; lia).
  cbn [bind].
  change (le_digits 1 (common.TypeOfKey_value type_of_key))
    with [z2b (common.TypeOfKey_value type_of_key mod 256)].
  replace (common.TypeOfKey_value type_of_key mod 256)
    with (common.TypeOfKey_value type_of_key)
    by (destruct type_of_key; reflexivity).
  fold message.
  assert (Hlen : List.length message = 16%nat).
  { unfold message. rewrite !length_app, !le_digits_length, repeat_length.
    reflexivity. }
  destruct (aes128_decrypt_encrypt app_key message Hk) as [c [Hc [Hcl Hdec]]].
  { rewrite Hlen. reflexivity. }
  exists c. repeat split; [exact Hc | congruence | exact Hdec].
Qed.

(** X1.  [generate_key] under a 16-byte application key, with nonces that
    fit their fields (3, 3 and 2 bytes): the session key is one 16-byte
    block, decrypting it under the application key gives back the
    derivation block (the key type, the three nonces and seven zero
    bytes), and so two derivations under the same application key agree
    only when the key type and the three nonces agree: the network and
    the application session keys of one join always differ. *)
Theorem generate_key_invertible :
  forall (app_key : bytes) (type_of_key : common.TypeOfKey)
         (app_nonce net_id dev_nonce : Z),
    List.length app_key = 16%nat ->
    0 <= app_nonce < 16777216 -> 0 <= net_id < 16777216 ->
    0 <= dev_nonce < 65536 ->
    exists key,
      common.generate_key app_key type_of_key app_nonce net_id dev_nonce
      = Ok key
      /\ List.length key = 16%nat
      /\ encryption.aes128_decrypt app_key key
         = Ok ([z2b (common.TypeOfKey_value type_of_key)]
               ++ le_digits 3 app_nonce ++ le_digits 3 net_id
               ++ le_digits 2 dev_nonce ++ repeat x00 7)
      /\ (forall type_of_key' app_nonce' net_id' dev_nonce',
             0 <= app_nonce' < 16777216 -> 0 <= net_id' < 16777216 ->
             0 <= dev_nonce' < 65536 ->
             common.generate_key app_key type_of_key' app_nonce' net_id'
                                  dev_nonce' = Ok key ->
             type_of_key' = type_of_key /\ app_nonce' = app_nonce
             /\ net_id' = net_id /\ dev_nonce' = dev_nonce)
      /\ (common.generate_nwk_s_key app_key app_nonce net_id dev_nonce
          <> common.generate_app_s_key app_key app_nonce net_id dev_nonce).
Proof.
  intros app_key t a n d Hk Ha Hn Hd.
  destruct (generate_key_block app_key t a n d Hk Ha Hn Hd)
    as [key [Hgen [Hlen Hdec]]].
  assert (Hinj : forall t' a' n' d',
             0 <= a' < 16777216 -> 0 <= n' < 16777216 -> 0 <= d' < 65536 ->
             common.generate_key app_key t' a' n' d' = Ok key ->
             t' = t /\ a' = a /\ n' = n /\ d' = d).
  { intros t' a' n' d' Ha' Hn' Hd' Hgen'.
    destruct (generate_key_block app_key t' a' n' d' Hk Ha' Hn' Hd')
      as [key' [Hgen2 [_ Hdec']]].
    rewrite Hgen' in Hgen2. injection Hgen2 as <-.
    rewrite Hdec in Hdec'.
    assert (Hm := f_equal (fun r => match r with Ok x => x | Err _ => [] end)
                          Hdec').
    apply app_inv_length in Hm; [|reflexivity].
    destruct Hm as [Ht Hrest].
    apply app_inv_length in Hrest; [|rewrite !le_digits_length; reflexivity].
    destruct Hrest as [Ea Hrest].
    apply app_inv_length in Hrest; [|rewrite !le_digits_length; reflexivity].
    destruct Hrest as [En Hrest].
    apply app_inv_length in Hrest; [|rewrite !le_digits_length; reflexivity].
    destruct Hrest as [Ed _].
    apply le_digits_inj in Ea; [|cbn; lia..].
    apply le_digits_inj in En; [|cbn; lia..].
    apply le_digits_inj in Ed; [|cbn; lia..].
    repeat split; try congruence.
    destruct t, t'; try reflexivity; discriminate Ht. }
  exists key. split; [exact Hgen|]. split; [exact Hlen|].
  split; [exact Hdec|]. split; [exact Hinj|].
  unfold common.generate_nwk_s_key, common.generate_app_s_key.
  intros E.
  destruct (generate_key_block app_key common.NwkSKey a n d Hk Ha Hn Hd)
    as [k1 [Hg1 [_ Hd1]]].
  destruct (generate_key_block app_key common.AppSKey a n d Hk Ha Hn Hd)
    as [k2 [Hg2 [_ Hd2]]].
  rewrite Hg1, Hg2 in E. injection E as <-.
  rewrite Hd1 in Hd2. discriminate Hd2.
Qed.

Lemma generate_key_invertible_witness :
  exists key,
    common.generate_key key_0_to_f common.NwkSKey 1 2 3 = Ok key
    /\ List.length key = 16%nat
    /\ encryption.aes128_decrypt key_0_to_f key
       = Ok [x01; x01; x00; x00; x02; x00; x00; x03; x00;
             x00; x00; x00; x00; x00; x00; x00].
Proof.
  destruct (generate_key_invertible key_0_to_f common.NwkSKey 1 2 3
              eq_refl ltac:(lia) ltac:(lia) ltac:(lia))
    as [key [Hgen [Hlen [Hdec _]]]].
  exists key. repeat split; assumption.
Defined.

(** ** MIC verification (common) *)

Lemma bytes_eqb_eq (a b : bytes) : bytes_eqb a b = true <-> a = b.
Proof.
  unfold bytes_eqb. destruct (list_eq_dec Byte.byte_eq_dec a b); split;
    intros; congruence.
Qed.

Lemma mic_eq_spec (g : bytes) (mic : option bytes) :
  common.mic_eq g mic = true <-> mic = Some g.
Proof.
  destruct mic as [m|]; cbn.
  - rewrite bytes_eqb_eq. split; intros; congruence.
  - split; intros; discriminate.
Qed.

Lemma generate_mic_length (key message mic : bytes) :
  encryption.generate_mic key message = Ok mic ->
  List.length key = 16%nat /\ List.length mic = 4%nat.
Proof.
  unfold encryption.generate_mic, encryption.aes128_cmac,
    Cryptodome.cmac_digest.
  destruct (Nat.eqb (List.length key) 16) eqn:E; cbn [negb bind];
    [|discriminate].
  apply Nat.eqb_eq in E. intros H.
  destruct (generate_mic_ok key message E) as [mic' [Hm Hl]].
  unfold encryption.generate_mic, encryption.aes128_cmac,
    Cryptodome.cmac_digest in Hm.
  rewrite (proj2 (Nat.eqb_eq _ _) E) in Hm. cbn [negb bind] in Hm.
  split; [exact E|]. congruence.
Qed.

Lemma generate_mic_mac_payload_length (mhdr : message.MHDR.t)
    (p : message.MACPayload.t) (key mic : bytes) :
  common.generate_mic_mac_payload mhdr p key = Ok mic ->
  List.length key = 16%nat /\ List.length mic = 4%nat.
Proof.
  unfold common.generate_mic_mac_payload. intros H.
  do 6 (apply bind_ok in H; destruct H as [? [_ H]]).
  eapply generate_mic_length. exact H.
Qed.

Lemma generate_mic_join_request_length (mhdr : message.MHDR.t)
    (p : message.Payload) (key mic : bytes) :
  common.generate_mic_join_request mhdr p key = Ok mic ->
  List.length key = 16%nat /\ List.length mic = 4%nat.
Proof.
  unfold common.generate_mic_join_request. intros H.
  do 2 (apply bind_ok in H; destruct H as [? [_ H]]).
  eapply generate_mic_length. exact H.
Qed.

(** X2.  a frame that carries the MIC computed for it verifies after a trip
    over the wire.  For a data frame (or a join request) whose fields are
    well formed and whose MIC is the one [generate_mic_mac_payload] (or
    [generate_mic_join_request]) returns under [key], the frame
    serialises, the bytes parse back to the same frame, and
    [verify_mic_phy_payload] on the parsed frame returns [True] under the
    same key. *)
Theorem verify_mic_phy_payload_accepts_generated :
  forall (mhdr : message.MHDR.t) (payload : message.Payload)
         (key mic : bytes),
    match payload with
    | message.PMACPayload p =>
        common.generate_mic_mac_payload mhdr p key = Ok mic
    | message.PJoinRequest _ =>
        common.generate_mic_join_request mhdr payload key = Ok mic
    | message.PProprietary _ => False
    end ->
    let phy := {| message.PHYPayload.mhdr := mhdr;
                  message.PHYPayload.payload := payload;
                  message.PHYPayload.mic := Some mic |} in
    phy_payload_well_formed phy ->
    exists raw phy',
      message.PHYPayload.generate phy = Ok raw
      /\ message.PHYPayload.parse raw = Ok phy'
      /\ phy' = phy
      /\ common.verify_mic_phy_payload phy' key = Return (Some true).
Proof.
  intros mhdr payload key mic Hmic phy Hwf.
  destruct (PHYPayload_round_trip phy Hwf) as [raw [Hgen Hparse]].
  exists raw, phy. split; [exact Hgen|]. split; [exact Hparse|].
  split; [reflexivity|].
  unfold common.verify_mic_phy_payload, phy. cbn [message.PHYPayload.payload].
  destruct payload as [p|j|q]; [| |contradiction].
  - unfold common.verify_mic_mac_payload.
    cbn [message.PHYPayload.payload message.PHYPayload.mhdr
         message.PHYPayload.mic].
    rewrite Hmic. cbn [bind lift common.mic_eq].
    rewrite bytes_eqb_refl. reflexivity.
  - unfold common.verify_mic_join_request.
    cbn [message.PHYPayload.payload message.PHYPayload.mhdr
         message.PHYPayload.mic].
    rewrite Hmic. cbn [bind lift common.mic_eq].
    rewrite bytes_eqb_refl. reflexivity.
Qed.

(** X3.  what [verify_mic_phy_payload] answers.  For a data frame or a join
    request whose MIC computation succeeds with the tag [g], the answer is
    [True] exactly when the stored MIC is [g], and [False] otherwise: for
    an absent MIC and for a MIC that is not 4 bytes long.  When the
    computation raises, the verification raises the same exception.  For
    a proprietary payload the answer is [None], whatever the key.  The
    dispatcher never raises [AttributeError]; [verify_mic_mac_payload]
    called on a join-request frame does, once the frame has been
    serialised. *)
Theorem verify_mic_phy_payload_spec :
  forall (phy : message.PHYPayload.t) (key : bytes),
    let computed :=
      match message.PHYPayload.payload phy with
      | message.PMACPayload p =>
          Some (common.generate_mic_mac_payload
                  (message.PHYPayload.mhdr phy) p key)
      | message.PJoinRequest _ =>
          Some (common.generate_mic_join_request
                  (message.PHYPayload.mhdr phy)
                  (message.PHYPayload.payload phy) key)
      | message.PProprietary _ => None
      end in
    match computed with
    | None => common.verify_mic_phy_payload phy key = Return None
    | Some (Err e) =>
        common.verify_mic_phy_payload phy key = Raise (Exn e)
    | Some (Ok g) =>
        List.length g = 4%nat
        /\ (exists b, common.verify_mic_phy_payload phy key
                      = Return (Some b)
                      /\ (b = true <-> message.PHYPayload.mic phy = Some g))
        /\ (forall m, message.PHYPayload.mic phy = Some m ->
                      List.length m <> 4%nat ->
                      common.verify_mic_phy_payload phy key
                      = Return (Some false))
        /\ (message.PHYPayload.mic phy = None ->
            common.verify_mic_phy_payload phy key = Return (Some false))
    end
    /\ common.verify_mic_phy_payload phy key <> Raise AttributeError
    /\ (forall j h b,
           message.PHYPayload.payload phy = message.PJoinRequest j ->
           message.MHDR.generate (message.PHYPayload.mhdr phy) = Ok h ->
           message.JoinRequest.generate j = Ok b ->
           common.verify_mic_mac_payload phy key = Raise AttributeError).
Proof.
  intros phy key computed. split; [|split].
  - unfold computed, common.verify_mic_phy_payload,
      common.verify_mic_mac_payload, common.verify_mic_join_request.
    destruct (message.PHYPayload.payload phy) as [p|j|q]; [| |reflexivity].
    + destruct (common.generate_mic_mac_payload _ p key) as [g|e] eqn:Hg;
        cbn [bind lift]; [|reflexivity].
      destruct (generate_mic_mac_payload_length _ _ _ _ Hg) as [_ Hl].
      split; [exact Hl|]. split; [|split].
      * eexists. split; [reflexivity|]. apply mic_eq_spec.
      * intros m Hm Hlen. rewrite Hm. cbn [common.mic_eq].
        destruct (bytes_eqb g m) eqn:E; [|reflexivity].
        apply bytes_eqb_eq in E. congruence.
      * intros Hm. rewrite Hm. reflexivity.
    + destruct (common.generate_mic_join_request _ _ key) as [g|e] eqn:Hg;
        cbn [bind lift]; [|reflexivity].
      destruct (generate_mic_join_request_length _ _ _ _ Hg) as [_ Hl].
      split; [exact Hl|]. split; [|split].
      * eexists. split; [reflexivity|]. apply mic_eq_spec.
      * intros m Hm Hlen. rewrite Hm. cbn [common.mic_eq].
        destruct (bytes_eqb g m) eqn:E; [|reflexivity].
        apply bytes_eqb_eq in E. congruence.
      * intros Hm. rewrite Hm. reflexivity.
  - unfold common.verify_mic_phy_payload, common.verify_mic_mac_payload,
      common.verify_mic_join_request.
    destruct (message.PHYPayload.payload phy) as [p|j|q]; [| |discriminate].
    + destruct (common.generate_mic_mac_payload _ p key); cbn; discriminate.
    + destruct (common.generate_mic_join_request _ _ key); cbn; discriminate.
  - intros j h b Hp Hh Hb. unfold common.verify_mic_mac_payload.
    rewrite Hp, Hh. cbn [bind message.Payload_generate]. rewrite Hb.
    reflexivity.
Qed.

Lemma verify_mic_phy_payload_accepts_generated_witness :
  exists mic raw phy',
    common.generate_mic_join_request
      {| message.MHDR.mtype := message.JoinRequest_; message.MHDR.major := 0 |}
      (message.PJoinRequest example_join_request) key_0_to_f = Ok mic
    /\ message.PHYPayload.generate
         {| message.PHYPayload.mhdr :=
              {| message.MHDR.mtype := message.JoinRequest_;
                 message.MHDR.major := 0 |};
            message.PHYPayload.payload :=
              message.PJoinRequest example_join_request;
            message.PHYPayload.mic := Some mic |} = Ok raw
    /\ message.PHYPayload.parse raw = Ok phy'
    /\ common.verify_mic_phy_payload phy' key_0_to_f = Return (Some true).
Proof.
  destruct (common.generate_mic_join_request
              {| message.MHDR.mtype := message.JoinRequest_;
                 message.MHDR.major := 0 |}
              (message.PJoinRequest example_join_request) key_0_to_f)
    as [mic|e] eqn:Hmic; [|vm_compute in Hmic; discriminate Hmic].
  assert (Hlen : List.length mic = 4%nat).
  { vm_compute in Hmic. injection Hmic as <-. reflexivity. }
  destruct (verify_mic_phy_payload_accepts_generated
              {| message.MHDR.mtype := message.JoinRequest_;
                 message.MHDR.major := 0 |}
              (message.PJoinRequest example_join_request) key_0_to_f mic Hmic)
    as [raw [phy' [Hgen [Hparse [Heq Hver]]]]].
  { split; [cbn; lia|]. split; [exists mic; split; [reflexivity|exact Hlen]|].
    cbn. unfold join_request_well_formed. cbn. lia. }
  exists mic, raw, phy'. repeat split; assumption.
Defined.

(** ** MAC commands carried by a data frame (common) *)

Lemma decrypt_frm_payload_twice (frm_payload key : bytes)
    (dev_addr counter direction : Z) :
  List.length key = 16%nat ->
  0 <= dev_addr < 4294967296 -> 0 <= counter < 4294967296 ->
  0 <= direction < 256 -> (List.length frm_payload <= 4080)%nat ->
  exists c,
    common.decrypt_frm_payload frm_payload key dev_addr counter direction
    = Ok c
    /\ common.decrypt_frm_payload c key dev_addr counter direction
       = Ok frm_payload.
Proof.
  intros Hk Ha Hc Hd Hlen.
  unfold common.decrypt_frm_payload.
  rewrite (int_to_bytes_ok direction 1) by (cbn; lia).
  rewrite !struct_pack_uint_ok by (cbn; lia). cbn [bind].
  set (s_i := [x01; x00; x00; x00; x00] ++ le_digits 1 direction
              ++ (le_digits 4 dev_addr ++ le_digits 4 counter) ++ [x00; x00]).
  assert (Hs : block s_i) by reflexivity.
  assert (Hblocks : ((List.length frm_payload + 15) / 16 <= 255)%nat).
  { apply Nat.lt_succ_r, Nat.Div0.div_lt_upper_bound. lia. }
  destruct (keystream_ok key Hk ((List.length frm_payload + 15) / 16)%nat
              0%nat s_i Hs ltac:(lia)) as [s [Hks Hslen]].
  assert (Hcover : (List.length frm_payload <= List.length s)%nat).
  { rewrite Hslen.
    pose proof (Nat.div_mod_eq (List.length frm_payload + 15) 16).
    pose proof (Nat.mod_upper_bound (List.length frm_payload + 15) 16).
    lia. }
  rewrite Hks. cbn [bind].
  exists (xor_bytes frm_payload s). split; [reflexivity|].
  rewrite xor_bytes_length, Nat.min_l by exact Hcover.
  rewrite Hks. cbn [bind].
  rewrite xor_bytes_cancel by exact Hcover. reflexivity.
Qed.

Lemma direction_of_range (p : message.MACPayload.t) :
  0 <= common.direction_of p < 256.
Proof. unfold common.direction_of. destruct (message.MACPayload.cls p); lia. Qed.

Lemma MACCommandDirection_of_direction (p : message.MACPayload.t) :
  common.MACCommandDirection_of_value (common.direction_of p + 1)
  = Ok match message.MACPayload.cls p with
       | message.Uplink => mac_commands.UP
       | message.Downlink => mac_commands.DOWN
       end.
Proof. unfold common.direction_of. destruct (message.MACPayload.cls p); reflexivity. Qed.

Lemma extract_from_options (p : message.MACPayload.t) (key : bytes) :
  message.MACPayload.f_port p <> Some 0 ->
  common.extract_mac_commands p key
  = Ok (mac_commands.MACCommandParser.parse
          (message.FHDR.f_opts (message.MACPayload.fhdr p))
          match message.MACPayload.cls p with
          | message.Uplink => mac_commands.UP
          | message.Downlink => mac_commands.DOWN
          end).
Proof.
  intros Hport. unfold common.extract_mac_commands.
  rewrite MACCommandDirection_of_direction.
  destruct (message.MACPayload.f_port p) as [[|port|port]|];
    try reflexivity.
  contradiction Hport. reflexivity.
Qed.

(** X4.  [extract_mac_commands] gives back the commands a sender put in a
    data frame, by either way the protocol carries them.  Let [cmds] be
    commands the direction's table holds, with fields in range, and
    [buffer] their concatenated encodings.  When the port is not 0 (absent
    included) and the frame options are [buffer], the commands are read
    from the options, whatever the key.  When the port is 0 and the
    application buffer is [buffer] encrypted under the 16-byte key with
    the frame's address, counter and direction, the buffer is decrypted
    first.  Either way the result is [cmds], with nothing logged. *)
Theorem extract_mac_commands_round_trip :
  forall (p : message.MACPayload.t) (key : bytes)
         (cmds : list mac_commands.MACCommand) (buffer : bytes),
    Forall (streamable match message.MACPayload.cls p with
                       | message.Uplink => mac_commands.UP
                       | message.Downlink => mac_commands.DOWN
                       end) cmds ->
    generate_all cmds = Ok buffer ->
    (message.MACPayload.f_port p <> Some 0 ->
     message.FHDR.f_opts (message.MACPayload.fhdr p) = buffer ->
     common.extract_mac_commands p key = Ok (cmds, []))
    /\ (message.MACPayload.f_port p = Some 0 ->
        List.length key = 16%nat ->
        0 <= message.FHDR.dev_addr (message.MACPayload.fhdr p) < 4294967296 ->
        0 <= message.FHDR.f_cnt (message.MACPayload.fhdr p) < 4294967296 ->
        (List.length buffer <= 4080)%nat ->
        common.encrypt_frm_payload buffer key
          (message.FHDR.dev_addr (message.MACPayload.fhdr p))
          (message.FHDR.f_cnt (message.MACPayload.fhdr p))
          (common.direction_of p)
        = Ok (message.MACPayload.frm_payload p) ->
        common.extract_mac_commands p key = Ok (cmds, [])).
Proof.
  intros p key cmds buffer Hcmds Hbuf.
  destruct (MACCommandParser_parse_generated _ cmds Hcmds)
    as [buffer' [Hbuf' Hparse]].
  rewrite Hbuf in Hbuf'. injection Hbuf' as <-.
  split.
  - intros Hport Hopts. rewrite extract_from_options by exact Hport.
    rewrite Hopts, Hparse. reflexivity.
  - intros Hport Hk Ha Hc Hlen Henc.
    unfold common.extract_mac_commands. rewrite Hport.
    rewrite MACCommandDirection_of_direction.
    unfold common.encrypt_frm_payload in Henc.
    destruct (decrypt_frm_payload_twice buffer key _ _ _ Hk Ha Hc
                (direction_of_range p) Hlen) as [c [Hc1 Hc2]].
    rewrite Henc in Hc1. injection Hc1 as <-.
    rewrite Hc2. cbn [bind]. rewrite Hparse. reflexivity.
Qed.

(** X5.  how [extract_mac_commands] uses its key.  With a port other than 0
    the call never raises and reads neither the key nor the application
    buffer.  With port 0, an address and a counter of 32 bits: an empty
    application buffer gives the empty list under any key, no block
    being encrypted; a non-empty one under a key that is not 16, 24 or 32
    bytes long raises [ValueError].  With port 0 and an address outside
    32 bits, [struct.error] is raised before the key is looked at. *)
Theorem extract_mac_commands_key_use :
  forall (p : message.MACPayload.t) (key : bytes),
    (message.MACPayload.f_port p <> Some 0 ->
     forall (key' frm_payload' : bytes),
       common.extract_mac_commands
         {| message.MACPayload.cls := message.MACPayload.cls p;
            message.MACPayload.fhdr := message.MACPayload.fhdr p;
            message.MACPayload.f_port := message.MACPayload.f_port p;
            message.MACPayload.frm_payload := frm_payload' |} key'
       = common.extract_mac_commands p key
       /\ exists r, common.extract_mac_commands p key = Ok r)
    /\ (message.MACPayload.f_port p = Some 0 ->
        0 <= message.FHDR.dev_addr (message.MACPayload.fhdr p) < 4294967296 ->
        0 <= message.FHDR.f_cnt (message.MACPayload.fhdr p) < 4294967296 ->
        (message.MACPayload.frm_payload p = [] ->
         common.extract_mac_commands p key = Ok ([], []))
        /\ (message.MACPayload.frm_payload p <> [] ->
            List.length key <> 16%nat -> List.length key <> 24%nat ->
            List.length key <> 32%nat ->
            common.extract_mac_commands p key = Err ValueError))
    /\ (message.MACPayload.f_port p = Some 0 ->
        ~ 0 <= message.FHDR.dev_addr (message.MACPayload.fhdr p) < 4294967296 ->
        common.extract_mac_commands p key = Err StructError).
Proof.
  intros p key. split; [|split].
  - intros Hport key' frm'. rewrite !extract_from_options by exact Hport.
    split; [reflexivity|]. eexists. reflexivity.
  - intros Hport Ha Hc.
    unfold common.extract_mac_commands, common.decrypt_frm_payload.
    rewrite Hport, MACCommandDirection_of_direction.
    rewrite (int_to_bytes_ok (common.direction_of p) 1)
      by (pose proof (direction_of_range p); cbn; lia).
    rewrite !struct_pack_uint_ok by (cbn; lia). cbn [bind].
    split.
    + intros ->. cbn. destruct (message.MACPayload.cls p); reflexivity.
    + intros Hne H16 _ _.
      destruct (message.MACPayload.frm_payload p) as [|b rest] eqn:E;
        [contradiction|].
      assert (Hk : exists k, ((List.length (b :: rest) + 15) / 16 = S k)%nat).
      { destruct ((List.length (b :: rest) + 15) / 16)%nat eqn:E2.
        - apply Nat.div_small_iff in E2; [cbn in E2; lia | lia].
        - eexists; reflexivity. }
      destruct Hk as [k ->].
      cbn [common.keystream bytes_of_ints in_byte_range bind Z.of_nat
           Z.add Z.leb Z.ltb Z.compare andb Pos.compare Pos.compare_cont].
      unfold encryption.aes128_encrypt, Cryptodome.ecb_encrypt,
        Cryptodome.ecb_apply.
      apply Nat.eqb_neq in H16. rewrite H16. reflexivity.
  - intros Hport Ha.
    unfold common.extract_mac_commands, common.decrypt_frm_payload.
    rewrite Hport.
    rewrite (int_to_bytes_ok (common.direction_of p) 1)
      by (pose proof (direction_of_range p); cbn; lia).
    unfold struct_pack_uint at 1.
    replace ((0 <=? message.FHDR.dev_addr (message.MACPayload.fhdr p))
             && (message.FHDR.dev_addr (message.MACPayload.fhdr p)
                 <? 256 ^ Z.of_nat 4)) with false; [reflexivity|].
    symmetry. apply andb_false_iff.
    change (256 ^ Z.of_nat 4) with 4294967296. lia.
Qed.

Lemma extract_mac_commands_round_trip_witness :
  Forall (streamable mac_commands.UP) example_commands
  /\ generate_all example_commands = Ok example_commands_buffer
  /\ common.extract_mac_commands commands_in_options key_zero
     = Ok (example_commands, [])
  /\ common.extract_mac_commands commands_on_port_0 key_0_to_f
     = Ok (example_commands, []).
Proof.
  assert (Hs : Forall (streamable mac_commands.UP) example_commands).
  { repeat constructor; cbn; try lia; discriminate. }
  assert (Hg : generate_all example_commands = Ok example_commands_buffer).
  { reflexivity. }
  split; [exact Hs|]. split; [exact Hg|]. split.
  - apply (proj1 (extract_mac_commands_round_trip commands_in_options
                    key_zero example_commands example_commands_buffer
                    Hs Hg)).
    + discriminate.
    + reflexivity.
  - apply (proj2 (extract_mac_commands_round_trip commands_on_port_0
                    key_0_to_f example_commands example_commands_buffer
                    Hs Hg)).
    + reflexivity.
    + reflexivity.
    + cbn. lia.
    + cbn. lia.
    + cbn. lia.
    + vm_compute. reflexivity.
Defined.

(** ** Hexadecimal device addresses and the ping offset (common) *)

Lemma hex_digit_value (n : Z) :
  0 <= n < 16 ->
  is_space (hex_digit n) = false /\ hex_value (hex_digit n) = Some n.
Proof.
  intros H. enum_Z n 0 16%nat; split; reflexivity.
Qed.

Lemma bytes_fromhex_hex (b : bytes) : bytes_fromhex (bytes_hex b) = Ok b.
Proof.
  induction b as [|x b IH]; [reflexivity|].
  pose proof (b2z_range x) as Hx.
  destruct (hex_digit_value (b2z x / 16)) as [Hs1 Hv1].
  { split; [apply Z.div_pos; lia | apply Z.div_lt_upper_bound; lia]. }
  destruct (hex_digit_value (b2z x mod 16)) as [_ Hv2].
  { apply Z.mod_pos_bound. lia. }
  cbn [bytes_hex bytes_fromhex]. rewrite Hs1, Hv1, Hv2, IH. cbn [bind].
  replace (b2z x / 16 * 16 + b2z x mod 16) with (b2z x)
    by (pose proof (Z.div_mod (b2z x) 16); lia).
  rewrite z2b_b2z. reflexivity.
Qed.

Lemma bytes_hex_length (b : bytes) :
  String.length (bytes_hex b) = (2 * List.length b)%nat.
Proof.
  induction b as [|x b IH]; [reflexivity|].
  cbn [bytes_hex String.length List.length]. rewrite IH. lia.
Qed.

Lemma bytes_fromhex_odd (b : bytes) (n : Z) :
  0 <= n < 16 ->
  bytes_fromhex (bytes_hex b ++ String (hex_digit n) EmptyString)
  = Err ValueError.
Proof.
  intros Hn. induction b as [|x b IH].
  - destruct (hex_digit_value n Hn) as [Hs Hv].
    cbn [bytes_hex String.append bytes_fromhex]. rewrite Hs, Hv. reflexivity.
  - pose proof (b2z_range x) as Hx.
    destruct (hex_digit_value (b2z x / 16)) as [Hs1 Hv1].
    { split; [apply Z.div_pos; lia | apply Z.div_lt_upper_bound; lia]. }
    destruct (hex_digit_value (b2z x mod 16)) as [_ Hv2].
    { apply Z.mod_pos_bound. lia. }
    cbn [bytes_hex String.append bytes_fromhex].
    rewrite Hs1, Hv1, Hv2, IH. reflexivity.
Qed.

Lemma unreadable_of_readable (b : bytes) :
  common.unreadable (common.readable b) = Ok b.
Proof.
  unfold common.unreadable, common.readable.
  rewrite bytes_fromhex_hex. cbn [bind]. rewrite rev_involutive.
  reflexivity.
Qed.

(** X6.  [unreadable] undoes [readable].  For every byte string [b],
    [readable(b)] is a string of [2 * len(b)] characters and
    [unreadable(readable(b))] is [b]; the same string with one more
    digit raises [ValueError]. *)
Theorem unreadable_readable :
  forall b : bytes,
    common.unreadable (common.readable b) = Ok b
    /\ String.length (common.readable b) = (2 * List.length b)%nat
    /\ (forall n, 0 <= n < 16 ->
          common.unreadable
            (common.readable b ++ String (hex_digit n) EmptyString)
          = Err ValueError).
Proof.
  intros b. split; [apply unreadable_of_readable|].
  unfold common.unreadable, common.readable. split.
  - rewrite bytes_hex_length, length_rev. reflexivity.
  - intros n Hn. rewrite bytes_fromhex_odd by exact Hn. reflexivity.
Qed.

Lemma struct_pack_int32_ok (v : Z) :
  -2147483648 <= v < 2147483648 ->
  struct_pack_int32 v = Ok (le_digits 4 (v mod 4294967296)).
Proof.
  intros H. unfold struct_pack_int32.
  replace ((-2147483648 <=? v) && (v <? 2147483648)) with true; [reflexivity|].
  symmetry. apply andb_true_iff. lia.
Qed.

Lemma getitem_ok (raw : bytes) (i : nat) :
  (i < List.length raw)%nat ->
  exists b, nth_error raw i = Some b /\ getitem raw i = Ok (b2z b).
Proof.
  intros H. unfold getitem.
  destruct (nth_error raw i) as [b|] eqn:E.
  - exists b. split; reflexivity.
  - apply nth_error_None in E. lia.
Qed.

(** X7.  the ping offset.  For a beacon time that fits a signed 32-bit
    integer and the readable form of a 4-byte device address, the block
    [beacon_time (4 bytes, little-endian) || address || 8 zero bytes] is
    encrypted under the all-zero key, and the offset is the 16-bit number
    made of the first two bytes of the result, reduced modulo
    [ping_period]: for a positive period it lies in [0, ping_period) and
    below 65536.  A period of 0 raises [ZeroDivisionError].  A beacon
    time outside 32 bits raises [struct.error] whatever the address and
    the period, and an address that leaves the block incomplete raises
    [ValueError]. *)
Theorem calc_ping_offset_range :
  forall (beacon_time : Z) (addr : bytes) (ping_period : Z),
    (-2147483648 <= beacon_time < 2147483648 ->
     List.length addr = 4%nat ->
     exists r0 r1 tail,
       encryption.aes128_encrypt (repeat x00 16)
         (le_digits 4 (beacon_time mod 4294967296) ++ addr ++ repeat x00 8)
       = Ok (r0 :: r1 :: tail)
       /\ (ping_period <> 0 ->
           common.calc_ping_offset beacon_time (common.readable addr)
                                    ping_period
           = Return ((b2z r0 + b2z r1 * 256) mod ping_period))
       /\ (0 < ping_period ->
           0 <= (b2z r0 + b2z r1 * 256) mod ping_period < ping_period
           /\ (b2z r0 + b2z r1 * 256) mod ping_period < 65536)
       /\ common.calc_ping_offset beacon_time (common.readable addr) 0
          = Raise ZeroDivisionError)
    /\ (~ -2147483648 <= beacon_time < 2147483648 ->
        forall dev_addr : string,
          common.calc_ping_offset beacon_time dev_addr ping_period
          = Raise (Exn StructError))
    /\ (-2147483648 <= beacon_time < 2147483648 ->
        (List.length addr mod 16 <> 4)%nat ->
        common.calc_ping_offset beacon_time (common.readable addr)
                                 ping_period
        = Raise (Exn ValueError)).
Proof.
  intros beacon_time addr ping_period. split; [|split].
  - intros Ht Hlen. unfold common.calc_ping_offset.
    rewrite (struct_pack_int32_ok beacon_time Ht).
    rewrite unreadable_of_readable. cbn [bind].
    set (message := le_digits 4 (beacon_time mod 4294967296) ++ addr
                    ++ repeat x00 8).
    assert (Hm : List.length message = 16%nat).
    { unfold message. rewrite !length_app, le_digits_length, repeat_length.
      lia. }
    destruct (aes128_decrypt_encrypt (repeat x00 16) message eq_refl)
      as [rand [Henc [Hrl _]]].
    { rewrite Hm. reflexivity. }
    rewrite Hm in Hrl.
    destruct rand as [|r0 [|r1 tail]]; try discriminate Hrl.
    exists r0, r1, tail. rewrite Henc. cbn [bind getitem nth_error].
    pose proof (b2z_range r0). pose proof (b2z_range r1).
    split; [reflexivity|]. split; [|split].
    + intros Hp. apply Z.eqb_neq in Hp. rewrite Hp. reflexivity.
    + intros Hp. split; [apply Z.mod_pos_bound; lia|].
      apply Z.le_lt_trans with (b2z r0 + b2z r1 * 256); [|lia].
      apply Z.mod_le; lia.
    + reflexivity.
  - intros Ht dev_addr. unfold common.calc_ping_offset, struct_pack_int32.
    replace ((-2147483648 <=? beacon_time) && (beacon_time <? 2147483648))
      with false; [reflexivity|].
    symmetry. apply andb_false_iff. lia.
  - intros Ht Hlen. unfold common.calc_ping_offset.
    rewrite (struct_pack_int32_ok beacon_time Ht).
    rewrite unreadable_of_readable. cbn [bind].
    unfold encryption.aes128_encrypt, Cryptodome.ecb_encrypt,
      Cryptodome.ecb_apply.
    rewrite repeat_length. cbn [Nat.eqb negb].
    rewrite !length_app, le_digits_length, repeat_length.
    replace (((4 + (List.length addr + 8)) mod 16 =? 0)%nat) with false;
      [reflexivity|].
    symmetry. apply Nat.eqb_neq. intros E. apply Hlen.
    pose proof (Nat.div_mod_eq (List.length addr) 16).
    pose proof (Nat.mod_upper_bound (List.length addr) 16 ltac:(lia)).
    pose proof (Nat.div_mod_eq (4 + (List.length addr + 8)) 16).
    pose proof (Nat.mod_upper_bound (4 + (List.length addr + 8)) 16
                  ltac:(lia)).
    lia.
Qed.

(** ** Frames: what parses, and what it is written back as (message) *)

Lemma int_to_bytes_from_bytes (b : bytes) :
  int_to_bytes (int_from_bytes b) (List.length b) = Ok b.
Proof.
  rewrite int_to_bytes_ok by apply int_from_bytes_range.
  rewrite le_digits_int_from_bytes. reflexivity.
Qed.

Lemma struct_pack_from_bytes (b : bytes) :
  struct_pack_uint (List.length b) (int_from_bytes b) = Ok b.
Proof.
  rewrite struct_pack_uint_ok by apply int_from_bytes_range.
  rewrite le_digits_int_from_bytes. reflexivity.
Qed.

(** The header byte: every byte parses, and the header is written back
    with its reserved bits cleared. *)
Lemma MHDR_parse_byte (h : byte) :
  exists m,
    message.MHDR.parse [h] = Ok m
    /\ message.MHDR.generate m = Ok [z2b (Z.land (b2z h) 0xE3)]
    /\ message.MHDR.parse [z2b (Z.land (b2z h) 0xE3)] = Ok m
    /\ message.MType_value (message.MHDR.mtype m) = Z.shiftr (b2z h) 5.
Proof. destruct h; eexists; repeat split; reflexivity. Qed.

Lemma fctrl_parse_byte (cls : message.link) (c : byte) :
  exists f,
    message.FHDR.fctrl_parse cls [c] = Ok f
    /\ 0 <= message.FCtrl_f_opts_len f < 16
    /\ message.FCtrl_generate f
       = Ok [match cls with
             | message.Uplink => c
             | message.Downlink => z2b (Z.land (b2z c) 0xBF)
             end]
    /\ message.FHDR.fctrl_parse cls
         [match cls with
          | message.Uplink => c
          | message.Downlink => z2b (Z.land (b2z c) 0xBF)
          end] = Ok f.
Proof.
  destruct cls; destruct c; eexists;
    (split; [reflexivity|]); (split; [cbn; lia|]); split; reflexivity.
Qed.

Lemma MACPayload_parse_shape (cls : message.link)
    (a0 a1 a2 a3 c n0 n1 : byte) (rest : bytes) :
  let c' := match cls with
            | message.Uplink => c
            | message.Downlink => z2b (Z.land (b2z c) 0xBF)
            end in
  exists p,
    message.MACPayload.parse cls (a0 :: a1 :: a2 :: a3 :: c :: n0 :: n1 :: rest)
    = Ok p
    /\ message.MACPayload.generate p
       = Ok (a0 :: a1 :: a2 :: a3 :: c' :: n0 :: n1 :: rest)
    /\ message.MACPayload.parse cls
         (a0 :: a1 :: a2 :: a3 :: c' :: n0 :: n1 :: rest) = Ok p.
Proof.
  intros c'.
  destruct (fctrl_parse_byte cls c) as [f [Hf [Hlen [Hg Hf']]]].
  fold c' in Hg, Hf'.
  unfold message.MACPayload.parse, message.FHDR.parse, stream_read.
  cbn [List.length Nat.ltb Nat.leb message.FHDR.DEV_ADDR_SIZE
       message.FHDR.FCTRL_SIZE message.FHDR.FCNT_SIZE
       message.MACPayload.FPORT_SIZE firstn skipn].
  rewrite Hf, Hf'. cbn [bind].
  set (k := Z.to_nat (message.FCtrl_f_opts_len f)).
  pose proof (firstn_skipn k rest) as Hrest.
  assert (Haddr : int_to_bytes (int_from_bytes [a0; a1; a2; a3]) 4
                  = Ok [a0; a1; a2; a3])
    by apply (int_to_bytes_from_bytes [a0; a1; a2; a3]).
  assert (Hcnt : int_to_bytes (int_from_bytes [n0; n1]) 2 = Ok [n0; n1])
    by apply (int_to_bytes_from_bytes [n0; n1]).
  destruct (skipn k rest) as [|port tail].
  - rewrite app_nil_r in Hrest.
    eexists. split; [reflexivity|]. split; [|reflexivity].
    unfold message.MACPayload.generate, message.FHDR.generate.
    cbn [message.MACPayload.fhdr message.MACPayload.f_port
         message.FHDR.dev_addr message.FHDR.f_ctrl message.FHDR.f_cnt
         message.FHDR.f_opts message.FHDR.DEV_ADDR_SIZE
         message.FHDR.FCNT_SIZE].
    unfold message.FHDR.DEV_ADDR_SIZE, message.FHDR.FCNT_SIZE,
      message.MACPayload.FPORT_SIZE.
    rewrite Haddr, Hg, Hcnt. cbn [bind app]. rewrite Hrest. reflexivity.
  - assert (Hport : int_to_bytes (int_from_bytes [port]) 1 = Ok [port])
      by apply (int_to_bytes_from_bytes [port]).
    pose proof (int_to_bytes_inv _ _ _ Hport) as [Hrange _].
    unfold message.MACPayload.init.
    replace ((0 <=? int_from_bytes [port]) && (int_from_bytes [port] <? 256))
      with true
      by (symmetry; apply andb_true_iff; change (256 ^ Z.of_nat 1) with 256 in Hrange; lia).
    cbn [negb].
    eexists. split; [reflexivity|]. split; [|reflexivity].
    unfold message.MACPayload.generate, message.FHDR.generate.
    cbn [message.MACPayload.fhdr message.MACPayload.f_port
         message.MACPayload.frm_payload message.MACPayload.FPORT_SIZE
         message.FHDR.dev_addr message.FHDR.f_ctrl message.FHDR.f_cnt
         message.FHDR.f_opts message.FHDR.DEV_ADDR_SIZE
         message.FHDR.FCNT_SIZE].
    unfold message.FHDR.DEV_ADDR_SIZE, message.FHDR.FCNT_SIZE,
      message.MACPayload.FPORT_SIZE.
    rewrite Haddr, Hg, Hcnt. cbn [bind]. rewrite Hport. cbn [bind app].
    rewrite <- Hrest at 2. rewrite <- !app_assoc. reflexivity.
Qed.

Lemma JoinRequest_parse_generate (raw : bytes) (j : message.JoinRequest.t) :
  message.JoinRequest.parse raw = Ok j ->
  List.length raw = 18%nat /\ message.JoinRequest.generate j = Ok raw.
Proof.
  unfold message.JoinRequest.parse.
  destruct (Nat.eqb (List.length raw) 18) eqn:E; cbn [negb];
    [|discriminate].
  apply Nat.eqb_eq in E. intros H. injection H as <-.
  split; [exact E|].
  do 18 (destruct raw as [|? raw]; [discriminate E|]).
  destruct raw; [|discriminate E].
  unfold message.JoinRequest.generate, slice.
  cbn [message.JoinRequest.app_eui message.JoinRequest.dev_eui
       message.JoinRequest.dev_nonce firstn skipn].
  repeat match goal with
         | |- context [struct_pack_uint ?n (int_from_bytes ?l)] =>
             rewrite (struct_pack_from_bytes l
                      : struct_pack_uint n (int_from_bytes l) = Ok l)
         end.
  reflexivity.
Qed.

Lemma frame_split (raw : bytes) :
  (5 <= List.length raw)%nat ->
  exists h body mic,
    raw = ([h] ++ body) ++ mic /\ List.length mic = 4%nat.
Proof.
  intros H. destruct raw as [|h rest]; [cbn in H; lia|].
  cbn [List.length] in H.
  exists h, (firstn (List.length rest - 4) rest),
    (skipn (List.length rest - 4) rest).
  split.
  - cbn [app]. rewrite firstn_skipn. reflexivity.
  - rewrite length_skipn. lia.
Qed.

Lemma PHYPayload_parse_frame (h : byte) (body mic : bytes) :
  List.length mic = 4%nat ->
  message.PHYPayload.parse (([h] ++ body) ++ mic)
  = (mhdr <- message.MHDR.parse [h] ;;
     payload <-
       match message.MHDR.mtype mhdr with
       | message.ConfirmedDataUp | message.UnconfirmedDataUp =>
           p <- message.MACPayload.parse message.Uplink body ;;
           Ok (message.PMACPayload p)
       | message.ConfirmedDataDown | message.UnconfirmedDataDown =>
           p <- message.MACPayload.parse message.Downlink body ;;
           Ok (message.PMACPayload p)
       | message.JoinRequest_ =>
           p <- message.JoinRequest.parse body ;; Ok (message.PJoinRequest p)
       | message.Proprietary_ =>
           p <- message.Proprietary.parse body ;; Ok (message.PProprietary p)
       | message.JoinAccept_ | message.RFU => Err PHYPayloadError
       end ;;
     message.PHYPayload.init mhdr payload (Some mic)).
Proof.
  intros H. unfold message.PHYPayload.parse.
  destruct (frame_slices h body mic H) as [H1 [H2 [H3 H4]]].
  rewrite H1, H2, H3, H4. reflexivity.
Qed.

Lemma clear_reserved_header (h : byte) (rest : bytes) :
  is_downlink_data h = false ->
  clear_reserved (h :: rest) = z2b (Z.land (b2z h) 0xE3) :: rest.
Proof.
  intros H. unfold clear_reserved. rewrite H.
  do 5 (destruct rest as [|? rest]; [reflexivity|]). reflexivity.
Qed.

Lemma MACPayload_parse_short (cls : message.link) (body : bytes) :
  (List.length body < 7)%nat ->
  message.MACPayload.parse cls body = Err ParseMessageError.
Proof.
  intros H. unfold message.MACPayload.parse.
  apply Nat.ltb_lt in H. rewrite H. reflexivity.
Qed.

Lemma seven_bytes (body : bytes) :
  (7 <= List.length body)%nat ->
  exists a0 a1 a2 a3 c n0 n1 rest,
    body = a0 :: a1 :: a2 :: a3 :: c :: n0 :: n1 :: rest.
Proof.
  intros H.
  do 7 (destruct body as [|? body]; [cbn in H; lia|]).
  repeat eexists.
Qed.

Lemma is_downlink_data_of_type (h : byte) (m : message.MHDR.t) :
  message.MType_value (message.MHDR.mtype m) = Z.shiftr (b2z h) 5 ->
  is_downlink_data h
  = match message.MHDR.mtype m with
    | message.ConfirmedDataDown | message.UnconfirmedDataDown => true
    | _ => false
    end.
Proof.
  intros H. unfold is_downlink_data. rewrite <- H.
  destruct (message.MHDR.mtype m); reflexivity.
Qed.

Lemma PHYPayload_data_frame (h : byte) (m : message.MHDR.t)
    (cls : message.link) (body mic : bytes) (phy : message.PHYPayload.t) :
  message.PHYPayload.is_data (message.MHDR.mtype m) = true ->
  is_downlink_data h
  = match cls with message.Uplink => false | message.Downlink => true end ->
  message.MHDR.generate m = Ok [z2b (Z.land (b2z h) 0xE3)] ->
  (p <- message.MACPayload.parse cls body ;;
   message.PHYPayload.init m (message.PMACPayload p) (Some mic)) = Ok phy ->
  exists body',
    message.PHYPayload.generate phy
    = Ok (([z2b (Z.land (b2z h) 0xE3)] ++ body') ++ mic)
    /\ clear_reserved (([h] ++ body) ++ mic)
       = ([z2b (Z.land (b2z h) 0xE3)] ++ body') ++ mic
    /\ (p <- message.MACPayload.parse cls body' ;;
        message.PHYPayload.init m (message.PMACPayload p) (Some mic))
       = Ok phy
    /\ List.length body' = List.length body.
Proof.
  intros Hdata Hdown Hgen Hparse.
  destruct (Nat.ltb (List.length body) 7) eqn:Hlen.
  - apply Nat.ltb_lt in Hlen.
    rewrite MACPayload_parse_short in Hparse by exact Hlen.
    discriminate Hparse.
  - apply Nat.ltb_ge in Hlen.
    destruct (seven_bytes body Hlen)
      as [a0 [a1 [a2 [a3 [c [n0 [n1 [rest ->]]]]]]]].
    destruct (MACPayload_parse_shape cls a0 a1 a2 a3 c n0 n1 rest)
      as [p [Hp [Hg Hp']]].
    rewrite Hp in Hparse. cbn [bind] in Hparse.
    exists (a0 :: a1 :: a2 :: a3
            :: match cls with
               | message.Uplink => c
               | message.Downlink => z2b (Z.land (b2z c) 0xBF)
               end :: n0 :: n1 :: rest).
    split; [|split; [|split; [|reflexivity]]].
    + unfold message.PHYPayload.init in Hparse. rewrite Hdata in Hparse.
      destruct (message.MType_eqb (message.MHDR.mtype m) message.Proprietary_)
        eqn:E1; [destruct (message.MHDR.mtype m); discriminate|].
      destruct (message.MType_eqb (message.MHDR.mtype m) message.JoinRequest_)
        eqn:E2; [destruct (message.MHDR.mtype m); discriminate|].
      cbn in Hparse. injection Hparse as <-.
      unfold message.PHYPayload.generate.
      cbn [message.PHYPayload.mhdr message.PHYPayload.payload
           message.PHYPayload.mic message.Payload_generate].
      rewrite Hgen, Hg. cbn [bind]. reflexivity.
    + unfold clear_reserved. cbn [app]. rewrite Hdown.
      destruct cls; reflexivity.
    + rewrite Hp'. cbn [bind]. exact Hparse.
Qed.

Ltac data_frame_case cls :=
  match goal with
  | Hparse : context [message.MACPayload.parse cls ?body],
    Et : message.MHDR.mtype ?m = _,
    Hmic : List.length ?mic = 4%nat,
    Hdown : is_downlink_data ?h = _,
    Hgm : message.MHDR.generate ?m = _,
    Hm' : message.MHDR.parse _ = Ok ?m |- exists _, message.PHYPayload.generate ?phy = _ /\ _ =>
      destruct (PHYPayload_data_frame h m cls body mic phy)
        as [body' [Hg [Hc [Hp Hl]]]];
      [ rewrite Et; reflexivity
      | exact Hdown
      | exact Hgm
      | rewrite <- Hparse;
        destruct (message.MACPayload.parse cls body); reflexivity
      | exists body'; split; [exact Hg|]; split; [exact Hc|];
        split; [|exact Hl];
        rewrite PHYPayload_parse_frame by exact Hmic;
        rewrite Hm'; cbn [bind]; rewrite Et; rewrite <- Hp;
        destruct (message.MACPayload.parse cls body'); reflexivity ]
  end.

(** X8.  a frame that parses is written back as the bytes it was read
    from, with the bits cleared that the parser does not read (bits 2 to
    4 of the header byte and, in a downlink data frame, bit 6 of the
    frame-control byte); those bytes parse to the same frame.  This
    holds for every input that parses, a data frame whose options are
    shorter than its control byte announces included. *)
Theorem PHYPayload_generate_parse :
  forall (raw : bytes) (phy : message.PHYPayload.t),
    message.PHYPayload.parse raw = Ok phy ->
    message.PHYPayload.generate phy = Ok (clear_reserved raw)
    /\ message.PHYPayload.parse (clear_reserved raw) = Ok phy
    /\ List.length (clear_reserved raw) = List.length raw.
Proof.
  intros raw phy Hparse.
  assert (Hlen : (5 <= List.length raw)%nat).
  { unfold message.PHYPayload.parse in Hparse.
    destruct (Nat.ltb (List.length raw) 5) eqn:E; [discriminate Hparse|].
    apply Nat.ltb_ge in E. exact E. }
  destruct (frame_split raw Hlen) as [h [body [mic [-> Hmic]]]].
  rewrite PHYPayload_parse_frame in Hparse by exact Hmic.
  destruct (MHDR_parse_byte h) as [m [Hm [Hgm [Hm' Hval]]]].
  rewrite Hm in Hparse. cbn [bind] in Hparse.
  pose proof (is_downlink_data_of_type h m Hval) as Hdown.
  assert (Hmain :
            exists body',
              message.PHYPayload.generate phy
              = Ok (([z2b (Z.land (b2z h) 0xE3)] ++ body') ++ mic)
              /\ clear_reserved (([h] ++ body) ++ mic)
                 = ([z2b (Z.land (b2z h) 0xE3)] ++ body') ++ mic
              /\ message.PHYPayload.parse
                   (([z2b (Z.land (b2z h) 0xE3)] ++ body') ++ mic) = Ok phy
              /\ List.length body' = List.length body).
  { destruct (message.MHDR.mtype m) eqn:Et.
    - (* JoinRequest *)
      destruct (message.JoinRequest.parse body) as [j|e] eqn:Ej;
        [|discriminate Hparse].
      cbn [bind] in Hparse.
      destruct (JoinRequest_parse_generate body j Ej) as [_ Hgj].
      exists body. split; [|split; [|split; [|reflexivity]]].
      + unfold message.PHYPayload.init in Hparse. rewrite Et in Hparse.
        cbn in Hparse. injection Hparse as <-.
        unfold message.PHYPayload.generate.
        cbn [message.PHYPayload.mhdr message.PHYPayload.payload
             message.PHYPayload.mic message.Payload_generate].
        rewrite Hgm, Hgj. reflexivity.
      + apply clear_reserved_header. exact Hdown.
      + rewrite PHYPayload_parse_frame by exact Hmic.
        rewrite Hm'. cbn [bind]. rewrite Et, Ej. exact Hparse.
    - discriminate Hparse.
    - (* UnconfirmedDataUp *)
      data_frame_case message.Uplink.
    - (* UnconfirmedDataDown *)
      data_frame_case message.Downlink.
    - (* ConfirmedDataUp *)
      data_frame_case message.Uplink.
    - (* ConfirmedDataDown *)
      data_frame_case message.Downlink.
    - discriminate Hparse.
    - (* Proprietary *)
      cbn [message.Proprietary.parse bind] in Hparse.
      exists body. split; [|split; [|split; [|reflexivity]]].
      + unfold message.PHYPayload.init in Hparse. rewrite Et in Hparse.
        cbn in Hparse. injection Hparse as <-.
        unfold message.PHYPayload.generate.
        cbn [message.PHYPayload.mhdr message.PHYPayload.payload
             message.PHYPayload.mic message.Payload_generate
             message.Proprietary.generate message.Proprietary.payload].
        rewrite Hgm. reflexivity.
      + apply clear_reserved_header. exact Hdown.
      + rewrite PHYPayload_parse_frame by exact Hmic.
        rewrite Hm'. cbn [bind]. rewrite Et. exact Hparse. }
  destruct Hmain as [body' [Hg [Hc [Hp Hl]]]].
  rewrite Hc. split; [exact Hg|]. split; [exact Hp|].
  rewrite !length_app, Hl. reflexivity.
Qed.

Lemma MACPayload_parse_long (cls : message.link) (body : bytes) :
  (7 <= List.length body)%nat ->
  exists p, message.MACPayload.parse cls body = Ok p.
Proof.
  intros H.
  destruct (seven_bytes body H) as [a0 [a1 [a2 [a3 [c [n0 [n1 [rest ->]]]]]]]].
  destruct (MACPayload_parse_shape cls a0 a1 a2 a3 c n0 n1 rest)
    as [p [Hp _]].
  exists p. exact Hp.
Qed.

Ltac data_frame_accepts cls :=
  lazymatch goal with
  | Hmic : List.length ?mic = 4%nat,
    Et : message.MHDR.mtype _ = _ |- context [message.MACPayload.parse cls ?body] =>
      destruct (Nat.ltb (List.length body) 7) eqn:Hb;
      [ apply Nat.ltb_lt in Hb;
        rewrite (MACPayload_parse_short cls body Hb); cbn [bind];
        left; split; [reflexivity|]; right; left; split; [lia|];
        cbn [List.length app]; rewrite ?length_app, Hmic; lia
      | apply Nat.ltb_ge in Hb;
        destruct (MACPayload_parse_long cls body Hb) as [p Hp];
        rewrite Hp; cbn;
        split; [rewrite Et; reflexivity|]; split; [reflexivity|];
        left; split; [lia|];
        cbn [List.length app]; rewrite ?length_app, Hmic; lia ]
  end.

(** X9.  which inputs [PHYPayload.parse] accepts.  With [t] the top three
    bits of the first byte and [n] the length of the input: the parse
    succeeds exactly when [n >= 12] for a data frame ([t] from 2 to 5),
    [n = 23] for a join request ([t = 0]) and [n >= 5] for a proprietary
    frame ([t = 7]); the frame then has type [t] and the last four bytes
    as its MIC.  Every other input raises [ParseMessageError] (too short
    for its type) or [PHYPayloadError] (a join accept or the reserved
    type, [t = 1] or [t = 6]), and nothing else. *)
Theorem PHYPayload_parse_accepts :
  forall raw : bytes,
    let t := Z.shiftr (b2z (hd x00 raw)) 5 in
    let n := List.length raw in
    match message.PHYPayload.parse raw with
    | Ok phy =>
        message.MType_value (message.MHDR.mtype (message.PHYPayload.mhdr phy))
        = t
        /\ message.PHYPayload.mic phy = Some (take_last 4 raw)
        /\ ((2 <= t <= 5 /\ (12 <= n)%nat)
            \/ (t = 0 /\ n = 23%nat)
            \/ (t = 7 /\ (5 <= n)%nat))
    | Err e =>
        (e = ParseMessageError
         /\ ((n < 5)%nat
             \/ (2 <= t <= 5 /\ (n < 12)%nat)
             \/ (t = 0 /\ n <> 23%nat)))
        \/ (e = PHYPayloadError /\ (5 <= n)%nat /\ (t = 1 \/ t = 6))
    end.
Proof.
  intros raw t n.
  destruct (Nat.ltb (List.length raw) 5) eqn:Hlen.
  - unfold message.PHYPayload.parse. rewrite Hlen.
    apply Nat.ltb_lt in Hlen. left. split; [reflexivity|]. left. exact Hlen.
  - apply Nat.ltb_ge in Hlen.
    destruct (frame_split raw Hlen) as [h [body [mic [E Hmic]]]].
    subst raw n t. cbn [app hd].
    change (h :: body ++ mic) with (([h] ++ body) ++ mic).
    destruct (frame_slices h body mic Hmic) as [_ [_ [Htake _]]].
    rewrite Htake.
    rewrite PHYPayload_parse_frame by exact Hmic.
    destruct (MHDR_parse_byte h) as [m [Hm [_ [_ Hval]]]].
    rewrite Hm. cbn [bind]. rewrite <- Hval.
    unfold message.PHYPayload.init.
    destruct (message.MHDR.mtype m) eqn:Et;
      cbn [message.MType_value message.PHYPayload.is_data message.MType_eqb
           Z.eqb andb orb negb
           message.PHYPayload.isinstance_Proprietary
           message.PHYPayload.isinstance_MACPayload
           message.PHYPayload.isinstance_JoinRequest].
    + (* JoinRequest *)
      unfold message.JoinRequest.parse.
      destruct (Nat.eqb (List.length body) 18) eqn:Hb; cbn [negb bind].
      * apply Nat.eqb_eq in Hb. cbn.
        split; [rewrite Et; reflexivity|]. split; [reflexivity|].
        right. left. split; [reflexivity|].
        cbn [List.length app]. rewrite ?length_app, Hmic, Hb. reflexivity.
      * apply Nat.eqb_neq in Hb. left. split; [reflexivity|].
        right. right. split; [reflexivity|].
        cbn [List.length app]. rewrite ?length_app, Hmic. lia.
    + right. split; [reflexivity|]. split; [exact Hlen|]. left. reflexivity.
    + data_frame_accepts message.Uplink.
    + data_frame_accepts message.Downlink.
    + data_frame_accepts message.Uplink.
    + data_frame_accepts message.Downlink.
    + right. split; [reflexivity|]. split; [exact Hlen|]. right. reflexivity.
    + cbn. split; [rewrite Et; reflexivity|]. split; [reflexivity|].
      right. right. split; [reflexivity|]. exact Hlen.
Qed.

Lemma PHYPayload_generate_parse_witness :
  exists phy,
    message.PHYPayload.parse frame_with_reserved_bits = Ok phy
    /\ message.PHYPayload.generate phy
       = Ok [x60; x01; x00; x00; x00; x00; x01; x00; x0a; x0b; x0c; x0d]
    /\ message.PHYPayload.parse
         [x60; x01; x00; x00; x00; x00; x01; x00; x0a; x0b; x0c; x0d]
       = Ok phy
    /\ List.length
         [x60; x01; x00; x00; x00; x00; x01; x00; x0a; x0b; x0c; x0d]
       = List.length frame_with_reserved_bits.
Proof.
  eexists. split; [vm_compute; reflexivity|].
  apply (PHYPayload_generate_parse frame_with_reserved_bits).
  vm_compute. reflexivity.
Defined.

(** ** The join-accept: block alignment and errors (message) *)

Lemma aes128_encrypt_unaligned (key m : bytes) :
  List.length key = 16%nat -> (List.length m mod 16 <> 0)%nat ->
  encryption.aes128_encrypt key m = Err ValueError
  /\ encryption.aes128_decrypt key m = Err ValueError.
Proof.
  intros Hk Hm.
  unfold encryption.aes128_encrypt, encryption.aes128_decrypt,
    Cryptodome.ecb_encrypt, Cryptodome.ecb_decrypt, Cryptodome.ecb_apply.
  rewrite Hk. cbn [Nat.eqb negb].
  apply Nat.eqb_neq in Hm. rewrite Hm. split; reflexivity.
Qed.

Lemma DLSettings_parse_byte (b : byte) :
  exists s,
    message.DLSettings.parse [b] = Ok s
    /\ 0 <= message.DLSettings.rx1_dr_offset s < 8
    /\ 0 <= message.DLSettings.rx2_datarate s < 16.
Proof. destruct b; eexists; (split; [reflexivity|]); cbn; lia. Qed.

Lemma twelve_bytes (s : bytes) :
  (12 <= List.length s)%nat ->
  exists b0 b1 b2 b3 b4 b5 b6 b7 b8 b9 b10 b11 rest,
    s = b0 :: b1 :: b2 :: b3 :: b4 :: b5 :: b6 :: b7 :: b8 :: b9 :: b10
        :: b11 :: rest
    /\ List.length s = (12 + List.length rest)%nat.
Proof.
  intros H.
  do 12 (destruct s as [|? s]; [cbn in H; lia|]).
  repeat eexists.
Qed.

Lemma JoinAccept_plaintext_in_range (j : message.JoinAccept.t) :
  join_accept_fields_in_range j ->
  exists b,
    message.DLSettings.parse [b] = Ok (message.JoinAccept.dl_settings j)
    /\ message.JoinAccept.plaintext j
       = Ok (le_digits 3 (message.JoinAccept.app_nonce j)
             ++ le_digits 3 (message.JoinAccept.net_id j)
             ++ le_digits 4 (message.JoinAccept.dev_addr j)
             ++ [b]
             ++ le_digits 1 (message.JoinAccept.rx_delay j)
             ++ message.JoinAccept.cf_list j).
Proof.
  intros [Ha [Hn [Hd [Ho [Hr Hx]]]]].
  destruct (DLSettings_round_trip _ Ho Hr) as [b [Hg Hp]].
  exists b. split; [exact Hp|].
  unfold message.JoinAccept.plaintext.
  rewrite !int_to_bytes_ok by (cbn; lia). rewrite Hg. reflexivity.
Qed.

(** X10.  [JoinAccept.generate] and the block size.  For a join-accept whose
    fields fit their widths and a 16-byte key, the plaintext and its MIC
    take [16 + len(cf_list)] bytes: when [len(cf_list)] is a multiple of
    16 the wire has [17 + len(cf_list)] bytes and starts with 0x20; for
    any other length of the channel list the block cipher refuses the
    message and [generate] raises [ValueError]. *)
Theorem JoinAccept_generate_alignment :
  forall (j : message.JoinAccept.t) (app_key : bytes),
    join_accept_fields_in_range j ->
    List.length app_key = 16%nat ->
    ((List.length (message.JoinAccept.cf_list j) mod 16 = 0)%nat ->
     exists body,
       message.JoinAccept.generate j app_key = Ok (x20 :: body)
       /\ List.length body
          = (16 + List.length (message.JoinAccept.cf_list j))%nat)
    /\ ((List.length (message.JoinAccept.cf_list j) mod 16 <> 0)%nat ->
        message.JoinAccept.generate j app_key = Err ValueError).
Proof.
  intros j app_key Hwf Hk.
  destruct (JoinAccept_plaintext_in_range j Hwf) as [b [_ Hpt]].
  set (pt := le_digits 3 (message.JoinAccept.app_nonce j)
             ++ le_digits 3 (message.JoinAccept.net_id j)
             ++ le_digits 4 (message.JoinAccept.dev_addr j)
             ++ [b]
             ++ le_digits 1 (message.JoinAccept.rx_delay j)
             ++ message.JoinAccept.cf_list j) in *.
  assert (Hptlen : List.length pt
                   = (12 + List.length (message.JoinAccept.cf_list j))%nat).
  { unfold pt. rewrite !length_app, !le_digits_length. cbn [List.length].
    lia. }
  destruct (generate_mic_ok app_key (x20 :: pt) Hk) as [mic [Hmic Hmiclen]].
  assert (Hgen : message.JoinAccept.generate j app_key
                 = (body <- encryption.aes128_decrypt app_key (pt ++ mic) ;;
                    Ok ([x20] ++ body))).
  { unfold message.JoinAccept.generate. rewrite Hpt.
    change (message.MHDR.init message.JoinAccept_ 0)
      with (Ok {| message.MHDR.mtype := message.JoinAccept_;
                  message.MHDR.major := 0 |}).
    cbn [bind].
    change (message.MHDR.generate _) with (Ok [x20]). cbn [bind].
    change ([x20] ++ pt) with (x20 :: pt). rewrite Hmic. reflexivity. }
  assert (Hmod : (List.length (pt ++ mic) mod 16
                  = List.length (message.JoinAccept.cf_list j) mod 16)%nat).
  { rewrite length_app, Hptlen, Hmiclen.
    replace (12 + List.length (message.JoinAccept.cf_list j) + 4)%nat
      with (List.length (message.JoinAccept.cf_list j) + 1 * 16)%nat by lia.
    apply Nat.Div0.mod_add. }
  rewrite Hgen. split.
  - intros Hcf.
    destruct (aes128_encrypt_decrypt app_key (pt ++ mic) Hk)
      as [body [Hdec [Hbl _]]]; [rewrite Hmod; exact Hcf|].
    exists body. rewrite Hdec. split; [reflexivity|].
    rewrite Hbl, length_app, Hptlen, Hmiclen. lia.
  - intros Hcf.
    destruct (aes128_encrypt_unaligned app_key (pt ++ mic) Hk) as [_ Hdec];
      [rewrite Hmod; exact Hcf|].
    rewrite Hdec. reflexivity.
Qed.

(** X11.  the outcomes of [JoinAccept.parse] under a 16-byte key.  With [t]
    the top three bits of the first byte and [n] the length of the
    input: an input shorter than 12 bytes or of another type than
    join-accept ([t <> 1]) raises [ParseMessageError]; a join-accept
    whose body is not a whole number of blocks ([(n - 1) mod 16 <> 0],
    every length from 12 to 16 included) raises [ValueError]; an aligned
    one raises [MICError] or parses, and then the channel list has
    [n - 17] bytes and every field lies within its width.  No other
    exception is raised. *)
Theorem JoinAccept_parse_outcomes :
  forall (raw app_key : bytes),
    List.length app_key = 16%nat ->
    let t := Z.shiftr (b2z (hd x00 raw)) 5 in
    let n := List.length raw in
    match message.JoinAccept.parse raw app_key with
    | Ok j =>
        t = 1 /\ (17 <= n)%nat /\ ((n - 1) mod 16 = 0)%nat
        /\ List.length (message.JoinAccept.cf_list j) = (n - 17)%nat
        /\ join_accept_fields_in_range j
    | Err e =>
        (e = ParseMessageError /\ ((n < 12)%nat \/ t <> 1))
        \/ (e = ValueError /\ (12 <= n)%nat /\ t = 1
            /\ ((n - 1) mod 16 <> 0)%nat)
        \/ (e = MICError /\ (17 <= n)%nat /\ t = 1
            /\ ((n - 1) mod 16 = 0)%nat)
    end.
Proof.
  intros raw app_key Hk t n. unfold message.JoinAccept.parse.
  destruct (Nat.ltb (List.length raw) 12) eqn:Hlen.
  { apply Nat.ltb_lt in Hlen. left. split; [reflexivity|]. left. exact Hlen. }
  apply Nat.ltb_ge in Hlen.
  destruct raw as [|h rest]; [cbn in Hlen; lia|].
  subst t n. cbn [hd List.length] in *.
  change (slice (h :: rest) 0 1) with [h].
  destruct (MHDR_parse_byte h) as [m [Hm [Hgm [_ Hval]]]].
  rewrite Hm. cbn [bind]. rewrite <- Hval.
  replace (S (List.length rest) - 1)%nat with (List.length rest) by lia.
  unfold message.MType_eqb at 1.
  change (message.MType_value message.JoinAccept_) with 1.
  destruct (message.MType_value (message.MHDR.mtype m) =? 1) eqn:Et;
    cbn [negb].
  2:{ apply Z.eqb_neq in Et. left. split; [reflexivity|]. right. exact Et. }
  apply Z.eqb_eq in Et. cbn [skipn].
  destruct (Nat.eq_dec (List.length rest mod 16) 0) as [Ha|Ha].
  2:{ destruct (aes128_encrypt_unaligned app_key rest Hk Ha) as [Henc _].
      rewrite Henc. cbn [bind]. right. left.
      split; [reflexivity|]. split; [exact Hlen|]. split; assumption. }
  destruct (aes128_decrypt_encrypt app_key rest Hk Ha)
    as [decoded [Henc [Hdl _]]].
  rewrite Henc. cbn [bind]. rewrite Hgm. cbn [bind].
  destruct (generate_mic_ok app_key
              ([z2b (Z.land (b2z h) 0xE3)] ++ drop_last 4 decoded) Hk)
    as [mic' [Hmic' _]].
  rewrite Hmic'. cbn [bind].
  assert (H16 : (16 <= List.length rest)%nat).
  { pose proof (Nat.div_mod_eq (List.length rest) 16). lia. }
  destruct (bytes_eqb (take_last 4 decoded) mic'); cbn [negb].
  2:{ right. right. split; [reflexivity|]. split; [lia|].
      split; assumption. }
  assert (Hd : (12 <= List.length (drop_last 4 decoded))%nat).
  { unfold drop_last. rewrite length_firstn, Hdl. lia. }
  destruct (twelve_bytes _ Hd)
    as [b0 [b1 [b2 [b3 [b4 [b5 [b6 [b7 [b8 [b9 [b10 [b11 [cf [E El]]]]]]]]]]]]]].
  rewrite E. unfold stream_read. cbn [firstn skipn].
  destruct (DLSettings_parse_byte b10) as [s [Hs [Ho Hr]]].
  rewrite Hs. cbn [bind].
  split; [exact Et|]. split; [lia|]. split; [exact Ha|].
  cbn [message.JoinAccept.cf_list]. split.
  - unfold drop_last in El. rewrite length_firstn, Hdl in El. lia.
  - unfold join_accept_fields_in_range.
    cbn [message.JoinAccept.app_nonce message.JoinAccept.net_id
         message.JoinAccept.dev_addr message.JoinAccept.dl_settings
         message.JoinAccept.rx_delay].
    pose proof (int_from_bytes_range [b0; b1; b2]) as R1.
    pose proof (int_from_bytes_range [b3; b4; b5]) as R2.
    pose proof (int_from_bytes_range [b6; b7; b8; b9]) as R3.
    pose proof (int_from_bytes_range [b11]) as R4.
    cbn [List.length] in R1, R2, R3, R4.
    change (256 ^ Z.of_nat 3) with 16777216 in *.
    change (256 ^ Z.of_nat 4) with 4294967296 in *.
    change (256 ^ Z.of_nat 1) with 256 in *.
    repeat split; lia.
Qed.

Lemma JoinAccept_generate_alignment_witness :
  join_accept_fields_in_range example_join_accept
  /\ List.length key_0_to_f = 16%nat
  /\ (exists body,
         message.JoinAccept.generate example_join_accept key_0_to_f
         = Ok (x20 :: body)
         /\ List.length body = 16%nat)
  /\ message.JoinAccept.generate
       {| message.JoinAccept.app_nonce := 1;
          message.JoinAccept.net_id := 1;
          message.JoinAccept.dev_addr := 1128537;
          message.JoinAccept.dl_settings :=
            {| message.DLSettings.rx1_dr_offset := 0;
               message.DLSettings.rx2_datarate := 0 |};
          message.JoinAccept.rx_delay := 1;
          message.JoinAccept.cf_list := [x01; x02; x03] |} key_0_to_f
     = Err ValueError.
Proof.
  assert (Hr : join_accept_fields_in_range example_join_accept).
  { unfold join_accept_fields_in_range. cbn. lia. }
  split; [exact Hr|]. split; [reflexivity|]. split.
  - apply (proj1 (JoinAccept_generate_alignment example_join_accept
                    key_0_to_f Hr eq_refl)).
    reflexivity.
  - apply JoinAccept_generate_alignment.
    + unfold join_accept_fields_in_range. cbn. lia.
    + reflexivity.
    + discriminate.
Defined.

Lemma JoinAccept_parse_outcomes_witness :
  List.length key_0_to_f = 16%nat
  /\ message.JoinAccept.parse (x20 :: repeat x00 12) key_0_to_f
     = Err ValueError.
Proof.
  split; [reflexivity|].
  pose proof (JoinAccept_parse_outcomes (x20 :: repeat x00 12) key_0_to_f
                eq_refl) as H.
  cbv zeta in H.
  destruct (message.JoinAccept.parse (x20 :: repeat x00 12) key_0_to_f)
    as [j|e].
  - destruct H as [_ [_ [H _]]]. discriminate H.
  - destruct H as [[_ [H|H]]|[[H _]|[_ [_ [_ H]]]]].
    + cbn in H. lia.
    + exfalso. apply H. reflexivity.
    + rewrite H. reflexivity.
    + discriminate H.
Defined.

(** ** MAC commands: sizes, single commands and prefixes (mac_commands) *)

Lemma CID_range (c : mac_commands.cmd_class) : 0 <= mac_commands.CID c < 256.
Proof. destruct c; cbn; lia. Qed.

Lemma generate_starts_with_CID (cmd : mac_commands.MACCommand) (out : bytes) :
  mac_commands.generate cmd = Ok out ->
  exists body,
    out = z2b (mac_commands.CID (mac_commands.class_of cmd)) :: body.
Proof.
  intros H. unfold mac_commands.generate in H.
  destruct cmd; cbn [mac_commands.class_of mac_commands.CID] in *;
    cbn [bytes_of_ints in_byte_range Z.leb Z.ltb Z.compare andb
         Pos.compare Pos.compare_cont bind] in H;
    repeat match goal with
           | H : bind _ _ = Ok _ |- _ =>
               let x := fresh "x" in
               let Hx := fresh "Hx" in
               apply bind_ok in H; destruct H as [x [Hx H]]
           | H : (if ?c then _ else _) = Ok _ |- _ =>
               destruct c; [|discriminate H]
           | H : Ok _ = Ok _ |- _ => inversion H; subst; clear H
           | H : int_to_bytes _ 1 = Ok _ |- _ =>
               apply int_to_bytes_inv in H; destruct H as [_ ->]
           end;
    eexists; reflexivity.
Qed.

(** X12.  the length of an encoded command.  Whenever [generate] returns,
    the encoding starts with the command id, and it is [size] bytes long
    for every class but [PingSlotChannelReq], whose encoding has 5 bytes
    for a [size] of 2. *)
Theorem generate_length_is_size :
  forall (cmd : mac_commands.MACCommand) (out : bytes),
    mac_commands.generate cmd = Ok out ->
    (exists body,
        out = z2b (mac_commands.CID (mac_commands.class_of cmd)) :: body)
    /\ (mac_commands.class_of cmd <> mac_commands.cPingSlotChannelReq ->
        List.length out = mac_commands.size cmd)
    /\ (mac_commands.class_of cmd = mac_commands.cPingSlotChannelReq ->
        List.length out = 5%nat /\ mac_commands.size cmd = 2%nat).
Proof.
  intros cmd out H. split; [|split].
  - apply generate_starts_with_CID. exact H.
  - intros Hcls. rewrite (generate_length cmd out Hcls H).
    unfold mac_commands.size. lia.
  - intros Hcls. destruct cmd; try discriminate Hcls.
    split; [|reflexivity].
    unfold mac_commands.generate in H.
    repeat match goal with
           | H : bind _ _ = Ok _ |- _ =>
               let x := fresh "x" in
               let Hx := fresh "Hx" in
               apply bind_ok in H; destruct H as [x [Hx H]]
           | H : Ok _ = Ok _ |- _ => inversion H; subst; clear H
           | H : int_to_bytes _ _ = Ok _ |- _ => apply int_to_bytes_length in H
           end.
    rewrite !length_app. lia.
Qed.

Lemma generate_length_is_size_witness :
  List.length [x03; x07] = mac_commands.size (mac_commands.LinkADRAns true true true).
Proof.
  exact (proj1 (proj2 (generate_length_is_size
                         (mac_commands.LinkADRAns true true true)
                         [x03; x07] eq_refl))
               ltac:(discriminate)).
Defined.

Lemma create_generated (direction : mac_commands.MACCommandDirection)
    (cmd : mac_commands.MACCommand) (rest : bytes) :
  streamable direction cmd ->
  exists body,
    mac_commands.generate cmd
    = Ok (z2b (mac_commands.CID (mac_commands.class_of cmd)) :: body)
    /\ List.length body = mac_commands.SIZE (mac_commands.class_of cmd)
    /\ mac_commands.MACCommandParser.create (body ++ rest)
         (mac_commands.CID (mac_commands.class_of cmd)) direction
       = Ok (cmd, rest).
Proof.
  intros [Hmap [Hr [Hz Hcls]]].
  destruct (command_round_trip cmd Hr Hz) as [body [Hgen Hparse]].
  pose proof (generate_length cmd _ Hcls Hgen) as Hlen.
  cbn [List.length] in Hlen. injection Hlen as Hlen.
  exists body. split; [exact Hgen|]. split; [exact Hlen|].
  unfold mac_commands.MACCommandParser.create. rewrite Hmap.
  unfold mac_commands.MACCommandParser.read, stream_read.
  rewrite firstn_exact, skipn_exact by exact Hlen.
  rewrite Hlen, Nat.sub_diag, Nat.ltb_irrefl. cbn [repeat bind].
  rewrite app_nil_r, Hparse. reflexivity.
Qed.

Lemma decodes_prefix (direction : mac_commands.MACCommandDirection)
    (cmds : list mac_commands.MACCommand) :
  Forall (streamable direction) cmds ->
  forall (buffer tail : bytes) (cmds' : list mac_commands.MACCommand)
         (warnings : list exn),
    generate_all cmds = Ok buffer ->
    decodes direction tail cmds' warnings ->
    decodes direction (buffer ++ tail) (cmds ++ cmds') warnings.
Proof.
  induction 1 as [|cmd cmds Hs _ IH]; intros buffer tail cmds' warnings Hg Hd.
  - injection Hg as <-. exact Hd.
  - cbn [generate_all] in Hg.
    apply bind_ok in Hg. destruct Hg as [b [Hb Hg]].
    apply bind_ok in Hg. destruct Hg as [bs [Hbs Hg]].
    injection Hg as <-.
    destruct (create_generated direction cmd (bs ++ tail) Hs)
      as [body [Hgen [_ Hc]]].
    rewrite Hgen in Hb. injection Hb as <-.
    cbn [app]. rewrite <- app_assoc.
    econstructor; [|apply IH; eassumption].
    rewrite b2z_z2b by apply CID_range. exact Hc.
Qed.

(** X13.  one command through [MACCommandParser.create].  For a command the
    direction's table holds, with fields in range, the encoding is the
    command id followed by [SIZE] bytes, and [create] on those bytes
    followed by anything returns the command and leaves what follows
    unread. *)
Theorem MACCommandParser_create_round_trip :
  forall (direction : mac_commands.MACCommandDirection)
         (cmd : mac_commands.MACCommand) (rest : bytes),
    streamable direction cmd ->
    exists body,
      mac_commands.generate cmd
      = Ok (z2b (mac_commands.CID (mac_commands.class_of cmd)) :: body)
      /\ List.length body = mac_commands.SIZE (mac_commands.class_of cmd)
      /\ mac_commands.MACCommandParser.create (body ++ rest)
           (mac_commands.CID (mac_commands.class_of cmd)) direction
         = Ok (cmd, rest)
      /\ mac_commands.MACCommandParser.parse
           (z2b (mac_commands.CID (mac_commands.class_of cmd)) :: body)
           direction
         = ([cmd], []).
Proof.
  intros direction cmd rest Hs.
  destruct (create_generated direction cmd rest Hs) as [body [Hg [Hl Hc]]].
  exists body. split; [exact Hg|]. split; [exact Hl|]. split; [exact Hc|].
  assert (Hd : decodes direction
                 ((z2b (mac_commands.CID (mac_commands.class_of cmd)) :: body)
                  ++ []) ([cmd] ++ []) []).
  { apply decodes_prefix.
    - constructor; [exact Hs|constructor].
    - cbn [generate_all]. rewrite Hg. cbn [bind]. rewrite app_nil_r.
      reflexivity.
    - constructor. }
  rewrite app_nil_r in Hd. cbn [app] in Hd.
  unfold mac_commands.MACCommandParser.parse.
  rewrite (parse_loop_decodes _ _ _ _ Hd) by lia. reflexivity.
Qed.

(** X14.  a well-formed prefix is always recovered.  When a buffer starts
    with the encodings of commands the direction's table holds, with
    fields in range, the parser returns those commands followed by
    whatever it returns for the rest of the buffer, and logs what it logs
    for the rest: an unknown command id or a truncated command after the
    prefix costs none of the commands before it. *)
Theorem MACCommandParser_parse_prefix :
  forall (direction : mac_commands.MACCommandDirection)
         (cmds : list mac_commands.MACCommand) (buffer tail : bytes),
    Forall (streamable direction) cmds ->
    generate_all cmds = Ok buffer ->
    mac_commands.MACCommandParser.parse (buffer ++ tail) direction
    = (cmds ++ fst (mac_commands.MACCommandParser.parse tail direction),
       snd (mac_commands.MACCommandParser.parse tail direction)).
Proof.
  intros direction cmds buffer tail Hs Hg.
  destruct (decodes_total direction tail) as [cmds' [warnings Hd]].
  pose proof (decodes_prefix direction cmds Hs buffer tail cmds' warnings
                Hg Hd) as Hall.
  unfold mac_commands.MACCommandParser.parse.
  rewrite (parse_loop_decodes _ _ _ _ Hd) by lia.
  rewrite (parse_loop_decodes _ _ _ _ Hall) by lia.
  reflexivity.
Qed.

Lemma parse_class_sized (cls : mac_commands.cmd_class) (body : bytes) :
  List.length body = mac_commands.SIZE cls ->
  (cls <> mac_commands.cPingSlotChannelReq ->
   exists cmd, mac_commands.parse_class cls body = Ok cmd
               /\ mac_commands.class_of cmd = cls)
  /\ (cls = mac_commands.cPingSlotChannelReq ->
      mac_commands.parse_class cls body = Err IndexError).
Proof.
  intros Hlen. split; intros Hcls.
  - destruct cls; try congruence; cbn [mac_commands.SIZE] in Hlen;
      repeat (destruct body as [|? body]; try discriminate Hlen);
      eexists; split; reflexivity.
  - subst cls. cbn [mac_commands.SIZE] in Hlen.
    destruct body as [|? [|? ?]]; try discriminate Hlen. reflexivity.
Qed.

(** X15.  the errors of [MACCommandParser.create].  A command id the
    direction's table does not hold raises [MACCommandCreateError]; a
    stream shorter than the [SIZE] of the class raises
    [MACCommandParseError]; otherwise the class parses the [SIZE] bytes
    read and a command of that class is returned with the rest of the
    stream, except for [PingSlotChannelReq], whose parser indexes beyond
    the single byte it is handed and raises [IndexError]. *)
Theorem MACCommandParser_create_outcomes :
  forall (stream : bytes) (command_id : Z)
         (direction : mac_commands.MACCommandDirection),
    match dict_get (mac_commands.MACCommandParser.mac_commands_map direction)
                   command_id with
    | None =>
        mac_commands.MACCommandParser.create stream command_id direction
        = Err MACCommandCreateError
    | Some cls =>
        if Nat.ltb (List.length stream) (mac_commands.SIZE cls) then
          mac_commands.MACCommandParser.create stream command_id direction
          = Err MACCommandParseError
        else if Z.eqb command_id 0x11
                && match direction with
                   | mac_commands.DOWN => true
                   | mac_commands.UP => false
                   end then
          mac_commands.MACCommandParser.create stream command_id direction
          = Err IndexError
        else
          exists cmd,
            mac_commands.MACCommandParser.create stream command_id direction
            = Ok (cmd, skipn (mac_commands.SIZE cls) stream)
            /\ mac_commands.class_of cmd = cls
            /\ mac_commands.CID cls = command_id
    end.
Proof.
  intros stream cid direction.
  unfold mac_commands.MACCommandParser.create.
  destruct (dict_get _ cid) as [cls|] eqn:Hmap; [|reflexivity].
  unfold mac_commands.MACCommandParser.read, stream_read.
  destruct (Nat.ltb (List.length (firstn (mac_commands.SIZE cls) stream))
                    (mac_commands.SIZE cls)) eqn:Hread.
  - apply Nat.ltb_lt in Hread. rewrite length_firstn in Hread.
    replace (Nat.ltb (List.length stream) (mac_commands.SIZE cls)) with true
      by (symmetry; apply Nat.ltb_lt; lia).
    reflexivity.
  - apply Nat.ltb_ge in Hread. rewrite length_firstn in Hread.
    replace (Nat.ltb (List.length stream) (mac_commands.SIZE cls)) with false
      by (symmetry; apply Nat.ltb_ge; lia).
    assert (Hlen : List.length (firstn (mac_commands.SIZE cls) stream)
                   = mac_commands.SIZE cls) by (rewrite length_firstn; lia).
    rewrite Hlen, Nat.sub_diag. cbn [repeat bind]. rewrite app_nil_r.
    destruct (parse_class_sized cls _ Hlen) as [Hok Herr].
    assert (Hcid : mac_commands.CID cls = cid
                   /\ (cls = mac_commands.cPingSlotChannelReq
                       <-> (cid =? 0x11) && match direction with
                                            | mac_commands.DOWN => true
                                            | mac_commands.UP => false
                                            end = true)).
    { clear - Hmap. destruct direction;
        cbn [mac_commands.MACCommandParser.mac_commands_map dict_get] in Hmap;
        repeat match type of Hmap with
               | (if ?k =? cid then _ else _) = _ =>
                   let E := fresh "E" in
                   destruct (k =? cid) eqn:E;
                   [apply Z.eqb_eq in E; subst cid; injection Hmap as <-;
                    split; [reflexivity|];
                    split; intros; cbn in *;
                    first [reflexivity | discriminate | congruence]|]
               end; discriminate Hmap. }
    destruct Hcid as [Hcid Hping].
    destruct ((cid =? 0x11) && match direction with
                               | mac_commands.DOWN => true
                               | mac_commands.UP => false
                               end) eqn:Eb.
    + rewrite (Herr (proj2 Hping eq_refl)). reflexivity.
    + destruct Hok as [cmd [Hp Hc]].
      { intros E. apply Hping in E. discriminate E. }
      exists cmd. rewrite Hp. cbn [bind]. repeat split; assumption.
Qed.

Lemma MACCommandParser_create_round_trip_witness :
  streamable mac_commands.UP (mac_commands.DevStatusAns 200 5)
  /\ exists body,
      mac_commands.generate (mac_commands.DevStatusAns 200 5)
      = Ok (x06 :: body)
      /\ List.length body = 2%nat
      /\ mac_commands.MACCommandParser.create (body ++ [xff; x01]) 6
           mac_commands.UP
         = Ok (mac_commands.DevStatusAns 200 5, [xff; x01])
      /\ mac_commands.MACCommandParser.parse (x06 :: body) mac_commands.UP
         = ([mac_commands.DevStatusAns 200 5], []).
Proof.
  assert (Hs : streamable mac_commands.UP (mac_commands.DevStatusAns 200 5)).
  { repeat split; cbn; try lia; discriminate. }
  split; [exact Hs|].
  exact (MACCommandParser_create_round_trip mac_commands.UP
           (mac_commands.DevStatusAns 200 5) [xff; x01] Hs).
Defined.

Lemma MACCommandParser_parse_prefix_witness :
  Forall (streamable mac_commands.UP) example_commands
  /\ generate_all example_commands = Ok example_commands_buffer
  /\ mac_commands.MACCommandParser.parse
       (example_commands_buffer ++ [xff; x01]) mac_commands.UP
     = (example_commands, [MACCommandCreateError]).
Proof.
  assert (Hs : Forall (streamable mac_commands.UP) example_commands).
  { repeat constructor; cbn; try lia; discriminate. }
  split; [exact Hs|]. split; [reflexivity|].
  rewrite (MACCommandParser_parse_prefix mac_commands.UP example_commands
             example_commands_buffer [xff; x01] Hs eq_refl).
  reflexivity.
Defined.

Lemma Ok_injective {A : Type} (a b : A) : Ok a = Ok b -> a = b.
Proof. intros H. injection H as H. exact H. Qed.

Lemma land_ones_range (a n : Z) :
  0 <= n -> 0 <= Z.land a (Z.ones n) < 2 ^ n.
Proof.
  intros Hn. rewrite Z.land_ones by exact Hn.
  apply Z.mod_pos_bound. apply Z.pow_pos_nonneg; lia.
Qed.

Lemma shiftr_byte_range (x : byte) (k : Z) :
  0 <= k -> 0 <= Z.shiftr (b2z x) k < 2 ^ (8 - k) \/ 8 < k.
Proof.
  intros Hk. destruct (Z_le_gt_dec k 8) as [Hle|Hgt]; [left|right; lia].
  pose proof (b2z_range x) as Hx.
  rewrite Z.shiftr_div_pow2 by exact Hk.
  assert (Hp : 0 < 2 ^ k) by (apply Z.pow_pos_nonneg; lia).
  split; [apply Z.div_pos; lia|].
  apply Z.div_lt_upper_bound; [exact Hp|].
  rewrite <- Z.pow_add_r by lia. replace (k + (8 - k)) with 8 by lia.
  exact (proj2 Hx).
Qed.

Lemma mac_commands_map_CID (direction : mac_commands.MACCommandDirection)
    (cid : Z) (cls : mac_commands.cmd_class) :
  dict_get (mac_commands.MACCommandParser.mac_commands_map direction) cid
  = Some cls ->
  mac_commands.CID cls = cid.
Proof.
  intros Hmap.
  destruct direction;
    cbn [mac_commands.MACCommandParser.mac_commands_map dict_get] in Hmap;
    repeat match type of Hmap with
           | (if ?k =? cid then _ else _) = _ =>
               let E := fresh "E" in
               destruct (k =? cid) eqn:E;
               [apply Z.eqb_eq in E; subst cid; injection Hmap as <-;
                reflexivity|]
           end; discriminate Hmap.
Qed.

Ltac land_bound a n m p :=
  lazymatch goal with
  | H : 0 <= Z.land a m < p |- _ => fail
  | _ => assert (0 <= Z.land a m < p)
           by exact (land_ones_range a n ltac:(lia))
  end.

Ltac field_ranges :=
  repeat match goal with
         | x : byte |- _ =>
             lazymatch goal with
             | H : 0 <= b2z x < 256 |- _ => fail
             | _ => pose proof (b2z_range x)
             end
         end;
  repeat match goal with
         | |- context [Z.land ?a 1] => land_bound a 1 1 2
         | |- context [Z.land ?a 7] => land_bound a 3 7 8
         | |- context [Z.land ?a 15] => land_bound a 4 15 16
         | |- context [Z.land ?a 31] => land_bound a 5 31 32
         | |- context [Z.land ?a 16777215] => land_bound a 24 16777215 16777216
         | |- context [Z.shiftr (b2z ?x) 4] =>
             lazymatch goal with
             | H : 0 <= Z.shiftr (b2z x) 4 < 16 |- _ => fail
             | _ => assert (0 <= Z.shiftr (b2z x) 4 < 16)
                      by (destruct (shiftr_byte_range x 4 ltac:(lia));
                          [assumption | lia])
             end
         | |- context [int_from_bytes ?l] =>
             lazymatch goal with
             | H : 0 <= int_from_bytes l < _ |- _ => fail
             | _ =>
                 let n := eval cbv in (256 ^ Z.of_nat (List.length l)) in
                 assert (0 <= int_from_bytes l < n)
                   by exact (int_from_bytes_range l)
             end
         end.

(** The commands a class parser builds from [SIZE] bytes carry
    attributes within their widths. *)
Lemma parse_class_in_range (cls : mac_commands.cmd_class) (body : bytes)
    (cmd : mac_commands.MACCommand) :
  List.length body = mac_commands.SIZE cls ->
  mac_commands.parse_class cls body = Ok cmd ->
  fields_in_range cmd
  /\ mac_commands.class_of cmd = cls
  /\ cls <> mac_commands.cPingSlotChannelReq.
Proof.
  intros Hlen Hp.
  destruct cls; cbn [mac_commands.SIZE] in Hlen;
    repeat (destruct body as [|? body]; try discriminate Hlen);
    cbv [mac_commands.parse_class getitem nth_error bind slice firstn skipn
         List.length Nat.eqb negb mac_commands.SIZE] in Hp;
    try discriminate Hp; apply Ok_injective in Hp; subst cmd;
    (split; [|split; [reflexivity|discriminate]]);
    cbn [fields_in_range]; try exact I;
    unfold mac_commands.init_PingSlotInfoReq, mac_commands.init_BeaconFreqReq,
      mac_commands.init_RXTimingSetupReq, mac_commands.init_TXParamSetupReq;
    cbn [fields_in_range];
    field_ranges;
    try match goal with
        | |- context [if ?c then _ else _] => destruct c
        end;
    lia.
Qed.

(** X25.  what the parser returns can be sent again.  A command returned by
    [MACCommandParser.create] is of the class the direction's table has
    for the command id, and its attributes lie within their widths on
    the wire.  Unless it is [DevStatusAns] with margin 0, [generate]
    encodes it as the command id followed by [SIZE] bytes, and [create]
    reads that encoding back as the same command, whatever follows it. *)
Theorem MACCommandParser_create_normalises :
  forall (stream : bytes) (command_id : Z)
         (direction : mac_commands.MACCommandDirection)
         (cmd : mac_commands.MACCommand) (rest : bytes),
    mac_commands.MACCommandParser.create stream command_id direction
    = Ok (cmd, rest) ->
    dict_get (mac_commands.MACCommandParser.mac_commands_map direction)
             command_id = Some (mac_commands.class_of cmd)
    /\ fields_in_range cmd
    /\ (List.length stream
        = mac_commands.SIZE (mac_commands.class_of cmd) + List.length rest)%nat
    /\ (is_zero_margin cmd = false ->
        exists body,
          mac_commands.generate cmd = Ok (z2b command_id :: body)
          /\ List.length body
             = mac_commands.SIZE (mac_commands.class_of cmd)
          /\ forall rest',
              mac_commands.MACCommandParser.create (body ++ rest')
                command_id direction
              = Ok (cmd, rest')).
Proof.
  intros stream cid direction cmd rest H.
  unfold mac_commands.MACCommandParser.create in H.
  destruct (dict_get _ cid) as [cls|] eqn:Hmap; [|discriminate H].
  unfold mac_commands.MACCommandParser.read, stream_read in H.
  destruct (Nat.ltb (List.length (firstn (mac_commands.SIZE cls) stream))
                    (mac_commands.SIZE cls)) eqn:Hread;
    [discriminate H|].
  apply Nat.ltb_ge in Hread. rewrite length_firstn in Hread.
  assert (Hlen : List.length (firstn (mac_commands.SIZE cls) stream)
                 = mac_commands.SIZE cls) by (rewrite length_firstn; lia).
  rewrite Hlen, Nat.sub_diag in H. cbn [repeat bind] in H.
  rewrite app_nil_r in H.
  destruct (mac_commands.parse_class cls _) as [cmd'|e] eqn:Hp;
    [|discriminate H].
  cbn [bind] in H. injection H as <- <-.
  destruct (parse_class_in_range cls _ cmd' Hlen Hp) as [Hr [Hc Hping]].
  pose proof (mac_commands_map_CID direction cid cls Hmap) as Hcid.
  subst cls. split; [reflexivity|]. split; [exact Hr|]. split.
  - rewrite length_skipn. lia.
  - intros Hz.
    assert (Hs : streamable direction cmd').
    { split; [rewrite Hcid; exact Hmap|]. repeat split; assumption. }
    destruct (create_generated direction cmd' [] Hs) as [body [Hg [Hl _]]].
    exists body. rewrite <- Hcid. split; [exact Hg|]. split; [exact Hl|].
    intros rest'.
    destruct (create_generated direction cmd' rest' Hs)
      as [body' [Hg' [_ Hc']]].
    rewrite Hg in Hg'. injection Hg' as <-. exact Hc'.
Qed.

Lemma MACCommandParser_create_normalises_witness :
  mac_commands.MACCommandParser.create [xc8; x05; xff] 6 mac_commands.UP
  = Ok (mac_commands.DevStatusAns 200 5, [xff])
  /\ exists body,
      mac_commands.generate (mac_commands.DevStatusAns 200 5)
      = Ok (x06 :: body)
      /\ List.length body = 2%nat
      /\ forall rest',
          mac_commands.MACCommandParser.create (body ++ rest') 6
            mac_commands.UP
          = Ok (mac_commands.DevStatusAns 200 5, rest').
Proof.
  split; [reflexivity|].
  exact (proj2 (proj2 (proj2
           (MACCommandParser_create_normalises [xc8; x05; xff] 6
              mac_commands.UP (mac_commands.DevStatusAns 200 5) [xff]
              eq_refl))) eq_refl).
Defined.

Lemma lor_shift_range (x y : Z) :
  0 <= x < 16 -> 0 <= y < 16 -> 0 <= Z.lor x (Z.shiftl y 4) < 256.
Proof.
  intros Hx Hy. enum_Z x 0 16%nat; enum_Z y 0 16%nat; cbn; lia.
Qed.

Lemma lor_32_range (x : Z) : 0 <= x < 32 -> 0 <= Z.lor x 32 < 256.
Proof. intros Hx. enum_Z x 0 32%nat; cbn; lia. Qed.

Lemma in_byte_range_nibbles (a b : Z) :
  in_byte_range (Z.lor (Z.land a 15) (Z.shiftl (Z.land b 15) 4)) = true.
Proof.
  apply in_byte_range_spec, lor_shift_range.
  - exact (land_ones_range a 4 ltac:(lia)).
  - exact (land_ones_range b 4 ltac:(lia)).
Qed.

Lemma in_byte_range_nibble_3bits (a b : Z) :
  in_byte_range (Z.lor (Z.land a 15) (Z.shiftl (Z.land b 7) 4)) = true.
Proof.
  apply in_byte_range_spec, lor_shift_range.
  - exact (land_ones_range a 4 ltac:(lia)).
  - pose proof (land_ones_range b 3 ltac:(lia)) as H.
    change (Z.ones 3) with 7 in H. change (2 ^ 3) with 8 in H. lia.
Qed.

Lemma in_byte_range_land_255 (a : Z) : in_byte_range (Z.land a 255) = true.
Proof.
  apply in_byte_range_spec. exact (land_ones_range a 8 ltac:(lia)).
Qed.

Lemma in_byte_range_margin (margin : Z) :
  in_byte_range (if 0 <? margin then Z.land margin 31
                 else Z.lor (Z.land (- margin - 1) 31) 32) = true.
Proof.
  apply in_byte_range_spec. destruct (0 <? margin).
  - pose proof (land_ones_range margin 5 ltac:(lia)) as H.
    change (Z.ones 5) with 31 in H. change (2 ^ 5) with 32 in H. lia.
  - apply lor_32_range. exact (land_ones_range (- margin - 1) 5 ltac:(lia)).
Qed.

Lemma int_to_bytes_cases (v : Z) (n : nat) :
  (0 <= v < 256 ^ Z.of_nat n /\ int_to_bytes v n = Ok (le_digits n v))
  \/ (~ 0 <= v < 256 ^ Z.of_nat n /\ int_to_bytes v n = Err OverflowError).
Proof.
  unfold int_to_bytes.
  destruct ((0 <=? v) && (v <? 256 ^ Z.of_nat n)) eqn:E; [left|right];
    (split; [lia|reflexivity]).
Qed.

Lemma in_byte_range_cases (z : Z) :
  (0 <= z < 256 /\ in_byte_range z = true)
  \/ (~ 0 <= z < 256 /\ in_byte_range z = false).
Proof.
  destruct (in_byte_range z) eqn:E; [left|right]; (split; [|reflexivity]).
  - apply in_byte_range_spec. exact E.
  - intros H. apply in_byte_range_spec in H. congruence.
Qed.

Ltac encode_cases :=
  repeat match goal with
         | |- context [in_byte_range (Z.lor (Z.land ?a 15)
                                            (Z.shiftl (Z.land ?b 15) 4))] =>
             rewrite (in_byte_range_nibbles a b)
         | |- context [in_byte_range (Z.lor (Z.land ?a 15)
                                            (Z.shiftl (Z.land ?b 7) 4))] =>
             rewrite (in_byte_range_nibble_3bits a b)
         | |- context [in_byte_range (Z.land ?a 255)] =>
             rewrite (in_byte_range_land_255 a)
         | |- context [in_byte_range (if 0 <? ?m then _ else _)] =>
             rewrite (in_byte_range_margin m)
         | |- context [in_byte_range ?z] =>
             let H := fresh "H" in
             let E := fresh "E" in
             destruct (in_byte_range_cases z) as [[H E]|[H E]];
             rewrite E; clear E
         | |- context [int_to_bytes ?v ?n] =>
             let H := fresh "H" in
             let E := fresh "E" in
             destruct (int_to_bytes_cases v n) as [[H E]|[H E]];
             rewrite E; clear E
         | |- _ => progress cbn [bind bytes_of_ints]
         end.

(** X26.  which attribute values [generate] encodes.  A command is encoded
    exactly when the attributes that [generate] writes unmasked fit the
    bytes they are given ([encodable]): one byte for the battery level,
    the periodicity, the margin and gateway count of [LinkCheckAns], the
    duty cycle, the channel indices, the delay, the data rate of
    [PingSlotChannelReq], the fractional second and the packed byte of
    [TXParamSetupReq]; three bytes for the frequencies; four for the
    seconds of [DeviceTimeAns].  Every other attribute is masked or is a
    flag, and any value of it is encoded: the attributes of
    [LinkADRReq], the data rates of [NewChannelReq] and
    [RXParamSetupReq] and the margin of [DevStatusAns] never make
    [generate] raise.  A command that is not encoded raises [ValueError]
    or [OverflowError]; one that is starts with the command id. *)
Theorem generate_encodable :
  forall cmd : mac_commands.MACCommand,
    match mac_commands.generate cmd with
    | Ok out =>
        encodable cmd
        /\ exists body,
            out = z2b (mac_commands.CID (mac_commands.class_of cmd)) :: body
    | Err e => ~ encodable cmd /\ (e = ValueError \/ e = OverflowError)
    end.
Proof.
  intros cmd.
  destruct (mac_commands.generate cmd) as [out|e] eqn:Hg.
  - split; [|exact (generate_starts_with_CID cmd out Hg)].
    revert Hg. unfold mac_commands.generate.
    destruct cmd; cbn [mac_commands.class_of mac_commands.CID encodable];
      try (intros _; exact I);
      encode_cases; intros Hg; try discriminate Hg;
      change (256 ^ Z.of_nat 1) with 256 in *;
      change (256 ^ Z.of_nat 3) with 16777216 in *;
      change (256 ^ Z.of_nat 4) with 4294967296 in *;
      lia.
  - revert Hg. unfold mac_commands.generate.
    destruct cmd; cbn [mac_commands.class_of mac_commands.CID encodable];
      try (repeat match goal with b : bool |- _ => destruct b end;
           intros Hg; discriminate Hg);
      encode_cases; intros Hg; try discriminate Hg;
      change (256 ^ Z.of_nat 1) with 256 in *;
      change (256 ^ Z.of_nat 3) with 16777216 in *;
      change (256 ^ Z.of_nat 4) with 4294967296 in *;
      injection Hg as <-; (split; [lia | auto]).
Qed.

(** ** The block cipher as [encryption.py] uses it (encryption) *)

Lemma ecb_app (f : bytes -> bytes) (n1 n2 : nat) :
  forall m1 m2 : bytes,
    List.length m1 = (16 * n1)%nat ->
    Cryptodome.ecb f (n1 + n2) (m1 ++ m2)
    = Cryptodome.ecb f n1 m1 ++ Cryptodome.ecb f n2 m2.
Proof.
  induction n1 as [|n1 IH]; intros m1 m2 Hm.
  - destruct m1; [reflexivity|discriminate Hm].
  - cbn [Nat.add Cryptodome.ecb].
    rewrite firstn_app, skipn_app.
    replace (16 - List.length m1)%nat with 0%nat by lia.
    rewrite firstn_O, skipn_O, app_nil_r, <- app_assoc.
    rewrite (IH (skipn 16 m1) m2) by (rewrite length_skipn; lia).
    reflexivity.
Qed.

(** X27.  [aes128_encrypt] works block by block.  Under a 16-byte key, two
    messages made of whole blocks are encrypted each to a ciphertext of
    its own length, the encryption of the two joined is the two
    ciphertexts joined, and [aes128_decrypt] gives the joined message
    back.  Equal blocks of a message therefore give equal blocks of the
    ciphertext, wherever they stand. *)
Theorem aes128_encrypt_blockwise :
  forall (key m1 m2 : bytes),
    List.length key = 16%nat ->
    (List.length m1 mod 16 = 0)%nat ->
    (List.length m2 mod 16 = 0)%nat ->
    exists c1 c2,
      encryption.aes128_encrypt key m1 = Ok c1
      /\ encryption.aes128_encrypt key m2 = Ok c2
      /\ List.length c1 = List.length m1
      /\ List.length c2 = List.length m2
      /\ encryption.aes128_encrypt key (m1 ++ m2) = Ok (c1 ++ c2)
      /\ encryption.aes128_decrypt key (c1 ++ c2) = Ok (m1 ++ m2).
Proof.
  intros key m1 m2 Hk H1 H2.
  destruct (aes128_decrypt_encrypt key m1 Hk H1) as [c1 [E1 [L1 _]]].
  destruct (aes128_decrypt_encrypt key m2 Hk H2) as [c2 [E2 [L2 _]]].
  assert (H12 : (List.length (m1 ++ m2) mod 16 = 0)%nat).
  { rewrite length_app.
    rewrite (length_multiple_16 m1 H1), (length_multiple_16 m2 H2).
    rewrite <- Nat.mul_add_distr_l, Nat.mul_comm. apply Nat.Div0.mod_mul. }
  destruct (aes128_decrypt_encrypt key (m1 ++ m2) Hk H12)
    as [c [E [_ D]]].
  exists c1, c2. split; [exact E1|]. split; [exact E2|].
  split; [exact L1|]. split; [exact L2|].
  assert (Hc : c = c1 ++ c2).
  { unfold encryption.aes128_encrypt, Cryptodome.ecb_encrypt in *.
    rewrite ecb_apply_ok in E, E1, E2 by assumption.
    apply Ok_injective in E, E1, E2. subst c c1 c2.
    replace (List.length (m1 ++ m2) / 16)%nat
      with (List.length m1 / 16 + List.length m2 / 16)%nat.
    - apply ecb_app. apply length_multiple_16. exact H1.
    - rewrite length_app.
      rewrite (length_multiple_16 m1 H1) at 2.
      rewrite (length_multiple_16 m2 H2) at 2.
      rewrite <- Nat.mul_add_distr_l, Nat.mul_comm.
      rewrite Nat.div_mul by discriminate. reflexivity. }
  subst c. split; [exact E|exact D].
Qed.

Lemma aes128_encrypt_blockwise_witness :
  exists c,
    encryption.aes128_encrypt key_0_to_f (repeat x00 16) = Ok c
    /\ encryption.aes128_encrypt key_0_to_f (repeat x00 32) = Ok (c ++ c)
    /\ encryption.aes128_decrypt key_0_to_f (c ++ c) = Ok (repeat x00 32).
Proof.
  destruct (aes128_encrypt_blockwise key_0_to_f (repeat x00 16)
              (repeat x00 16) eq_refl eq_refl eq_refl)
    as [c1 [c2 [E1 [E2 [_ [_ [E D]]]]]]].
  assert (Hc : c2 = c1) by congruence. subst c2.
  exists c1. split; [exact E1|]. split; [exact E|exact D].
Defined.

(** ** Regional bands: data rates (bands) *)

(** X16.  the downlink data rate of RX1.  In each of the four bands
    [get_downlink_datarate] never raises, whatever the uplink data rate
    and the offset (negative or large): the row index is clamped into
    the band's window (8 to 13 in US902-928 and AU915-928, 0 to 5 in
    AS923, 0 to 7 in EU863-870), the row returned is allowed for
    downlink, and the band's maximum payload size is defined for it.
    [EU863_870.get_range_datarate] does not clamp from above and raises
    [KeyError] beyond row 15. *)
Theorem get_downlink_datarate_total :
  forall (uplink_datarate : interface.DataRate.t) (rx1_datarate_offset : Z),
    let i := interface.DataRate.index uplink_datarate in
    (exists d n,
        us902_928.US902_928.get_downlink_datarate uplink_datarate
          rx1_datarate_offset = Ok d
        /\ interface.DataRate.index d
           = Z.min (Z.max 8 (10 + i - rx1_datarate_offset)) 13
        /\ 8 <= interface.DataRate.index d <= 13
        /\ interface.DataRate.allowed_for_downlink d = true
        /\ us902_928.US902_928.get_max_payload_size d = Ok n
        /\ 33 <= n <= 222)
    /\ (exists d n,
           au915_928.AU915_928.get_downlink_datarate uplink_datarate
             rx1_datarate_offset = Ok d
           /\ interface.DataRate.index d
              = Z.min (Z.max 8 (8 + i - rx1_datarate_offset)) 13
           /\ 8 <= interface.DataRate.index d <= 13
           /\ interface.DataRate.allowed_for_downlink d = true
           /\ au915_928.AU915_928.get_max_payload_size d 0 = Ok (Some n)
           /\ au915_928.AU915_928.get_max_payload_size d 1 = Ok (Some n)
           /\ 53 <= n <= 222)
    /\ (exists d n,
           as923.AS923.get_downlink_datarate uplink_datarate
             rx1_datarate_offset = Ok d
           /\ interface.DataRate.index d
              = Z.min 5 (Z.max 0 (i - rx1_datarate_offset))
           /\ 0 <= interface.DataRate.index d <= 5
           /\ interface.DataRate.allowed_for_downlink d = true
           /\ as923.AS923.get_max_payload_size d 0 = Ok (Some n)
           /\ 51 <= n <= 222)
    /\ (exists d n,
           eu863_870.EU863_870.get_downlink_datarate uplink_datarate
             rx1_datarate_offset = Ok d
           /\ interface.DataRate.index d
              = Z.min (Z.max 0 (i - rx1_datarate_offset)) 7
           /\ 0 <= interface.DataRate.index d <= 7
           /\ interface.DataRate.allowed_for_downlink d = true
           /\ eu863_870.EU863_870.get_max_payload_size d = Ok n
           /\ 51 <= n <= 222)
    /\ (15 < i - rx1_datarate_offset ->
        eu863_870.EU863_870.get_range_datarate uplink_datarate
          rx1_datarate_offset = Err KeyError)
    /\ (i - rx1_datarate_offset <= 7 ->
        eu863_870.EU863_870.get_range_datarate uplink_datarate
          rx1_datarate_offset
        = eu863_870.EU863_870.get_downlink_datarate uplink_datarate
            rx1_datarate_offset).
Proof.
  intros up off i. split; [|split; [|split; [|split; [|split]]]].
  - unfold us902_928.US902_928.get_downlink_datarate. fold i.
    set (k := Z.min (Z.max 8 (10 + i - off)) 13).
    assert (Hk : 8 <= k <= 13) by (unfold k; lia). clearbody k.
    enum_Z k 8 6%nat; do 2 eexists;
      (split; [reflexivity|]); (split; [reflexivity|]);
      (split; [cbn; lia|]); (split; [reflexivity|]);
      (split; [reflexivity|]); cbn; lia.
  - unfold au915_928.AU915_928.get_downlink_datarate. fold i.
    set (k := Z.min (Z.max 8 (8 + i - off)) 13).
    assert (Hk : 8 <= k <= 13) by (unfold k; lia). clearbody k.
    enum_Z k 8 6%nat; do 2 eexists;
      (split; [reflexivity|]); (split; [reflexivity|]);
      (split; [cbn; lia|]); (split; [reflexivity|]);
      (split; [reflexivity|]); (split; [reflexivity|]); cbn; lia.
  - unfold as923.AS923.get_downlink_datarate. fold i.
    set (k := Z.min 5 (Z.max 0 (i - off))).
    assert (Hk : 0 <= k <= 5) by (unfold k; lia). clearbody k.
    enum_Z k 0 6%nat; do 2 eexists;
      (split; [reflexivity|]); (split; [reflexivity|]);
      (split; [cbn; lia|]); (split; [reflexivity|]);
      (split; [reflexivity|]); cbn; lia.
  - unfold eu863_870.EU863_870.get_downlink_datarate. fold i.
    set (k := Z.min (Z.max 0 (i - off)) 7).
    assert (Hk : 0 <= k <= 7) by (unfold k; lia). clearbody k.
    enum_Z k 0 8%nat; do 2 eexists;
      (split; [reflexivity|]); (split; [reflexivity|]);
      (split; [cbn; lia|]); (split; [reflexivity|]);
      (split; [reflexivity|]); cbn; lia.
  - intros H. unfold eu863_870.EU863_870.get_range_datarate. fold i.
    rewrite Z.max_r by lia.
    set (k := i - off) in *. clearbody k.
    unfold dict_getitem. cbn [eu863_870.EU863_870.table_datarates dict_get].
    repeat match goal with
           | |- context [?a =? k] =>
               replace (a =? k) with false by (symmetry; apply Z.eqb_neq; lia)
           end.
    reflexivity.
  - intros H. unfold eu863_870.EU863_870.get_range_datarate,
      eu863_870.EU863_870.get_downlink_datarate. fold i.
    rewrite (Z.min_l _ 7) by lia. reflexivity.
Qed.

(** ** Regional bands: channel plans (bands) *)

Lemma list_getitem_out_of_range {A : Type} (l : list A) (i : Z) :
  i < - Z.of_nat (List.length l) \/ Z.of_nat (List.length l) <= i ->
  list_getitem l i = Err IndexError.
Proof.
  intros H. unfold list_getitem.
  destruct (i <? 0) eqn:E.
  - apply Z.ltb_lt in E.
    replace ((Z.of_nat (List.length l) + i <? 0)
             || (Z.of_nat (List.length l) <=? Z.of_nat (List.length l) + i))
      with true; [reflexivity|].
    symmetry. apply orb_true_iff. left. apply Z.ltb_lt. lia.
  - apply Z.ltb_ge in E.
    replace ((i <? 0) || (Z.of_nat (List.length l) <=? i)) with true;
      [reflexivity|].
    symmetry. apply orb_true_iff. right. apply Z.leb_le. lia.
Qed.

Lemma US902_928_uplink_channels_length :
  exists channels,
    us902_928.US902_928.uplink_channels = Ok channels
    /\ List.length channels = 72%nat.
Proof. eexists. split; [vm_compute; reflexivity | reflexivity]. Qed.

Lemma AU915_928_uplink_channels_length :
  exists channels,
    au915_928.AU915_928.uplink_channels = Ok channels
    /\ List.length channels = 72%nat.
Proof. eexists. split; [vm_compute; reflexivity | reflexivity]. Qed.

(** X17.  the uplink channel plans of US902-928 and AU915-928, read through
    [get_uplink_channel_by_index].  For every index from 0 to 71 the
    channel returned carries that index; channels 0 to 63 lie 200 kHz
    apart from 902300 kHz (US) or 915200 kHz (AU) and offer the 125 kHz
    data rates (0 to 3, or 0 to 5), channels 64 to 71 lie 1600 kHz apart
    from 903000 kHz (US) or 915900 kHz (AU) and offer the one 500 kHz
    uplink data rate (4, or 6); every channel is in use.  The index
    [index - 72] names the same channel, counting from the end; an index
    from 72 on, or below -72, raises [IndexError]. *)
Theorem get_uplink_channel_by_index_plan :
  forall index : Z,
    (0 <= index < 72 ->
     (exists ch,
         us902_928.US902_928.get_uplink_channel_by_index index = Ok ch
         /\ us902_928.US902_928.get_uplink_channel_by_index (index - 72)
            = Ok ch
         /\ interface.Channel.index ch = index
         /\ interface.Channel.frequency_khz ch
            = (if index <? 64 then 902300 + 200 * index
               else 903000 + 1600 * (index - 64))
         /\ map interface.DataRate.index (interface.Channel.datarates ch)
            = (if index <? 64 then [0; 1; 2; 3] else [4])
         /\ interface.Channel.is_used ch = true)
     /\ (exists ch,
            au915_928.AU915_928.get_uplink_channel_by_index index = Ok ch
            /\ au915_928.AU915_928.get_uplink_channel_by_index (index - 72)
               = Ok ch
            /\ interface.Channel.index ch = index
            /\ interface.Channel.frequency_khz ch
               = (if index <? 64 then 915200 + 200 * index
                  else 915900 + 1600 * (index - 64))
            /\ map interface.DataRate.index (interface.Channel.datarates ch)
               = (if index <? 64 then [0; 1; 2; 3; 4; 5] else [6])
            /\ interface.Channel.is_used ch = true))
    /\ (index < -72 \/ 72 <= index ->
        us902_928.US902_928.get_uplink_channel_by_index index
        = Err IndexError
        /\ au915_928.AU915_928.get_uplink_channel_by_index index
           = Err IndexError).
Proof.
  intros index. split.
  - intros H. split.
    + enum_Z index 0 72%nat; eexists;
        (split; [vm_compute; reflexivity|]);
        (split; [vm_compute; reflexivity|]);
        repeat split; reflexivity.
    + enum_Z index 0 72%nat; eexists;
        (split; [vm_compute; reflexivity|]);
        (split; [vm_compute; reflexivity|]);
        repeat split; reflexivity.
  - intros H.
    destruct US902_928_uplink_channels_length as [us [Hus Lus]].
    destruct AU915_928_uplink_channels_length as [au [Hau Lau]].
    unfold us902_928.US902_928.get_uplink_channel_by_index,
      au915_928.AU915_928.get_uplink_channel_by_index,
      interface.get_uplink_channel_by_index.
    rewrite Hus, Hau. cbn [bind].
    rewrite !list_getitem_out_of_range by (rewrite ?Lus, ?Lau; lia).
    split; reflexivity.
Qed.

Lemma get_uplink_channel_by_freq_khz_found
    (channels : list interface.Channel.t) (frequency_khz : Z) :
  match interface.get_uplink_channel_by_freq_khz channels frequency_khz with
  | Some ch =>
      exists before after,
        channels = before ++ ch :: after
        /\ interface.Channel.frequency_khz ch = frequency_khz
        /\ Forall (fun c => interface.Channel.frequency_khz c <> frequency_khz)
                  before
  | None =>
      Forall (fun c => interface.Channel.frequency_khz c <> frequency_khz)
             channels
  end.
Proof.
  induction channels as [|c channels IH];
    cbn [interface.get_uplink_channel_by_freq_khz].
  - constructor.
  - destruct (interface.Channel.frequency_khz c =? frequency_khz) eqn:E.
    + apply Z.eqb_eq in E. exists [], channels.
      split; [reflexivity|]. split; [exact E|constructor].
    + apply Z.eqb_neq in E.
      destruct (interface.get_uplink_channel_by_freq_khz channels
                  frequency_khz) as [ch|].
      * destruct IH as [before [after [-> [Hf Hb]]]].
        exists (c :: before), after.
        split; [reflexivity|]. split; [exact Hf|].
        constructor; assumption.
      * constructor; assumption.
Qed.

(** X18.  looking a channel up by its frequency.
    [get_uplink_channel_by_freq_khz] returns the first channel of the
    plan with the frequency asked for, and [None] when the plan has
    none.  In US902-928, AU915-928 and AS923 the frequencies of the plan
    are pairwise distinct, so the lookup of a channel's frequency gives
    that channel back.  In EU863-870 this holds for channels 0 to 7;
    channel 8 shares 867700 kHz with channel 5, which is the one the
    lookup returns. *)
Theorem get_uplink_channel_by_freq_khz_inverse :
  (forall (channels : list interface.Channel.t) (frequency_khz : Z),
      match interface.get_uplink_channel_by_freq_khz channels frequency_khz
      with
      | Some ch =>
          exists before after,
            channels = before ++ ch :: after
            /\ interface.Channel.frequency_khz ch = frequency_khz
            /\ Forall (fun c => interface.Channel.frequency_khz c
                                <> frequency_khz) before
      | None =>
          Forall (fun c => interface.Channel.frequency_khz c <> frequency_khz)
                 channels
      end)
  /\ (forall index, 0 <= index < 72 ->
        (exists ch,
            us902_928.US902_928.get_uplink_channel_by_index index = Ok ch
            /\ us902_928.US902_928.get_uplink_channel_by_freq_khz
                 (interface.Channel.frequency_khz ch) = Ok (Some ch))
        /\ (exists ch,
               au915_928.AU915_928.get_uplink_channel_by_index index = Ok ch
               /\ au915_928.AU915_928.get_uplink_channel_by_freq_khz
                    (interface.Channel.frequency_khz ch) = Ok (Some ch)))
  /\ (forall index, 0 <= index < 8 ->
        (exists ch,
            as923.AS923.get_uplink_channel_by_index index = Ok ch
            /\ as923.AS923.get_uplink_channel_by_freq_khz
                 (interface.Channel.frequency_khz ch) = Ok (Some ch))
        /\ (exists ch,
               eu863_870.EU863_870.get_uplink_channel_by_index index = Ok ch
               /\ eu863_870.EU863_870.get_uplink_channel_by_freq_khz
                    (interface.Channel.frequency_khz ch) = Ok (Some ch)))
  /\ (exists ch5 ch8,
         eu863_870.EU863_870.get_uplink_channel_by_index 5 = Ok ch5
         /\ eu863_870.EU863_870.get_uplink_channel_by_index 8 = Ok ch8
         /\ interface.Channel.frequency_khz ch8 = 867700
         /\ eu863_870.EU863_870.get_uplink_channel_by_freq_khz 867700
            = Ok (Some ch5)
         /\ ch5 <> ch8).
Proof.
  split; [exact get_uplink_channel_by_freq_khz_found|].
  split; [|split].
  - intros index H. split;
      enum_Z index 0 72%nat; eexists;
      (split; [vm_compute; reflexivity|]); vm_compute; reflexivity.
  - intros index H. split;
      enum_Z index 0 8%nat; eexists;
      (split; [vm_compute; reflexivity|]); vm_compute; reflexivity.
  - do 2 eexists.
    split; [vm_compute; reflexivity|].
    split; [vm_compute; reflexivity|].
    split; [reflexivity|].
    split; [vm_compute; reflexivity|].
    discriminate.
Qed.

(** X19.  the downlink channel of an uplink channel.  In US902-928 and
    AU915-928 [get_downlink_channel] never raises, whatever the index of
    the channel it is given (negative included): it returns downlink
    channel [index mod 8], at 923000 + 600 * (index mod 8) kHz (US) or
    923300 + 600 * (index mod 8) kHz (AU), which offers the data rates 8
    to 13.  In AS923 and EU863-870, where one list serves both ways, a
    channel of the band is its own downlink channel, and an index from
    the length of the list on (8, or 9) raises [IndexError]. *)
Theorem get_downlink_channel_plan :
  forall uplink_channel : interface.Channel.t,
    let index := interface.Channel.index uplink_channel in
    (exists ch,
        us902_928.US902_928.get_downlink_channel uplink_channel = Ok ch
        /\ interface.Channel.index ch = index mod 8
        /\ interface.Channel.frequency_khz ch = 923000 + 600 * (index mod 8)
        /\ map interface.DataRate.index (interface.Channel.datarates ch)
           = [8; 9; 10; 11; 12; 13])
    /\ (exists ch,
           au915_928.AU915_928.get_downlink_channel uplink_channel = Ok ch
           /\ interface.Channel.index ch = index mod 8
           /\ interface.Channel.frequency_khz ch
              = 923300 + 600 * (index mod 8)
           /\ map interface.DataRate.index (interface.Channel.datarates ch)
              = [8; 9; 10; 11; 12; 13])
    /\ (forall channels,
           as923.AS923.uplink_channels = Ok channels ->
           In uplink_channel channels ->
           as923.AS923.get_downlink_channel uplink_channel
           = Ok uplink_channel)
    /\ (forall channels,
           eu863_870.EU863_870.uplink_channels = Ok channels ->
           In uplink_channel channels ->
           eu863_870.EU863_870.get_downlink_channel uplink_channel
           = Ok uplink_channel)
    /\ (8 <= index ->
        as923.AS923.get_downlink_channel uplink_channel = Err IndexError)
    /\ (9 <= index ->
        eu863_870.EU863_870.get_downlink_channel uplink_channel
        = Err IndexError).
Proof.
  intros uplink_channel index.
  split; [|split; [|split; [|split; [|split]]]].
  - unfold us902_928.US902_928.get_downlink_channel. fold index.
    pose proof (Z.mod_pos_bound index 8 ltac:(lia)) as Hk.
    set (k := index mod 8) in *. clearbody k.
    enum_Z k 0 8%nat; eexists;
      (split; [vm_compute; reflexivity|]); repeat split; reflexivity.
  - unfold au915_928.AU915_928.get_downlink_channel. fold index.
    pose proof (Z.mod_pos_bound index 8 ltac:(lia)) as Hk.
    set (k := index mod 8) in *. clearbody k.
    enum_Z k 0 8%nat; eexists;
      (split; [vm_compute; reflexivity|]); repeat split; reflexivity.
  - intros channels Hc Hin. vm_compute in Hc. injection Hc as <-.
    repeat (destruct Hin as [<-|Hin]; [vm_compute; reflexivity|]).
    destruct Hin.
  - intros channels Hc Hin. vm_compute in Hc. injection Hc as <-.
    repeat (destruct Hin as [<-|Hin]; [vm_compute; reflexivity|]).
    destruct Hin.
  - intros H. unfold as923.AS923.get_downlink_channel. fold index.
    destruct as923.AS923.downlink_channels as [l|] eqn:E;
      [|vm_compute in E; discriminate E].
    cbn [bind]. apply list_getitem_out_of_range.
    assert (Hl : List.length l = 8%nat)
      by (vm_compute in E; injection E as <-; reflexivity).
    rewrite Hl. lia.
  - intros H. unfold eu863_870.EU863_870.get_downlink_channel. fold index.
    destruct eu863_870.EU863_870.downlink_channels as [l|] eqn:E;
      [|vm_compute in E; discriminate E].
    cbn [bind]. apply list_getitem_out_of_range.
    assert (Hl : List.length l = 9%nat)
      by (vm_compute in E; injection E as <-; reflexivity).
    rewrite Hl. lia.
Qed.

(** ** Regional bands: sub-bands, data rates of a channel, tables (bands) *)

(** X20.  the sub-band plans.  [calculate_uplink_channels_for_subband_a]
    and [..._ab] return a list as long as the one they are given, where
    each channel keeps its index, frequency, data rates, coding rate and
    [fixed] flag; [is_used] is set exactly for the indices below 8 (A),
    or for 2 to 5, 10 to 13 and 64 (AB), whatever it was before.  In
    US902-928A and AU915-928A the channels in use are 0 to 7, in
    US902-928AB they are 2 to 5, 10 to 13 and 64. *)
Theorem subband_channels_in_use :
  (forall channels : list interface.Channel.t,
      Forall2 (fun c c' =>
                 c' = interface.Channel.set_is_used c
                        (interface.Channel.index c <? 8))
              channels
              (us902_928.calculate_uplink_channels_for_subband_a channels)
      /\ Forall2 (fun c c' =>
                    c' = interface.Channel.set_is_used c
                           (interface.Channel.index c <? 8))
                 channels
                 (au915_928.calculate_uplink_channels_for_subband_a channels)
      /\ Forall2 (fun c c' =>
                    let i := interface.Channel.index c in
                    c' = interface.Channel.set_is_used c
                           ((2 <=? i) && (i <=? 5)
                            || (10 <=? i) && (i <=? 13) || (i =? 64)))
                 channels
                 (us902_928.calculate_uplink_channels_for_subband_ab channels))
  /\ (exists a ab au,
         us902_928.US902_928A.uplink_channels = Ok a
         /\ us902_928.US902_928AB.uplink_channels = Ok ab
         /\ au915_928.AU915_928A.uplink_channels = Ok au
         /\ List.length a = 72%nat /\ List.length ab = 72%nat
         /\ List.length au = 72%nat
         /\ map interface.Channel.index
                (filter interface.Channel.is_used a)
            = [0; 1; 2; 3; 4; 5; 6; 7]
         /\ map interface.Channel.index
                (filter interface.Channel.is_used ab)
            = [2; 3; 4; 5; 10; 11; 12; 13; 64]
         /\ map interface.Channel.index
                (filter interface.Channel.is_used au)
            = [0; 1; 2; 3; 4; 5; 6; 7]).
Proof.
  split.
  - intros channels. split; [|split];
      induction channels as [|c channels IH]; cbn [map
        us902_928.calculate_uplink_channels_for_subband_a
        au915_928.calculate_uplink_channels_for_subband_a
        us902_928.calculate_uplink_channels_for_subband_ab];
      constructor; try exact IH.
    + rewrite Z.ltb_antisym. destruct (8 <=? interface.Channel.index c);
        reflexivity.
    + rewrite Z.ltb_antisym. destruct (8 <=? interface.Channel.index c);
        reflexivity.
    + cbv zeta.
      destruct ((2 <=? interface.Channel.index c)
                && (interface.Channel.index c <=? 5)
                || (10 <=? interface.Channel.index c)
                   && (interface.Channel.index c <=? 13)
                || (interface.Channel.index c =? 64)); reflexivity.
  - do 3 eexists.
    split; [vm_compute; reflexivity|].
    split; [vm_compute; reflexivity|].
    split; [vm_compute; reflexivity|].
    repeat split; reflexivity.
Qed.

Lemma list_getitem_first {A : Type} (a : A) (l : list A) :
  list_getitem (a :: l) 0 = Ok a.
Proof.
  unfold list_getitem. cbn [Z.ltb Z.compare List.length].
  replace ((0 <? 0) || (Z.of_nat (S (List.length l)) <=? 0)) with false;
    [reflexivity|].
  symmetry. apply orb_false_iff. split; [reflexivity|].
  apply Z.leb_gt. lia.
Qed.

Lemma list_getitem_last {A : Type} (l : list A) (a : A) :
  list_getitem (l ++ [a]) (-1) = Ok a.
Proof.
  unfold list_getitem. change (-1 <? 0) with true. cbv iota.
  rewrite length_app. cbn [List.length].
  replace (Z.of_nat (List.length l + 1) + -1) with (Z.of_nat (List.length l))
    by lia.
  replace ((Z.of_nat (List.length l) <? 0)
           || (Z.of_nat (List.length l + 1) <=? Z.of_nat (List.length l)))
    with false
    by (symmetry; apply orb_false_iff; split;
        [apply Z.ltb_ge | apply Z.leb_gt]; lia).
  rewrite Nat2Z.id, nth_error_app2, Nat.sub_diag by lia. reflexivity.
Qed.

Lemma existsb_of_map {A B : Type} (f : B -> bool) (g : A -> B) (l : list A) :
  existsb f (map g l) = existsb (fun x => f (g x)) l.
Proof.
  induction l as [|x l IH]; [reflexivity|]. cbn. rewrite IH. reflexivity.
Qed.

Lemma existsb_py_range (a : Z) (n : nat) (x : Z) :
  existsb (fun k => k =? x) (map (fun k => a + Z.of_nat k) (seq 0 n))
  = (a <=? x) && (x <? a + Z.of_nat n).
Proof.
  revert a. induction n as [|n IH]; intros a.
  - cbn. destruct (a <=? x) eqn:E; [|reflexivity].
    apply Z.leb_le in E. symmetry. apply Z.ltb_ge. lia.
  - cbn [seq map existsb]. rewrite <- seq_shift, map_map.
    rewrite (map_ext _ (fun k => (a + 1) + Z.of_nat k)) by (intros; lia).
    rewrite IH. rewrite Z.add_0_r.
    destruct (a =? x) eqn:E1; destruct (a <=? x) eqn:E2;
      destruct (a + 1 <=? x) eqn:E3;
      destruct (x <? a + 1 + Z.of_nat n) eqn:E4;
      destruct (x <? a + Z.of_nat (S n)) eqn:E5;
      try reflexivity; exfalso;
      rewrite ?Z.eqb_eq, ?Z.eqb_neq, ?Z.leb_le, ?Z.leb_gt, ?Z.ltb_lt,
        ?Z.ltb_ge in *; lia.
Qed.

(** A channel whose data rates are numbered consecutively: the range test
    of [datarate_index_is_used] is membership. *)
Lemma datarate_index_is_used_consecutive (ch : interface.Channel.t)
    (a : Z) (index : Z) :
  interface.Channel.datarates ch <> [] ->
  map interface.DataRate.index (interface.Channel.datarates ch)
  = py_range a (a + Z.of_nat (List.length (interface.Channel.datarates ch))) ->
  interface.Channel.datarate_index_is_used ch index
  = Ok (existsb (fun d => interface.DataRate.index d =? index)
                (interface.Channel.datarates ch)).
Proof.
  intros Hne Hmap. unfold interface.Channel.datarate_index_is_used.
  set (l := interface.Channel.datarates ch) in *. clearbody l.
  assert (Hex : existsb (fun d => interface.DataRate.index d =? index) l
                = (a <=? index) && (index <? a + Z.of_nat (List.length l))).
  { rewrite <- existsb_py_range.
    change (map (fun k => a + Z.of_nat k) (seq 0 (List.length l)))
      with (map (fun k => a + Z.of_nat k)
                (seq 0 (List.length l))).
    unfold py_range in Hmap.
    replace (Z.to_nat (a + Z.of_nat (List.length l) - a))
      with (List.length l) in Hmap by lia.
    rewrite <- Hmap. rewrite existsb_of_map. reflexivity. }
  rewrite Hex.
  destruct l as [|d0 l]; [contradiction|].
  rewrite list_getitem_first. cbn [bind].
  destruct (exists_last (l := d0 :: l) ltac:(discriminate)) as [l' [dl E]].
  rewrite E. rewrite list_getitem_last. cbn [bind].
  rewrite E in Hmap. unfold py_range in Hmap.
  replace (Z.to_nat (a + Z.of_nat (List.length (l' ++ [dl])) - a))
    with (List.length (l' ++ [dl])) in Hmap by lia.
  assert (H0 : interface.DataRate.index d0 = a).
  { rewrite <- E in Hmap. cbn [map List.length seq] in Hmap.
    injection Hmap as H0 _. lia. }
  assert (Hl : interface.DataRate.index dl
               = a + Z.of_nat (List.length l')).
  { rewrite length_app in Hmap. cbn [List.length] in Hmap.
    rewrite Nat.add_1_r, seq_S, !map_app in Hmap. cbn [map] in Hmap.
    apply app_inj_tail in Hmap. destruct Hmap as [_ Hl]. lia. }
  rewrite H0, Hl, length_app. cbn [List.length].
  f_equal. f_equal.
  destruct (index <=? a + Z.of_nat (List.length l')) eqn:E1;
    destruct (index <? a + Z.of_nat (List.length l' + 1)) eqn:E2;
    try reflexivity; exfalso;
    rewrite ?Z.leb_le, ?Z.leb_gt, ?Z.ltb_lt, ?Z.ltb_ge in *; lia.
Qed.

Ltac channel_cases Hc Hin :=
  vm_compute in Hc; injection Hc as <-;
  repeat (destruct Hin as [<-|Hin]; [|]);
  [..|destruct Hin].

Ltac consecutive_channel :=
  lazymatch goal with
  | |- interface.Channel.datarate_index_is_used ?c _ = _ =>
      let a := eval vm_compute in
        (interface.DataRate.index
           (hd (interface.DataRate.RFUDataRate 0)
               (interface.Channel.datarates c))) in
      apply (datarate_index_is_used_consecutive c a);
      [discriminate | reflexivity]
  end.

(** X21.  [Channel.datarate_index_is_used].  The method compares the index
    asked for with the indices of the first and of the last data rate of
    the channel.  On a channel without data rates it raises
    [IndexError].  On a channel whose data rates are numbered
    consecutively the answer is whether the channel offers a data rate
    with that index; this is the case of every uplink and downlink
    channel of US902-928, AU915-928, AS923 and EU863-870. *)
Theorem datarate_index_is_used_membership :
  forall (ch : interface.Channel.t) (index : Z),
    (interface.Channel.datarates ch = [] ->
     interface.Channel.datarate_index_is_used ch index = Err IndexError)
    /\ (forall a,
           interface.Channel.datarates ch <> [] ->
           map interface.DataRate.index (interface.Channel.datarates ch)
           = py_range a (a + Z.of_nat (List.length
                                         (interface.Channel.datarates ch))) ->
           interface.Channel.datarate_index_is_used ch index
           = Ok (existsb (fun d => interface.DataRate.index d =? index)
                         (interface.Channel.datarates ch)))
    /\ (forall channels,
           us902_928.US902_928.uplink_channels = Ok channels
           \/ us902_928.US902_928.downlink_channels = Ok channels
           \/ au915_928.AU915_928.uplink_channels = Ok channels
           \/ au915_928.AU915_928.downlink_channels = Ok channels
           \/ as923.AS923.uplink_channels = Ok channels
           \/ eu863_870.EU863_870.uplink_channels = Ok channels ->
           In ch channels ->
           interface.Channel.datarate_index_is_used ch index
           = Ok (existsb (fun d => interface.DataRate.index d =? index)
                         (interface.Channel.datarates ch))).
Proof.
  intros ch index. split; [|split].
  - intros E. unfold interface.Channel.datarate_index_is_used. rewrite E.
    reflexivity.
  - intros a. apply datarate_index_is_used_consecutive.
  - intros channels [Hc|[Hc|[Hc|[Hc|[Hc|Hc]]]]] Hin;
      channel_cases Hc Hin; consecutive_channel.
Qed.

Lemma get_datarate_by_sf_bw_found (table : dict interface.DataRate.t)
    (spreading bandwidth_khz : Z) :
  match interface.get_datarate_by_sf_bw table spreading bandwidth_khz with
  | Some d =>
      exists key index direction,
        In (key, d) table
        /\ d = interface.DataRate.LoRaDataRate index spreading bandwidth_khz
                 direction
  | None =>
      forall key index direction,
        ~ In (key, interface.DataRate.LoRaDataRate index spreading
                     bandwidth_khz direction) table
  end.
Proof.
  induction table as [|[k d] table IH];
    cbn [interface.get_datarate_by_sf_bw].
  - intros key index direction [].
  - assert (Hskip :
              (forall i dir, d <> interface.DataRate.LoRaDataRate
                                    i spreading bandwidth_khz dir) ->
              match interface.get_datarate_by_sf_bw table spreading
                      bandwidth_khz with
              | Some d0 =>
                  exists key index direction,
                    In (key, d0) ((k, d) :: table)
                    /\ d0 = interface.DataRate.LoRaDataRate index spreading
                              bandwidth_khz direction
              | None =>
                  forall key index direction,
                    ~ In (key, interface.DataRate.LoRaDataRate index spreading
                                 bandwidth_khz direction) ((k, d) :: table)
              end).
    { intros Hd.
      destruct (interface.get_datarate_by_sf_bw table spreading bandwidth_khz).
      - destruct IH as [key [index [direction [Hin E]]]].
        exists key, index, direction. split; [right; exact Hin | exact E].
      - intros key index direction [E|Hin].
        + injection E as _ E. exact (Hd _ _ E).
        + exact (IH _ _ _ Hin). }
    destruct d as [i|i s b dir|i r dir|i c w dir];
      try (apply Hskip; intros; discriminate).
    destruct ((s =? spreading) && (b =? bandwidth_khz)) eqn:E.
    + apply andb_true_iff in E. destruct E as [E1 E2].
      apply Z.eqb_eq in E1, E2. subst.
      exists k, i, dir. split; [left; reflexivity | reflexivity].
    + apply Hskip. intros i' dir' E'. injection E' as _ <- <- _.
      rewrite !Z.eqb_refl in E. discriminate E.
Qed.

Ltac table_cases H index :=
  repeat match type of H with
         | (if ?k =? index then _ else _) = _ =>
             let E := fresh "E" in
             destruct (k =? index) eqn:E;
             [apply Z.eqb_eq in E; subst index|]
         end.

(** X22.  looking a data rate up by spreading factor and bandwidth.
    [get_datarate_by_sf_bw] returns a LoRa row of the table with the
    two values asked for, and [None] exactly when no LoRa row has them.  In
    AS923 and EU863-870 no two LoRa rows share them, so the lookup of a
    row's values gives that row back.  In US902-928 and AU915-928 the
    same holds for every LoRa row but the downlink row 12, whose SF8 at
    500 kHz is also the uplink row 4 (US) or 6 (AU), the one returned. *)
Theorem get_datarate_by_sf_bw_inverse :
  (forall (table : dict interface.DataRate.t) (spreading bandwidth_khz : Z),
      match interface.get_datarate_by_sf_bw table spreading bandwidth_khz with
      | Some d =>
          exists key index direction,
            In (key, d) table
            /\ d = interface.DataRate.LoRaDataRate index spreading
                     bandwidth_khz direction
      | None =>
          forall key index direction,
            ~ In (key, interface.DataRate.LoRaDataRate index spreading
                         bandwidth_khz direction) table
      end)
  /\ (forall key index spreading bandwidth direction,
         let d := interface.DataRate.LoRaDataRate index spreading bandwidth
                    direction in
         (dict_get as923.AS923.table_datarates key = Some d ->
          as923.AS923.get_datarate_by_sf_bw spreading bandwidth = Some d)
         /\ (dict_get eu863_870.EU863_870.table_datarates key = Some d ->
             eu863_870.EU863_870.get_datarate_by_sf_bw spreading bandwidth
             = Some d)
         /\ (dict_get us902_928.US902_928.table_datarates key = Some d ->
             us902_928.US902_928.get_datarate_by_sf_bw spreading bandwidth
             = Some (if key =? 12
                     then interface.DataRate.LoRaDataRate 4 8 500
                            interface.uplink
                     else d))
         /\ (dict_get au915_928.AU915_928.table_datarates key = Some d ->
             au915_928.AU915_928.get_datarate_by_sf_bw spreading bandwidth
             = Some (if key =? 12
                     then interface.DataRate.LoRaDataRate 6 8 500
                            interface.uplink
                     else d))).
Proof.
  split; [exact get_datarate_by_sf_bw_found|].
  intros key index spreading bandwidth direction d.
  split; [|split; [|split]]; intros H;
    cbn [dict_get as923.AS923.table_datarates
         eu863_870.EU863_870.table_datarates
         us902_928.US902_928.table_datarates
         au915_928.AU915_928.table_datarates] in H;
    table_cases H key; try discriminate H;
    injection H as <- <- <- <-; reflexivity.
Qed.

Ltac plan_cases Hin :=
  repeat (destruct Hin as [<-|Hin]; [|]);
  [..|destruct Hin].

Ltac datarate_cases Hd :=
  cbn [interface.Channel.datarates In] in Hd;
  repeat (destruct Hd as [<-|Hd]; [|]);
  [..|destruct Hd].

Ltac consistent_row :=
  (split; [reflexivity|]); (split; [reflexivity|]);
  eexists; split; [reflexivity | cbn; lia].

Ltac consistent_row_both :=
  (split; [reflexivity|]); (split; [reflexivity|]);
  (split; [reflexivity|]);
  eexists; split; [reflexivity | cbn; lia].

(** X23.  the channel plans agree with the tables.  Each plan is built
    without an exception (72 uplink and 8 downlink channels in US902-928
    and AU915-928, 8 channels in AS923, 9 in EU863-870), and every data
    rate that one of its channels offers is the row of the band's
    data-rate table with its index, is allowed in the channel's
    direction (uplink for an uplink channel, downlink for a downlink
    channel, both in AS923 and EU863-870), and has a maximum payload
    size in the band's table, so that [get_max_payload_size] returns a
    positive size for it (with dwell time 0 in the bands that
    distinguish dwell times). *)
Theorem channel_datarates_consistent :
  (exists channels,
      us902_928.US902_928.uplink_channels = Ok channels
      /\ List.length channels = 72%nat
      /\ forall ch d,
          In ch channels -> In d (interface.Channel.datarates ch) ->
          dict_getitem us902_928.US902_928.table_datarates
            (interface.DataRate.index d) = Ok d
          /\ interface.DataRate.allowed_for_uplink d = true
          /\ exists n,
               us902_928.US902_928.get_max_payload_size d = Ok n /\ 0 < n)
  /\ (exists channels,
         us902_928.US902_928.downlink_channels = Ok channels
         /\ List.length channels = 8%nat
         /\ forall ch d,
             In ch channels -> In d (interface.Channel.datarates ch) ->
             dict_getitem us902_928.US902_928.table_datarates
               (interface.DataRate.index d) = Ok d
             /\ interface.DataRate.allowed_for_downlink d = true
             /\ exists n,
                  us902_928.US902_928.get_max_payload_size d = Ok n
                  /\ 0 < n)
  /\ (exists channels,
         au915_928.AU915_928.uplink_channels = Ok channels
         /\ List.length channels = 72%nat
         /\ forall ch d,
             In ch channels -> In d (interface.Channel.datarates ch) ->
             dict_getitem au915_928.AU915_928.table_datarates
               (interface.DataRate.index d) = Ok d
             /\ interface.DataRate.allowed_for_uplink d = true
             /\ exists n,
                  au915_928.AU915_928.get_max_payload_size d 0 = Ok (Some n)
                  /\ 0 < n)
  /\ (exists channels,
         au915_928.AU915_928.downlink_channels = Ok channels
         /\ List.length channels = 8%nat
         /\ forall ch d,
             In ch channels -> In d (interface.Channel.datarates ch) ->
             dict_getitem au915_928.AU915_928.table_datarates
               (interface.DataRate.index d) = Ok d
             /\ interface.DataRate.allowed_for_downlink d = true
             /\ exists n,
                  au915_928.AU915_928.get_max_payload_size d 0 = Ok (Some n)
                  /\ 0 < n)
  /\ (exists channels,
         as923.AS923.uplink_channels = Ok channels
         /\ as923.AS923.downlink_channels = Ok channels
         /\ List.length channels = 8%nat
         /\ forall ch d,
             In ch channels -> In d (interface.Channel.datarates ch) ->
             dict_getitem as923.AS923.table_datarates
               (interface.DataRate.index d) = Ok d
             /\ interface.DataRate.allowed_for_uplink d = true
             /\ interface.DataRate.allowed_for_downlink d = true
             /\ exists n,
                  as923.AS923.get_max_payload_size d 0 = Ok (Some n)
                  /\ 0 < n)
  /\ (exists channels,
         eu863_870.EU863_870.uplink_channels = Ok channels
         /\ eu863_870.EU863_870.downlink_channels = Ok channels
         /\ List.length channels = 9%nat
         /\ forall ch d,
             In ch channels -> In d (interface.Channel.datarates ch) ->
             dict_getitem eu863_870.EU863_870.table_datarates
               (interface.DataRate.index d) = Ok d
             /\ interface.DataRate.allowed_for_uplink d = true
             /\ interface.DataRate.allowed_for_downlink d = true
             /\ exists n,
                  eu863_870.EU863_870.get_max_payload_size d = Ok n
                  /\ 0 < n).
Proof.
  split; [|split; [|split; [|split; [|split]]]].
  1-4: eexists; (split; [vm_compute; reflexivity|]); (split; [reflexivity|]);
    intros ch d Hin Hd; plan_cases Hin; datarate_cases Hd; consistent_row.
  1-2: eexists; (split; [vm_compute; reflexivity|]);
    (split; [vm_compute; reflexivity|]); (split; [reflexivity|]);
    intros ch d Hin Hd; plan_cases Hin; datarate_cases Hd;
    consistent_row_both.
Qed.

(** X24.  where [get_max_payload_size] is defined.  In US902-928 the lookup
    returns the size of the row for the data rates 0 to 4 and 8 to 13
    and raises [KeyError] for every other index; in EU863-870 it is
    defined for 0 to 7.  Whenever it returns, the size lies between 11
    and 242 bytes (US) or 51 and 222 bytes (EU), and [m], the size with
    the 8 bytes of frame header, is that much more. *)
Theorem get_max_payload_size_defined :
  forall d : interface.DataRate.t,
    let i := interface.DataRate.index d in
    (if ((0 <=? i) && (i <=? 4)) || ((8 <=? i) && (i <=? 13))
     then exists row,
         dict_get us902_928.US902_928.table_maximum_payload_size i = Some row
         /\ us902_928.US902_928.get_max_payload_size d
            = Ok (interface.MaxPayloadSize.n row)
         /\ 11 <= interface.MaxPayloadSize.n row <= 242
         /\ interface.MaxPayloadSize.m row
            = interface.MaxPayloadSize.n row + 8
     else us902_928.US902_928.get_max_payload_size d = Err KeyError)
    /\ (if (0 <=? i) && (i <=? 7)
        then exists row,
            dict_get eu863_870.EU863_870.table_maximum_payload_size i
            = Some row
            /\ eu863_870.EU863_870.get_max_payload_size d
               = Ok (interface.MaxPayloadSize.n row)
            /\ 51 <= interface.MaxPayloadSize.n row <= 222
            /\ interface.MaxPayloadSize.m row
               = interface.MaxPayloadSize.n row + 8
        else eu863_870.EU863_870.get_max_payload_size d = Err KeyError).
Proof.
  intros d i.
  unfold us902_928.US902_928.get_max_payload_size,
    eu863_870.EU863_870.get_max_payload_size. fold i. clearbody i.
  split.
  - destruct (((0 <=? i) && (i <=? 4)) || ((8 <=? i) && (i <=? 13))) eqn:E.
    + assert (H : 0 <= i <= 4 \/ 8 <= i <= 13).
      { apply orb_true_iff in E. destruct E as [E|E];
          apply andb_true_iff in E; destruct E as [E1 E2];
          apply Z.leb_le in E1, E2; lia. }
      destruct H as [H|H].
      * enum_Z i 0 5%nat; eexists; (split; [reflexivity|]);
          (split; [reflexivity|]); cbn; lia.
      * enum_Z i 8 6%nat; eexists; (split; [reflexivity|]);
          (split; [reflexivity|]); cbn; lia.
    + assert (H : i < 0 \/ 4 < i < 8 \/ 13 < i).
      { apply orb_false_iff in E. destruct E as [E1 E2].
        apply andb_false_iff in E1, E2.
        rewrite !Z.leb_gt in E1, E2. lia. }
      unfold dict_getitem.
      cbn [us902_928.US902_928.table_maximum_payload_size dict_get].
      repeat match goal with
             | |- context [?a =? i] =>
                 replace (a =? i) with false
                   by (symmetry; apply Z.eqb_neq; lia)
             end.
      reflexivity.
  - destruct ((0 <=? i) && (i <=? 7)) eqn:E.
    + apply andb_true_iff in E. destruct E as [E1 E2].
      apply Z.leb_le in E1, E2.
      enum_Z i 0 8%nat; eexists; (split; [reflexivity|]);
        (split; [reflexivity|]); cbn; lia.
    + assert (H : i < 0 \/ 7 < i).
      { apply andb_false_iff in E. rewrite !Z.leb_gt in E. lia. }
      unfold dict_getitem.
      cbn [eu863_870.EU863_870.table_maximum_payload_size dict_get].
      repeat match goal with
             | |- context [?a =? i] =>
                 replace (a =? i) with false
                   by (symmetry; apply Z.eqb_neq; lia)
             end.
      reflexivity.
Qed.
